(* ===== verification/_CoqProject ===== *)
-Q . S2P
Prelude.v
JsString.v
JsNumber.v
JsArray.v
JsObject.v
Ledger.v
Collaborators.v
Codec.v
Reassembly.v
Tolerance.v
Send.v
Trace.v
EndToEnd.v
Provenance.v
LastWrite.v
Bytes.v
ReassemblySpec.v
Recognition.v
Status.v
Rounds.v
Resend.v
Malformed.v
Capacity.v
Registry.v
Additions.v
RegistrySpec.v
