(* ===== verification/Prelude.v ===== *)
(** * TxMEx: messages carried in the null-data outputs of ledger transactions

    This library is a shallow embedding of src/TxMEx.js, with the theorems
    that say what the code computes.  Every definition that models code
    keeps the name it has in the source and cites the lines it translates.

    ** The program

    src/TxMEx.js exports five functions.  [isTMTransaction] and
    [extractTMMessage] (with the private helper [_getTxData]) classify one
    transaction and decode the frame in its second output.  [sendTMMessage]
    cuts a message into chunks and broadcasts one transaction per chunk,
    retrying failed broadcasts; the text of each transaction is the tag
    "TM", the number of chunks and the sequence number as hexadecimal
    digits, and the chunk.  [getTMMessages] scans the history of an address,
    buffers the chunks of each conversation and emits the completed
    messages.  [getTMNodeStatus] adds the balance and splits the messages
    into inbox and outbox.

    src/TMNet.js is the registry of the named nodes of a network.  Its
    state is the object [bmnodes], from identifier to node.  [addBMNode]
    stores a node under the identifier of its data, or under one that
    [_generateID] makes from the identifiers in use; [removeBMNode]
    destroys and removes a node; [getNode], [getNodeID], [getNodeAddress]
    and the three tests [isBMNode], [isBMNodeID] and [isBMNodeAddr] look
    nodes up; [getStatus] lists them; the constructor loads the node files
    of the data folder with [loadBMNet].  The two files do not call each
    other.

    ** Files, in the order of their dependencies

    - [Prelude] (this file): exceptions and results of JavaScript code
      ([exn], [res] with the monad notations of stdpp), the outcome of a
      callback-style function ([outcome]), numbers that may be NaN
      ([number]), the monadic left fold that models a [for] loop whose body
      may throw ([foldM]), the runs of a labelled step relation ([runs])
      with their simulation lemma, the hint database [txmex], the tactics
      and the list lemmas the other files share.
    - [JsString]: the string primitives the sources call ([charAt],
      [substring], [slice], [split] and the last element of its result,
      [parseInt] with radix 16, [toString(16)]) over 8-bit characters.
    - [JsNumber]: the arithmetic of line 63 of src/TMNet.js on numbers that
      are integers or NaN: the sum of doubles ([succ_number], through the
      rounding [round53] to 53 bits, ties to even), the comparison
      [ge_number], and the text of a number ([number_text]: the shortest
      decimal that reads back as the number, in exponent form from 10^21).
    - [JsArray]: sparse arrays ([new Array(n)], the indexed store, which
      lengthens the array, and the indexed load) as lists of optional slots.
    - [JsObject]: objects used as maps, as the list of their properties in
      the order of creation: the read, the store, [delete], and the order
      in which [for (k in o)] visits the keys ([obj_keys], array indices
      first); the read with the prototype of [{}] behind the object
      ([obj_read]); the finite map an object stands for ([obj_map]) and the
      equivalence of objects with the same map ([obj_equiv]), with the
      [Proper] instances of the operations.
    - [Ledger]: a transaction by what the code reads of it, the constants of
      lines 11 to 15, and the interface [Collab] of what the sources call
      and do not define (TMutils and the collation of the runtime), with the
      laws [SeparatesDigits] and [ChunkingLaws].
    - [Collaborators]: two instances of [Collab].  [deployed] decodes
      hexadecimal text pair by pair, which turns the leading [0x] of a
      script's text into one character of code 0, and compares strings with
      a collation that ignores control characters; [literal] decodes
      exactly and compares code units.  Also the script and the transaction
      that the ledger library builds for [addData], and the chunking.
    - [Codec]: [_getTxData], [isTMTransaction], [extractTMMessage] and the
      header [frame_prefix] that [sendMsgTransaction] writes.
    - [Reassembly]: [getTMMessages].  The loop body is [scan_tx], a decoded
      frame is stored by [ingest], the loop is [scan].  The state
      [ScanState] is the object [chnkBuf] as a finite map from the
      conversation key to a sparse array, and the array [msgs].
    - [Tolerance]: the transactions of a history that are no frames
      ([unrelated]) and the history without them ([related_only]); a
      transaction that the loop cannot read.
    - [Send]: [sendTMMessage].  The inner [sendMsgTransaction] is one step
      of a state machine over the job [SendJob] ([chunks], [seq], [tries],
      [senttxs]); what the collaborators answer in one attempt is an
      [Attempt], an exception that the query of the unspent outputs throws
      before it calls back included ([UtxoThrows], caught by line 182 in
      the first attempt only, [first_call]); [run] makes one step per
      answer and records the texts handed to the broadcast; [job_step] is
      the step relation of the attempts that leave the job under way, and
      [job_wf] the shape of a job.  What [setTimeout] does with the
      argument [undefined] of lines 143 and 157 is the parameter
      [TimerPolicy]: a browser ignores it, Node throws a TypeError.
    - [Trace]: the texts that a job hands to the broadcast, as a trace.
    - [EndToEnd]: the ledger between [Send] and [Reassembly] (the
      transactions of the broadcasts that succeeded, [ledger_of]), the
      round trip of a message through both, and two messages of one pair
      of addresses.
    - [Provenance]: the invariant of the loop of [getTMMessages] over any
      history: where the chunks of buffers and messages come from
      ([scan_inv], [made_of]).
    - [LastWrite]: histories that list chunks of a message more than
      once: the last write of a sequence number ([written]), the buffer
      and the chunks it leaves ([written_buf], [final]).
    - [Bytes]: a text of any characters below 256 through the sender, the
      ledger library and the reader: the UTF-8 bytes of a chunk and
      whether they fit a data output ([fits]).
    - [ReassemblySpec]: the specification of the reader, a buffer of
      finite maps from sequence numbers to chunks ([spec_ingest],
      [spec_receive]); the abstraction [abs_state] from the state of the
      loop; the refinement.
    - [Recognition]: the classifier on the transactions that the ledger
      library builds for a text, under [deployed] and under [literal].
    - [Status]: [getTMNodeStatus], alone and after a message was sent.
    - [Rounds]: histories in which messages follow one another, with
      transactions that are no frames between them ([Stretch]); an
      exchange of messages ([Sending]) through [Send], the ledger,
      [Reassembly] and [Status].
    - [Resend]: a call that gives up and a second call with the same
      message, through [Send], the ledger and [Reassembly].
    - [Malformed]: a transaction whose text is the tag followed by a
      character that is no hexadecimal digit, through the classifier, the
      decoder, the reader and the status.
    - [Capacity]: a message of exactly 16 chunks through the sender, the
      ledger and the reader.
    - [Registry]: src/TMNet.js.  The state [BMNet] is the instance [bm] and
      the object [bmnodes]; every method of the prototype is one
      definition, and a method that changes the registry returns the new
      one.  The constructor [new_BMNet] takes the instance, absent or a
      record [BM] that says whether it has the logger that line 17 reads,
      and the answer of [fs.readdirSync], the files of the folder or the
      exception it throws.  A call with its answer is an event ([Call],
      [Answer], [perform], [does]).  What the registry calls of BMNode and
      BMutils, which are not among the sources, is the class [NodeLib],
      with the laws [DecimalLaws] and the instances [plain_lib] and
      [loose_lib].
    - [Additions]: sequences of calls of [addBMNode] for nodes without an
      identifier, as the step relation [adds]; the object a call was
      given, as the call leaves it ([nodeData_after]).
    - [RegistrySpec]: the specification of the registry, a finite map from
      identifiers to nodes and, for every call, the answers it may give
      and the map it leaves ([spec_does]); the abstraction [abs] from the
      registry of [Registry] to the map; the trace refinement.

    ** What the theorems show

    - Codec: the result of the classifier on every kind of transaction and
      exactly when it throws; the range of the decoded numbers; that the
      decoder reads one position after the place where the encoder writes,
      so that a frame decoded exactly is rejected
      ([isTMTransaction_rejects_frame], [decode_data_frame]) and the
      protocol works through the extra leading character that [deployed]
      produces; what happens from 16 chunks on.
    - Reassembly: the chunks of a message in any order give the same
      message ([scan_any_order]); other conversations interleaved with
      them do not interfere ([scan_interleaved]); last write wins; the
      result only grows; malformed frames (a length that is NaN or 0).
    - Tolerance: [getTMMessages] answers on a history what it answers on
      the history without its unrelated transactions, exceptions included
      ([getTMMessages_tolerates]); the transactions that carry frames are
      related ([carries_related]); a transaction without a script in its
      first input or first output, which the classifier answers false for,
      ends the reader with an exception wherever the history lists it
      ([getTMMessages_unreadable]).
    - Send: a job whose broadcasts succeed sends the frames in order
      ([sendTMMessage_delivers]); every job over at least one chunk
      finishes ([run_terminates]) and is well formed as long as it is under
      way ([job_wf_reachable]); failed broadcasts are retried, with one
      budget for the whole job; the errors of every other step end the job;
      the empty message never finishes.  These are stated for the timer of
      a browser; under the timer of Node the callback receives identifiers
      exactly for a message of one chunk whose first broadcast succeeds,
      and every other job that reaches its first broadcast ends there with
      a TypeError ([run_timer_throws]).
    - Trace: the text of every attempt is the frame of the chunk whose
      number is the count of the broadcasts that succeeded before
      ([run_in_sequence]).
    - EndToEnd: [send_then_scan], the round trip for ASCII text in 1 to 15
      chunks under [deployed], with failed broadcasts that the job
      retries; [send_then_scan_exact], that under [literal] the same
      message is sent and nothing of it is read; [scan_mixes_messages],
      that two messages of the same pair of addresses with the same number
      of chunks are assembled into one.
    - Provenance: on every history, with frames of any shape, the chunk
      at position j of a returned message is the payload of a frame
      numbered j that a transaction of the history carries between the
      addresses of the message, listed under the identifier of that
      transaction ([scan_provenance]).
    - LastWrite: a chunk carried again replaces text and identifier of
      the one stored; up to the transaction that fills the last empty
      slot, the message is made of the last write of every sequence
      number ([scan_last_write]); chunks written once each after any
      earlier writes give their message ([scan_rewritten]).
    - Bytes: the reader returns the UTF-8 bytes of a message as its text
      when every chunk fits, and nothing when the bytes of one chunk are
      more than [MAX_PAYLOAD_SIZE]; the text comes back unchanged exactly
      when it is ASCII ([send_then_scan_bytes]).
    - ReassemblySpec: storing a frame commutes with the abstraction
      ([ingest_abs]), and on every history of readable transactions whose
      frames have digits for count and sequence number the reader returns
      what the specification drains from the frames ([scan_refines], a
      functional refinement).
    - Recognition: under [deployed] the classifier recognises exactly the
      built transactions whose text fits a data output and starts with
      the tag ([recognised_deployed]); under [literal] only the tag itself
      ([recognised_literal]).
    - Status: the number of messages against the balance check of
      [sendTMMessage]; the split into inbox and outbox; which errors reach
      the callback; [status_after_send], what the status of the sender and
      of the receiver shows after a message was sent.
    - Rounds: messages that follow one another are all returned, in their
      order, because the buffer of a conversation is removed with the last
      chunk of a message ([scan_stretches]); every message of an exchange
      is read and shown in the boxes of both ends, whatever unrelated
      transactions the history lists between those of the exchange
      ([exchange_round_trip], [status_after_exchange]).
    - Resend: a job that runs out of retries leaves the transactions of
      its first frames ([run_gives_up]); when the message is sent again
      the reader returns it once, with the identifiers of the second call
      ([resend_after_failure]).
    - Malformed: one transaction whose count is no number makes
      [new Array] throw in the reader; after any exchange the exception
      leaves [getTMMessages] and [getTMNodeStatus], whatever follows in
      the history ([malformed_stops_status]).  A frame whose sequence
      number is not below its count is stored all the same, past the end
      of the array ([ingest_beyond_count]).
    - Capacity: the code has no bound on the number of chunks; a message
      of 16 chunks is sent in full, the transactions of its chunks of 76
      characters are passed over, and a shorter chunk is read as a message
      of its own ([send_then_scan_sixteen]).
    - Registry: the invariant [registry_wf] of every registry reachable by
      adding, removing and loading ([reachable_wf]); what the lookups find
      after an addition and after a removal; the errors of a removal in
      their order; [getNodeAddress], [isBMNode] and [getStatus] on every
      branch; [loadBMNet] as a fold over the files that load.  For
      [_generateID]: the identifier is new when [parseInt] and the numeric
      comparison agree on the identifiers in use and their numbers are
      below 2^53 ([_generateID_fresh]), nodes without identifiers are
      numbered in a row ([addBMNode_next_number]), and when the two
      disagree on the last identifier of a base the number generated
      follows what [parseInt] read, so that the identifier can be one in
      use ([_generateID_collides]).  A name that the object inherits passes
      for an identifier ([inherited_identifier]).
    - Additions: nodes added without an identifier continue the row
      [base1], [base2], ... without a gap up to 2^53
      ([additions_numbered]), and no such addition replaces a node when the
      conversions agree and the numbers leave room ([additions_keep]); at
      2^53 the sum of line 63 rounds back to 2^53 and every further
      addition replaces the node of the one before ([additions_stop]); a
      second call with the object of the first replaces its node
      ([same_object_replaces]).
    - RegistrySpec: every sequence of calls on a registry made by the
      constructor, each with the answer the code gives, is a run of the
      specification from the empty map ([registry_refines], a trace
      refinement by forward simulation); the reads by identifier and the
      status are functions of the map ([registry_reads_refine]);
      [getNodeID] is one when addresses differ and otherwise sees the
      order of the keys; [_generateID] is one when [parseInt] and the
      comparison agree ([_generateID_abs]).

    ** Conventions, bounds and fuel

    A JavaScript function that may throw returns [res A].  A function that
    reports through a callback returns [outcome E A]: the callback was
    called with an error, or with a value, or an exception escaped and the
    callback was not called.  The answers of asynchronous collaborators
    (balance, history, unspent outputs, broadcast) are arguments of the
    model.  Strings are sequences of 8-bit characters; the encoder's UTF-8
    step is the identity on characters below 128, the range the round trip
    is stated for.  In src/TxMEx.js integers are unbounded ([Z], [nat]):
    its numbers are chunk counts, sequence numbers and balances, far below
    2^53.  [new Array(n)] keeps its bound of 2^32.  A statement
    [throw "text"] throws [Thrown "text"].  The loops of the registry over
    [bmnodes] run over [obj_keys], a finite list, and need no fuel.  The
    numbers of [_generateID] are integers or NaN, and its sum is that of
    doubles: exact up to 2^53, rounded to 53 bits above; the text of a
    number has at most 17 digits and is in exponent form from 10^21.  The
    theorems on generated identifiers are stated for identifiers whose
    numbers are at most 2^53, and [additions_stop] says what happens
    there.  The only fuel is the
    list of answers given to [run]: a job over n >= 1 chunks needs at most
    n + [MAX_SEND_RETRY] answers ([run_terminates]), and a job over no
    chunk is pending after any number of successful answers.

    ** Not modelled

    Of the collaborators only what the sources observe is modelled:
    signing, fees, the selection of unspent outputs, serialisation and the
    network are not, and neither are the files of a node, its keys, and
    what is logged (a logger that exists is taken to return).  The lines
    of the two files that are not modelled are the requires and the
    exports, which have no behaviour of their own.  The fee setter of line
    128 is taken not to throw, the collaborators other than the query of
    the unspent outputs to call back asynchronously, and the constructor
    of a node not to change the registry.  [Transaction().fromObject] of
    line 203 is the identity on what the code reads of a transaction, and
    the answer of the history query has its list of items.  Numbers that
    are fractions or infinite do not occur in the model.  In the registry a read sees the properties that an
    object inherits; a node stored under the identifier [__proto__], which
    would replace the prototype of [bmnodes], is outside the model, and so
    is a conversation key of [chnkBuf] that is the name of an inherited
    property (a key is two addresses one after the other). *)

From Stdlib Require Export Ascii.
From stdpp Require Export base tactics numbers option list strings.

Set Default Proof Using "Type".

(** ** Exceptions and results *)

(** The exceptions the modelled code can raise: the errors of the runtime
    and the texts of [throw "..."]. *)
Inductive exn : Type :=
| TypeError
| RangeError
| ReferenceError
| Thrown (text : string).

#[export] Instance exn_eq_dec : EqDecision exn.
Proof. solve_decision. Defined.

(** The result of running JavaScript code that may throw. *)
Inductive res (A : Type) : Type :=
| Val (a : A)
| Throw (e : exn).

Arguments Val {A} a.
Arguments Throw {A} e.

#[export] Instance res_eq_dec `{EqDecision A} : EqDecision (res A).
Proof. solve_decision. Defined.

#[export] Instance res_ret : MRet res := @Val.

#[export] Instance res_bind : MBind res := λ A B f m,
  match m with
  | Val a => f a
  | Throw e => Throw e
  end.

#[export] Instance res_fmap : FMap res := λ A B f m,
  match m with
  | Val a => Val (f a)
  | Throw e => Throw e
  end.

(** [is_Val m]: the code returned normally. *)
Definition is_Val {A} (m : res A) : bool :=
  match m with Val _ => true | Throw _ => false end.

(** Running a loop body over a list, left to right, stopping at the first
    exception: [for (var i = 0; i < xs.length; i++) body]. *)
Fixpoint foldM {A S : Type} (body : S → A → res S) (s : S) (xs : list A) : res S :=
  match xs with
  | [] => Val s
  | x :: xs' => s' ← body s x; foldM body s' xs'
  end.

(** ** Callback-style functions *)

(** How a function of the form [f(args, callback)] ends: the callback is
    called with an error, the callback is called with [null] and a value, or
    an exception escapes and the callback is never called. *)
Inductive outcome (E A : Type) : Type :=
| CallbackErr (err : E)
| CallbackOk (v : A)
| Uncaught (e : exn).

Arguments CallbackErr {E A} err.
Arguments CallbackOk {E A} v.
Arguments Uncaught {E A} e.

#[export] Instance outcome_eq_dec `{EqDecision E, EqDecision A} : EqDecision (outcome E A).
Proof. solve_decision. Defined.

(** ** Numbers *)

(** A JavaScript number as the sources use them: an integer or NaN. *)
Inductive number : Type :=
| NaN
| Num (z : Z).

#[export] Instance number_eq_dec : EqDecision number.
Proof. solve_decision. Defined.

(** [j < n] for a loop counter [j] and a bound that may be NaN: a comparison
    with NaN is false. *)
Definition lt_number (j : nat) (n : number) : bool :=
  match n with
  | NaN => false
  | Num z => bool_decide (Z.of_nat j < z)%Z
  end.

(** The number of iterations of [for (j = 0; j < n; j++)]. *)
Definition loop_count (n : number) : nat :=
  match n with
  | NaN => 0
  | Num z => Z.to_nat z
  end.

(** ** Automation *)

Create HintDb txmex discriminated.
Create Rewrite HintDb txmex.

(** [res_simpl] unfolds the monad operations on [res] where they meet a
    constructor. *)
Ltac res_simpl :=
  repeat (progress (cbn [mbind mret fmap res_bind res_ret res_fmap] in *)).

(** [case_res m] splits on a result and simplifies both branches. *)
Ltac case_res m :=
  let E := fresh "E" in destruct m eqn:E; res_simpl; simplify_eq; try done.

Lemma res_bind_Val {A B} (f : A → res B) (a : A) : Val a ≫= f = f a.
Proof. done. Qed.

Lemma res_bind_Throw {A B} (f : A → res B) (e : exn) : Throw e ≫= f = Throw e.
Proof. done. Qed.

Lemma res_bind_assoc {A B C} (m : res A) (f : A → res B) (g : B → res C) :
  (m ≫= f) ≫= g = m ≫= (λ a, f a ≫= g).
Proof. by destruct m. Qed.

Lemma res_bind_ret {A} (m : res A) : m ≫= Val = m.
Proof. by destruct m. Qed.

Lemma res_bind_Val_inv {A B} (m : res A) (f : A → res B) (b : B) :
  m ≫= f = Val b → ∃ a, m = Val a ∧ f a = Val b.
Proof. destruct m; naive_solver. Qed.

Lemma res_bind_Throw_inv {A B} (m : res A) (f : A → res B) (e : exn) :
  m ≫= f = Throw e → m = Throw e ∨ ∃ a, m = Val a ∧ f a = Throw e.
Proof. destruct m; naive_solver. Qed.

#[export] Hint Rewrite @res_bind_Val @res_bind_Throw @res_bind_ret : txmex.

(** ** The monadic fold *)

Section foldM.
Context {A S : Type} (body : S → A → res S).
Implicit Types (s : S) (xs ys : list A).

Lemma foldM_nil s : foldM body s [] = Val s.
Proof. done. Qed.

Lemma foldM_cons s x xs : foldM body s (x :: xs) = body s x ≫= λ s', foldM body s' xs.
Proof. done. Qed.

Lemma foldM_app s xs ys :
  foldM body s (xs ++ ys) = foldM body s xs ≫= λ s', foldM body s' ys.
Proof.
  revert s; induction xs as [|x xs IH]; intros s; [done|].
  cbn [app foldM]. destruct (body s x); [apply IH | done].
Qed.

Lemma foldM_snoc s xs x :
  foldM body s (xs ++ [x]) = foldM body s xs ≫= λ s', body s' x.
Proof. rewrite foldM_app. destruct (foldM body s xs); [apply res_bind_ret | done]. Qed.

(** An invariant of the loop body is an invariant of the loop. *)
Lemma foldM_invariant (P : S → Prop) s s' xs :
  (∀ s x s', P s → body s x = Val s' → P s') →
  P s → foldM body s xs = Val s' → P s'.
Proof.
  intros Hstep. revert s. induction xs as [|x xs IH]; intros s Hs; cbn.
  - by intros [= <-].
  - destruct (body s x) eqn:E; [|done]. cbn. eauto.
Qed.

(** A loop whose body never throws on states that satisfy an invariant
    returns normally. *)
Lemma foldM_total (P : S → Prop) s xs :
  (∀ s x, P s → ∃ s', body s x = Val s' ∧ P s') →
  P s → ∃ s', foldM body s xs = Val s' ∧ P s'.
Proof.
  intros Hstep. revert s. induction xs as [|x xs IH]; intros s Hs; cbn; [eauto|].
  destruct (Hstep s x Hs) as (s1 & -> & Hs1). cbn. eauto.
Qed.

(** The first exception stops the loop. *)
Lemma foldM_throw s xs x e ys s1 :
  foldM body s xs = Val s1 → body s1 x = Throw e →
  foldM body s (xs ++ x :: ys) = Throw e.
Proof. intros H1 H2. rewrite foldM_app, H1. cbn. by rewrite H2. Qed.

End foldM.

#[export] Hint Rewrite @foldM_nil @foldM_cons : txmex.

(** ** Runs of a labelled step *)

(** A run of the step [R]: the labels of its steps, in order, between the
    state it starts in and the state it ends in. *)
Inductive runs {S L : Type} (R : S → L → S → Prop) : S → list L → S → Prop :=
| runs_nil s : runs R s [] s
| runs_cons s l s1 ls s2 : R s l s1 → runs R s1 ls s2 → runs R s (l :: ls) s2.

Section runs.
Context {S L : Type} (R : S → L → S → Prop).
Implicit Types (s : S) (l : L) (ls : list L).

Lemma runs_once s l s1 : R s l s1 → runs R s [l] s1.
Proof. intros Hstep. eapply runs_cons; [done|apply runs_nil]. Qed.

Lemma runs_app s ls s1 ls' s2 :
  runs R s ls s1 → runs R s1 ls' s2 → runs R s (ls ++ ls') s2.
Proof. induction 1; [done|]. intros ?. eapply runs_cons; eauto. Qed.

(** An invariant of the step is an invariant of the run. *)
Lemma runs_invariant (P : S → Prop) s ls s1 :
  (∀ s l s1, P s → R s l s1 → P s1) → P s → runs R s ls s1 → P s1.
Proof. intros Hstep Hs Hrun. induction Hrun; eauto. Qed.

(** A step-by-step simulation through a function of the states carries
    over to runs, with the same labels. *)
Lemma runs_simulation {S' : Type} (R' : S' → L → S' → Prop) (f : S → S') s ls s1 :
  (∀ s l s1, R s l s1 → R' (f s) l (f s1)) → runs R s ls s1 → runs R' (f s) ls (f s1).
Proof. intros Hsim. induction 1; [apply runs_nil|]. eapply runs_cons; eauto. Qed.

End runs.

(** ** Lists *)

Section lists.
Context {A : Type}.
Implicit Types (l k : list A) (x : A) (n i : nat).

(** Element [i] of [l] with a default, as a read of a JavaScript array that
    yields [undefined] out of range. *)
Definition nth_or (d : A) (l : list A) (i : nat) : A := default d (l !! i).

Lemma nth_or_lookup d l i x : l !! i = Some x → nth_or d l i = x.
Proof. unfold nth_or. by intros ->. Qed.

Lemma nth_or_ge d l i : length l ≤ i → nth_or d l i = d.
Proof. intros H. unfold nth_or. by rewrite lookup_ge_None_2. Qed.

Lemma nth_or_app_l d l k i : i < length l → nth_or d (l ++ k) i = nth_or d l i.
Proof. intros H. unfold nth_or. by rewrite lookup_app_l. Qed.

Lemma nth_or_middle d l x k : nth_or d (l ++ x :: k) (length l) = x.
Proof. unfold nth_or. by rewrite list_lookup_middle. Qed.

(** Reading every index of a list in turn gives the list back. *)
Lemma omap_lookup_seq_app k l :
  omap (λ j, (k ++ l) !! j) (seq (length k) (length l)) = l.
Proof.
  revert k. induction l as [|x l IH]; intros k; [done|]. csimpl.
  rewrite list_lookup_middle by done. f_equal.
  specialize (IH (k ++ [x])). rewrite length_app, Nat.add_1_r in IH.
  by rewrite <- (assoc_L (++)) in IH.
Qed.

Lemma omap_lookup_seq l : omap (λ j, l !! j) (seq 0 (length l)) = l.
Proof. apply (omap_lookup_seq_app []). Qed.

(** A map with index is a map over the indices that reads each element. *)
Lemma imap_seq_nth_or {B} (f : nat → A → B) d l :
  imap f l = (λ i, f i (nth_or d l i)) <$> seq 0 (length l).
Proof.
  apply list_eq. intros i. rewrite list_lookup_imap, list_lookup_fmap.
  destruct (l !! i) as [x|] eqn:E; cbn.
  - rewrite lookup_seq_lt by (by eapply lookup_lt_Some). cbn.
    by rewrite (nth_or_lookup _ _ _ _ E).
  - by rewrite lookup_seq_ge by (by apply lookup_ge_None).
Qed.

End lists.

Lemma omap_ext_in {A B} (f g : A → option B) (l : list A) :
  (∀ x, x ∈ l → f x = g x) → omap f l = omap g l.
Proof.
  intros Hfg. apply list_omap_ext, Forall2_same_length_lookup_2; [done|].
  intros i x y Hx Hy. simplify_eq. apply Hfg. by eapply list_elem_of_lookup_2.
Qed.

Lemma number_loop_count_lt (j : nat) (n : number) :
  lt_number j n = true ↔ j < loop_count n.
Proof.
  destruct n as [|z]; cbn; [lia|].
  rewrite bool_decide_eq_true. lia.
Qed.
