(* ===== verification/JsString.v ===== *)
(** * JsString: the string primitives of JavaScript that the sources call

    Strings are Rocq strings (sequences of 8-bit characters).  Each primitive
    is named after the JavaScript method it models and takes the receiver
    first: [charAt s i] is [s.charAt(i)], [substring s a b] is
    [s.substring(a, b)], [slice s n] is [s.slice(n)] for a non-negative [n],
    [split s sep] is [s.split(sep)] for a one-character separator,
    [parseInt16 s] is [parseInt(s, 16)] and [toString16 n] is
    [n.toString(16)] for a non-negative integer [n]. *)

From S2P Require Import Prelude.

(** ** Prefixes and suffixes *)

Fixpoint take_str (n : nat) (s : string) : string :=
  match n, s with
  | S n', String c s' => String c (take_str n' s')
  | _, _ => EmptyString
  end.

Fixpoint drop_str (n : nat) (s : string) : string :=
  match n, s with
  | S n', String c s' => drop_str n' s'
  | _, _ => s
  end.

(** [s.charAt(i)]: the character at [i] as a string, empty out of range. *)
Definition charAt (s : string) (i : nat) : string := take_str 1 (drop_str i s).

(** [s.substring(a, b)]: the characters from the smaller to the larger
    index, both clamped to the length. *)
Definition substring (s : string) (a b : nat) : string :=
  take_str (Nat.max a b - Nat.min a b) (drop_str (Nat.min a b) s).

(** [s.slice(n)] for [n >= 0]. *)
Definition slice (s : string) (n : nat) : string := drop_str n s.

(** The truth value of a string in a condition: the empty string is false. *)
Definition truthy (s : string) : bool :=
  match s with EmptyString => false | _ => true end.

(** ** Splitting *)

(** [s.split(sep)] for a one-character separator: never empty, [""] splits
    into [[""]]. *)
Fixpoint split (s : string) (sep : ascii) : list string :=
  match s with
  | EmptyString => [EmptyString]
  | String c s' =>
      match split s' sep with
      | [] => [String c EmptyString]
      | w :: ws => if decide (c = sep) then EmptyString :: w :: ws else String c w :: ws
      end
  end.

(** [a[a.length - 1]] for the array [a = s.split(sep)]. *)
Definition split_last (s : string) (sep : ascii) : string :=
  default EmptyString (last (split s sep)).

(** [c] occurs in [s]. *)
Fixpoint occurs (c : ascii) (s : string) : bool :=
  match s with
  | EmptyString => false
  | String d s' => bool_decide (c = d) || occurs c s'
  end.

(** ** Hexadecimal digits *)

(** The digit of a value below 16, in lower case as [toString(16)] and
    [Buffer.toString('hex')] write it. *)
Definition hex_digit (n : nat) : ascii :=
  let d := n mod 16 in
  ascii_of_nat (if d <? 10 then 48 + d else 87 + d).

(** The value of a hexadecimal digit, either case, as [parseInt] reads it:
    the codes 48 to 57 are the digits, 97 to 102 the letters a to f and 65
    to 70 the letters A to F. *)
Definition hex_value (c : ascii) : option nat :=
  let k := nat_of_ascii c in
  if bool_decide (48 ≤ k ≤ 57) then Some (k - 48)
  else if bool_decide (97 ≤ k ≤ 102) then Some (k - 87)
  else if bool_decide (65 ≤ k ≤ 70) then Some (k - 55)
  else None.

(** ** parseInt with radix 16 *)

(** White space and line terminators among the 8-bit characters: tab, line
    feed, vertical tab, form feed, carriage return, space and no-break
    space. *)
Definition is_js_space (c : ascii) : bool :=
  bool_decide (nat_of_ascii c ∈ [9; 10; 11; 12; 13; 32; 160]).

Fixpoint skip_spaces (s : string) : string :=
  match s with
  | String c s' => if is_js_space c then skip_spaces s' else s
  | EmptyString => s
  end.

(** The sign and what follows it. *)
Definition strip_sign (s : string) : bool * string :=
  match s with
  | String "-" s' => (true, s')
  | String "+" s' => (false, s')
  | _ => (false, s)
  end.

(** With radix 16 a leading [0x] or [0X] is skipped. *)
Definition strip_0x (s : string) : string :=
  match s with
  | String "0" (String "x" s') => s'
  | String "0" (String "X" s') => s'
  | _ => s
  end.

(** The value of the longest prefix of hexadecimal digits, [None] when the
    prefix is empty.  [acc] is the value read so far. *)
Fixpoint hex_prefix (s : string) (acc : option nat) : option nat :=
  match s with
  | String c s' =>
      match hex_value c with
      | Some d => hex_prefix s' (Some (16 * default 0 acc + d))
      | None => acc
      end
  | EmptyString => acc
  end.

(** [parseInt(s, 16)]. *)
Definition parseInt16 (s : string) : number :=
  let '(neg, s1) := strip_sign (skip_spaces s) in
  match hex_prefix (strip_0x s1) None with
  | Some v => Num (if neg then - Z.of_nat v else Z.of_nat v)
  | None => NaN
  end.

(** ** Number.prototype.toString(16) *)

Fixpoint toString16_go (fuel n : nat) (acc : string) : string :=
  match fuel with
  | 0 => acc
  | S fuel' =>
      let acc' := String (hex_digit (n mod 16)) acc in
      if Nat.eqb (n / 16) 0 then acc' else toString16_go fuel' (n / 16) acc'
  end.

(** [n.toString(16)] for a non-negative integer [n].  The fuel [S n] is
    never exhausted: the argument at least halves at every step. *)
Definition toString16 (n : nat) : string := toString16_go (S n) n EmptyString.

(** ** Lemmas: prefixes, suffixes, append *)

(** stdpp keeps [String.append] from unfolding under [simpl] and [cbn]:
    these two equations and the tactic [str_simpl] do the work. *)
Lemma append_nil_l (t : string) : EmptyString +:+ t = t.
Proof. reflexivity. Qed.

Lemma append_cons (c : ascii) (s t : string) : String c s +:+ t = String c (s +:+ t).
Proof. reflexivity. Qed.

Ltac str_simpl :=
  repeat first [rewrite append_nil_l | rewrite append_cons | progress cbn].

Tactic Notation "str_simpl" "in" hyp(H) :=
  repeat first [rewrite append_nil_l in H | rewrite append_cons in H | progress cbn in H].

Lemma length_append (s t : string) :
  String.length (s +:+ t) = String.length s + String.length t.
Proof. induction s; str_simpl; congruence. Qed.

Lemma append_nil_r (s : string) : s +:+ EmptyString = s.
Proof. induction s; str_simpl; congruence. Qed.

Lemma append_assoc (s t u : string) : (s +:+ t) +:+ u = s +:+ (t +:+ u).
Proof. induction s; str_simpl; congruence. Qed.

Lemma append_inv_head (s t u : string) : s +:+ t = s +:+ u → t = u.
Proof. induction s; intros H; str_simpl in H; naive_solver. Qed.

Lemma take_str_0 (s : string) : take_str 0 s = EmptyString.
Proof. by destruct s. Qed.

Lemma take_str_app (s t : string) : take_str (String.length s) (s +:+ t) = s.
Proof. induction s; str_simpl; congruence. Qed.

Lemma drop_str_app (s t : string) : drop_str (String.length s) (s +:+ t) = t.
Proof. induction s; str_simpl; congruence. Qed.

Lemma take_str_ge (n : nat) (s : string) : String.length s ≤ n → take_str n s = s.
Proof.
  revert n; induction s as [|c s IH]; intros [|n] H; cbn in *; try done; try lia.
  f_equal. apply IH. lia.
Qed.

Lemma drop_str_ge (n : nat) (s : string) : String.length s ≤ n → drop_str n s = EmptyString.
Proof.
  revert n; induction s as [|c s IH]; intros [|n] H; cbn in *; try done; try lia.
  apply IH. lia.
Qed.

Lemma length_take_str (n : nat) (s : string) :
  String.length (take_str n s) = Nat.min n (String.length s).
Proof. revert n; induction s as [|c s IH]; intros [|n]; cbn; auto. Qed.

Lemma length_drop_str (n : nat) (s : string) :
  String.length (drop_str n s) = String.length s - n.
Proof. revert n; induction s as [|c s IH]; intros [|n]; cbn; auto. Qed.

Lemma take_drop_str (n : nat) (s : string) : take_str n s +:+ drop_str n s = s.
Proof. revert n; induction s as [|c s IH]; intros [|n]; str_simpl; congruence. Qed.

Lemma drop_str_add (n m : nat) (s : string) :
  drop_str (n + m) s = drop_str m (drop_str n s).
Proof.
  revert s; induction n as [|n IH]; intros s; [done|].
  destruct s; cbn; [by destruct m | apply IH].
Qed.

Lemma take_str_app_l (n : nat) (s t : string) :
  n ≤ String.length s → take_str n (s +:+ t) = take_str n s.
Proof.
  revert n; induction s as [|c s IH]; intros [|n] H; cbn in H; str_simpl; try done; try lia.
  f_equal. apply IH. lia.
Qed.

Lemma drop_str_app_l (n : nat) (s t : string) :
  n ≤ String.length s → drop_str n (s +:+ t) = drop_str n s +:+ t.
Proof.
  revert n; induction s as [|c s IH]; intros [|n] H; cbn in H; str_simpl; try done; try lia.
  apply IH. lia.
Qed.

(** ** Lemmas: the methods *)

Lemma substring_0 (s : string) (n : nat) : substring s 0 n = take_str n s.
Proof. unfold substring. by rewrite Nat.max_0_l, Nat.min_0_l, Nat.sub_0_r. Qed.

Lemma substring_0_app (s t : string) : substring (s +:+ t) 0 (String.length s) = s.
Proof. rewrite substring_0. apply take_str_app. Qed.

Lemma substring_0_short (s : string) (n : nat) :
  String.length s ≤ n → substring s 0 n = s.
Proof. intros. rewrite substring_0. by apply take_str_ge. Qed.

Lemma length_substring_0 (s : string) (n : nat) :
  String.length (substring s 0 n) = Nat.min n (String.length s).
Proof. rewrite substring_0. apply length_take_str. Qed.

Lemma slice_app (s t : string) : slice (s +:+ t) (String.length s) = t.
Proof. apply drop_str_app. Qed.

Lemma slice_ge (s : string) (n : nat) : String.length s ≤ n → slice s n = EmptyString.
Proof. apply drop_str_ge. Qed.

(** The rest of a string after a prefix, as [substring] returns it. *)
Lemma substring_suffix (s t : string) :
  substring (s +:+ t) (String.length s) (String.length (s +:+ t)) = t.
Proof.
  unfold substring. rewrite length_append.
  rewrite Nat.min_l, Nat.max_r by lia. rewrite drop_str_app.
  apply take_str_ge. lia.
Qed.

(** [String.prefix s id] is [id.startsWith(s)]. *)
Lemma prefix_append (s t : string) : String.prefix s (s +:+ t) = true.
Proof.
  induction s as [|c s IH]; str_simpl; [by destruct t|]. cbn.
  by destruct (Ascii.ascii_dec c c).
Qed.

Lemma prefix_inv (s id : string) : String.prefix s id = true → ∃ t, id = s +:+ t.
Proof.
  revert id. induction s as [|c s IH]; intros id; [by exists id|].
  destruct id as [|c' id]; cbn; [done|].
  destruct (Ascii.ascii_dec c c') as [->|]; [|done].
  intros [t ->]%IH. by exists t.
Qed.

Lemma charAt_ge (s : string) (i : nat) : String.length s ≤ i → charAt s i = EmptyString.
Proof. intros. unfold charAt. by rewrite drop_str_ge. Qed.

Lemma charAt_app_r (s t : string) (i : nat) :
  charAt (s +:+ t) (String.length s + i) = charAt t i.
Proof. unfold charAt. by rewrite drop_str_add, drop_str_app. Qed.

Lemma charAt_app_l (s t : string) (i : nat) :
  i < String.length s → charAt (s +:+ t) i = charAt s i.
Proof.
  intros H. unfold charAt. rewrite drop_str_app_l by lia.
  apply take_str_app_l. rewrite length_drop_str. lia.
Qed.

Lemma charAt_cons_0 (c : ascii) (s : string) : charAt (String c s) 0 = String c EmptyString.
Proof. done. Qed.

Lemma length_charAt (s : string) (i : nat) : String.length (charAt s i) ≤ 1.
Proof. unfold charAt. rewrite length_take_str. lia. Qed.

Lemma truthy_false (s : string) : truthy s = false ↔ s = EmptyString.
Proof. by destruct s. Qed.

Lemma truthy_append_l (s t : string) : truthy s = true → truthy (s +:+ t) = true.
Proof. by destruct s. Qed.

(** ** Lemmas: splitting *)

Lemma split_nonempty (s : string) (sep : ascii) : split s sep ≠ [].
Proof.
  destruct s as [|c s]; cbn; [done|].
  destruct (split s sep); [done|]. by case_decide.
Qed.

Lemma split_cons_sep (s : string) (sep : ascii) :
  split (String sep s) sep = EmptyString :: split s sep.
Proof.
  cbn. pose proof (split_nonempty s sep).
  destruct (split s sep); [done|]. by rewrite decide_True.
Qed.

Lemma split_cons_other (c : ascii) (s : string) (sep : ascii) :
  c ≠ sep →
  ∃ w ws, split s sep = w :: ws ∧ split (String c s) sep = String c w :: ws.
Proof.
  intros Hne. cbn. pose proof (split_nonempty s sep).
  destruct (split s sep) as [|w ws]; [done|]. exists w, ws. by rewrite decide_False.
Qed.

Lemma split_no_sep (s : string) (sep : ascii) : occurs sep s = false → split s sep = [s].
Proof.
  induction s as [|c s IH]; [done|]. cbn [occurs].
  intros [Hc Hs]%orb_false_iff. apply bool_decide_eq_false in Hc.
  destruct (split_cons_other c s sep) as (w & ws & E1 & ->); [done|].
  rewrite (IH Hs) in E1. by simplify_eq.
Qed.

Lemma split_length_sep (s : string) (sep : ascii) :
  occurs sep s = true → 2 ≤ length (split s sep).
Proof.
  induction s as [|c s IH]; [done|]. cbn [occurs]. intros Hocc.
  destruct (decide (c = sep)) as [->|Hne].
  - rewrite split_cons_sep. pose proof (split_nonempty s sep).
    destruct (split s sep); [done|]. cbn. lia.
  - destruct (split_cons_other c s sep) as (w & ws & E1 & ->); [done|].
    rewrite bool_decide_eq_false_2 in Hocc by done.
    specialize (IH Hocc). rewrite E1 in IH. done.
Qed.

Lemma split_last_cons_sep (s : string) (sep : ascii) :
  split_last (String sep s) sep = split_last s sep.
Proof.
  unfold split_last. rewrite split_cons_sep. pose proof (split_nonempty s sep).
  by destruct (split s sep).
Qed.

Lemma split_last_cons_other (c : ascii) (s : string) (sep : ascii) :
  occurs sep s = true → split_last (String c s) sep = split_last s sep.
Proof.
  intros Hocc. destruct (decide (c = sep)) as [->|Hne]; [apply split_last_cons_sep|].
  unfold split_last. pose proof (split_length_sep s sep Hocc) as Hlen.
  destruct (split_cons_other c s sep) as (w & ws & E1 & ->); [done|].
  rewrite E1 in Hlen |- *. destruct ws; [cbn in Hlen; lia | done].
Qed.

Lemma split_last_no_sep (s : string) (sep : ascii) :
  occurs sep s = false → split_last s sep = s.
Proof. intros H. unfold split_last. by rewrite split_no_sep. Qed.

Lemma occurs_app_sep (s t : string) (sep : ascii) : occurs sep (s +:+ String sep t) = true.
Proof.
  induction s as [|d s IH]; str_simpl; [by rewrite bool_decide_eq_true_2|].
  by rewrite IH, orb_true_r.
Qed.

(** What follows the last separator is the last element. *)
Lemma split_last_app (s t : string) (sep : ascii) :
  occurs sep t = false → split_last (s +:+ String sep t) sep = t.
Proof.
  intros Ht. induction s as [|c s IH]; str_simpl.
  - rewrite split_last_cons_sep. by apply split_last_no_sep.
  - rewrite split_last_cons_other; [done | apply occurs_app_sep].
Qed.

(** ** Lemmas: hexadecimal *)

(** Case analysis on a value below 16, each case closed by computation. *)
Ltac below_16 n H :=
  do 16 (destruct n as [|n]; [by vm_compute|]); exfalso; lia.

(** Case analysis on the 256 characters. *)
Ltac each_char c := destruct c as [[] [] [] [] [] [] [] []].

Lemma hex_digit_mod (n : nat) : hex_digit n = hex_digit (n mod 16).
Proof. unfold hex_digit. by rewrite Nat.Div0.mod_mod. Qed.

Lemma hex_value_digit (n : nat) : n < 16 → hex_value (hex_digit n) = Some n.
Proof. intros H. below_16 n H. Qed.

Lemma hex_value_lt (c : ascii) (n : nat) : hex_value c = Some n → n < 16.
Proof. unfold hex_value. repeat case_bool_decide; intros [= <-]; lia. Qed.

(** A goal about [hex_digit n] for every [n] is a goal about the 16 digits. *)
Ltac all_hex_digits n :=
  rewrite (hex_digit_mod n);
  let H := fresh in
  pose proof (Nat.mod_upper_bound n 16 ltac:(lia)) as H;
  generalize dependent (n mod 16); clear n; intros n H; below_16 n H.

Lemma hex_digit_not_space (n : nat) : is_js_space (hex_digit n) = false.
Proof. all_hex_digits n. Qed.

Lemma hex_digit_not_blank (n : nat) : hex_digit n ≠ " "%char.
Proof.
  intros E. pose proof (hex_digit_not_space n) as H. by rewrite E in H.
Qed.

Lemma parseInt16_empty : parseInt16 EmptyString = NaN.
Proof. done. Qed.

(** One hexadecimal digit parses to its value. *)
Lemma parseInt16_digit (n : nat) :
  n < 16 → parseInt16 (String (hex_digit n) EmptyString) = Num (Z.of_nat n).
Proof. intros H. below_16 n H. Qed.

(** A character that is no digit, sign or space parses to NaN. *)
Lemma parseInt16_char_NaN (c : ascii) :
  hex_value c = None → parseInt16 (String c EmptyString) = NaN.
Proof. each_char c; vm_compute; done. Qed.

(** [parseInt] of at most one character is NaN or a value below 16. *)
Lemma parseInt16_charAt_range (s : string) (i : nat) (z : Z) :
  parseInt16 (charAt s i) = Num z → (0 ≤ z < 16)%Z.
Proof.
  unfold charAt. destruct (drop_str i s) as [|c t]; cbn; [done|].
  each_char c; vm_compute; intros [= <-]; done.
Qed.

Lemma toString16_small (n : nat) : n < 16 → toString16 n = String (hex_digit n) EmptyString.
Proof.
  intros H. unfold toString16. cbn [toString16_go].
  rewrite Nat.mod_small, Nat.div_small by done. done.
Qed.

Lemma length_toString16_go (fuel n : nat) (acc : string) :
  n < fuel → 16 ≤ n → 2 + String.length acc ≤ String.length (toString16_go fuel n acc).
Proof.
  revert n acc. induction fuel as [|fuel IH]; intros n acc Hf Hn; [lia|].
  cbn [toString16_go].
  assert (n / 16 ≠ 0) as Hq by (intros Hq; apply Nat.div_small_iff in Hq; lia).
  assert (n / 16 < n) by (apply Nat.div_lt; lia).
  rewrite (proj2 (Nat.eqb_neq _ _) Hq).
  destruct (decide (16 ≤ n / 16)) as [Hbig|Hsmall].
  - etrans; [|apply IH; [lia|done]]. cbn. lia.
  - destruct fuel as [|fuel]; [lia|]. cbn [toString16_go].
    rewrite (Nat.div_small (n / 16)) by lia. cbn. lia.
Qed.

(** From 16 on the hexadecimal form has at least two digits. *)
Lemma length_toString16_big (n : nat) : 16 ≤ n → 2 ≤ String.length (toString16 n).
Proof.
  intros H. unfold toString16.
  pose proof (length_toString16_go (S n) n EmptyString). cbn in *. lia.
Qed.

Lemma toString16_go_head (fuel n : nat) (acc : string) :
  (fuel = 0 → ∃ d rest, d < 16 ∧ acc = String (hex_digit d) rest) →
  ∃ d rest, d < 16 ∧ toString16_go fuel n acc = String (hex_digit d) rest.
Proof.
  revert n acc. induction fuel as [|fuel IH]; intros n acc Hacc; [by apply Hacc|].
  cbn [toString16_go].
  assert (∃ d rest, d < 16 ∧ String (hex_digit (n mod 16)) acc = String (hex_digit d) rest)
    as Hhead by (exists (n mod 16), acc; split; [apply Nat.mod_upper_bound; lia | done]).
  destruct (Nat.eqb (n / 16) 0); [done|]. apply IH. by intros _.
Qed.

(** The hexadecimal form starts with a digit. *)
Lemma toString16_head (n : nat) :
  ∃ d rest, d < 16 ∧ toString16 n = String (hex_digit d) rest.
Proof. apply toString16_go_head. done. Qed.

#[export] Hint Rewrite length_append append_nil_r take_str_app drop_str_app
  substring_0_app slice_app : txmex.
