(* ===== verification/JsNumber.v ===== *)
(** * JsNumber: numbers as the runtime computes with them

    A number of the runtime is a double.  The sources compute with
    integers: counts, sequence numbers, and the numbers written in
    identifiers (src/TMNet.js, lines 63 and 67).  [number] of the prelude
    holds an integer or NaN; this file gives the operations on it that the
    registry uses, with the rounding of doubles written out: the sum
    [x + 1] is the double nearest to it ([round53]), and the text of a
    number in a concatenation is decimal below 10^21 and has an exponent
    from there on ([number_text]).  Up to 2^53 nothing is rounded
    ([round53_small]); at 2^53 adding 1 changes nothing. *)

From stdpp Require Import pretty.
From S2P Require Import Prelude.
From S2P Require Import JsString.

(** The integer of 53 significant bits nearest to [z]; of two that are
    equally near, the one whose last significant bit is 0. *)
Definition round53 (z : Z) : Z :=
  let a := Z.abs z in
  let e := (Z.log2 a - 52)%Z in
  if bool_decide (e ≤ 0)%Z then z
  else
    let q := Z.shiftr a e in
    let r := Z.land a (Z.ones e) in
    let half := Z.shiftl 1 (e - 1) in
    let up := bool_decide (half < r)%Z || (bool_decide (r = half) && Z.odd q) in
    (Z.sgn z * Z.shiftl (if up then q + 1 else q) e)%Z.

(** [x >= y] on numbers: false when one of them is NaN. *)
Definition ge_number (x y : number) : bool :=
  match x, y with
  | Num a, Num b => bool_decide (b ≤ a)%Z
  | _, _ => false
  end.

(** [x + 1]: the double nearest to the sum. *)
Definition succ_number (x : number) : number :=
  match x with
  | Num a => Num (round53 (a + 1))
  | NaN => NaN
  end.

(** A text without the zeros at its end. *)
Fixpoint strip_zeros (s : string) : string :=
  match s with
  | EmptyString => EmptyString
  | String c s' =>
      match strip_zeros s' with
      | EmptyString => if decide (c = "0"%char) then EmptyString else String c EmptyString
      | t => String c t
      end
  end.

(** The decimals of [k] significant digits next to [x], below and above. *)
Definition decimals_near (x : Z) (k : nat) : list Z :=
  let p := (10 ^ Z.of_nat (String.length (pretty x) - k))%Z in
  let lo := (x / p * p)%Z in
  [lo; (lo + p)%Z].

(** The decimal with the fewest significant digits, up to 17, that is read
    as the double [x]; of two with as many digits, the nearer. *)
Definition shortest_decimal (x : Z) : Z :=
  let reads v := bool_decide (round53 v = x) in
  let nearer v w := bool_decide (Z.abs (v - x) ≤ Z.abs (w - x))%Z in
  let pick k :=
    match filter (λ v, reads v = true) (decimals_near x k) with
    | [v] => Some v
    | [v; w] => Some (if nearer v w then v else w)
    | _ => None
    end in
  default x (head (omap pick (seq 1 17))).

(** The text of a positive decimal with an exponent: the first digit, the
    others behind a point, and the power of ten. *)
Definition exponent_text (v : Z) : string :=
  match strip_zeros (pretty v) with
  | String d EmptyString => String d EmptyString
  | String d rest => String d ("." +:+ rest)
  | EmptyString => EmptyString
  end +:+ "e+" +:+ pretty (String.length (pretty v) - 1).

(** The text of a number in a concatenation (ToString): the digits of the
    shortest decimal that is read as the number, filled up with zeros
    below 10^21 and followed by the power of ten from there on. *)
Definition number_text (x : number) : string :=
  match x with
  | Num a =>
      let v := shortest_decimal (Z.abs a) in
      if bool_decide (Z.abs a < 10 ^ 21)%Z then pretty (Z.sgn a * v)%Z
      else (if bool_decide (a < 0)%Z then "-" else "") +:+ exponent_text v
  | NaN => "NaN"
  end.

(** ** Rounding *)

Lemma round53_small (z : Z) : (Z.abs z ≤ 2 ^ 53)%Z → round53 z = z.
Proof.
  intros Hz. unfold round53. cbv zeta.
  destruct (decide (Z.abs z = 2 ^ 53)%Z) as [E|E].
  - destruct (Z.abs_eq_or_opp z) as [E'|E']; rewrite E' in E.
    + by subst z.
    + assert (z = - 2 ^ 53)%Z as -> by lia. done.
  - rewrite bool_decide_eq_true_2; [done|].
    destruct (decide (Z.abs z = 0)%Z) as [->|]; [done|].
    assert (Z.log2 (Z.abs z) < 53)%Z; [|lia]. apply Z.log2_lt_pow2; lia.
Qed.

(** Up to 2^53 the successor is exact, and 2^53 is its own successor. *)
Lemma succ_number_capped (z : Z) :
  (0 ≤ z ≤ 2 ^ 53)%Z → succ_number (Num z) = Num (Z.min (z + 1) (2 ^ 53)).
Proof.
  intros Hz. cbn. f_equal. destruct (decide (z = 2 ^ 53)%Z) as [->|]; [done|].
  rewrite round53_small by lia. lia.
Qed.

(** Above 2^53 nothing is rounded to less than 2^53. *)
Lemma round53_large (z : Z) : (2 ^ 53 < z)%Z → (2 ^ 53 ≤ round53 z)%Z.
Proof.
  intros Hz. unfold round53. cbv zeta. rewrite Z.abs_eq, Z.sgn_pos by lia.
  pose proof (Z.log2_le_mono _ _ (Z.lt_le_incl _ _ Hz)) as Hlog.
  rewrite Z.log2_pow2 in Hlog by lia.
  case_bool_decide as He; [lia|].
  set (e := (Z.log2 z - 52)%Z) in *.
  assert (2 ^ 52 ≤ Z.shiftr z e)%Z as Hq.
  { rewrite Z.shiftr_div_pow2 by lia. apply Z.div_le_lower_bound; [lia|].
    rewrite <- Z.pow_add_r by lia. replace (e + 52)%Z with (Z.log2 z) by lia.
    apply Z.log2_spec. lia. }
  assert (2 ≤ 2 ^ e)%Z as He2.
  { change 2%Z with (2 ^ 1)%Z at 1. apply Z.pow_le_mono_r; lia. }
  rewrite Z.mul_1_l, Z.shiftl_mul_pow2 by lia. destruct (_ || _); nia.
Qed.

(** Below 2^53 the only decimal near [x] that is read as [x] is [x]. *)
Lemma decimals_near_small (x : Z) (k : nat) :
  (0 ≤ x < 2 ^ 53)%Z →
  filter (λ v, bool_decide (round53 v = x) = true) (decimals_near x k) = [] ∨
  filter (λ v, bool_decide (round53 v = x) = true) (decimals_near x k) = [x].
Proof.
  intros Hx. unfold decimals_near. cbv zeta.
  set (p := (10 ^ Z.of_nat (String.length (pretty x) - k))%Z).
  assert (0 < p)%Z as Hp by (apply Z.pow_pos_nonneg; lia).
  pose proof (Z.mul_div_le x p Hp). pose proof (Z.mul_succ_div_gt x p Hp).
  assert (0 ≤ x / p * p)%Z by (apply Z.mul_nonneg_nonneg; [apply Z.div_pos|]; lia).
  assert (round53 (x / p * p + p) ≠ x) as Hhi.
  { intros E. destruct (decide (x / p * p + p ≤ 2 ^ 53)%Z).
    - rewrite round53_small in E by lia. lia.
    - pose proof (round53_large (x / p * p + p)). lia. }
  rewrite filter_cons, (filter_cons _ (x / p * p + p)%Z), filter_nil.
  rewrite (bool_decide_eq_false_2 _ Hhi), round53_small by lia.
  rewrite (decide_False (P := false = true)) by done.
  case_bool_decide as E; [right; by rewrite E|by left].
Qed.

(** Up to 2^53 an integer is its own shortest decimal. *)
Lemma shortest_decimal_small (x : Z) : (0 ≤ x ≤ 2 ^ 53)%Z → shortest_decimal x = x.
Proof.
  intros Hx. destruct (decide (x = 2 ^ 53)%Z) as [->|Hne]; [by vm_compute|].
  unfold shortest_decimal. cbv zeta. generalize (seq 1 17). intros ks.
  induction ks as [|k ks IH]; [done|]. cbn [omap list_omap].
  by destruct (decimals_near_small x k) as [-> | ->]; [lia|..].
Qed.

Lemma number_text_small (z : Z) : (Z.abs z ≤ 2 ^ 53)%Z → number_text (Num z) = pretty z.
Proof.
  intros Hz. cbn. rewrite bool_decide_eq_true_2 by lia.
  rewrite shortest_decimal_small by lia. f_equal. lia.
Qed.

(** ** Examples *)

(** Beyond 2^53 the odd integers are no doubles. *)
Example round53_examples :
  round53 (2 ^ 53 + 1) = (2 ^ 53)%Z ∧ round53 (2 ^ 53 + 3) = (2 ^ 53 + 4)%Z ∧
  round53 (2 ^ 54 + 1) = (2 ^ 54)%Z ∧ round53 (- (2 ^ 53 + 1)) = (- 2 ^ 53)%Z.
Proof. done. Qed.
