(* ===== verification/JsArray.v ===== *)
(** * JsArray: sparse JavaScript arrays

    An array is the list of its indexed slots, a hole being [None].
    [new_Array n] is [new Array(n)], [array_get a j] is the read [a[j]]
    ([None] stands for [undefined]) and [array_set a i v] is the store
    [a[i] = v], which lengthens the array when [i] is past its end and sets
    a named property, leaving every slot as it was, when [i] is not an
    index (NaN or negative). *)

From S2P Require Import Prelude.

Abbreviation jsarray A := (list (option A)) (only parsing).

Section jsarray.
Context {A : Type}.
Implicit Types (a : jsarray A) (v : A) (i j n : nat).

(** [new Array(len)]: a RangeError unless [len] is an integer in
    [0, 2^32). *)
Definition new_Array (len : number) : res (jsarray A) :=
  match len with
  | Num z =>
      if bool_decide (0 ≤ z < 2 ^ 32)%Z then Val (replicate (Z.to_nat z) None)
      else Throw RangeError
  | NaN => Throw RangeError
  end.

(** [a[j]]. *)
Definition array_get a j : option A := mjoin (a !! j).

(** [a[i] = v] for an index [i]. *)
Definition array_set_at a i v : jsarray A :=
  if decide (i < length a) then <[i := Some v]> a
  else a ++ replicate (i - length a) None ++ [Some v].

(** [a[i] = v] for a number [i]. *)
Definition array_set a (i : number) v : jsarray A :=
  match i with
  | Num z => if bool_decide (0 ≤ z)%Z then array_set_at a (Z.to_nat z) v else a
  | NaN => a
  end.

(** Every slot below [n] is filled. *)
Definition filled_below a n : Prop := ∀ j, j < n → is_Some (array_get a j).

(** ** Reads after [new Array] *)

Lemma new_Array_NaN : new_Array NaN = Throw RangeError.
Proof. done. Qed.

Lemma new_Array_small n :
  (Z.of_nat n < 2 ^ 32)%Z → new_Array (Num (Z.of_nat n)) = Val (replicate n None).
Proof.
  intros H. unfold new_Array. rewrite bool_decide_eq_true_2, Nat2Z.id; [done|lia].
Qed.

Lemma array_get_replicate n j : array_get (replicate n (@None A)) j = None.
Proof.
  unfold array_get. destruct (decide (j < n)).
  - by rewrite lookup_replicate_2.
  - rewrite lookup_ge_None_2; [done|]. rewrite length_replicate. lia.
Qed.

Lemma array_get_ge a j : length a ≤ j → array_get a j = None.
Proof. intros H. unfold array_get. by rewrite lookup_ge_None_2. Qed.

(** ** Reads after a store *)

Lemma length_array_set_at a i v : length (array_set_at a i v) = Nat.max (length a) (S i).
Proof.
  unfold array_set_at. case_decide.
  - rewrite length_insert. lia.
  - rewrite !length_app, length_replicate. cbn. lia.
Qed.

Lemma array_get_set_at_eq a i v : array_get (array_set_at a i v) i = Some v.
Proof.
  unfold array_get, array_set_at. case_decide.
  - by rewrite list_lookup_insert_eq.
  - rewrite lookup_app_r by lia. rewrite lookup_app_r by (rewrite length_replicate; lia).
    rewrite length_replicate. by replace (i - length a - (i - length a)) with 0 by lia.
Qed.

Lemma array_get_set_at_ne a i j v : i ≠ j → array_get (array_set_at a i v) j = array_get a j.
Proof.
  intros Hne. unfold array_get, array_set_at. case_decide.
  - by rewrite list_lookup_insert_ne.
  - destruct (decide (j < length a)) as [Hj|Hj]; [by rewrite lookup_app_l|].
    rewrite (lookup_ge_None_2 a j) by lia. rewrite lookup_app_r by lia.
    destruct (decide (j - length a < i - length a)) as [Hlt|Hge].
    + rewrite lookup_app_l by (by rewrite length_replicate).
      by rewrite lookup_replicate_2.
    + rewrite lookup_app_r by (rewrite length_replicate; lia).
      rewrite length_replicate. rewrite lookup_ge_None_2; [done|]. cbn. lia.
Qed.

Lemma array_get_set_at a i j v :
  array_get (array_set_at a i v) j = if decide (i = j) then Some v else array_get a j.
Proof.
  case_decide; [subst; apply array_get_set_at_eq | by apply array_get_set_at_ne].
Qed.

(** A store that is no index changes no slot. *)
Lemma array_set_NaN a v : array_set a NaN v = a.
Proof. done. Qed.

Lemma array_set_nat a i v : array_set a (Num (Z.of_nat i)) v = array_set_at a i v.
Proof. unfold array_set. rewrite bool_decide_eq_true_2 by lia. by rewrite Nat2Z.id. Qed.

(** A store never empties a filled slot. *)
Lemma array_get_set_is_Some a (i : number) v j :
  is_Some (array_get a j) → is_Some (array_get (array_set a i v) j).
Proof.
  intros H. destruct i as [|z]; cbn; [done|]. case_bool_decide; [|done].
  rewrite array_get_set_at. by case_decide.
Qed.

(** The slots after a store, by position. *)
Lemma lookup_array_set_at a i v j :
  array_set_at a i v !! j =
    if decide (j = i) then Some (Some v)
    else if decide (j < length a) then a !! j
    else if decide (j < i) then Some None else None.
Proof.
  unfold array_set_at. destruct (decide (i < length a)) as [Hi|Hi].
  - destruct (decide (j = i)) as [->|Hne]; [by rewrite list_lookup_insert_eq|].
    rewrite list_lookup_insert_ne by done. case_decide; [done|].
    rewrite lookup_ge_None_2 by lia. by rewrite decide_False by lia.
  - destruct (decide (j = i)) as [->|Hne].
    + rewrite lookup_app_r, lookup_app_r by (rewrite ?length_replicate; lia).
      rewrite length_replicate. by replace (i - length a - (i - length a)) with 0 by lia.
    + destruct (decide (j < length a)); [by rewrite lookup_app_l|].
      rewrite lookup_app_r by lia. destruct (decide (j < i)).
      * rewrite lookup_app_l by (rewrite length_replicate; lia).
        by rewrite lookup_replicate_2 by lia.
      * rewrite lookup_ge_None_2; [done|].
        rewrite length_app, length_replicate. cbn. lia.
Qed.

(** A second store at the same place replaces the first. *)
Lemma array_set_at_overwrite a i v w :
  array_set_at (array_set_at a i v) i w = array_set_at a i w.
Proof.
  apply list_eq. intros j. rewrite !lookup_array_set_at, length_array_set_at.
  repeat case_decide; try done; lia.
Qed.

Lemma array_set_overwrite a (i : number) v w :
  array_set (array_set a i v) i w = array_set a i w.
Proof.
  destruct i as [|z]; cbn; [done|]. case_bool_decide; [apply array_set_at_overwrite|done].
Qed.

Lemma filled_below_mono a n m : m ≤ n → filled_below a n → filled_below a m.
Proof. intros Hle H j Hj. apply H. lia. Qed.

Lemma filled_below_length a n : filled_below a n → n ≤ length a.
Proof.
  intros H. destruct (decide (n ≤ length a)) as [|Hn]; [done|].
  destruct (H (length a)) as [x Hx]; [lia|]. by rewrite array_get_ge in Hx.
Qed.

Lemma filled_below_Forall a n :
  filled_below a n ↔ Forall (λ j, is_Some (array_get a j)) (seq 0 n).
Proof.
  unfold filled_below. rewrite Forall_forall. setoid_rewrite elem_of_seq.
  split; intros H j Hj; apply H; lia.
Qed.

#[export] Instance filled_below_dec a n : Decision (filled_below a n) :=
  match decide (Forall (λ j, is_Some (array_get a j)) (seq 0 n)) with
  | left H => left (proj2 (filled_below_Forall a n) H)
  | right H => right (λ H', H (proj1 (filled_below_Forall a n) H'))
  end.

End jsarray.

#[export] Hint Rewrite @array_get_set_at_eq @array_get_replicate @array_set_NaN
  @array_set_nat : txmex.
