(* ===== verification/JsObject.v ===== *)
(** * JsObject: JavaScript objects used as maps

    An object that the sources use as a map ([this.bmnodes] of
    src/TMNet.js) is the list of its own properties in the order of their
    creation.  [obj_get o k] is the read [o[k]], [obj_set o k v] the store
    [o[k] = v], which keeps the place of a property that exists and appends a
    new one, and [obj_delete o k] is [delete o[k]].

    [obj_keys o] is the order in which [for (var k in o)] visits the
    properties: first the keys that are array indices (the decimal text of
    an integer below 2^32 - 1, without leading zeros) in ascending numeric
    order, then the other keys in the order of their creation.

    [obj_read o k] is the read with the prototype of [{}] behind the
    object: a key that the object does not have finds what
    [Object.prototype] has under that name.  A store under the name
    [__proto__], which replaces the prototype, is not modelled.

    [obj_map o] is the finite map an object stands for, and [obj_equiv]
    the equivalence of objects with the same map. *)

From stdpp Require Import pretty sorting gmap.
From S2P Require Import Prelude.
From S2P Require Import JsString.

(** ** Array indices *)

(** The value of a text made of decimal digits only. *)
Fixpoint decimal_go (acc : N) (s : string) : option N :=
  match s with
  | EmptyString => Some acc
  | String c s' =>
      let d := nat_of_ascii c in
      if bool_decide (48 ≤ d ≤ 57) then decimal_go (10 * acc + N.of_nat (d - 48)) s'
      else None
  end.

Definition decimal (s : string) : option N :=
  match s with
  | EmptyString => None
  | _ => decimal_go 0 s
  end.

(** [array_index k]: the index that the key [k] denotes, if it is the
    canonical text of an integer below 2^32 - 1. *)
Definition array_index (k : string) : option N :=
  n ← decimal k;
  if bool_decide (pretty n = k ∧ (n < 2 ^ 32 - 1)%N) then Some n else None.

Lemma array_index_Some (k : string) (n : N) :
  array_index k = Some n → pretty n = k ∧ (n < 2 ^ 32 - 1)%N.
Proof.
  unfold array_index. destruct (decimal k) as [m|]; cbn; [|done].
  case_bool_decide; [|done]. by intros [= <-].
Qed.

(** ** The decimal text of a number *)

Lemma decimal_go_digit (acc d : N) (s : string) :
  (d < 10)%N →
  decimal_go acc (String (pretty_N_char d) s) = decimal_go (10 * acc + d) s.
Proof.
  intros Hd. assert (d ∈ N.of_nat <$> seq 0 10) as Hin.
  { apply list_elem_of_fmap. exists (N.to_nat d). split; [lia|]. apply elem_of_seq. lia. }
  cbn in Hin. repeat (apply elem_of_cons in Hin as [->|Hin]; [done|]).
  by apply elem_of_nil in Hin.
Qed.

Lemma decimal_go_pretty (x : N) :
  ∃ k : N, ∀ acc s, decimal_go acc (pretty_N_go x s) = decimal_go (acc * 10 ^ k + x) s.
Proof.
  induction (N.lt_wf_0 x) as [x _ IH]. destruct (decide (x = 0)%N) as [->|Hx].
  - exists 0%N. intros acc s. rewrite pretty_N_go_0. f_equal. lia.
  - destruct (IH (x `div` 10)%N) as [k Hk]; [apply N.div_lt; lia|].
    exists (k + 1)%N. intros acc s. rewrite pretty_N_go_step by lia.
    rewrite Hk, decimal_go_digit by (apply N.mod_lt; lia). f_equal.
    rewrite N.pow_add_r. pose proof (N.div_mod x 10). lia.
Qed.

(** [decimal] reads back the text of a number. *)
Lemma decimal_pretty (n : N) : decimal (pretty n) = Some n.
Proof.
  unfold pretty, pretty_N. case_decide as Hn; [by subst|].
  destruct (decimal_go_pretty n) as [k Hk]. unfold decimal.
  destruct (pretty_N_go n EmptyString) eqn:E.
  - specialize (Hk 1%N EmptyString). rewrite E in Hk. cbn in Hk. simplify_eq. lia.
  - rewrite <- E, Hk. cbn. f_equal; lia.
Qed.

Lemma array_index_pretty (n : N) : (n < 2 ^ 32 - 1)%N → array_index (pretty n) = Some n.
Proof.
  intros Hn. unfold array_index. rewrite decimal_pretty. cbn.
  by rewrite bool_decide_eq_true_2.
Qed.

Section jsobject.
Context {A : Type}.
Implicit Types (o : list (string * A)) (k : string) (v : A).

(** [o[k]]. *)
Fixpoint obj_get o k : option A :=
  match o with
  | [] => None
  | (k', v) :: o' => if decide (k' = k) then Some v else obj_get o' k
  end.

(** [o[k] = v]. *)
Fixpoint obj_set o k v : list (string * A) :=
  match o with
  | [] => [(k, v)]
  | (k', v') :: o' => if decide (k' = k) then (k, v) :: o' else (k', v') :: obj_set o' k v
  end.

(** [delete o[k]]. *)
Definition obj_delete o k : list (string * A) := filter (λ p, p.1 ≠ k) o.

(** The order of [for (var k in o)]. *)
Definition obj_keys o : list string :=
  (pretty <$> merge_sort N.le (omap array_index o.*1))
  ++ filter (λ k, array_index k = None) o.*1.

(** An object has each property once. *)
Definition obj_wf o : Prop := NoDup o.*1.

(** ** Reads after a store or a removal *)

Lemma obj_get_Some o k v : obj_get o k = Some v → (k, v) ∈ o.
Proof.
  induction o as [|[k' v'] o IH]; cbn; [done|]. case_decide as Hk.
  - intros [= <-]. subst. left.
  - intros H. right. by apply IH.
Qed.

Lemma obj_get_is_Some o k : is_Some (obj_get o k) ↔ k ∈ o.*1.
Proof.
  induction o as [|[k' v'] o IH]; cbn.
  - rewrite elem_of_nil. split; [by intros [? ?]|done].
  - rewrite elem_of_cons. case_decide as Hk; [naive_solver|].
    rewrite IH. naive_solver.
Qed.

Lemma obj_get_None o k : obj_get o k = None ↔ k ∉ o.*1.
Proof. rewrite <- obj_get_is_Some, eq_None_not_Some. done. Qed.

Lemma obj_get_set_eq o k v : obj_get (obj_set o k v) k = Some v.
Proof.
  induction o as [|[k' v'] o IH]; cbn; [by rewrite decide_True|].
  case_decide as Hk; cbn; [by rewrite decide_True|]. by rewrite decide_False.
Qed.

Lemma obj_get_set_ne o k k' v : k ≠ k' → obj_get (obj_set o k v) k' = obj_get o k'.
Proof.
  intros Hne. induction o as [|[k1 v1] o IH]; cbn; [by rewrite decide_False|].
  case_decide as Hk; cbn; [subst; by rewrite !decide_False|].
  case_decide; [done|apply IH].
Qed.

Lemma obj_get_delete_eq o k : obj_get (obj_delete o k) k = None.
Proof.
  apply obj_get_None. unfold obj_delete. rewrite list_elem_of_fmap.
  intros ([k' v'] & -> & [Hk _]%list_elem_of_filter). by apply Hk.
Qed.

Lemma obj_get_delete_ne o k k' : k ≠ k' → obj_get (obj_delete o k) k' = obj_get o k'.
Proof.
  intros Hne. unfold obj_delete. induction o as [|[k1 v1] o IH]; [done|].
  rewrite filter_cons. cbn [fst]. destruct (decide (k1 = k)) as [->|Hk1].
  - rewrite decide_False by (intros H; by apply H). cbn [obj_get].
    rewrite decide_False by done. apply IH.
  - rewrite decide_True by done. cbn [obj_get]. case_decide; [done|apply IH].
Qed.

(** ** The keys *)

Lemma obj_set_keys_old o k v : k ∈ o.*1 → (obj_set o k v).*1 = o.*1.
Proof.
  induction o as [|[k' v'] o IH]; cbn; [by intros ?%elem_of_nil|].
  case_decide as Hk; cbn; [by subst|].
  intros [?|Hin]%elem_of_cons; [done|]. by rewrite IH.
Qed.

Lemma obj_set_keys_new o k v : k ∉ o.*1 → (obj_set o k v).*1 = o.*1 ++ [k].
Proof.
  induction o as [|[k' v'] o IH]; cbn; [done|].
  intros [Hne Hnotin]%not_elem_of_cons. rewrite decide_False by done. cbn.
  by rewrite IH.
Qed.

Lemma obj_delete_keys o k : (obj_delete o k).*1 = filter (λ k', k' ≠ k) o.*1.
Proof.
  unfold obj_delete. induction o as [|[k' v'] o IH]; [done|].
  rewrite fmap_cons, !filter_cons. cbn [fst]. case_decide; cbn [fmap list_fmap fst];
    by rewrite <- IH.
Qed.

Lemma obj_set_wf o k v : obj_wf o → obj_wf (obj_set o k v).
Proof.
  unfold obj_wf. intros Hwf. destruct (decide (k ∈ o.*1)) as [Hin|Hnotin].
  - by rewrite obj_set_keys_old.
  - rewrite obj_set_keys_new by done. apply NoDup_app. split_and!; [done| |apply NoDup_singleton].
    intros k' Hk' ->%list_elem_of_singleton. done.
Qed.

Lemma obj_delete_wf o k : obj_wf o → obj_wf (obj_delete o k).
Proof. unfold obj_wf. rewrite obj_delete_keys. apply NoDup_filter. Qed.

Lemma keys_split (ks : list string) :
  (pretty <$> omap array_index ks) ++ filter (λ k, array_index k = None) ks ≡ₚ ks.
Proof.
  induction ks as [|k ks IH]; [done|]. rewrite filter_cons. csimpl.
  destruct (array_index k) as [n|] eqn:E; csimpl.
  - apply array_index_Some in E as [<- _]. by rewrite IH.
  - by rewrite <- Permutation_middle, IH.
Qed.

(** The loop visits every property once. *)
Lemma obj_keys_Permutation o : obj_keys o ≡ₚ o.*1.
Proof. unfold obj_keys. rewrite merge_sort_Permutation. apply keys_split. Qed.

Lemma elem_of_obj_keys o k : k ∈ obj_keys o ↔ is_Some (obj_get o k).
Proof. by rewrite obj_keys_Permutation, obj_get_is_Some. Qed.

Lemma omap_array_index_None (ks : list string) :
  Forall (λ k, array_index k = None) ks →
  omap array_index ks = [] ∧ filter (λ k, array_index k = None) ks = ks.
Proof.
  induction 1 as [|k ks Hk Hks [IH1 IH2]]; [done|]. rewrite filter_cons. csimpl.
  rewrite Hk. by rewrite IH1, IH2.
Qed.

(** Without array indices among the keys the loop follows the order of
    creation. *)
Lemma obj_keys_insertion_order o :
  Forall (λ k, array_index k = None) o.*1 → obj_keys o = o.*1.
Proof. intros [E1 E2]%omap_array_index_None. unfold obj_keys. by rewrite E1, E2. Qed.

End jsobject.

(** ** Inherited properties

    An object made by [{}] inherits the properties of [Object.prototype].
    None of them is enumerable, so the loop [for (k in o)] does not visit
    them, but a read [o[k]] of a key that the object does not have itself
    finds them: a function for every name but [__proto__], whose read
    returns the prototype.  What is found is no node, and it is truthy. *)

Definition inherited_names : list string :=
  [ "constructor"; "hasOwnProperty"; "isPrototypeOf"; "propertyIsEnumerable";
    "toLocaleString"; "toString"; "valueOf"; "__defineGetter__"; "__defineSetter__";
    "__lookupGetter__"; "__lookupSetter__"; "__proto__" ].

Definition inherited (k : string) : bool := bool_decide (k ∈ inherited_names).

Lemma inherited_truthy (k : string) : inherited k = true → truthy k = true.
Proof.
  intros Hin%bool_decide_eq_true. unfold inherited_names in Hin.
  repeat (apply elem_of_cons in Hin as [->|Hin]; [done|]). by apply elem_of_nil in Hin.
Qed.

(** What a read finds: a value of the object itself, or what the prototype
    has under the name. *)
Inductive Found (A : Type) : Type :=
| Own (v : A)
| FromPrototype.

Arguments Own {A} v.
Arguments FromPrototype {A}.

#[export] Instance Found_eq_dec `{EqDecision A} : EqDecision (Found A).
Proof. solve_decision. Defined.

Section obj_read.
Context {A : Type}.
Implicit Types (o : list (string * A)) (k : string) (v : A).

(** [o[k]] with the prototype behind the object. *)
Definition obj_read o k : option (Found A) :=
  match obj_get o k with
  | Some v => Some (Own v)
  | None => if inherited k then Some FromPrototype else None
  end.

Lemma obj_read_own o k v : obj_read o k = Some (Own v) ↔ obj_get o k = Some v.
Proof.
  unfold obj_read. destruct (obj_get o k); [naive_solver|]. by destruct (inherited k).
Qed.

Lemma obj_read_not_inherited o k : inherited k = false → obj_read o k = Own <$> obj_get o k.
Proof. intros Hk. unfold obj_read. rewrite Hk. by destruct (obj_get o k). Qed.

Lemma obj_read_inherited o k :
  inherited k = true → obj_get o k = None → obj_read o k = Some FromPrototype.
Proof. intros Hk Hnone. unfold obj_read. by rewrite Hnone, Hk. Qed.

Lemma obj_read_set_eq o k v : obj_read (obj_set o k v) k = Some (Own v).
Proof. unfold obj_read. by rewrite obj_get_set_eq. Qed.

Lemma obj_read_set_ne o k k' v : k ≠ k' → obj_read (obj_set o k v) k' = obj_read o k'.
Proof. intros Hne. unfold obj_read. by rewrite obj_get_set_ne. Qed.

(** After [delete] a read finds what the prototype has. *)
Lemma obj_read_delete_eq o k :
  obj_read (obj_delete o k) k = if inherited k then Some FromPrototype else None.
Proof. unfold obj_read. by rewrite obj_get_delete_eq. Qed.

Lemma obj_read_delete_ne o k k' : k ≠ k' → obj_read (obj_delete o k) k' = obj_read o k'.
Proof. intros Hne. unfold obj_read. by rewrite obj_get_delete_ne. Qed.

End obj_read.

(** ** Objects as finite maps

    What the reads of an object see is the finite map [obj_map]: the store
    is an insertion and [delete] a removal.  Objects with the same map are
    [obj_equiv]: they differ in the order of their keys only, and the reads
    do not tell them apart. *)

Section obj_map.
Context {A : Type}.
Implicit Types (o : list (string * A)) (k : string) (v : A).

Definition obj_map o : gmap string A := list_to_map o.

Definition obj_equiv o1 o2 : Prop := obj_map o1 = obj_map o2.

#[export] Instance obj_equiv_equivalence : Equivalence obj_equiv.
Proof.
  unfold obj_equiv. split; [by intros ?|by intros ? ?|]. intros ? ? ? ? ?. congruence.
Qed.

Lemma obj_map_lookup o k : obj_map o !! k = obj_get o k.
Proof.
  unfold obj_map. induction o as [|[k' v'] o IH]; cbn; [done|].
  case_decide; simplify_map_eq; done.
Qed.

Lemma obj_equiv_lookup o1 o2 : obj_equiv o1 o2 ↔ ∀ k, obj_get o1 k = obj_get o2 k.
Proof.
  unfold obj_equiv. split.
  - intros E k. by rewrite <- !obj_map_lookup, E.
  - intros E. apply map_eq. intros k. by rewrite !obj_map_lookup.
Qed.

Lemma obj_map_set o k v : obj_map (obj_set o k v) = <[k:=v]> (obj_map o).
Proof.
  apply map_eq. intros k'. rewrite obj_map_lookup.
  destruct (decide (k = k')) as [<-|Hne].
  - by rewrite obj_get_set_eq, lookup_insert_eq.
  - by rewrite obj_get_set_ne, lookup_insert_ne, obj_map_lookup.
Qed.

Lemma obj_map_delete o k : obj_map (obj_delete o k) = delete k (obj_map o).
Proof.
  apply map_eq. intros k'. rewrite obj_map_lookup.
  destruct (decide (k = k')) as [<-|Hne].
  - by rewrite obj_get_delete_eq, lookup_delete_eq.
  - by rewrite obj_get_delete_ne, lookup_delete_ne, obj_map_lookup.
Qed.

(** The loop over an object visits the domain of its map. *)
Lemma obj_map_dom o : dom (obj_map o) = list_to_set (obj_keys o).
Proof.
  apply set_eq. intros k.
  by rewrite elem_of_dom, obj_map_lookup, elem_of_list_to_set, elem_of_obj_keys.
Qed.

#[export] Instance obj_get_proper : Proper (obj_equiv ==> (=) ==> (=)) obj_get.
Proof. intros o1 o2 E k ? <-. by apply obj_equiv_lookup. Qed.

#[export] Instance obj_set_proper : Proper (obj_equiv ==> (=) ==> (=) ==> obj_equiv) obj_set.
Proof. intros o1 o2 E k ? <- v ? <-. unfold obj_equiv in *. by rewrite !obj_map_set, E. Qed.

#[export] Instance obj_delete_proper : Proper (obj_equiv ==> (=) ==> obj_equiv) obj_delete.
Proof. intros o1 o2 E k ? <-. unfold obj_equiv in *. by rewrite !obj_map_delete, E. Qed.

(** Stores under different keys commute as maps; the order of the keys
    differs when both keys are new. *)
Lemma obj_set_commute o k1 k2 v1 v2 :
  k1 ≠ k2 → obj_equiv (obj_set (obj_set o k1 v1) k2 v2) (obj_set (obj_set o k2 v2) k1 v1).
Proof. intros Hne. unfold obj_equiv. rewrite !obj_map_set. by apply insert_insert_ne. Qed.

(** A store that is removed again leaves the map of an object that did not
    have the key. *)
Lemma obj_delete_set o k v :
  obj_get o k = None → obj_equiv (obj_delete (obj_set o k v) k) o.
Proof.
  intros Hk. unfold obj_equiv. rewrite obj_map_delete, obj_map_set, delete_insert_eq.
  apply delete_id. by rewrite obj_map_lookup.
Qed.

End obj_map.
