(* ===== verification/Ledger.v ===== *)
(** * Ledger: what the sources read of a transaction, and their collaborators

    The sources receive transactions as objects of the ledger library and
    only ever read a few members of them.  A script is modelled by what the
    code observes of it: the answer of [isDataOut()], the text of
    [toString()] and the text of [toAddress(network).toString()].  An input
    or output holds a script or [null].  A transaction holds its inputs, its
    outputs and its [hash].

    The functions of TMutils and the locale-sensitive string comparison of
    the runtime are not part of the sources: the class [Collab] names them,
    the component files are written against the class, and [Collaborators]
    gives two instances. *)

From S2P Require Import Prelude.
From S2P Require Import JsString.

(** The two networks (src/TxMEx.js, lines 7 to 9). *)
Inductive network : Type :=
| livenet
| testnet.

#[export] Instance network_eq_dec : EqDecision network.
Proof. solve_decision. Defined.

(** A script, by the three observations the sources make of it. *)
Record Script : Type := mkScript {
  isDataOut : bool;
  script_toString : string;
  toAddress : network → string;
}.

(** An input: [input.script] is [null] for an input without one. *)
Record Input : Type := mkInput { in_script : option Script }.

(** An output: [output.script] is [null] when the script did not parse. *)
Record Output : Type := mkOutput { out_script : option Script }.

(** A transaction. *)
Record Transaction : Type := mkTransaction {
  inputs : list Input;
  outputs : list Output;
  hash : string;
}.

(** The argument of [extractTMMessage]: a history item that wraps a
    transaction in its [tx] member, or a transaction. *)
Inductive TxArg : Type :=
| HistoryItem (tx : Transaction)
| PlainTx (tx : Transaction).

(** ** Constants (src/TxMEx.js, lines 11 to 15) *)

Definition TX_PREFIX : string := "TM".
Definition MAX_PAYLOAD_SIZE : nat := 76.
Definition MIN_AMOUNT : Z := 546.
Definition MIN_FEE : Z := 3000.
Definition MAX_SEND_RETRY : nat := 3.

(** ** Collaborators *)

(** What the sources call and do not define: [hexToAscii], [chunkMessage],
    [isValidAddr] and [getBTCNetwork] of TMutils, and
    [String.prototype.localeCompare], whose result depends on the collation
    of the runtime. *)
Class Collab : Type := {
  hexToAscii : string → string;
  localeCompare : string → string → Z;
  chunkMessage : string → nat → list string;
  isValidAddr : string → network → bool;
  getBTCNetwork : string → network;
}.

(** A collation that tells a tag followed by a digit from the tag alone.
    Every collation that gives digits a weight has this property. *)
Class SeparatesDigits `{Collab} : Prop :=
  separates_digits : ∀ (s : string) (n : nat),
    n < 16 → localeCompare (s +:+ String (hex_digit n) EmptyString) s ≠ 0%Z.

(** A chunking that loses nothing and respects the bound. *)
Class ChunkingLaws `{Collab} : Prop := {
  chunk_concat : ∀ (msg : string) (size : nat),
    0 < size → foldr String.append EmptyString (chunkMessage msg size) = msg;
  chunk_bound : ∀ (msg : string) (size : nat) (c : string),
    0 < size → c ∈ chunkMessage msg size → 0 < String.length c ≤ size;
}.

(** ** Reading the members *)

(** [tx.inputs[0] && tx.inputs[0].script]. *)
Definition first_input_script (tx : Transaction) : option Script :=
  inputs tx !! 0 ≫= in_script.

(** [tx.outputs[0] && tx.outputs[0].script]. *)
Definition first_output_script (tx : Transaction) : option Script :=
  outputs tx !! 0 ≫= out_script.

Lemma first_input_script_Some (tx : Transaction) (s : Script) :
  first_input_script tx = Some s ↔
  ∃ i rest, inputs tx = i :: rest ∧ in_script i = Some s.
Proof.
  unfold first_input_script. destruct (inputs tx) as [|i rest]; cbn; naive_solver.
Qed.

Lemma first_output_script_Some (tx : Transaction) (s : Script) :
  first_output_script tx = Some s ↔
  ∃ o rest, outputs tx = o :: rest ∧ out_script o = Some s.
Proof.
  unfold first_output_script. destruct (outputs tx) as [|o rest]; cbn; naive_solver.
Qed.
