(* ===== verification/Collaborators.v ===== *)
(** * Collaborators: models of the code the sources call and do not contain

    Nothing in this file is translated from src/: it models, from their
    documented behaviour, the library and runtime functions the sources
    call, so that the components can be run on concrete transactions and
    the encoder can be composed with the decoder.

    - [hex_of_bytes] is [Buffer.prototype.toString('hex')] and [utf8_encode]
      is the UTF-8 encoding of a string of characters below 256.
    - [hexToAscii_pairs] is the usual definition of a [hexToAscii] helper:
      it reads its argument two characters at a time and appends
      [String.fromCharCode(parseInt(pair, 16))].  It does not skip the
      [0x] that starts a script's data token: that pair parses to NaN and
      yields the character of code 0.  [hexToAscii_exact] is the decoder
      that skips the [0x].
    - [ordinal_compare] compares code units.  [ignoring_compare] first drops
      the characters that the default collation of ICU treats as completely
      ignorable (the control characters other than white space, and the soft
      hyphen).  Only whether the result is 0 is meant to agree with the
      runtime, which is all the sources test.
    - [dataOutScript], [addressScript] and [builtTransaction] are what the
      ledger library builds for [new Transaction().from(utxos).to(dst,
      amount).change(src).addData(text)]: the payment first, the data output
      second, the change output (if any) last.
    - [chunk_by_size] cuts a string into pieces of a given size.

    [deployed] is the instance with [hexToAscii_pairs] and
    [ignoring_compare]; [literal] is the instance with [hexToAscii_exact]
    and [ordinal_compare]. *)

From stdpp Require Import pretty.
From S2P Require Import Prelude.
From S2P Require Import JsString.
From S2P Require Import Ledger.

(** ** Hexadecimal text of bytes *)

(** The two digits of one byte. *)
Definition hex_byte (c : ascii) : string :=
  let n := nat_of_ascii c in
  String (hex_digit (n / 16)) (String (hex_digit (n mod 16)) EmptyString).

(** [buf.toString('hex')]. *)
Fixpoint hex_of_bytes (bytes : string) : string :=
  match bytes with
  | EmptyString => EmptyString
  | String c rest => hex_byte c +:+ hex_of_bytes rest
  end.

(** [String.fromCharCode(n)] narrowed to 8 bits: NaN gives the character of
    code 0.  Exact for NaN and for the codes in [0, 256). *)
Definition fromCharCode (n : number) : ascii :=
  match n with
  | NaN => "000"%char
  | Num z => ascii_of_N (Z.to_N (z mod 256))
  end.

(** [hexToAscii]: pair by pair, with no special case for a leading [0x]. *)
Fixpoint hexToAscii_pairs (hex : string) : string :=
  match hex with
  | String a (String b rest) =>
      String (fromCharCode (parseInt16 (String a (String b EmptyString))))
        (hexToAscii_pairs rest)
  | String a EmptyString =>
      String (fromCharCode (parseInt16 (String a EmptyString))) EmptyString
  | EmptyString => EmptyString
  end.

(** The decoder that skips a leading [0x]. *)
Definition hexToAscii_exact (hex : string) : string := hexToAscii_pairs (strip_0x hex).

(** ** UTF-8 *)

(** The bytes of one character of code below 256. *)
Definition utf8_char (c : ascii) : string :=
  let n := nat_of_ascii c in
  if bool_decide (n < 128) then String c EmptyString
  else String (ascii_of_nat (192 + n / 64)) (String (ascii_of_nat (128 + n mod 64)) EmptyString).

(** [Buffer.from(text, 'utf8')]. *)
Fixpoint utf8_encode (text : string) : string :=
  match text with
  | EmptyString => EmptyString
  | String c rest => utf8_char c +:+ utf8_encode rest
  end.

(** Every character is below 128. *)
Fixpoint is_ascii (text : string) : bool :=
  match text with
  | EmptyString => true
  | String c rest => bool_decide (nat_of_ascii c < 128) && is_ascii rest
  end.

(** ** Collations *)

(** Comparison by code units: -1, 0 or 1. *)
Fixpoint ordinal_compare (s t : string) : Z :=
  match s, t with
  | EmptyString, EmptyString => 0
  | EmptyString, String _ _ => -1
  | String _ _, EmptyString => 1
  | String a s', String b t' =>
      match N.compare (N_of_ascii a) (N_of_ascii b) with
      | Eq => ordinal_compare s' t'
      | Lt => -1
      | Gt => 1
      end
  end.

(** The characters without any collation weight. *)
Definition ignorable (c : ascii) : bool :=
  let n := nat_of_ascii c in
  bool_decide (n ≤ 8) || bool_decide (14 ≤ n ≤ 31) || bool_decide (127 ≤ n ≤ 159)
  || bool_decide (n = 173).

Fixpoint drop_ignorable (s : string) : string :=
  match s with
  | EmptyString => EmptyString
  | String c s' => if ignorable c then drop_ignorable s' else String c (drop_ignorable s')
  end.

(** Comparison that is blind to the ignorable characters. *)
Definition ignoring_compare (s t : string) : Z :=
  ordinal_compare (drop_ignorable s) (drop_ignorable t).

(** ** Scripts and transactions as the ledger library builds them *)

(** The push opcode written before the length of a data chunk. *)
Definition push_opcode (n : nat) : string :=
  if bool_decide (n < 76) then EmptyString
  else if bool_decide (n < 256) then "OP_PUSHDATA1 "
  else if bool_decide (n < 256 * 256) then "OP_PUSHDATA2 "
  else "OP_PUSHDATA4 ".

(** The script of [addData(bytes)]: [OP_RETURN] and one push.  It is a data
    output when the push holds at most 80 bytes. *)
Definition dataOutScript (bytes : string) : Script :=
  let n := String.length bytes in
  {| isDataOut := bool_decide (n ≤ 80);
     script_toString :=
       if bool_decide (n = 0) then "OP_RETURN"
       else "OP_RETURN " +:+ push_opcode n +:+ pretty n +:+ " 0x" +:+ hex_of_bytes bytes;
     toAddress := λ _, "false" |}.

(** A script that pays to or spends from [addr]; [text] is its text. *)
Definition addressScript (addr text : string) : Script :=
  {| isDataOut := false; script_toString := text; toAddress := λ _, addr |}.

(** The transaction built and signed for one chunk, once broadcast under the
    identifier [txid]: [more_inputs] are the inputs after the first and
    [change] is the change output, if there is one. *)
Definition builtTransaction (src dst text txid : string)
    (more_inputs : list Input) (change : list Output) : Transaction :=
  {| inputs := mkInput (Some (addressScript src "scriptSig")) :: more_inputs;
     outputs := mkOutput (Some (addressScript dst "scriptPubKey"))
                :: mkOutput (Some (dataOutScript (utf8_encode text))) :: change;
     hash := txid |}.

(** ** Chunking *)

Fixpoint chunk_go (fuel size : nat) (s : string) : list string :=
  match fuel with
  | 0 => []
  | S fuel' =>
      match s with
      | EmptyString => []
      | _ => take_str size s :: chunk_go fuel' size (drop_str size s)
      end
  end.

(** Pieces of [size] characters, the last one shorter when the length is
    no multiple of [size]; nothing for the empty string.  The fuel is the
    length of the string: every piece takes at least one character when
    [size] is positive. *)
Definition chunk_by_size (s : string) (size : nat) : list string :=
  chunk_go (String.length s) size s.

(** ** The two instances *)

Section instances.
Context (valid : string → network → bool) (net : string → network).

Definition deployed : Collab :=
  {| hexToAscii := hexToAscii_pairs;
     localeCompare := ignoring_compare;
     chunkMessage := chunk_by_size;
     isValidAddr := valid;
     getBTCNetwork := net |}.

Definition literal : Collab :=
  {| hexToAscii := hexToAscii_exact;
     localeCompare := ordinal_compare;
     chunkMessage := chunk_by_size;
     isValidAddr := valid;
     getBTCNetwork := net |}.

End instances.

(** The instance the examples run on: every address is valid and on the
    test network. *)
Definition example_collab : Collab := deployed (λ _ _, true) (λ _, testnet).

(** ** Hexadecimal round trip *)

Lemma fromCharCode_hex_byte (c : ascii) : fromCharCode (parseInt16 (hex_byte c)) = c.
Proof. by destruct c as [[] [] [] [] [] [] [] []]. Qed.

Lemma hex_byte_cons (c : ascii) (rest : string) :
  hex_byte c +:+ rest =
  String (hex_digit (nat_of_ascii c / 16)) (String (hex_digit (nat_of_ascii c mod 16)) rest).
Proof. done. Qed.

Lemma hexToAscii_pairs_hex (bytes : string) : hexToAscii_pairs (hex_of_bytes bytes) = bytes.
Proof.
  induction bytes as [|c rest IH]; [done|].
  cbn [hex_of_bytes]. rewrite hex_byte_cons. cbn [hexToAscii_pairs].
  rewrite IH. f_equal. apply fromCharCode_hex_byte.
Qed.

(** The pair [0x] parses to NaN and becomes the character of code 0. *)
Lemma hexToAscii_pairs_0x (hex : string) :
  hexToAscii_pairs ("0x" +:+ hex) = String "000"%char (hexToAscii_pairs hex).
Proof. done. Qed.

Lemma hexToAscii_exact_0x (bytes : string) :
  hexToAscii_exact ("0x" +:+ hex_of_bytes bytes) = bytes.
Proof. unfold hexToAscii_exact. str_simpl. apply hexToAscii_pairs_hex. Qed.

Lemma occurs_append (c : ascii) (s t : string) :
  occurs c (s +:+ t) = occurs c s || occurs c t.
Proof. induction s as [|d s IH]; str_simpl; [done|]. by rewrite IH, orb_assoc. Qed.

Lemma occurs_space_hex (bytes : string) : occurs " "%char (hex_of_bytes bytes) = false.
Proof.
  induction bytes as [|c rest IH]; [done|]. cbn [hex_of_bytes].
  rewrite hex_byte_cons. cbn [occurs]. rewrite IH.
  rewrite !bool_decide_eq_false_2; [done|..]; intros E; by eapply hex_digit_not_blank.
Qed.

(** The last token of the text of a data script is its payload in
    hexadecimal, after [0x]. *)
Lemma split_last_dataOutScript (bytes : string) :
  bytes ≠ EmptyString →
  split_last (script_toString (dataOutScript bytes)) " "%char = "0x" +:+ hex_of_bytes bytes.
Proof.
  intros Hne. cbn [dataOutScript script_toString].
  rewrite bool_decide_eq_false_2 by (by destruct bytes).
  rewrite <- !append_assoc.
  rewrite (append_assoc _ " 0x"). change (" 0x" +:+ ?h) with (String " "%char ("0x" +:+ h)).
  apply split_last_app. str_simpl. apply occurs_space_hex.
Qed.

(** ** UTF-8 *)

Lemma utf8_encode_ascii (text : string) : is_ascii text = true → utf8_encode text = text.
Proof.
  induction text as [|c rest IH]; [done|]. cbn [is_ascii utf8_encode].
  intros [Hc Hrest]%andb_true_iff. unfold utf8_char. rewrite Hc. str_simpl.
  by rewrite IH.
Qed.

Lemma length_utf8_encode (text : string) :
  String.length text ≤ String.length (utf8_encode text).
Proof.
  induction text as [|c rest IH]; [done|]. cbn [utf8_encode]. unfold utf8_char.
  case_bool_decide; str_simpl; lia.
Qed.

(** ** Collations *)

Lemma ordinal_compare_eq (s t : string) : ordinal_compare s t = 0%Z ↔ s = t.
Proof.
  revert t. induction s as [|a s IH]; intros [|b t]; cbn; try done.
  destruct (N.compare_spec (N_of_ascii a) (N_of_ascii b)) as [E|E|E].
  - rewrite IH. assert (a = b) as ->; [|naive_solver].
    by rewrite <- (ascii_N_embedding a), <- (ascii_N_embedding b), E.
  - split; [done|]. intros [= -> _]. lia.
  - split; [done|]. intros [= -> _]. lia.
Qed.

Lemma ignoring_compare_eq (s t : string) :
  ignoring_compare s t = 0%Z ↔ drop_ignorable s = drop_ignorable t.
Proof. apply ordinal_compare_eq. Qed.

Lemma hex_digit_not_ignorable (n : nat) : ignorable (hex_digit n) = false.
Proof. all_hex_digits n. Qed.

Lemma drop_ignorable_append (s t : string) :
  drop_ignorable (s +:+ t) = drop_ignorable s +:+ drop_ignorable t.
Proof.
  induction s as [|c s IH]; str_simpl; [done|].
  destruct (ignorable c); str_simpl; by rewrite IH.
Qed.

Lemma append_digit_ne (s : string) (c : ascii) : s +:+ String c EmptyString ≠ s.
Proof.
  intros E. apply (f_equal String.length) in E. rewrite length_append in E. cbn in E. lia.
Qed.

Section instance_laws.
Context (valid : string → network → bool) (net : string → network).

#[export] Instance literal_separates : @SeparatesDigits (literal valid net).
Proof.
  intros s n Hn. cbn. rewrite ordinal_compare_eq. apply append_digit_ne.
Qed.

#[export] Instance deployed_separates : @SeparatesDigits (deployed valid net).
Proof.
  intros s n Hn. cbn. rewrite ignoring_compare_eq, drop_ignorable_append. cbn.
  rewrite hex_digit_not_ignorable. apply append_digit_ne.
Qed.

End instance_laws.

(** ** Chunking *)

Lemma chunk_go_concat (fuel size : nat) (s : string) :
  0 < size → String.length s ≤ fuel →
  foldr String.append EmptyString (chunk_go fuel size s) = s.
Proof.
  intros Hsize. revert s. induction fuel as [|fuel IH]; intros s Hlen.
  - destruct s; cbn in *; [done|lia].
  - destruct s as [|c s]; [done|]. cbn [chunk_go foldr].
    rewrite IH; [apply take_drop_str|].
    rewrite length_drop_str. cbn in *. lia.
Qed.

Lemma chunk_go_bound (fuel size : nat) (s c : string) :
  0 < size → c ∈ chunk_go fuel size s → 0 < String.length c ≤ size.
Proof.
  intros Hsize. revert s. induction fuel as [|fuel IH]; intros s; cbn; [by intros ?%elem_of_nil|].
  destruct s as [|d s]; [by intros ?%elem_of_nil|].
  intros [->|Hin]%elem_of_cons; [|by eapply IH].
  rewrite length_take_str. cbn. lia.
Qed.

(** The number of pieces is the length divided by the size, rounded up. *)
Lemma length_chunk_go (fuel size : nat) (s : string) :
  0 < size → String.length s ≤ fuel →
  length (chunk_go fuel size s) = (String.length s + size - 1) / size.
Proof.
  intros Hsize. revert s. induction fuel as [|fuel IH]; intros s Hlen.
  - destruct s; [|cbn in Hlen; lia]. cbn. symmetry. apply Nat.div_small. lia.
  - destruct s as [|c s]; [cbn; symmetry; apply Nat.div_small; lia|].
    cbn [chunk_go length]. rewrite IH by (rewrite length_drop_str; cbn in *; lia).
    rewrite length_drop_str. set (n := String.length (String c s)).
    assert (0 < n) by (unfold n; cbn; lia).
    destruct (decide (n ≤ size)) as [Hle|Hgt].
    + replace (n - size) with 0 by lia.
      rewrite (Nat.div_small (0 + size - 1)) by lia.
      replace (n + size - 1) with ((n - 1) + 1 * size) by lia.
      rewrite Nat.div_add by lia. rewrite Nat.div_small; lia.
    + replace (n + size - 1) with ((n - size + size - 1) + 1 * size) by lia.
      rewrite Nat.div_add by lia. lia.
Qed.

Lemma length_chunk_by_size (s : string) (size : nat) :
  0 < size → length (chunk_by_size s size) = (String.length s + size - 1) / size.
Proof. intros. by apply length_chunk_go. Qed.

Lemma chunk_by_size_empty (size : nat) : chunk_by_size EmptyString size = [].
Proof. done. Qed.

(** A string that fits in one piece is its only piece. *)
Lemma chunk_by_size_one (s : string) (size : nat) :
  s ≠ EmptyString → String.length s ≤ size → chunk_by_size s size = [s].
Proof.
  intros Hne Hlen. unfold chunk_by_size. destruct s as [|c s]; [done|].
  cbn [String.length chunk_go]. rewrite take_str_ge, drop_str_ge by done.
  by destruct (String.length s).
Qed.

Section chunk_laws.
Context (valid : string → network → bool) (net : string → network).

#[export] Instance deployed_chunking : @ChunkingLaws (deployed valid net).
Proof.
  split; cbn; unfold chunk_by_size.
  - intros msg size Hsize. by apply chunk_go_concat.
  - intros msg size c Hsize. by apply chunk_go_bound.
Qed.

#[export] Instance literal_chunking : @ChunkingLaws (literal valid net).
Proof.
  split; cbn; unfold chunk_by_size.
  - intros msg size Hsize. by apply chunk_go_concat.
  - intros msg size c Hsize. by apply chunk_go_bound.
Qed.

End chunk_laws.
