(* ===== verification/Codec.v ===== *)
(** * Codec: classifying a transaction and decoding its frame

    The three leaf functions of src/TxMEx.js: [_getTxData] (lines 28 to 42),
    [isTMTransaction] (lines 48 to 62) and [extractTMMessage] (lines 68 to
    81), and the frame header that [sendTMMessage] writes (lines 114 to
    116).  The functions are written against the collaborators of [Collab];
    each returns a [res] because a missing script makes the code call a
    method of [null].

    The theorems give the result of the classifier on every kind of
    transaction, say exactly when it throws, and relate the decoder's fixed
    offsets (3, 4 and 5) to the offsets at which the encoder writes (2, 3
    and 4). *)

From S2P Require Import Prelude.
From S2P Require Import JsString.
From S2P Require Import Ledger.
From S2P Require Import Collaborators.

(** The object [extractTMMessage] returns: [{seq, len, msg}]. *)
Record TMMessage : Type := mkTMMessage {
  seq : number;
  len : number;
  msg : string;
}.

#[export] Instance TMMessage_eq_dec : EqDecision TMMessage.
Proof. solve_decision. Defined.

(** The header [TX_PREFIX + len + seqcode] of the chunk [seqno] of
    [nchunks] (lines 114 to 116). *)
Definition frame_prefix (nchunks seqno : nat) : string :=
  TX_PREFIX +:+ toString16 nchunks +:+ toString16 seqno.

(** The text handed to [addData]: [prefix + chunks[seq]] (line 124). *)
Definition frame (nchunks seqno : nat) (chunk : string) : string :=
  frame_prefix nchunks seqno +:+ chunk.

Section codec.
Context `{Collab}.

(** [_getTxData(tx, index)]: the decoded text of output [index - 1], [null]
    when there is no such output or its script is no data output. *)
Definition _getTxData (tx : Transaction) (index : nat) : res (option string) :=
  match index with
  | 0 => Val None
  | S i =>
      match outputs tx !! i with
      | None => Val None
      | Some txOut =>
          match out_script txOut with
          | None => Throw TypeError
          | Some script =>
              if negb (isDataOut script) then Val None
              else
                let msgcode := split_last (script_toString script) " " in
                Val (Some (hexToAscii msgcode))
          end
      end
  end.

(** [isTMTransaction(tx)]. *)
Definition isTMTransaction (tx : Transaction) : res bool :=
  match first_input_script tx, first_output_script tx with
  | Some _, Some _ =>
      if bool_decide (length (outputs tx) < 2) then Val false
      else
        data ← _getTxData tx 2;
        match data with
        | None => Val false
        | Some data =>
            if negb (truthy data) then Val false
            else
              let TMcode := substring data 0 3 in
              if bool_decide (localeCompare TMcode TX_PREFIX ≠ 0%Z) then Val false
              else Val true
        end
  | _, _ => Val false
  end.

(** [if(tx.tx) tx = tx.tx] (line 69). *)
Definition unwrap_tx (a : TxArg) : Transaction :=
  match a with
  | HistoryItem tx => tx
  | PlainTx tx => tx
  end.

(** The three fields read off the decoded text (lines 76 to 80). *)
Definition decode_data (data : string) : TMMessage :=
  let msglen := parseInt16 (charAt data 3) in
  let msgseq := parseInt16 (charAt data 4) in
  let msg := slice data 5 in
  {| seq := msgseq; len := msglen; msg := msg |}.

(** [extractTMMessage(tx)]. *)
Definition extractTMMessage (a : TxArg) : res (option TMMessage) :=
  let tx := unwrap_tx a in
  ok ← isTMTransaction tx;
  if negb ok then Val None
  else
    match outputs tx !! 1 ≫= out_script with
    | None => Throw TypeError
    | Some script =>
        let data := hexToAscii (split_last (script_toString script) " ") in
        Val (Some (decode_data data))
    end.

(** ** The data of the second output *)

(** The decoded text of a data output at position 1: what both the
    classifier and the decoder read. *)
Definition second_output_data (tx : Transaction) : option string :=
  script ← outputs tx !! 1 ≫= out_script;
  if isDataOut script then Some (hexToAscii (split_last (script_toString script) " "))
  else None.

Lemma _getTxData_out_of_range (tx : Transaction) (index : nat) :
  length (outputs tx) < index → _getTxData tx index = Val None.
Proof.
  intros Hlen. destruct index as [|i]; [done|]. cbn.
  rewrite lookup_ge_None_2; [done | lia].
Qed.

Lemma _getTxData_null_script (tx : Transaction) (i : nat) (o : Output) :
  outputs tx !! i = Some o → out_script o = None →
  _getTxData tx (S i) = Throw TypeError.
Proof. intros Ho Hs. cbn. by rewrite Ho, Hs. Qed.

Lemma _getTxData_2 (tx : Transaction) (o : Output) (script : Script) :
  outputs tx !! 1 = Some o → out_script o = Some script →
  _getTxData tx 2 = Val (second_output_data tx).
Proof.
  intros Ho Hs. unfold second_output_data. cbn. rewrite Ho. cbn. rewrite Hs. cbn.
  by destruct (isDataOut script).
Qed.

Lemma second_output_data_Some (tx : Transaction) (data : string) :
  second_output_data tx = Some data ↔
  ∃ o script, outputs tx !! 1 = Some o ∧ out_script o = Some script ∧
    isDataOut script = true ∧
    data = hexToAscii (split_last (script_toString script) " ").
Proof.
  unfold second_output_data. split.
  - destruct (outputs tx !! 1) as [o|] eqn:Ho; cbn; [|done].
    destruct (out_script o) as [script|] eqn:Hs; cbn; [|done].
    destruct (isDataOut script) eqn:Hd; [|done]. intros [= <-]. eauto 10.
  - intros (o & script & -> & Hs & Hd & ->). cbn. rewrite Hs. cbn. by rewrite Hd.
Qed.

(** ** The classifier on every kind of transaction *)

(** The verdict of lines 55 to 61 on the decoded text: it is not empty and
    its first three characters compare equal to the tag. *)
Definition tag_matches (data : option string) : bool :=
  match data with
  | Some data =>
      truthy data && bool_decide (localeCompare (substring data 0 3) TX_PREFIX = 0%Z)
  | None => false
  end.

(** [isTMTransaction] on every branch: it answers [false] unless the
    first input and the first output have scripts and there is a second
    output; it throws a TypeError when that second output has no script;
    otherwise it answers whether the decoded text of the second output is
    not empty and starts with something that compares equal to the tag. *)
Lemma isTMTransaction_cases (tx : Transaction) :
  isTMTransaction tx =
    match first_input_script tx, first_output_script tx, outputs tx !! 1 with
    | Some _, Some _, Some o =>
        match out_script o with
        | Some _ => Val (tag_matches (second_output_data tx))
        | None => Throw TypeError
        end
    | _, _, _ => Val false
    end.
Proof.
  unfold isTMTransaction.
  destruct (first_input_script tx), (first_output_script tx); try done;
    try by destruct (outputs tx !! 1) as [[[]]|].
  case_bool_decide as Hlen; [by rewrite lookup_ge_None_2 by lia|].
  destruct (lookup_lt_is_Some_2 (outputs tx) 1) as [o Ho]; [lia|]. rewrite Ho.
  destruct (out_script o) as [script|] eqn:Hs.
  - rewrite (_getTxData_2 tx o script Ho Hs). cbn.
    destruct (second_output_data tx) as [data|]; cbn; [|done].
    destruct (truthy data); cbn; [|done].
    by destruct (decide (localeCompare (substring data 0 3) TX_PREFIX = 0%Z));
      [rewrite bool_decide_eq_false_2, bool_decide_eq_true_2 by auto
      |rewrite bool_decide_eq_true_2, bool_decide_eq_false_2 by auto].
  - by rewrite (_getTxData_null_script tx 1 o Ho Hs).
Qed.

(** Non-frame rejection, first part: a transaction with fewer than two
    outputs is answered [false], and nothing is thrown. *)
Theorem isTMTransaction_few_outputs (tx : Transaction) :
  length (outputs tx) < 2 → isTMTransaction tx = Val false.
Proof.
  intros Hlen. rewrite isTMTransaction_cases, (lookup_ge_None_2 _ 1) by lia.
  by destruct (first_input_script tx), (first_output_script tx).
Qed.

(** Non-frame rejection, second part: a second output whose script is
    no data output is answered [false]. *)
Theorem isTMTransaction_not_data (tx : Transaction) (o : Output) (script : Script) :
  outputs tx !! 1 = Some o → out_script o = Some script → isDataOut script = false →
  isTMTransaction tx = Val false.
Proof.
  intros Ho Hs Hd. rewrite isTMTransaction_cases, Ho, Hs.
  unfold second_output_data. rewrite Ho. cbn. rewrite Hs. cbn. rewrite Hd.
  by destruct (first_input_script tx), (first_output_script tx).
Qed.

(** C38. The classifier throws exactly when the first input and the first
    output have scripts and the second output exists without one; the
    exception is a TypeError. *)
Theorem isTMTransaction_throws_iff (tx : Transaction) (e : exn) :
  isTMTransaction tx = Throw e ↔
  e = TypeError ∧ is_Some (first_input_script tx) ∧ is_Some (first_output_script tx) ∧
  ∃ o, outputs tx !! 1 = Some o ∧ out_script o = None.
Proof.
  rewrite isTMTransaction_cases.
  destruct (first_input_script tx), (first_output_script tx); rewrite ?is_Some_alt;
    try (split; [done | by intros (? & ? & ? & ?)]).
  destruct (outputs tx !! 1) as [o|]; [|split; [done | by intros (? & ? & ? & ? & ? & ?)]].
  destruct (out_script o) eqn:Hs; split; try done.
  - intros (_ & _ & _ & o' & Ho' & Hs'). congruence.
  - intros [= <-]. eauto 10.
  - by intros (-> & _).
Qed.

(** The classifier answers [true] exactly when all the structural tests
    pass and the tag test accepts the decoded text. *)
Lemma isTMTransaction_true_iff (tx : Transaction) :
  isTMTransaction tx = Val true ↔
  is_Some (first_input_script tx) ∧ is_Some (first_output_script tx) ∧
  tag_matches (second_output_data tx) = true.
Proof.
  rewrite isTMTransaction_cases. unfold second_output_data.
  destruct (first_input_script tx), (first_output_script tx); rewrite ?is_Some_alt;
    try (split; [done | by intros (? & ? & ?)]).
  destruct (outputs tx !! 1) as [o|]; cbn; [|split; [done | by intros (? & ? & ?)]].
  destruct (out_script o); cbn;
    (split; [intros [= E]; by rewrite E | intros (_ & _ & E); by rewrite ?E]).
Qed.

(** ** The decoder *)

(** [extractTMMessage] in terms of the classifier: it throws when the
    classifier throws, returns [null] when the classifier answers [false],
    and otherwise returns the three fields read at the offsets 3, 4 and 5
    of the decoded text of the second output. *)
Lemma extractTMMessage_cases (a : TxArg) :
  extractTMMessage a =
    (ok ← isTMTransaction (unwrap_tx a);
     Val (if ok : bool then decode_data <$> second_output_data (unwrap_tx a) else None)).
Proof.
  unfold extractTMMessage. cbn zeta.
  destruct (isTMTransaction (unwrap_tx a)) as [[]|] eqn:E; cbn; try done.
  apply isTMTransaction_true_iff in E as (_ & _ & E).
  unfold second_output_data in *.
  destruct (outputs (unwrap_tx a) !! 1 ≫= out_script) as [script|]; cbn in *; [|done].
  by destruct (isDataOut script).
Qed.

Lemma extractTMMessage_Some (a : TxArg) (m : TMMessage) :
  extractTMMessage a = Val (Some m) ↔
  isTMTransaction (unwrap_tx a) = Val true ∧
  ∃ data, second_output_data (unwrap_tx a) = Some data ∧ m = decode_data data.
Proof.
  rewrite extractTMMessage_cases.
  destruct (isTMTransaction (unwrap_tx a)) as [[]|]; cbn; [|naive_solver..].
  destruct (second_output_data (unwrap_tx a)); cbn; naive_solver.
Qed.

(** A number parsed from at most one character: NaN or a digit's value. *)
Definition digit_or_NaN (x : number) : Prop :=
  x = NaN ∨ ∃ z, x = Num z ∧ (0 ≤ z < 16)%Z.

Lemma parseInt16_charAt_digit_or_NaN (data : string) (i : nat) :
  digit_or_NaN (parseInt16 (charAt data i)).
Proof.
  destruct (parseInt16 (charAt data i)) as [|z] eqn:E; [by left|right].
  eauto using parseInt16_charAt_range.
Qed.

Lemma extractTMMessage_len (a : TxArg) (m : TMMessage) :
  extractTMMessage a = Val (Some m) → digit_or_NaN (len m).
Proof.
  intros (_ & data & _ & ->)%extractTMMessage_Some.
  apply parseInt16_charAt_digit_or_NaN.
Qed.

(** The two numbers of a decoded frame are NaN or lie in 0..15, whatever
    the collaborators return: each is parsed from at most one character. *)
Theorem extractTMMessage_range (a : TxArg) (m : TMMessage) :
  extractTMMessage a = Val (Some m) →
  (len m = NaN ∨ ∃ z, len m = Num z ∧ (0 ≤ z < 16)%Z) ∧
  (seq m = NaN ∨ ∃ z, seq m = Num z ∧ (0 ≤ z < 16)%Z).
Proof.
  intros (_ & data & _ & ->)%extractTMMessage_Some.
  split; apply parseInt16_charAt_digit_or_NaN.
Qed.

(** ** Frames as the encoder writes them *)

(** With fewer than 16 chunks the header is the tag and two digits. *)
Lemma frame_small (n s : nat) (p : string) :
  n < 16 → s < 16 →
  frame n s p = String "T" (String "M" (String (hex_digit n) (String (hex_digit s) p))).
Proof. intros Hn Hs. unfold frame, frame_prefix. by rewrite !toString16_small. Qed.

Lemma length_frame (n s : nat) (p : string) :
  n < 16 → s < 16 → String.length (frame n s p) = 4 + String.length p.
Proof. intros Hn Hs. by rewrite frame_small. Qed.

(** The first three characters of any frame are the tag and a digit. *)
Lemma substring_frame (n s : nat) (p : string) :
  ∃ d, d < 16 ∧ substring (frame n s p) 0 3 = TX_PREFIX +:+ String (hex_digit d) EmptyString.
Proof.
  destruct (toString16_head n) as (d & rest & Hd & E). exists d. split; [done|].
  unfold frame, frame_prefix. by rewrite E.
Qed.

(** The decoder's offsets fit a frame that is preceded by exactly one
    character: the chunk count is read at offset 3, the sequence number at
    offset 4 and the payload from offset 5. *)
Lemma decode_data_padded_frame (c : ascii) (n s : nat) (p : string) :
  n < 16 → s < 16 →
  decode_data (String c (frame n s p)) =
    {| seq := Num (Z.of_nat s); len := Num (Z.of_nat n); msg := p |}.
Proof.
  intros Hn Hs. rewrite frame_small by done. unfold decode_data.
  change (charAt _ 3) with (String (hex_digit n) EmptyString).
  change (charAt _ 4) with (String (hex_digit s) EmptyString).
  by rewrite !parseInt16_digit.
Qed.

(** C11. On the frame itself the decoder is off by one: it takes the
    sequence number for the chunk count, the first character of the payload
    for the sequence number, and drops that character from the payload. *)
Theorem decode_data_frame (n s : nat) (p : string) :
  n < 16 → s < 16 →
  decode_data (frame n s p) =
    {| seq := parseInt16 (charAt p 0); len := Num (Z.of_nat s); msg := slice p 1 |}.
Proof.
  intros Hn Hs. rewrite frame_small by done. unfold decode_data.
  change (charAt _ 3) with (String (hex_digit s) EmptyString).
  by rewrite parseInt16_digit.
Qed.

(** C9. A transaction whose decoded data is a frame exactly as the encoder
    writes it is not recognised, under every collation that gives a digit
    some weight: the classifier compares three characters with the
    two-character tag. *)
Theorem isTMTransaction_rejects_frame `{!SeparatesDigits} (tx : Transaction)
    (n s : nat) (p : string) :
  second_output_data tx = Some (frame n s p) → isTMTransaction tx = Val false.
Proof.
  intros Hdata. rewrite isTMTransaction_cases, Hdata.
  destruct (second_output_data_Some tx (frame n s p)) as [(o & script & -> & -> & _) _];
    [done|].
  destruct (substring_frame n s p) as (d & Hd & E). cbn [tag_matches]. rewrite E.
  rewrite (bool_decide_eq_false_2 (_ = _)) by (by apply separates_digits).
  rewrite andb_false_r. by destruct (first_input_script tx), (first_output_script tx).
Qed.

(** A frame preceded by one character that the collation ignores is
    recognised and decoded to the chunk count, sequence number and payload
    it was built from. *)
Lemma extractTMMessage_padded_frame (tx : Transaction) (c : ascii)
    (n s : nat) (p : string) :
  is_Some (first_input_script tx) → is_Some (first_output_script tx) →
  second_output_data tx = Some (String c (frame n s p)) →
  localeCompare (String c TX_PREFIX) TX_PREFIX = 0%Z →
  n < 16 → s < 16 →
  extractTMMessage (PlainTx tx) =
    Val (Some {| seq := Num (Z.of_nat s); len := Num (Z.of_nat n); msg := p |}).
Proof.
  intros Hin Hout Hdata Hcmp Hn Hs.
  apply extractTMMessage_Some. split.
  - apply isTMTransaction_true_iff. repeat split; [done..|].
    cbn [unwrap_tx]. rewrite Hdata, frame_small by done. cbn [tag_matches truthy].
    change (substring _ 0 3) with (String c TX_PREFIX).
    by rewrite bool_decide_eq_true_2.
  - exists (String c (frame n s p)). by rewrite decode_data_padded_frame.
Qed.

(** There is no capacity check: from 16 chunks on the header is longer
    than four characters, so the decoder's offsets no longer fit. *)
Theorem frame_prefix_length (n s : nat) :
  (n < 16 → s < 16 → String.length (frame_prefix n s) = 4) ∧
  (16 ≤ n → 5 ≤ String.length (frame_prefix n s)).
Proof.
  unfold frame_prefix. split.
  - intros Hn Hs. by rewrite !toString16_small.
  - intros Hn. pose proof (length_toString16_big n Hn).
    destruct (toString16_head s) as (d & rest & _ & E).
    rewrite !length_append, E. change (String.length TX_PREFIX) with 2.
    cbn [String.length]. lia.
Qed.

End codec.

(** With exactly 16 chunks every chunk, once recognised, decodes as a
    complete message of one chunk with sequence number 0, whose text starts
    with the digit of the real sequence number. *)
Theorem decode_data_sixteen (c : ascii) (s : nat) (p : string) :
  s < 16 →
  decode_data (String c (frame 16 s p)) =
    {| seq := Num 0; len := Num 1; msg := String (hex_digit s) p |}.
Proof. intros Hs. unfold frame, frame_prefix. by rewrite (toString16_small s). Qed.

(** ** Examples *)

(** A transaction as the sender builds it for the only chunk of the message
    "hello world". *)
Definition example_hello : Transaction :=
  builtTransaction "mSrc" "mDst" (frame 1 0 "hello world") "txid0" [] [].

(** A coinbase-like transaction: its second output has no script. *)
Definition example_null_script : Transaction :=
  {| inputs := [mkInput (Some (addressScript "mSrc" ""))];
     outputs := [mkOutput (Some (addressScript "mDst" "")); mkOutput None];
     hash := "txid1" |}.

(** A frame whose two header characters are no digits. *)
Definition example_bad_digits : Transaction :=
  builtTransaction "mSrc" "mDst" "TMzz" "txid2" [] [].

Lemma isTMTransaction_few_outputs_witness :
  isTMTransaction (H := example_collab) (mkTransaction [] [] "") = Val false.
Proof. apply isTMTransaction_few_outputs. cbn. lia. Defined.

Lemma isTMTransaction_not_data_witness :
  isTMTransaction (H := example_collab)
    (mkTransaction [] [mkOutput None; mkOutput (Some (addressScript "a" ""))] "") = Val false.
Proof. by eapply isTMTransaction_not_data. Defined.

Lemma extractTMMessage_range_witness :
  (len (mkTMMessage (Num 0) (Num 1) "hello world") = NaN ∨
   ∃ z, len (mkTMMessage (Num 0) (Num 1) "hello world") = Num z ∧ (0 ≤ z < 16)%Z) ∧
  (seq (mkTMMessage (Num 0) (Num 1) "hello world") = NaN ∨
   ∃ z, seq (mkTMMessage (Num 0) (Num 1) "hello world") = Num z ∧ (0 ≤ z < 16)%Z).
Proof.
  apply (extractTMMessage_range (H := example_collab) (PlainTx example_hello)).
  by vm_compute.
Defined.

Lemma decode_data_padded_frame_witness :
  decode_data (String "000" (frame 3 2 "abc")) = mkTMMessage (Num 2) (Num 3) "abc".
Proof. apply (decode_data_padded_frame "000" 3 2 "abc"); lia. Defined.

Lemma decode_data_frame_witness :
  decode_data (frame 3 2 "1bc") = mkTMMessage (Num 1) (Num 2) "bc".
Proof. apply (decode_data_frame 3 2 "1bc"); lia. Defined.

Lemma isTMTransaction_rejects_frame_witness :
  isTMTransaction (H := literal (λ _ _, true) (λ _, testnet)) example_hello = Val false.
Proof.
  eapply (isTMTransaction_rejects_frame (H := literal _ _) _ 1 0 "hello world").
  by vm_compute.
Defined.

Lemma extractTMMessage_padded_frame_witness :
  extractTMMessage (H := example_collab) (PlainTx example_hello) =
    Val (Some (mkTMMessage (Num 0) (Num 1) "hello world")).
Proof.
  apply (extractTMMessage_padded_frame (H := example_collab) example_hello
           "000" 1 0 "hello world"); try done; try lia.
Defined.

Lemma decode_data_sixteen_witness :
  decode_data (String "000" (frame 16 5 "abc")) = mkTMMessage (Num 0) (Num 1) "5abc".
Proof. apply (decode_data_sixteen "000" 5 "abc"). lia. Defined.

(** The classifier throws on a transaction whose second output has no
    script. *)
Example isTMTransaction_null_script :
  isTMTransaction (H := example_collab) example_null_script = Throw TypeError.
Proof. done. Qed.
