(* ===== verification/Reassembly.v ===== *)
(** * Reassembly: the scanning loop of getTMMessages

    [getTMMessages] (src/TxMEx.js, lines 192 to 251) asks for the history of
    an address and runs one loop over it.  The body of the loop ([scan_tx],
    lines 203 to 246) reads the source and destination of the transaction,
    decodes its frame, stores the chunk in the buffer of its conversation
    and, when the buffer holds every chunk the frame announces, appends the
    assembled message to the result and removes the buffer.

    The state of the loop is [ScanState]: the object [chnkBuf], a finite map
    from the conversation key [src + dst] to a sparse array of chunks, and
    the array [msgs] of the messages assembled so far.  (The keys that a
    JavaScript object inherits from its prototype are not modelled: a
    conversation key is the concatenation of two addresses.)

    The theorems: what one step does on each kind of frame; that scanning
    the chunks of one message in any order yields the same single message;
    that other conversations do not interfere; what malformed frames do to
    the scan. *)

From stdpp Require Import gmap.
From S2P Require Import Prelude.
From S2P Require Import JsString.
From S2P Require Import JsArray.
From S2P Require Import Ledger.
From S2P Require Import Collaborators.
From S2P Require Import Codec.

(** One slot of a buffer: [{msg: txMsg.msg, txid: tx.hash}] (line 214). *)
Record Chunk : Type := mkChunk {
  chunk_msg : string;
  chunk_txid : string;
}.

#[export] Instance Chunk_eq_dec : EqDecision Chunk.
Proof. solve_decision. Defined.

(** An assembled message (lines 234 to 240). *)
Record MsgData : Type := mkMsgData {
  src : string;
  dst : string;
  data : string;
  txs : list string;
}.

#[export] Instance MsgData_eq_dec : EqDecision MsgData.
Proof. solve_decision. Defined.

(** The variables of the loop: [chnkBuf] (line 200) and [msgs] (line 193). *)
Record ScanState : Type := mkScanState {
  chnkBuf : gmap string (list (option Chunk));
  msgs : list MsgData;
}.

Definition scan_init : ScanState := {| chnkBuf := ∅; msgs := [] |}.

(** What [node.getAddressHistory] hands to its callback: an error, or the
    items of the history. *)
Inductive HistoryAnswer : Type :=
| HistoryErr (err : string)
| HistoryOk (items : list Transaction).

Section reassembly.
Context `{Collab}.

(** [tx.inputs[0].script.toAddress(node.network).toString()] (line 204): a
    TypeError when there is no first input or it has no script. *)
Definition source_of (net : network) (tx : Transaction) : res string :=
  match first_input_script tx with
  | Some script => Val (toAddress script net)
  | None => Throw TypeError
  end.

(** [tx.outputs[0].script.toAddress(node.network).toString()] (line 205). *)
Definition destination_of (net : network) (tx : Transaction) : res string :=
  match first_output_script tx with
  | Some script => Val (toAddress script net)
  | None => Throw TypeError
  end.

(** The test of lines 217 to 219: every slot below [n] holds a chunk. *)
Definition complete (buf : list (option Chunk)) (n : number) : bool :=
  forallb (λ j, bool_decide (is_Some (array_get buf j))) (List.seq 0 (loop_count n)).

(** The chunks of the slots below [n] (the reads of lines 226 to 231). *)
Definition slots (buf : list (option Chunk)) (n : number) : list Chunk :=
  omap (array_get buf) (List.seq 0 (loop_count n)).

(** The message built by lines 223 to 240. *)
Definition assemble (src dst : string) (buf : list (option Chunk)) (n : number) : MsgData :=
  {| src := src; dst := dst;
     data := foldr String.append EmptyString (chunk_msg <$> slots buf n);
     txs := chunk_txid <$> slots buf n |}.

(** Lines 211 to 245 for a decoded frame. *)
Definition ingest (st : ScanState) (src dst : string) (m : TMMessage) (txid : string)
    : res ScanState :=
  let msgid := src +:+ dst in
  buf0 ← match chnkBuf st !! msgid with
         | Some buf => Val buf
         | None => new_Array (len m)
         end;
  let buf := array_set buf0 (seq m) {| chunk_msg := msg m; chunk_txid := txid |} in
  if complete buf (len m) then
    Val {| chnkBuf := delete msgid (chnkBuf st);
           msgs := msgs st ++ [assemble src dst buf (len m)] |}
  else
    Val {| chnkBuf := <[msgid := buf]> (chnkBuf st); msgs := msgs st |}.

(** The body of the loop (lines 203 to 246). *)
Definition scan_tx (net : network) (st : ScanState) (tx : Transaction) : res ScanState :=
  src ← source_of net tx;
  dst ← destination_of net tx;
  txMsg ← extractTMMessage (PlainTx tx);
  match txMsg with
  | Some m => ingest st src dst m (hash tx)
  | None => Val st
  end.

(** The loop (lines 202 to 247) from the initial state, and its result. *)
Definition scan (net : network) (items : list Transaction) : res (list MsgData) :=
  st ← foldM (scan_tx net) scan_init items;
  Val (msgs st).

(** [getTMMessages(address, node, callback)] given the answer of the
    history query.  On an error the code evaluates [callback(e)] with [e]
    undeclared (line 197): a ReferenceError.  An exception of the loop
    escapes as well; otherwise the callback receives the messages. *)
Definition getTMMessages (address : string) (net : network) (answer : HistoryAnswer)
    : outcome string (list MsgData) :=
  match answer with
  | HistoryErr _ => Uncaught ReferenceError
  | HistoryOk items =>
      match scan net items with
      | Val ms => CallbackOk ms
      | Throw e => Uncaught e
      end
  end.

(** [tx] is from [s] to [d] and carries the frame [m]: what the three
    reads at the head of the loop body return. *)
Definition carries (net : network) (tx : Transaction) (s d : string) (m : TMMessage) : Prop :=
  source_of net tx = Val s ∧ destination_of net tx = Val d ∧
  extractTMMessage (PlainTx tx) = Val (Some m).

(** ** The completeness test and the assembly *)

Lemma complete_filled (buf : list (option Chunk)) (n : number) :
  complete buf n = true ↔ filled_below buf (loop_count n).
Proof.
  unfold complete. rewrite forallb_forall, filled_below_Forall, Forall_forall.
  split; intros Hall j Hj.
  - apply (bool_decide_eq_true_1 (is_Some (array_get buf j))), Hall.
    by apply list_elem_of_In.
  - apply bool_decide_eq_true_2, Hall. by apply list_elem_of_In.
Qed.

(** A loop bound that is NaN or 0 makes the test succeed at once. *)
Lemma complete_NaN (buf : list (option Chunk)) : complete buf NaN = true.
Proof. done. Qed.

Lemma complete_zero (buf : list (option Chunk)) : complete buf (Num 0) = true.
Proof. done. Qed.

Lemma length_slots (buf : list (option Chunk)) (n : number) :
  complete buf n = true → length (slots buf n) = loop_count n.
Proof.
  rewrite complete_filled. unfold slots, filled_below.
  generalize (loop_count n). clear n. intros n Hfilled.
  assert (∀ k, k ≤ n → length (omap (array_get buf) (List.seq (n - k) k)) = k) as Hk.
  { induction k as [|k IH]; intros Hle; [done|]. cbn.
    destruct (Hfilled (n - S k)) as [c ->]; [lia|]. cbn. f_equal.
    replace (S (n - S k)) with (n - k) by lia. apply IH. lia. }
  specialize (Hk n). rewrite Nat.sub_diag in Hk. by apply Hk.
Qed.

Lemma slots_NaN (buf : list (option Chunk)) : slots buf NaN = [].
Proof. done. Qed.

(** ** One frame *)

(** The buffer a frame is stored into: the one of its conversation, or a
    new array of the length the frame announces. *)
Definition buffer_for (st : ScanState) (msgid : string) (n : number)
    : res (list (option Chunk)) :=
  match chnkBuf st !! msgid with
  | Some buf => Val buf
  | None => new_Array n
  end.

Lemma ingest_unfold (st : ScanState) (s d : string) (m : TMMessage) (txid : string) :
  ingest st s d m txid =
    (buf0 ← buffer_for st (s +:+ d) (len m);
     let buf := array_set buf0 (seq m) (mkChunk (msg m) txid) in
     Val (if complete buf (len m)
          then {| chnkBuf := delete (s +:+ d) (chnkBuf st);
                  msgs := msgs st ++ [assemble s d buf (len m)] |}
          else {| chnkBuf := <[s +:+ d := buf]> (chnkBuf st); msgs := msgs st |})).
Proof.
  unfold ingest, buffer_for. destruct (chnkBuf st !! (s +:+ d)); cbn.
  - by destruct (complete _ _).
  - destruct (new_Array (len m)); cbn; [|done]. by destruct (complete _ _).
Qed.

Lemma scan_tx_carries (net : network) (st : ScanState) (tx : Transaction)
    (s d : string) (m : TMMessage) :
  carries net tx s d m → scan_tx net st tx = ingest st s d m (hash tx).
Proof. intros (Hs & Hd & Hm). unfold scan_tx. by rewrite Hs, Hd, Hm. Qed.

(** A transaction that is no frame leaves the state as it is, provided its
    first input and first output have scripts. *)
Lemma scan_tx_not_frame (net : network) (st : ScanState) (tx : Transaction) :
  is_Some (first_input_script tx) → is_Some (first_output_script tx) →
  extractTMMessage (PlainTx tx) = Val None → scan_tx net st tx = Val st.
Proof.
  intros [? Hi] [? Ho] Hm. unfold scan_tx, source_of, destination_of.
  by rewrite Hi, Ho, Hm.
Qed.

(** ** The chunks of one message, in any order *)

Section one_message.
Context (s d : string) (chunks : list Chunk).
Implicit Types (D order : list nat) (i j : nat) (st : ScanState).

Local Abbreviation n := (length chunks).
Local Abbreviation msgid := (s +:+ d).

(** The frame of the chunk at index [i]. *)
Definition frame_of (i : nat) (c : Chunk) : TMMessage :=
  {| seq := Num (Z.of_nat i); len := Num (Z.of_nat n); msg := chunk_msg c |}.

(** The buffer once the chunks with an index in [D] are stored. *)
Definition partial_buf (D : list nat) : list (option Chunk) :=
  imap (λ j c, if bool_decide (j ∈ D) then Some c else None) chunks.

Lemma length_partial_buf D : length (partial_buf D) = n.
Proof. apply length_imap. Qed.

Lemma array_get_partial_buf D j :
  array_get (partial_buf D) j = if bool_decide (j ∈ D) then chunks !! j else None.
Proof.
  unfold array_get, partial_buf. rewrite list_lookup_imap.
  destruct (chunks !! j); cbn; by case_bool_decide.
Qed.

Lemma partial_buf_nil : partial_buf [] = replicate n None.
Proof.
  apply list_eq. intros j. unfold partial_buf. rewrite list_lookup_imap.
  destruct (decide (j < n)) as [Hj|Hj].
  - rewrite lookup_replicate_2 by done.
    destruct (lookup_lt_is_Some_2 chunks j Hj) as [c ->]. cbn.
    by rewrite bool_decide_eq_false_2 by set_solver.
  - rewrite !lookup_ge_None_2; [done|rewrite length_replicate; lia|lia].
Qed.

Lemma array_set_partial_buf D i c :
  chunks !! i = Some c →
  array_set (partial_buf D) (Num (Z.of_nat i)) c = partial_buf (i :: D).
Proof.
  intros Hc. rewrite array_set_nat. unfold array_set_at.
  rewrite decide_True by (rewrite length_partial_buf; by eapply lookup_lt_Some).
  apply list_eq. intros j. unfold partial_buf.
  destruct (decide (i = j)) as [<-|Hne].
  - rewrite list_lookup_insert_eq by (rewrite length_imap; by eapply lookup_lt_Some).
    rewrite list_lookup_imap, Hc. cbn. by rewrite bool_decide_eq_true_2 by set_solver.
  - rewrite list_lookup_insert_ne by done. rewrite !list_lookup_imap.
    destruct (chunks !! j); cbn; [|done].
    destruct (decide (j ∈ D)).
    + by rewrite !bool_decide_eq_true_2 by set_solver.
    + by rewrite !bool_decide_eq_false_2 by set_solver.
Qed.

Lemma complete_partial_buf D :
  complete (partial_buf D) (Num (Z.of_nat n)) = true ↔ ∀ j, j < n → j ∈ D.
Proof.
  rewrite complete_filled. cbn. rewrite Nat2Z.id. unfold filled_below.
  split; intros Hall j Hj; specialize (Hall j Hj); rewrite array_get_partial_buf in *.
  - by case_bool_decide; [|destruct Hall].
  - rewrite bool_decide_eq_true_2 by done. by apply lookup_lt_is_Some_2.
Qed.

Lemma slots_partial_buf D :
  (∀ j, j < n → j ∈ D) → slots (partial_buf D) (Num (Z.of_nat n)) = chunks.
Proof.
  intros Hall. unfold slots. cbn. rewrite Nat2Z.id.
  rewrite <- (omap_lookup_seq chunks) at 2. apply omap_ext_in.
  intros j Hj%elem_of_seq. rewrite array_get_partial_buf.
  by rewrite bool_decide_eq_true_2 by (apply Hall; lia).
Qed.

(** The message the chunks assemble to. *)
Definition message_of : MsgData :=
  {| src := s; dst := d;
     data := foldr String.append EmptyString (chunk_msg <$> chunks);
     txs := chunk_txid <$> chunks |}.

(** The state once the chunks with an index in [D] are stored and none of
    them completed the message. *)
Definition stored st D : ScanState :=
  match D with
  | [] => st
  | _ => {| chnkBuf := <[msgid := partial_buf D]> (chnkBuf st); msgs := msgs st |}
  end.

Lemma buffer_for_stored st D :
  chnkBuf st !! msgid = None → (Z.of_nat n < 2 ^ 32)%Z →
  buffer_for (stored st D) msgid (Num (Z.of_nat n)) = Val (partial_buf D).
Proof.
  intros Hnone Hn. unfold buffer_for, stored. destruct D as [|i D].
  - by rewrite Hnone, new_Array_small, partial_buf_nil.
  - cbn [chnkBuf]. by rewrite lookup_insert_eq.
Qed.

Lemma ingest_stored_complete st D i c :
  chnkBuf st !! msgid = None → (Z.of_nat n < 2 ^ 32)%Z → chunks !! i = Some c →
  (∀ j, j < n → j ∈ i :: D) →
  ingest (stored st D) s d (frame_of i c) (chunk_txid c) =
    Val {| chnkBuf := chnkBuf st; msgs := msgs st ++ [message_of] |}.
Proof.
  intros Hnone Hn Hc Hall. rewrite ingest_unfold. cbn [len seq msg frame_of].
  rewrite buffer_for_stored by done. cbn [mbind res_bind]; cbv zeta.
  replace (mkChunk (chunk_msg c) (chunk_txid c)) with c by (by destruct c).
  rewrite array_set_partial_buf by done.
  rewrite (proj2 (complete_partial_buf (i :: D)) Hall).
  unfold assemble. rewrite slots_partial_buf by done.
  f_equal. destruct D; cbn; f_equal.
  - by apply delete_id.
  - by rewrite delete_insert_eq, delete_id.
Qed.

Lemma ingest_stored_incomplete st D i c j :
  chnkBuf st !! msgid = None → (Z.of_nat n < 2 ^ 32)%Z → chunks !! i = Some c →
  j < n → j ∉ i :: D →
  ingest (stored st D) s d (frame_of i c) (chunk_txid c) = Val (stored st (i :: D)).
Proof.
  intros Hnone Hn Hc Hj Hnotin. rewrite ingest_unfold. cbn [len seq msg frame_of].
  rewrite buffer_for_stored by done. cbn [mbind res_bind]; cbv zeta.
  replace (mkChunk (chunk_msg c) (chunk_txid c)) with c by (by destruct c).
  rewrite array_set_partial_buf by done.
  destruct (complete (partial_buf (i :: D)) (Num (Z.of_nat n))) eqn:E.
  { destruct Hnotin. by apply (proj1 (complete_partial_buf _) E j). }
  destruct D; cbn; [done|]. by rewrite insert_insert_eq.
Qed.

(** The transactions [items] carry the chunks with the indices [order]. *)
Definition carry_chunks (net : network) (items : list Transaction) (order : list nat) : Prop :=
  Forall2 (λ tx i, ∃ c, chunks !! i = Some c ∧ hash tx = chunk_txid c ∧
                        carries net tx s d (frame_of i c)) items order.

(** The indices [D] already stored and the indices [rest] still to come
    are together the indices of the message, each once. *)
Lemma indices_covered D : D ++ [] ≡ₚ List.seq 0 n → ∀ j, j < n → j ∈ D.
Proof. rewrite app_nil_r. intros HD j Hj. rewrite HD. apply elem_of_seq. lia. Qed.

Lemma indices_pending D j rest : D ++ j :: rest ≡ₚ List.seq 0 n → j < n ∧ j ∉ D.
Proof.
  intros HD. split.
  - assert (j ∈ List.seq 0 n) as Hj%elem_of_seq; [|lia].
    rewrite <- HD, elem_of_app, elem_of_cons. auto.
  - pose proof (NoDup_seq 0 n) as Hnd. rewrite <- HD in Hnd.
    apply NoDup_app in Hnd as (_ & Hnd & _). intros Hj. apply (Hnd j Hj). left.
Qed.

(** Scanning the remaining chunks from a state in which the chunks of [D]
    are stored ends with the whole message appended and the buffer of the
    conversation removed. *)
Lemma scan_chunks net st D items rest :
  chnkBuf st !! msgid = None → (Z.of_nat n < 2 ^ 32)%Z →
  D ++ rest ≡ₚ List.seq 0 n → rest ≠ [] →
  carry_chunks net items rest →
  foldM (scan_tx net) (stored st D) items =
    Val {| chnkBuf := chnkBuf st; msgs := msgs st ++ [message_of] |}.
Proof.
  intros Hnone Hn Hperm Hrest Hcarry. revert D Hperm Hrest.
  induction Hcarry as [|tx i items rest (c & Hc & Hh & Hcar) Hcarry IH];
    intros D Hperm Hrest; [done|].
  cbn [foldM]. rewrite (scan_tx_carries _ _ _ _ _ _ Hcar), Hh.
  rewrite <- Permutation_middle, app_comm_cons in Hperm.
  destruct rest as [|j rest].
  - apply Forall2_nil_inv_r in Hcarry as ->.
    by rewrite ingest_stored_complete by auto using indices_covered.
  - destruct (indices_pending _ _ _ Hperm) as [Hj Hnotin].
    rewrite (ingest_stored_incomplete st D i c j) by done.
    cbn [mbind res_bind]. by apply IH.
Qed.

End one_message.

(** A history that carries given chunks in some order, each once, scans to
    the message of the chunks. *)
Lemma scan_carried (net : network) (s d : string) (chunks : list Chunk)
    (items : list Transaction) (order : list nat) :
  chunks ≠ [] → (Z.of_nat (length chunks) < 2 ^ 32)%Z →
  order ≡ₚ List.seq 0 (length chunks) →
  carry_chunks s d chunks net items order →
  scan net items = Val [message_of s d chunks].
Proof.
  intros Hne Hn Hperm Hcarry. unfold scan.
  change scan_init with (stored s d chunks scan_init []) at 1.
  rewrite (scan_chunks s d chunks net scan_init [] items order); try done.
  intros ->. apply Permutation_nil_l in Hperm. by destruct chunks.
Qed.

(** C2. The chunks of one message, delivered in any order, each exactly
    once, assemble to the same single message: its text is the
    concatenation of the chunks in the order of their sequence numbers and
    its list of transactions follows the same order. *)
Theorem scan_any_order (net : network) (s d : string) (chunks : list Chunk)
    (items : list Transaction) (order : list nat) :
  chunks ≠ [] → (Z.of_nat (length chunks) < 2 ^ 32)%Z →
  order ≡ₚ List.seq 0 (length chunks) →
  carry_chunks s d chunks net items order →
  scan net items =
    Val [mkMsgData s d (foldr String.append EmptyString (chunk_msg <$> chunks))
           (chunk_txid <$> chunks)].
Proof.
  intros Hne Hn Hperm Hcarry.
  by rewrite (scan_carried net s d chunks items order).
Qed.

(** ** What one step changes *)

(** A step changes the buffer of its own conversation only and never
    removes a message. *)
Theorem ingest_frame (st st' : ScanState) (s d : string) (m : TMMessage) (txid k : string) :
  ingest st s d m txid = Val st' → k ≠ s +:+ d →
  chnkBuf st' !! k = chnkBuf st !! k ∧ msgs st `prefix_of` msgs st'.
Proof.
  rewrite ingest_unfold. intros (buf & _ & [= <-])%res_bind_Val_inv Hk.
  destruct (complete _ _); cbn.
  - rewrite lookup_delete_ne by done. split; [done|]. by apply prefix_app_r.
  - by rewrite lookup_insert_ne.
Qed.

(** Last write wins: while a message is incomplete, a second frame with
    the same sequence number and chunk count replaces what the first one
    stored, as if the first had never arrived.  In particular the same
    chunk delivered twice changes nothing. *)
Theorem ingest_last_write (st st1 : ScanState) (s d : string) (m1 m2 : TMMessage)
    (t1 t2 : string) :
  ingest st s d m1 t1 = Val st1 → is_Some (chnkBuf st1 !! (s +:+ d)) →
  seq m2 = seq m1 → len m2 = len m1 →
  ingest st1 s d m2 t2 = ingest st s d m2 t2.
Proof.
  rewrite !ingest_unfold. intros (buf & Hbuf & [= <-])%res_bind_Val_inv Hsome -> ->.
  rewrite Hbuf. destruct (complete _ (len m1)) eqn:E; cbn [chnkBuf] in Hsome.
  { rewrite lookup_delete_eq in Hsome. by destruct Hsome. }
  unfold buffer_for. cbn [chnkBuf msgs]. rewrite lookup_insert_eq.
  cbn [mbind res_bind]; cbv zeta. rewrite array_set_overwrite.
  by rewrite delete_insert_eq, insert_insert_eq.
Qed.

(** ** Malformed frames *)

(** A frame whose length digit is no hexadecimal digit, arriving when its
    conversation has no buffer, makes the loop body throw. *)
Theorem ingest_NaN_fresh (st : ScanState) (s d : string) (m : TMMessage) (txid : string) :
  chnkBuf st !! (s +:+ d) = None → len m = NaN →
  ingest st s d m txid = Throw RangeError.
Proof. intros Hnone Hlen. rewrite ingest_unfold. unfold buffer_for. by rewrite Hnone, Hlen. Qed.

(** A frame that announces no chunk at all completes at once: an empty
    message is appended and the buffer of the conversation is dropped. *)
Theorem ingest_zero (st : ScanState) (s d : string) (m : TMMessage) (txid : string) :
  len m = Num 0 →
  ingest st s d m txid =
    Val {| chnkBuf := delete (s +:+ d) (chnkBuf st);
           msgs := msgs st ++ [mkMsgData s d EmptyString []] |}.
Proof.
  intros Hlen. rewrite ingest_unfold. unfold buffer_for. rewrite Hlen.
  by destruct (chnkBuf st !! (s +:+ d)).
Qed.

(** C36. A frame whose length digit is no hexadecimal digit, arriving while
    chunks of its conversation are buffered, completes at once: the
    buffered chunks are dropped and an empty message is appended. *)
Theorem ingest_NaN_buffered (st : ScanState) (s d : string) (m : TMMessage)
    (txid : string) (buf : list (option Chunk)) :
  chnkBuf st !! (s +:+ d) = Some buf → len m = NaN →
  ingest st s d m txid =
    Val {| chnkBuf := delete (s +:+ d) (chnkBuf st);
           msgs := msgs st ++ [mkMsgData s d EmptyString []] |}.
Proof.
  intros Hbuf Hlen. rewrite ingest_unfold. unfold buffer_for. by rewrite Hbuf, Hlen.
Qed.

(** ** The whole scan *)

(** The decoded length of a frame that a transaction carries lets
    [new Array] succeed unless it is NaN. *)
Lemma ingest_total (st : ScanState) (s d : string) (m : TMMessage) (txid : string) :
  digit_or_NaN (len m) → len m ≠ NaN → is_Val (ingest st s d m txid) = true.
Proof.
  intros [?|(z & Hz & Hrange)] Hlen; [done|]. rewrite ingest_unfold. unfold buffer_for.
  destruct (chnkBuf st !! (s +:+ d)); [done|]. rewrite Hz. cbn.
  by rewrite bool_decide_eq_true_2 by lia.
Qed.

(** A transaction the loop body can process: its first input and first
    output have scripts, the decoder does not throw on it and, if it is a
    frame, its length digit is a hexadecimal digit. *)
Definition readable (tx : Transaction) : bool :=
  match first_input_script tx, first_output_script tx, extractTMMessage (PlainTx tx) with
  | Some _, Some _, Val None => true
  | Some _, Some _, Val (Some m) => bool_decide (len m ≠ NaN)
  | _, _, _ => false
  end.

Lemma scan_tx_readable (net : network) (st : ScanState) (tx : Transaction) :
  readable tx = true → is_Val (scan_tx net st tx) = true.
Proof.
  unfold readable, scan_tx, source_of, destination_of.
  destruct (first_input_script tx), (first_output_script tx); try done.
  destruct (extractTMMessage (PlainTx tx)) as [[m|]|] eqn:E; try done.
  intros Hlen%bool_decide_eq_true. cbn. eauto using ingest_total, extractTMMessage_len.
Qed.

(** On a history of readable transactions the scan returns. *)
Theorem scan_total (net : network) (items : list Transaction) :
  forallb readable items = true → is_Val (scan net items) = true.
Proof.
  intros Hall. unfold scan.
  assert (∀ st, ∃ st', foldM (scan_tx net) st items = Val st') as Hfold.
  { induction items as [|tx items IH]; intros st; [by eexists|].
    apply andb_prop in Hall as [Htx Hall]. cbn.
    pose proof (scan_tx_readable net st tx Htx) as Hval.
    destruct (scan_tx net st tx) as [st1|]; [|done]. cbn. by apply IH. }
  by destruct (Hfold scan_init) as [st' ->].
Qed.

(** A transaction without a script in its first input makes the loop
    body throw, whether it is a frame or not: the source address is read
    before the transaction is classified. *)
Theorem scan_tx_no_source (net : network) (st : ScanState) (tx : Transaction) :
  first_input_script tx = None → scan_tx net st tx = Throw TypeError.
Proof. intros Hi. unfold scan_tx, source_of. by rewrite Hi. Qed.

(** The loop only appends to its result. *)
Lemma scan_tx_msgs_prefix (net : network) (st st' : ScanState) (tx : Transaction) :
  scan_tx net st tx = Val st' → msgs st `prefix_of` msgs st'.
Proof.
  unfold scan_tx. intros (s & _ & (d & _ & (r & _ & Hr)%res_bind_Val_inv)%res_bind_Val_inv)%res_bind_Val_inv.
  destruct r as [m|]; [|by simplify_eq].
  rewrite ingest_unfold in Hr. apply res_bind_Val_inv in Hr as (buf & _ & [= <-]).
  destruct (complete _ _); cbn; [by apply prefix_app_r|done].
Qed.

(** Messages are only ever appended: the result of scanning a history is
    an extension of the result of scanning any prefix of it. *)
Theorem scan_prefix (net : network) (items more : list Transaction) (ms : list MsgData) :
  scan net (items ++ more) = Val ms →
  ∃ ms0, scan net items = Val ms0 ∧ ms0 `prefix_of` ms.
Proof.
  unfold scan. rewrite foldM_app.
  intros (st & (st0 & -> & Hmore)%res_bind_Val_inv & [= <-])%res_bind_Val_inv.
  eexists; split; [done|]. cbn. revert Hmore.
  apply (foldM_invariant (scan_tx net) (λ st, msgs st0 `prefix_of` msgs st)); [|done].
  intros st1 tx st2 Hpre Hstep. etrans; [done|]. by eapply scan_tx_msgs_prefix.
Qed.

(** ** Other conversations in the same history *)

Section interleaved.
Context (net : network) (s d : string) (chunks : list Chunk).
Implicit Types (D order : list nat) (st : ScanState) (tx : Transaction).

Local Abbreviation msgid := (s +:+ d).

(** A transaction of another conversation: its source and destination
    are read, and they are not those of the message. *)
Definition foreign tx : Prop :=
  ∃ s' d', source_of net tx = Val s' ∧ destination_of net tx = Val d' ∧ s' +:+ d' ≠ msgid.

(** A state with the message put into the result at position [k]. *)
Definition with_message (k : nat) st : ScanState :=
  {| chnkBuf := chnkBuf st;
     msgs := take k (msgs st) ++ message_of s d chunks :: drop k (msgs st) |}.

(** What a frame of another conversation does is the same whether or not
    chunks of the message are buffered. *)
Lemma ingest_foreign_stored st st' D (s' d' : string) (m : TMMessage) (txid : string) :
  s' +:+ d' ≠ msgid → chnkBuf st !! msgid = None →
  ingest st s' d' m txid = Val st' →
  ingest (stored s d chunks st D) s' d' m txid = Val (stored s d chunks st' D) ∧
  chnkBuf st' !! msgid = None.
Proof.
  intros Hne Hnone. rewrite !ingest_unfold.
  intros (buf & Hbuf & [= <-])%res_bind_Val_inv.
  assert (buffer_for (stored s d chunks st D) (s' +:+ d') (len m) = Val buf) as ->.
  { destruct D; [done|]. unfold buffer_for in *. cbn [stored chnkBuf].
    by rewrite lookup_insert_ne. }
  cbn [mbind res_bind]; cbv zeta. destruct (complete _ _); cbn [chnkBuf msgs].
  - rewrite lookup_delete_ne by done. split; [|done].
    destruct D; [done|]. cbn [stored chnkBuf msgs]. by rewrite delete_insert_ne.
  - rewrite lookup_insert_ne by done. split; [|done].
    destruct D; [done|]. cbn [stored chnkBuf msgs]. by rewrite insert_insert_ne.
Qed.

Lemma scan_tx_foreign_stored st st' D tx :
  foreign tx → chnkBuf st !! msgid = None → scan_tx net st tx = Val st' →
  scan_tx net (stored s d chunks st D) tx = Val (stored s d chunks st' D) ∧
  chnkBuf st' !! msgid = None.
Proof.
  intros (s' & d' & Hs & Hd & Hne) Hnone. unfold scan_tx. rewrite Hs, Hd. cbn.
  destruct (extractTMMessage (PlainTx tx)) as [[m|]|]; cbn; [|by intros [= <-]|done].
  by apply ingest_foreign_stored.
Qed.

(** Once the message is in the result, the rest of the scan goes on as if
    it were not there. *)
Lemma scan_tx_with_message st st' tx (k : nat) :
  k ≤ length (msgs st) → scan_tx net st tx = Val st' →
  scan_tx net (with_message k st) tx = Val (with_message k st').
Proof.
  intros Hk. unfold scan_tx.
  destruct (source_of net tx) as [s'|]; [|done].
  destruct (destination_of net tx) as [d'|]; [|done].
  destruct (extractTMMessage (PlainTx tx)) as [[m|]|]; cbn; [|by intros [= <-]|done].
  rewrite !ingest_unfold. unfold buffer_for. cbn [with_message chnkBuf].
  intros (buf & -> & [= <-])%res_bind_Val_inv. cbn [mbind res_bind]; cbv zeta.
  destruct (complete _ _); [|done]. unfold with_message. cbn [chnkBuf msgs].
  by rewrite take_app_le, drop_app_le, <- app_assoc by done.
Qed.

Lemma foldM_scan_tx_with_message st st' (items : list Transaction) (k : nat) :
  k ≤ length (msgs st) → foldM (scan_tx net) st items = Val st' →
  foldM (scan_tx net) (with_message k st) items = Val (with_message k st').
Proof.
  revert st. induction items as [|tx items IH]; intros st Hk; cbn.
  { by intros [= <-]. }
  intros (st1 & Hstep & Hrest)%res_bind_Val_inv.
  rewrite (scan_tx_with_message _ _ _ _ Hk Hstep). cbn. apply IH; [|done].
  apply scan_tx_msgs_prefix, prefix_length in Hstep. lia.
Qed.

Lemma foldM_scan_tx_msgs_length st st' (items : list Transaction) :
  foldM (scan_tx net) st items = Val st' → length (msgs st) ≤ length (msgs st').
Proof.
  apply (foldM_invariant (scan_tx net) (λ st1, length (msgs st) ≤ length (msgs st1))); [|done].
  intros st1 tx st2 Hle Hstep%scan_tx_msgs_prefix%prefix_length. lia.
Qed.

(** An item of a history together with what it is for the message: the
    index of the chunk it carries, or nothing when it belongs to another
    conversation. *)
Definition tagged_ok (item : Transaction * option nat) : Prop :=
  match item.2 with
  | Some i => ∃ c, chunks !! i = Some c ∧ hash item.1 = chunk_txid c ∧
                   carries net item.1 s d (frame_of chunks i c)
  | None => foreign item.1
  end.

(** The transactions of the other conversations, and the indices of the
    chunks in the order of their arrival. *)
Definition others (tagged : list (Transaction * option nat)) : list Transaction :=
  (filter (λ item, item.2 = None) tagged).*1.

Definition order_of (tagged : list (Transaction * option nat)) : list nat :=
  omap snd tagged.

Lemma others_cons_None tx (tagged : list (Transaction * option nat)) :
  others ((tx, None) :: tagged) = tx :: others tagged.
Proof. unfold others. by rewrite filter_cons_True. Qed.

Lemma others_cons_Some tx i (tagged : list (Transaction * option nat)) :
  others ((tx, Some i) :: tagged) = others tagged.
Proof. unfold others. by rewrite filter_cons_False by (by intros ?). Qed.

Lemma order_of_cons_Some tx i (tagged : list (Transaction * option nat)) :
  order_of ((tx, Some i) :: tagged) = i :: order_of tagged.
Proof. done. Qed.

Lemma others_all (tagged : list (Transaction * option nat)) :
  order_of tagged = [] → others tagged = tagged.*1.
Proof.
  induction tagged as [|[tx [i|]] tagged IH]; [done..|].
  intros Hrest. rewrite others_cons_None, IH; done.
Qed.

Lemma with_message_end st :
  with_message (length (msgs st)) st =
    {| chnkBuf := chnkBuf st; msgs := msgs st ++ [message_of s d chunks] |}.
Proof. unfold with_message. by rewrite take_ge, drop_ge by done. Qed.

(** The place of the last chunk in a history: what comes before it, the
    transaction that carries it, and the transactions of other
    conversations behind it; [st_mid] is the state after the others that
    come before it. *)
Definition last_chunk_at st (tagged : list (Transaction * option nat)) st_mid : Prop :=
  ∃ pre item post, tagged = pre ++ item :: post ∧ is_Some item.2 ∧ order_of post = [] ∧
    foldM (scan_tx net) st (others pre) = Val st_mid.

Lemma last_chunk_at_here st tx i (tagged : list (Transaction * option nat)) :
  order_of tagged = [] → last_chunk_at st ((tx, Some i) :: tagged) st.
Proof. intros Hrest. by exists [], (tx, Some i), tagged. Qed.

Lemma last_chunk_at_Some st tx i (tagged : list (Transaction * option nat)) st_mid :
  last_chunk_at st tagged st_mid → last_chunk_at st ((tx, Some i) :: tagged) st_mid.
Proof.
  intros (pre & item & post & -> & ? & ? & ?). exists ((tx, Some i) :: pre), item, post.
  by rewrite others_cons_Some.
Qed.

Lemma last_chunk_at_None st st1 tx (tagged : list (Transaction * option nat)) st_mid :
  scan_tx net st tx = Val st1 → last_chunk_at st1 tagged st_mid →
  last_chunk_at st ((tx, None) :: tagged) st_mid.
Proof.
  intros Hstep (pre & item & post & -> & ? & ? & ?). exists ((tx, None) :: pre), item, post.
  rewrite others_cons_None, foldM_cons, Hstep. by split_and!.
Qed.

Lemma scan_interleaved_from st st_end D (tagged : list (Transaction * option nat)) :
  chnkBuf st !! msgid = None → (Z.of_nat (length chunks) < 2 ^ 32)%Z →
  Forall tagged_ok tagged →
  D ++ order_of tagged ≡ₚ List.seq 0 (length chunks) → order_of tagged ≠ [] →
  foldM (scan_tx net) st (others tagged) = Val st_end →
  ∃ st_mid, last_chunk_at st tagged st_mid ∧ length (msgs st_mid) ≤ length (msgs st_end) ∧
    foldM (scan_tx net) (stored s d chunks st D) tagged.*1 =
      Val (with_message (length (msgs st_mid)) st_end).
Proof.
  intros Hnone Hn Hok. revert st D Hnone.
  induction Hok as [|[tx [i|]] tagged Htx Hok IH]; intros st D Hnone Hperm Hne Hend; [done|..].
  - destruct Htx as (c & Hc & Hh & Hcar). rewrite others_cons_Some in Hend.
    cbn [fmap list_fmap fst foldM]. rewrite (scan_tx_carries _ _ _ _ _ _ Hcar), Hh.
    rewrite order_of_cons_Some, <- Permutation_middle, app_comm_cons in Hperm.
    destruct (order_of tagged) as [|j rest] eqn:Horder.
    + rewrite (ingest_stored_complete s d chunks st D i c Hnone Hn Hc
                 (indices_covered _ _ Hperm)).
      cbn [mbind res_bind]. rewrite <- with_message_end.
      exists st. split_and!; [by apply last_chunk_at_here|by eapply foldM_scan_tx_msgs_length|].
      rewrite <- (others_all _ Horder). by apply foldM_scan_tx_with_message.
    + destruct (indices_pending _ _ _ _ Hperm) as [Hj Hnotin].
      rewrite (ingest_stored_incomplete s d chunks st D i c j Hnone Hn Hc Hj Hnotin).
      cbn [mbind res_bind].
      destruct (IH st (i :: D) Hnone Hperm) as (st_mid & Hat & Hle & Hscan); [done..|].
      exists st_mid. split_and!; [by apply last_chunk_at_Some|done..].
  - rewrite others_cons_None in Hend. cbn [fmap list_fmap fst foldM] in *.
    apply res_bind_Val_inv in Hend as (st1 & Hstep & Hend).
    destruct (scan_tx_foreign_stored st st1 D tx Htx Hnone Hstep) as [-> Hnone1].
    cbn [mbind res_bind]. destruct (IH st1 D Hnone1 Hperm Hne Hend) as (st_mid & Hat & ? & ?).
    exists st_mid. split_and!; [by eapply last_chunk_at_None|done..].
Qed.

End interleaved.

(** C3. Conversations do not interfere.  In a history that holds the chunks
    of one message, each once and in any order, interleaved in any way with
    transactions of other conversations, the scan returns what it returns
    for the other transactions alone, with the message put in at the place
    where its last chunk arrived: behind the messages that the other
    transactions before that chunk complete, and before those that the
    ones behind it complete. *)
Theorem scan_interleaved (net : network) (s d : string) (chunks : list Chunk)
    (tagged : list (Transaction * option nat)) (ms : list MsgData) :
  chunks ≠ [] → (Z.of_nat (length chunks) < 2 ^ 32)%Z →
  Forall (tagged_ok net s d chunks) tagged →
  order_of tagged ≡ₚ List.seq 0 (length chunks) →
  scan net (others tagged) = Val ms →
  ∃ k, k ≤ length ms ∧
    scan net tagged.*1 = Val (take k ms ++ message_of s d chunks :: drop k ms) ∧
    ∃ pre item post ms0, tagged = pre ++ item :: post ∧ is_Some item.2 ∧
      order_of post = [] ∧ scan net (others pre) = Val ms0 ∧ k = length ms0.
Proof.
  intros Hne Hn Hok Hperm. unfold scan.
  intros (st_end & Hend & [= <-])%res_bind_Val_inv.
  destruct (scan_interleaved_from net s d chunks scan_init st_end [] tagged)
    as (st_mid & (pre & item & post & ? & ? & ? & Hmid) & Hk & Hscan); try done.
  { intros E. rewrite E in Hperm. apply Permutation_nil_l in Hperm. by destruct chunks. }
  exists (length (msgs st_mid)). cbn [stored] in Hscan. rewrite Hscan.
  split_and!; [done..|]. exists pre, item, post, (msgs st_mid). by rewrite Hmid.
Qed.


End reassembly.

(** ** Examples *)

(** The three chunks of a message from "mSrc" to "mDst" and the
    transactions that carry them, as the sender builds them. *)
Definition example_chunks : list Chunk :=
  [mkChunk "hel" "tx0"; mkChunk "lo " "tx1"; mkChunk "you" "tx2"].

Definition example_tx (i : nat) (c : Chunk) : Transaction :=
  builtTransaction "mSrc" "mDst" (frame 3 i (chunk_msg c)) (chunk_txid c) [] [].

Definition example_history (order : list nat) : list Transaction :=
  omap (λ i, example_tx i <$> example_chunks !! i) order.

Lemma scan_any_order_witness :
  scan (H := example_collab) testnet (example_history [2; 0; 1]) =
    Val [mkMsgData "mSrc" "mDst" "hello you" ["tx0"; "tx1"; "tx2"]].
Proof.
  apply (scan_any_order (H := example_collab) testnet "mSrc" "mDst" example_chunks
           (example_history [2; 0; 1]) [2; 0; 1]); [done|cbn; lia|by apply (Permutation_cons_append [0; 1] 2)|].
  repeat (constructor; [eexists; split; [reflexivity|by vm_compute]|]). constructor.
Defined.

(** The first chunk of a message of two, from "a" to "b". *)
Definition example_first_of_two : TMMessage := mkTMMessage (Num 0) (Num 2) "x".

Definition example_waiting : ScanState :=
  {| chnkBuf := {["ab" := [Some (mkChunk "x" "t"); None]]}; msgs := [] |}.

Lemma ingest_frame_witness :
  chnkBuf example_waiting !! "cd" = chnkBuf scan_init !! "cd" ∧
  msgs scan_init `prefix_of` msgs example_waiting.
Proof. by apply (ingest_frame scan_init example_waiting "a" "b" example_first_of_two "t" "cd"). Defined.

Lemma ingest_last_write_witness :
  ingest example_waiting "a" "b" (mkTMMessage (Num 0) (Num 2) "y") "u" =
  ingest scan_init "a" "b" (mkTMMessage (Num 0) (Num 2) "y") "u".
Proof. by apply (ingest_last_write scan_init example_waiting "a" "b" example_first_of_two _ "t"). Defined.

(** The same chunk delivered twice. *)
Example ingest_twice :
  ingest example_waiting "a" "b" example_first_of_two "t" = Val example_waiting.
Proof. by vm_compute. Qed.

Lemma ingest_NaN_fresh_witness :
  ingest scan_init "a" "b" (mkTMMessage NaN NaN "") "t" = Throw RangeError.
Proof. by apply ingest_NaN_fresh. Defined.

Lemma ingest_zero_witness :
  ingest example_waiting "a" "b" (mkTMMessage (Num 1) (Num 0) "y") "u" =
    Val {| chnkBuf := delete ("a" +:+ "b") (chnkBuf example_waiting);
           msgs := msgs example_waiting ++ [mkMsgData "a" "b" EmptyString []] |}.
Proof. by apply ingest_zero. Defined.

Lemma scan_total_witness :
  is_Val (scan (H := example_collab) testnet (example_history [1; 0])) = true.
Proof. apply scan_total. by vm_compute. Defined.

Lemma scan_tx_no_source_witness :
  scan_tx (H := example_collab) testnet scan_init (mkTransaction [] [] "coinbase") =
    Throw TypeError.
Proof. by apply scan_tx_no_source. Defined.

Lemma scan_prefix_witness :
  ∃ ms0, scan (H := example_collab) testnet (example_history [0; 1]) = Val ms0 ∧
         ms0 `prefix_of` [mkMsgData "mSrc" "mDst" "hello you" ["tx0"; "tx1"; "tx2"]].
Proof. apply (scan_prefix _ _ (example_history [2])). by vm_compute. Defined.

Lemma ingest_NaN_buffered_witness :
  ingest example_waiting "a" "b" (mkTMMessage NaN NaN "") "u" =
    Val {| chnkBuf := delete ("a" +:+ "b") (chnkBuf example_waiting);
           msgs := msgs example_waiting ++ [mkMsgData "a" "b" EmptyString []] |}.
Proof. by eapply ingest_NaN_buffered. Defined.

(** A frame with bad digits after the first chunk of a message: the scan
    answers one empty message and the chunk is lost. *)
Example scan_bad_digits_after_chunk :
  scan (H := example_collab) testnet (example_history [0] ++ [example_bad_digits]) =
    Val [mkMsgData "mSrc" "mDst" EmptyString []].
Proof. by vm_compute. Qed.

(** The only chunk of a message delivered twice gives the message twice. *)
Example scan_replayed_single_chunk :
  scan (H := example_collab) testnet [example_hello; example_hello] =
    Val [mkMsgData "mSrc" "mDst" "hello world" ["txid0"];
         mkMsgData "mSrc" "mDst" "hello world" ["txid0"]].
Proof. by vm_compute. Qed.

(** A message of one chunk from another address to the same destination,
    and a history in which it arrives between the chunks of the example. *)
Definition example_other : Transaction :=
  builtTransaction "mOther" "mDst" (frame 1 0 "hi") "tx9" [] [].

Definition example_tagged : list (Transaction * option nat) :=
  [(example_tx 2 (mkChunk "you" "tx2"), Some 2); (example_other, None);
   (example_tx 0 (mkChunk "hel" "tx0"), Some 0); (example_tx 1 (mkChunk "lo " "tx1"), Some 1)].

Lemma scan_interleaved_witness :
  ∃ k, k ≤ length [mkMsgData "mOther" "mDst" "hi" ["tx9"]] ∧
    scan (H := example_collab) testnet example_tagged.*1 =
      Val (take k [mkMsgData "mOther" "mDst" "hi" ["tx9"]]
           ++ message_of "mSrc" "mDst" example_chunks
           :: drop k [mkMsgData "mOther" "mDst" "hi" ["tx9"]]) ∧
    ∃ pre item post ms0, example_tagged = pre ++ item :: post ∧ is_Some item.2 ∧
      order_of post = [] ∧ scan (H := example_collab) testnet (others pre) = Val ms0 ∧
      k = length ms0.
Proof.
  apply (scan_interleaved (H := example_collab) testnet "mSrc" "mDst" example_chunks
           example_tagged); [done|cbn; lia| |by apply (Permutation_cons_append [0; 1] 2)|done].
  repeat constructor; try (eexists; split; [reflexivity|by vm_compute]).
  by exists "mOther", "mDst".
Defined.

(** The result of that scan. *)
Example scan_example_tagged :
  scan (H := example_collab) testnet example_tagged.*1 =
    Val [mkMsgData "mOther" "mDst" "hi" ["tx9"];
         mkMsgData "mSrc" "mDst" "hello you" ["tx0"; "tx1"; "tx2"]].
Proof. by vm_compute. Qed.
