(* ===== verification/Tolerance.v ===== *)
(** * Tolerance: the reader and the transactions that are no frames

    The history of an address lists every transaction of the address, and
    most of them are payments that have nothing to do with the protocol.
    The loop of [getTMMessages] (src/TxMEx.js, lines 202 to 247) reads the
    addresses of each transaction, classifies it, and goes on to the next
    one when it is no frame (line 209).  This file shows that such
    transactions change nothing: a history and the same history without
    them give the same answer, exceptions included.  It ends with the
    transactions the loop does not tolerate, although the classifier takes
    them for no frames: those without a script in the first input or the
    first output, whose address line 204 or 205 reads before line 209
    classifies them. *)

From stdpp Require Import gmap.
From S2P Require Import Prelude.
From S2P Require Import JsString.
From S2P Require Import JsArray.
From S2P Require Import Ledger.
From S2P Require Import Collaborators.
From S2P Require Import Codec.
From S2P Require Import Reassembly.

Section tolerance.
Context `{Collab}.

(** A transaction that has nothing to do with the protocol, as the loop
    sees it: its first input and its first output have scripts, so that
    lines 204 and 205 read two addresses, and [extractTMMessage] returns
    no message (lines 209 and 210). *)
Definition unrelated (tx : Transaction) : bool :=
  bool_decide (is_Some (first_input_script tx)) &&
  bool_decide (is_Some (first_output_script tx)) &&
  (if extractTMMessage (PlainTx tx) is Val None then true else false).

(** The history without the transactions that are unrelated. *)
Definition related_only (items : list Transaction) : list Transaction :=
  filter (λ tx, unrelated tx = false) items.

Lemma unrelated_true (tx : Transaction) :
  unrelated tx = true ↔
  is_Some (first_input_script tx) ∧ is_Some (first_output_script tx) ∧
  extractTMMessage (PlainTx tx) = Val None.
Proof.
  unfold unrelated. rewrite !andb_true_iff, !bool_decide_eq_true.
  destruct (extractTMMessage (PlainTx tx)) as [[]|]; naive_solver.
Qed.

(** They are the transactions that the classifier rejects. *)
Lemma unrelated_classified (tx : Transaction) :
  unrelated tx = true ↔
  is_Some (first_input_script tx) ∧ is_Some (first_output_script tx) ∧
  isTMTransaction tx = Val false.
Proof.
  rewrite unrelated_true, extractTMMessage_cases. cbn [unwrap_tx].
  destruct (isTMTransaction tx) as [[]|] eqn:E; cbn; [|naive_solver..].
  apply isTMTransaction_true_iff in E as (_ & _ & E).
  destruct (second_output_data tx); [naive_solver|done].
Qed.

(** A transaction that carries a frame is not one of them. *)
Lemma carries_related (net : network) (tx : Transaction) (s d : string) (m : TMMessage) :
  carries net tx s d m → unrelated tx = false.
Proof. intros (_ & _ & Hm). unfold unrelated. by rewrite Hm, andb_false_r. Qed.

Lemma related_only_all (items : list Transaction) :
  Forall (λ tx, unrelated tx = false) items → related_only items = items.
Proof.
  unfold related_only. induction 1 as [|tx items Htx _ IH]; [done|].
  by rewrite filter_cons_True, IH.
Qed.

(** The loop passes over them, from every state. *)
Lemma foldM_related_only (net : network) (st : ScanState) (items : list Transaction) :
  foldM (scan_tx net) st (related_only items) = foldM (scan_tx net) st items.
Proof.
  revert st. induction items as [|tx items IH]; intros st; [done|].
  unfold related_only in *. rewrite filter_cons.
  destruct (decide (unrelated tx = false)) as [|Hun].
  - rewrite !foldM_cons. destruct (scan_tx net st tx); cbn; [apply IH|done].
  - apply not_false_is_true, unrelated_true in Hun as ([i Hi] & [o Ho] & Hno).
    rewrite foldM_cons, (scan_tx_not_frame net st tx) by done. apply IH.
Qed.

Lemma scan_related_only (net : network) (items : list Transaction) :
  scan net (related_only items) = scan net items.
Proof. unfold scan. by rewrite foldM_related_only. Qed.

(** C6. The reader tolerates unrelated transactions.  Whatever a history
    holds, [getTMMessages] answers on it what it answers on the history
    without its unrelated transactions, those with two addresses that the
    classifier rejects: the same messages in the same order, or the same
    exception.  Payments between the two ends of a conversation, before,
    between and after the chunks of a message, do not disturb its
    reassembly. *)
Theorem getTMMessages_tolerates (address : string) (net : network) (items : list Transaction) :
  getTMMessages address net (HistoryOk (related_only items)) =
  getTMMessages address net (HistoryOk items).
Proof. unfold getTMMessages. by rewrite scan_related_only. Qed.

(** ** Transactions without an address *)

(** C19. A transaction without a script in its first input or in its first
    output, such as the first transaction of a block, is no frame for the
    classifier, and yet it is not [unrelated], one of the transactions
    that the reader passes over: it stops the reader.  On every history
    that lists it, whatever comes before and after it, [getTMMessages]
    ends with an exception and never calls back; the exception is the
    TypeError of line 204 or 205 when the loop gets as far as this
    transaction. *)
Theorem getTMMessages_unreadable (address : string) (net : network)
    (pre post : list Transaction) (tx : Transaction) :
  first_input_script tx = None ∨ first_output_script tx = None →
  isTMTransaction tx = Val false ∧ unrelated tx = false ∧
  (∃ e, getTMMessages address net (HistoryOk (pre ++ tx :: post)) = Uncaught e) ∧
  (is_Val (scan net pre) = true →
   getTMMessages address net (HistoryOk (pre ++ tx :: post)) = Uncaught TypeError).
Proof.
  intros Hno.
  assert (∀ st, scan_tx net st tx = Throw TypeError) as Htx.
  { intros st. unfold scan_tx, source_of, destination_of.
    destruct Hno as [-> | ->]; [done|]. by destruct (first_input_script tx). }
  assert (isTMTransaction tx = Val false) as Hclass.
  { unfold isTMTransaction. destruct Hno as [-> | ->]; [done|].
    by destruct (first_input_script tx). }
  assert (unrelated tx = false) as Hkept.
  { apply not_true_is_false. rewrite unrelated_true.
    intros ([? Hi] & [? Ho] & _). destruct Hno; congruence. }
  unfold getTMMessages, scan. rewrite foldM_app.
  destruct (foldM (scan_tx net) scan_init pre) as [st|e]; cbn [mbind res_bind].
  - rewrite foldM_cons, Htx. cbn. eauto.
  - split_and!; [done|done|by eauto|done].
Qed.

End tolerance.

(** ** Example *)

(** A payment from "mSrc" to "mDst": one output to the destination, no
    data output. *)
Definition example_payment : Transaction :=
  {| hash := "pay"; inputs := inputs (example_tx 0 (mkChunk "hel" "tx0"));
     outputs := take 1 (outputs (example_tx 0 (mkChunk "hel" "tx0"))) |}.

(** The chunks of the example message with payments between them. *)
Example related_only_example :
  related_only (H := example_collab)
    [example_payment; example_tx 2 (mkChunk "you" "tx2"); example_payment;
     example_tx 0 (mkChunk "hel" "tx0"); example_tx 1 (mkChunk "lo " "tx1"); example_payment] =
    example_history [2; 0; 1].
Proof. by vm_compute. Qed.

(** With the payments the reader answers what it answers on the three
    transactions of the message. *)
Lemma getTMMessages_tolerates_witness :
  getTMMessages (H := example_collab) "mDst" testnet
    (HistoryOk [example_payment; example_tx 2 (mkChunk "you" "tx2"); example_payment;
                example_tx 0 (mkChunk "hel" "tx0"); example_tx 1 (mkChunk "lo " "tx1");
                example_payment]) =
    getTMMessages (H := example_collab) "mDst" testnet (HistoryOk (example_history [2; 0; 1])).
Proof. rewrite <- related_only_example. symmetry. apply getTMMessages_tolerates. Defined.

(** The first transaction of a block has no script in its input: between
    the chunks of the example message it stops the reader. *)
Definition example_coinbase : Transaction :=
  {| hash := "cb"; inputs := [mkInput None];
     outputs := take 1 (outputs (example_tx 0 (mkChunk "hel" "tx0"))) |}.

Lemma getTMMessages_unreadable_witness :
  isTMTransaction (H := example_collab) example_coinbase = Val false ∧
  unrelated (H := example_collab) example_coinbase = false ∧
  (∃ e, getTMMessages (H := example_collab) "mDst" testnet
          (HistoryOk (example_history [2; 0] ++ example_coinbase :: example_history [1])) =
        Uncaught e) ∧
  (is_Val (scan (H := example_collab) testnet (example_history [2; 0])) = true →
   getTMMessages (H := example_collab) "mDst" testnet
     (HistoryOk (example_history [2; 0] ++ example_coinbase :: example_history [1])) =
   Uncaught TypeError).
Proof. apply getTMMessages_unreadable. by left. Defined.
