(* ===== verification/Send.v ===== *)
(** * Send: the transmission pipeline of sendTMMessage

    [sendTMMessage] (src/TxMEx.js, lines 88 to 184) validates the two
    addresses, cuts the message into chunks, checks the balance and then
    sends one transaction per chunk.  The inner function
    [sendMsgTransaction] (lines 108 to 162) is one attempt: ask for the
    unspent outputs, build, sign and broadcast the transaction of the
    current chunk, then finish, advance or retry.  Its variables [chunks],
    [seq], [tries] and [senttxs] are the job, [SendJob].

    The collaborators answer through callbacks.  The model takes their
    answers as data: [BalanceAnswer] is what the balance query reports and
    an [Attempt] is everything the collaborators do during one attempt.
    [run] feeds a list of attempts to the job, one per call of
    [sendMsgTransaction], and returns the texts handed to the broadcast in
    order together with how the job stands: finished with an [outcome], or
    [Pending] when the answers are used up.  The list is the fuel of the
    model; [run_terminates] gives the length that always suffices.

    The code advances with [setTimeout(sendMsgTransaction(cb), 500)]: the
    next attempt is called at once and its result, [undefined], is what the
    timer receives.  How the timer treats an argument that is no function is
    a property of the runtime, [TimerPolicy]: it ignores it, as browsers
    do, or it throws a TypeError that nothing catches, as Node does since
    it checks the argument.  Under the second policy no job gets past its
    first broadcast ([run_timer_throws]); the theorems on jobs of several
    chunks are stated for the first. *)

From stdpp Require Import relations.
From S2P Require Import Prelude.
From S2P Require Import JsString.
From S2P Require Import Ledger.
From S2P Require Import Collaborators.
From S2P Require Import Codec.

(** The argument [msgData]: [{src, dst, msg, pk}] (lines 89 to 92). *)
Record SendData : Type := mkSendData {
  src : string;
  dst : string;
  msg : string;
  pk : string;
}.

(** What the callback receives as its error: a text the code builds, or an
    exception it caught. *)
Inductive CbError : Type :=
| ErrText (text : string)
| ErrExn (e : string).

#[export] Instance CbError_eq_dec : EqDecision CbError.
Proof. solve_decision. Defined.

(** The variables of one job (lines 104 to 106 and 102). *)
Record SendJob : Type := mkSendJob {
  chunks : list string;
  seq : nat;
  tries : nat;
  senttxs : list string;
}.

#[export] Instance SendJob_eq_dec : EqDecision SendJob.
Proof. solve_decision. Defined.

(** What the collaborators do during one attempt: the call of the query
    for unspent outputs throws, or the query reports an error; building,
    signing or the call of the broadcast throws; the broadcast reports an
    error ([txtext] is the text of the transaction, which the code appends
    to its message); the broadcast reports the identifier of the
    transaction. *)
Inductive Attempt : Type :=
| UtxoThrows (e : string)
| UtxoErr (err : string)
| BuildThrows (e : string)
| SignThrows (e : string)
| BroadcastThrows (e : string)
| BroadcastErr (err txtext : string)
| BroadcastOk (txid : string).

(** What the balance query reports. *)
Inductive BalanceAnswer : Type :=
| BalanceErr (err : string)
| BalanceOk (balance : Z).

(** How [setTimeout] treats a first argument that is no function. *)
Inductive TimerPolicy : Type :=
| TimerIgnores
| TimerThrows.

(** How a job stands. *)
Inductive Status : Type :=
| Pending (job : SendJob)
| Finished (o : outcome CbError (list string)).

#[export] Instance Status_eq_dec : EqDecision Status.
Proof. solve_decision. Defined.

(** [prefix + chunks[seq]] (lines 113 to 116 and 124); a read past the end
    of [chunks] yields [undefined], which the concatenation spells out. *)
Definition payload (job : SendJob) : string :=
  frame (length (chunks job)) (seq job) (nth_or "undefined" (chunks job) (seq job)).

(** [setTimeout(sendMsgTransaction(cb), ms)] (lines 143 and 157): the next
    attempt is under way when the timer receives [undefined]. *)
Definition setTimeout_next (policy : TimerPolicy) (job : SendJob) : Status :=
  match policy with
  | TimerIgnores => Pending job
  | TimerThrows => Finished (Uncaught TypeError)
  end.

(** The first call of [sendMsgTransaction] is the one of line 178, inside
    the [try] of lines 177 to 182; every later call is the argument of a
    [setTimeout], in the callback of a broadcast. *)
Definition first_call (job : SendJob) : bool :=
  bool_decide (seq job = 0 ∧ tries job = 0).

Arguments first_call : simpl never.

(** One call of [sendMsgTransaction] (lines 108 to 162): the texts handed
    to the broadcast and how the job stands afterwards.  An exception of
    the call of line 110 is caught at line 182 in the first call, and by
    nothing later. *)
Definition sendMsgTransaction (policy : TimerPolicy) (job : SendJob) (a : Attempt)
    : list string * Status :=
  match a with
  | UtxoThrows e =>
      ([], Finished (if first_call job then CallbackErr (ErrExn e) else Uncaught (Thrown e)))
  | UtxoErr err => ([], Finished (CallbackErr (ErrText ("[getUnspentUtxos]: " +:+ err))))
  | BuildThrows e => ([], Finished (CallbackErr (ErrExn e)))
  | SignThrows e => ([], Finished (CallbackErr (ErrExn e)))
  | BroadcastThrows e => ([], Finished (CallbackErr (ErrExn e)))
  | BroadcastErr err txtext =>
      ([payload job],
       if bool_decide (tries job < MAX_SEND_RETRY) then
         setTimeout_next policy
           {| chunks := chunks job; seq := seq job; tries := S (tries job);
              senttxs := senttxs job |}
       else Finished (CallbackErr (ErrText ("[insight.broadcast]: " +:+ err +:+ txtext))))
  | BroadcastOk txid =>
      ([payload job],
       if bool_decide (Z.of_nat (seq job) = Z.of_nat (length (chunks job)) - 1)%Z then
         Finished (CallbackOk (senttxs job ++ [txid]))
       else
         setTimeout_next policy
           {| chunks := chunks job; seq := S (seq job); tries := tries job;
              senttxs := senttxs job ++ [txid] |})
  end.

(** The attempts of a job, one after the other, until the job finishes or
    the answers are used up. *)
Fixpoint run (policy : TimerPolicy) (job : SendJob) (answers : list Attempt)
    : list string * Status :=
  match answers with
  | [] => ([], Pending job)
  | a :: rest =>
      match sendMsgTransaction policy job a with
      | (sent, Pending job') =>
          let (sent', st) := run policy job' rest in (sent ++ sent', st)
      | (sent, Finished o) => (sent, Finished o)
      end
  end.

(** The job as [sendTMMessage] creates it (lines 102 to 106). *)
Definition new_job (chunks : list string) : SendJob :=
  {| chunks := chunks; seq := 0; tries := 0; senttxs := [] |}.

Section send.
Context `{Collab}.

(** [sendTMMessage(msgData, callback)] given the answers of the balance
    query and of the attempts.  When the balance is too small the code
    calls [cb], which is not in scope there (lines 170 and 173): a
    ReferenceError in the callback of the balance query. *)
Definition sendTMMessage (policy : TimerPolicy) (msgData : SendData)
    (balance : BalanceAnswer) (answers : list Attempt) : list string * Status :=
  let network := getBTCNetwork (src msgData) in
  if negb (isValidAddr (src msgData) network) || negb (isValidAddr (dst msgData) network)
  then ([], Finished (CallbackErr (ErrText "Invalid address")))
  else
    let chunks := chunkMessage (msg msgData) MAX_PAYLOAD_SIZE in
    match balance with
    | BalanceErr err => ([], Finished (CallbackErr (ErrText ("[getBTCAddrBalance]: " +:+ err))))
    | BalanceOk balance =>
        if bool_decide (balance < (MIN_AMOUNT + MIN_FEE) * Z.of_nat (length chunks))%Z
        then ([], Finished (Uncaught ReferenceError))
        else run policy (new_job chunks) answers
    end.

End send.

(** ** Running attempts *)

(** The broadcast answers among the attempts. *)
Definition broadcast_err (a : Attempt) : option string :=
  match a with BroadcastErr err _ => Some err | _ => None end.

Definition broadcast_txid (a : Attempt) : option string :=
  match a with BroadcastOk txid => Some txid | _ => None end.

(** The attempts a job has left at most: one per chunk still to send and
    one per retry still allowed. *)
Definition budget (job : SendJob) : nat :=
  (length (chunks job) - seq job) + (MAX_SEND_RETRY - tries job).

Section run.
Context (policy : TimerPolicy).
Implicit Types (job : SendJob) (a : Attempt) (answers : list Attempt)
  (sent : list string) (st : Status).

Lemma run_cons_pending job a answers sent job' :
  sendMsgTransaction policy job a = (sent, Pending job') →
  run policy job (a :: answers) =
    (sent ++ (run policy job' answers).1, (run policy job' answers).2).
Proof. intros E. cbn [run]. rewrite E. by destruct (run policy job' answers). Qed.

Lemma run_cons_finished job a answers sent o :
  sendMsgTransaction policy job a = (sent, Finished o) →
  run policy job (a :: answers) = (sent, Finished o).
Proof. intros E. cbn [run]. by rewrite E. Qed.

Lemma run_cons_inv job a answers sent st :
  run policy job (a :: answers) = (sent, st) →
  (∃ o, sendMsgTransaction policy job a = (sent, Finished o) ∧ st = Finished o) ∨
  (∃ sent1 job' sent2, sendMsgTransaction policy job a = (sent1, Pending job') ∧
     run policy job' answers = (sent2, st) ∧ sent = sent1 ++ sent2).
Proof.
  cbn [run]. destruct (sendMsgTransaction policy job a) as [sent1 [job'|o]].
  - destruct (run policy job' answers) as [sent2 st2] eqn:E. intros [= <- <-]. right.
    by exists sent1, job', sent2.
  - intros [= <- <-]. left. eauto.
Qed.

(** An attempt after which the job goes on was a broadcast: it failed with
    retries left, or it succeeded on a chunk that is not the last. *)
Lemma sendMsgTransaction_pending job a sent job' :
  sendMsgTransaction policy job a = (sent, Pending job') →
  policy = TimerIgnores ∧ sent = [payload job] ∧
  ((∃ err txtext, a = BroadcastErr err txtext ∧ tries job < MAX_SEND_RETRY ∧
      job' = mkSendJob (chunks job) (seq job) (S (tries job)) (senttxs job)) ∨
   (∃ txid, a = BroadcastOk txid ∧
      (Z.of_nat (seq job) ≠ Z.of_nat (length (chunks job)) - 1)%Z ∧
      job' = mkSendJob (chunks job) (S (seq job)) (tries job) (senttxs job ++ [txid]))).
Proof.
  destruct a; cbn; try done; case_bool_decide; try done;
    destruct policy; cbn; intros [= <- <-]; naive_solver.
Qed.

(** Every attempt that does not finish the job uses up some of its budget
    and leaves the sequence number below the number of chunks. *)
Lemma sendMsgTransaction_budget job a sent job' :
  seq job < length (chunks job) →
  sendMsgTransaction policy job a = (sent, Pending job') →
  chunks job' = chunks job ∧ seq job' < length (chunks job') ∧ budget job' < budget job.
Proof.
  intros Hseq (_ & _ & [(? & ? & _ & Ht & ->)|(? & _ & Hlast & ->)])%sendMsgTransaction_pending;
    unfold budget; cbn [chunks seq tries senttxs]; split_and!; first [done|lia].
Qed.

Lemma run_finishes job answers :
  seq job < length (chunks job) → budget job ≤ length answers →
  ∃ sent o, run policy job answers = (sent, Finished o).
Proof.
  revert job. induction answers as [|a answers IH]; intros job Hseq Hb.
  { unfold budget in Hb. cbn [length] in Hb. lia. }
  destruct (sendMsgTransaction policy job a) as [sent [job'|o]] eqn:E.
  - destruct (sendMsgTransaction_budget _ _ _ _ Hseq E) as (_ & Hseq' & Hb').
    destruct (IH job' Hseq') as (sent' & o & E'); [cbn in Hb; lia|].
    rewrite (run_cons_pending _ _ _ _ _ E), E'. eauto.
  - rewrite (run_cons_finished _ _ _ _ _ E). eauto.
Qed.

End run.

Section run_more.
Context (policy : TimerPolicy).
Implicit Types (job : SendJob) (a : Attempt) (answers : list Attempt)
  (sent : list string) (st : Status).

Lemma run_app_pending job answers more sent job' :
  run policy job answers = (sent, Pending job') →
  run policy job (answers ++ more) =
    (sent ++ (run policy job' more).1, (run policy job' more).2).
Proof.
  revert job sent. induction answers as [|a answers IH]; intros job sent.
  { intros [= <- <-]. cbn [app]. by destruct (run policy job more). }
  intros [(o & _ & ?)|(sent1 & job1 & sent2 & E1 & E2 & ->)]%run_cons_inv; [done|].
  rewrite <- app_comm_cons, (run_cons_pending _ _ _ _ _ _ E1), (IH _ _ E2).
  cbn [fst snd]. by rewrite (assoc_L (++)).
Qed.

(** A finished job finished at one of its attempts, and was pending before. *)
Lemma run_finished_inv job answers sent o :
  run policy job answers = (sent, Finished o) →
  ∃ pre a post sent1 job' sent2,
    answers = pre ++ a :: post ∧ run policy job pre = (sent1, Pending job') ∧
    sendMsgTransaction policy job' a = (sent2, Finished o) ∧ sent = sent1 ++ sent2.
Proof.
  revert job sent. induction answers as [|a answers IH]; intros job sent; [done|].
  intros [(o' & E & [= <-])|(sent1 & job1 & sent2 & E1 & E2 & ->)]%run_cons_inv.
  - by exists [], a, answers, [], job, sent.
  - destruct (IH _ _ E2) as (pre & a' & post & s1 & job' & s2 & -> & Hpre & Ha & ->).
    exists (a :: pre), a', post, (sent1 ++ s1), job', s2.
    rewrite (run_cons_pending _ _ _ _ _ _ E1), Hpre. cbn [fst snd].
    by rewrite (assoc_L (++)).
Qed.

(** While a job is pending, [tries] counts the failed broadcasts of the
    whole job, [seq] the successful ones, and [senttxs] holds their
    identifiers in order. *)
Lemma run_pending_counts job answers sent job' :
  run policy job answers = (sent, Pending job') →
  chunks job' = chunks job ∧
  tries job' = tries job + length (omap broadcast_err answers) ∧
  seq job' = seq job + length (omap broadcast_txid answers) ∧
  senttxs job' = senttxs job ++ omap broadcast_txid answers.
Proof.
  revert job sent. induction answers as [|a answers IH]; intros job sent.
  { intros [= <- <-]. cbn. rewrite app_nil_r. split_and!; first [done|lia]. }
  intros [(o & _ & ?)|(sent1 & job1 & sent2 & E1 & E2 & ->)]%run_cons_inv; [done|].
  destruct (IH _ _ E2) as (-> & -> & -> & ->).
  apply sendMsgTransaction_pending in E1
    as (_ & _ & [(? & ? & -> & _ & ->)|(? & -> & _ & ->)]); csimpl;
    rewrite <- ?(assoc_L (++)); split_and!; first [done|lia].
Qed.

End run_more.

(** ** The shape of a job *)

(** A job under way: its sequence number names a chunk, it has not used
    more retries than allowed, and it holds one identifier for each chunk
    sent. *)
Definition job_wf (job : SendJob) : Prop :=
  seq job < length (chunks job) ∧ tries job ≤ MAX_SEND_RETRY ∧
  length (senttxs job) = seq job.

#[export] Instance job_wf_dec (job : SendJob) : Decision (job_wf job).
Proof. unfold job_wf. apply _. Defined.

(** One attempt that leaves the job under way. *)
Inductive job_step (policy : TimerPolicy) : SendJob → SendJob → Prop :=
| job_step_attempt job a sent job' :
    sendMsgTransaction policy job a = (sent, Pending job') → job_step policy job job'.

Section job_wf.
Context (policy : TimerPolicy).
Implicit Types (job : SendJob) (a : Attempt) (answers : list Attempt).

Lemma new_job_wf (cs : list string) : cs ≠ [] → job_wf (new_job cs).
Proof. destruct cs; [done|]. intros _. unfold job_wf, MAX_SEND_RETRY. cbn. lia. Qed.

Lemma job_step_wf job job' :
  job_wf job → job_step policy job job' → job_wf job' ∧ chunks job' = chunks job.
Proof.
  intros Hwf Hstep. destruct Hstep as [job a sent job' E].
  destruct Hwf as (Hseq & Htries & Hsent).
  apply sendMsgTransaction_pending in E
    as (_ & _ & [(? & ? & _ & Ht & ->)|(? & _ & Hlast & ->)]);
    unfold job_wf; cbn [chunks seq tries senttxs]; rewrite ?length_app; cbn [length];
    split_and!; first [done|lia].
Qed.

Lemma run_pending_steps job answers sent job' :
  run policy job answers = (sent, Pending job') → rtc (job_step policy) job job'.
Proof.
  revert job sent. induction answers as [|a answers IH]; intros job sent.
  { intros [= _ <-]. apply rtc_refl. }
  intros [(o & _ & ?)|(sent1 & job1 & sent2 & E1 & E2 & _)]%run_cons_inv; [done|].
  eapply rtc_l; [by econstructor|by eapply IH].
Qed.

Lemma job_wf_rtc job job' :
  job_wf job → rtc (job_step policy) job job' → job_wf job' ∧ chunks job' = chunks job.
Proof.
  intros Hwf Hsteps. induction Hsteps as [|job1 job2 job3 Hstep _ IH]; [done|].
  destruct (job_step_wf _ _ Hwf Hstep) as [Hwf2 E2].
  destruct (IH Hwf2) as [Hwf3 E3]. split; [done|congruence].
Qed.

End job_wf.

(** ** The texts a job broadcasts *)

(** The frames of the chunks, in order: what a job without failures hands
    to the broadcast. *)
Definition frames (cs : list string) : list string := imap (frame (length cs)) cs.

Lemma payload_lookup (job : SendJob) (c : string) :
  chunks job !! seq job = Some c →
  payload job = frame (length (chunks job)) (seq job) c.
Proof. intros Hc. unfold payload. by rewrite (nth_or_lookup _ _ _ _ Hc). Qed.

Lemma payload_frames (job : SendJob) :
  seq job < length (chunks job) → payload job ∈ frames (chunks job).
Proof.
  intros [c Hc]%lookup_lt_is_Some_2. rewrite (payload_lookup _ _ Hc).
  apply (list_elem_of_lookup_2 _ (seq job)). unfold frames.
  by rewrite list_lookup_imap, Hc.
Qed.

Lemma frames_seq (cs : list string) :
  frames cs =
    (λ i, frame (length cs) i (nth_or "undefined" cs i)) <$> List.seq 0 (length cs).
Proof. apply imap_seq_nth_or. Qed.

(** ** A job whose broadcasts all succeed *)

Lemma run_all_ok (cs : list string) (k t : nat) (acc ids : list string) :
  ids ≠ [] → k + length ids = length cs →
  run TimerIgnores (mkSendJob cs k t acc) (BroadcastOk <$> ids) =
    ((λ i, frame (length cs) i (nth_or "undefined" cs i)) <$> List.seq k (length ids),
     Finished (CallbackOk (acc ++ ids))).
Proof.
  revert k acc. induction ids as [|id ids IH]; intros k acc Hne Hlen; [done|].
  cbn [fmap list_fmap length List.seq]. cbn in Hlen.
  destruct ids as [|id' ids].
  - apply run_cons_finished. cbn. by rewrite bool_decide_eq_true_2 by (cbn in Hlen; lia).
  - erewrite run_cons_pending; last first.
    { cbn. by rewrite bool_decide_eq_false_2 by (cbn in Hlen; lia). }
    rewrite (IH (S k) (acc ++ [id])) by (done || lia).
    cbn [fst snd]. by rewrite <- (assoc_L (++)).
Qed.

(** A job over at least one chunk whose broadcasts all succeed hands the
    frames of the chunks to the broadcast, in order, and calls back with the
    identifiers in the same order. *)
Lemma run_new_job_ok (cs ids : list string) :
  cs ≠ [] → length ids = length cs →
  run TimerIgnores (new_job cs) (BroadcastOk <$> ids) =
    (frames cs, Finished (CallbackOk ids)).
Proof.
  intros Hne Hlen. unfold new_job. rewrite run_all_ok, frames_seq, Hlen; [done| |done].
  intros ->. by destruct cs.
Qed.

(** C5. Termination: whatever the collaborators answer, a job over at least
    one chunk has finished after as many attempts as there are chunks and
    retries. *)
Theorem run_terminates (policy : TimerPolicy) (cs : list string) (answers : list Attempt) :
  cs ≠ [] → length cs + MAX_SEND_RETRY ≤ length answers →
  ∃ sent o, run policy (new_job cs) answers = (sent, Finished o).
Proof.
  intros Hne Hlen. apply run_finishes; unfold budget, MAX_SEND_RETRY in *; cbn; [|lia].
  destruct cs; [done|cbn; lia].
Qed.

(** With no chunk at all the job goes on for as long as its broadcasts
    succeed: the sequence number is compared with -1, and every attempt
    broadcasts a frame that spells out the missing chunk. *)
Lemma run_empty_ok (k t : nat) (acc ids : list string) :
  run TimerIgnores (mkSendJob [] k t acc) (BroadcastOk <$> ids) =
    ((λ i, frame 0 i "undefined") <$> List.seq k (length ids),
     Pending (mkSendJob [] (k + length ids) t (acc ++ ids))).
Proof.
  revert k acc. induction ids as [|id ids IH]; intros k acc.
  { cbn. by rewrite app_nil_r, Nat.add_0_r. }
  cbn [fmap list_fmap length List.seq].
  erewrite run_cons_pending; [|by cbn; rewrite bool_decide_eq_false_2 by (cbn; lia)].
  rewrite IH. cbn [fst snd]. unfold payload, nth_or. cbn.
  by rewrite <- (assoc_L (++)), Nat.add_succ_r.
Qed.


(** ** Failed broadcasts *)

(** The attempts that reach the broadcast and get an answer from it. *)
Definition is_broadcast (a : Attempt) : bool :=
  match a with BroadcastErr _ _ | BroadcastOk _ => true | _ => false end.

Lemma run_retries (cs : list string) (k t : nat) (acc : list string)
    (answers : list Attempt) :
  forallb is_broadcast answers = true →
  omap broadcast_txid answers ≠ [] →
  k + length (omap broadcast_txid answers) = length cs →
  t + length (omap broadcast_err answers) ≤ MAX_SEND_RETRY →
  (run TimerIgnores (mkSendJob cs k t acc) answers).2 =
    Finished (CallbackOk (acc ++ omap broadcast_txid answers)).
Proof.
  revert k t acc. induction answers as [|a answers IH]; intros k t acc Hall Hne Hk Ht; [done|].
  apply andb_prop in Hall as [Ha Hall].
  destruct a; try done; csimpl in Hne; csimpl in Hk; csimpl in Ht.
  - erewrite run_cons_pending; [|by cbn; rewrite bool_decide_eq_true_2 by lia].
    csimpl. apply IH; first [done|lia].
  - destruct (omap broadcast_txid answers) as [|id ids] eqn:E.
    + erewrite run_cons_finished; [by csimpl; rewrite E|].
      cbn. by rewrite bool_decide_eq_true_2 by (cbn in Hk; lia).
    + erewrite run_cons_pending;
        [|by cbn; rewrite bool_decide_eq_false_2 by (cbn in Hk; lia)].
      csimpl. rewrite IH, E, <- ?(assoc_L (++)); first [done|cbn in *; lia].
Qed.

(** The broadcasts that succeeded: the text handed over and the
    identifier reported. *)
Definition accepted (sent : list string) (answers : list Attempt) : list (string * string) :=
  omap (λ p, pair p.1 <$> broadcast_txid p.2) (zip sent answers).

Lemma frames_lookup_payload (job : SendJob) :
  seq job < length (chunks job) → frames (chunks job) !! seq job = Some (payload job).
Proof.
  intros [c Hc]%lookup_lt_is_Some_2. rewrite (payload_lookup _ _ Hc).
  unfold frames. by rewrite list_lookup_imap, Hc.
Qed.

Lemma drop_frames_payload (cs : list string) (k t : nat) (acc : list string) :
  k < length cs →
  drop k (frames cs) = payload (mkSendJob cs k t acc) :: drop (S k) (frames cs).
Proof.
  intros Hk. apply drop_S. by apply (frames_lookup_payload (mkSendJob cs k t acc)).
Qed.

(** With failed broadcasts among the attempts, the broadcasts that succeed
    are those of the frames, in order. *)
Lemma run_retries_accepted (cs : list string) (k t : nat) (acc : list string)
    (answers : list Attempt) :
  forallb is_broadcast answers = true →
  omap broadcast_txid answers ≠ [] →
  k + length (omap broadcast_txid answers) = length cs →
  t + length (omap broadcast_err answers) ≤ MAX_SEND_RETRY →
  accepted (run TimerIgnores (mkSendJob cs k t acc) answers).1 answers =
    zip (drop k (frames cs)) (omap broadcast_txid answers).
Proof.
  revert k t acc. induction answers as [|a answers IH]; intros k t acc Hall Hne Hk Ht; [done|].
  apply andb_prop in Hall as [Ha Hall].
  destruct a; try done; csimpl in Hne; csimpl in Hk; csimpl in Ht.
  - erewrite run_cons_pending; [|by cbn; rewrite bool_decide_eq_true_2 by lia].
    csimpl. unfold accepted in *. csimpl. apply IH; first [done|lia].
  - rewrite (drop_frames_payload cs k t acc) by (cbn in Hk; lia).
    destruct (omap broadcast_txid answers) as [|id ids] eqn:E.
    + erewrite run_cons_finished; [|by cbn; rewrite bool_decide_eq_true_2 by (cbn in Hk; lia)].
      unfold accepted. csimpl. rewrite E. by destruct (drop _ _).
    + erewrite run_cons_pending;
        [|by cbn; rewrite bool_decide_eq_false_2 by (cbn in Hk; lia)].
      unfold accepted in *. csimpl. rewrite IH, E; first [done|cbn in *; lia].
Qed.

Lemma run_tolerates_sent (cs : list string) (answers : list Attempt) :
  cs ≠ [] → forallb is_broadcast answers = true →
  length (omap broadcast_txid answers) = length cs →
  length (omap broadcast_err answers) ≤ MAX_SEND_RETRY →
  (run TimerIgnores (new_job cs) answers).2 =
    Finished (CallbackOk (omap broadcast_txid answers)).
Proof.
  intros Hne Hall Hok Herr. unfold new_job. rewrite run_retries; try done.
  intros E. rewrite E in Hok. by destruct cs.
Qed.

(** Up to [MAX_SEND_RETRY] failed broadcasts, wherever they fall, do not
    stop a job: with one successful broadcast per chunk it calls back with
    the identifiers of the successful ones, in order. *)
Theorem run_tolerates_retries (cs : list string) (answers : list Attempt) :
  cs ≠ [] → forallb is_broadcast answers = true →
  length (omap broadcast_txid answers) = length cs →
  length (omap broadcast_err answers) ≤ MAX_SEND_RETRY →
  (run TimerIgnores (new_job cs) answers).2 =
    Finished (CallbackOk (omap broadcast_txid answers)).
Proof. apply run_tolerates_sent. Qed.

(** C16. The retries are counted over the whole job and never reset: once
    [MAX_SEND_RETRY] broadcasts have failed, on whichever chunks, the next
    failure ends the job with the error of the broadcast. *)
Theorem run_retries_per_job (policy : TimerPolicy) (cs : list string)
    (answers : list Attempt) (sent : list string) (job : SendJob) (err txtext : string) :
  run policy (new_job cs) answers = (sent, Pending job) →
  length (omap broadcast_err answers) = MAX_SEND_RETRY →
  run policy (new_job cs) (answers ++ [BroadcastErr err txtext]) =
    (sent ++ [payload job],
     Finished (CallbackErr (ErrText ("[insight.broadcast]: " +:+ err +:+ txtext)))).
Proof.
  intros Hrun Herr. rewrite (run_app_pending _ _ _ _ _ _ Hrun).
  apply run_pending_counts in Hrun as (_ & Ht & _). cbn in Ht.
  cbn. by rewrite bool_decide_eq_false_2 by lia.
Qed.

(** ** What a job reports and broadcasts *)

(** A job that calls back with success hands over exactly one
    identifier per chunk: those of the successful broadcasts, in order. *)
Theorem run_ok_txids (policy : TimerPolicy) (cs : list string) (answers : list Attempt)
    (sent txs : list string) :
  run policy (new_job cs) answers = (sent, Finished (CallbackOk txs)) →
  length txs = length cs ∧ txs `prefix_of` omap broadcast_txid answers.
Proof.
  intros (pre & a & post & s1 & job & s2 & -> & Hpre & Ha & _)%run_finished_inv.
  apply run_pending_counts in Hpre as (Hcs & _ & Hseq & Htxs). cbn in *.
  destruct a; cbn in Ha; try done; try (by destruct (first_call job));
    case_bool_decide as Hlast; simplify_eq; try (by destruct policy).
  rewrite Htxs, omap_app. csimpl. split.
  - rewrite length_app. cbn. lia.
  - apply prefix_app, (prefix_cons _ [] ), prefix_nil.
Qed.

(** Whatever the collaborators answer, every text a job over at least
    one chunk hands to the broadcast is the frame of one of its chunks. *)
Theorem run_sent_frames (policy : TimerPolicy) (cs : list string)
    (answers : list Attempt) :
  cs ≠ [] → Forall (λ text, text ∈ frames cs) (run policy (new_job cs) answers).1.
Proof.
  intros Hne.
  assert (∀ job, chunks job = cs → seq job < length cs →
            Forall (λ text, text ∈ frames cs) (run policy job answers).1) as Hall.
  { induction answers as [|a answers IH]; intros job Hcs Hseq; [by cbn|].
    destruct (sendMsgTransaction policy job a) as [sent [job'|o]] eqn:E.
    - rewrite (run_cons_pending _ _ _ _ _ _ E). cbn [fst].
      rewrite <- Hcs in Hseq.
      destruct (sendMsgTransaction_budget _ _ _ _ _ Hseq E) as (Hcs' & Hseq' & _).
      apply sendMsgTransaction_pending in E as (_ & -> & _).
      apply Forall_app. split; [|apply IH; congruence].
      apply Forall_singleton. rewrite <- Hcs. by apply payload_frames.
    - rewrite (run_cons_finished _ _ _ _ _ _ E). cbn [fst]. subst cs.
      destruct a; cbn in E; simplify_eq; try done;
        apply Forall_singleton; by apply payload_frames. }
  apply Hall; [done|]. destruct cs; [done|cbn; lia].
Qed.

(** C25. Every job that starts over at least one chunk is well formed
    after any number of attempts that leave it under way: it works on the
    chunks it started with, its sequence number names one of them, so that
    the text of its next broadcast is the frame of that chunk, it has used
    at most [MAX_SEND_RETRY] retries and holds one identifier per chunk
    sent. *)
Theorem job_wf_reachable (policy : TimerPolicy) (cs : list string) (job : SendJob) :
  cs ≠ [] → rtc (job_step policy) (new_job cs) job →
  job_wf job ∧ chunks job = cs ∧ payload job ∈ frames cs.
Proof.
  intros Hcs Hsteps.
  destruct (job_wf_rtc policy _ _ (new_job_wf cs Hcs) Hsteps) as [Hwf E].
  cbn in E. split_and!; [done..|]. rewrite <- E. apply payload_frames, Hwf.
Qed.

(** ** Attempts that fail before the broadcast answers *)

(** The error the callback receives when an attempt fails before the
    broadcast answers (lines 110, 125, 133 and 160). *)
Definition attempt_error (a : Attempt) : option CbError :=
  match a with
  | UtxoErr err => Some (ErrText ("[getUnspentUtxos]: " +:+ err))
  | BuildThrows e | SignThrows e | BroadcastThrows e => Some (ErrExn e)
  | UtxoThrows _ | BroadcastErr _ _ | BroadcastOk _ => None
  end.

(** A failure of the query for unspent outputs, of building, of signing
    or of the call of the broadcast is not retried: it ends the job at
    once with that error, and nothing is broadcast in that attempt. *)
Theorem run_stops_at_failure (policy : TimerPolicy) (cs : list string)
    (pre post : list Attempt) (a : Attempt) (sent : list string) (job : SendJob)
    (e : CbError) :
  run policy (new_job cs) pre = (sent, Pending job) → attempt_error a = Some e →
  run policy (new_job cs) (pre ++ a :: post) = (sent, Finished (CallbackErr e)).
Proof.
  intros Hpre Ha. rewrite (run_app_pending _ _ _ _ _ _ Hpre).
  destruct a; simplify_eq/=; by rewrite app_nil_r.
Qed.

(** An exception of the call of the query for unspent outputs reaches
    the callback only in the first attempt; in a later attempt nothing
    catches it. *)
Theorem run_utxo_throws (policy : TimerPolicy) (cs : list string) (pre post : list Attempt)
    (sent : list string) (job : SendJob) (e : string) :
  run policy (new_job cs) pre = (sent, Pending job) →
  run policy (new_job cs) (pre ++ UtxoThrows e :: post) =
    (sent, Finished (if bool_decide (pre = []) then CallbackErr (ErrExn e)
                     else Uncaught (Thrown e))).
Proof.
  intros Hpre. rewrite (run_app_pending _ _ _ _ _ _ Hpre). cbn. rewrite app_nil_r.
  do 2 f_equal. destruct pre as [|a pre]; [by injection Hpre as _ <-|].
  rewrite bool_decide_eq_false_2 by done.
  apply run_cons_inv in Hpre as [(o & _ & ?)|(s1 & job1 & s2 & E1 & E2 & _)]; [done|].
  apply run_pending_counts in E2 as (_ & Ht & Hs & _).
  apply sendMsgTransaction_pending in E1 as (_ & _ & [(? & ? & _ & _ & ->)|(? & _ & _ & ->)]);
    unfold first_call; cbn in *; by rewrite bool_decide_eq_false_2 by lia.
Qed.

(** C37. Under a timer that throws when its argument is no function, no
    job gets past the first answer of a broadcast.  The callback receives
    the identifiers only for a message of one chunk whose first broadcast
    succeeds; every other answer of the first broadcast, a failure that
    the code means to retry or the success of the first of several
    chunks, ends the job with a TypeError that nothing catches, after one
    transaction at most. *)
Theorem run_timer_throws (cs : list string) (answers : list Attempt) (sent ids : list string)
    (a : Attempt) (rest : list Attempt) :
  (run TimerThrows (new_job cs) answers = (sent, Finished (CallbackOk ids)) ↔
   ∃ c txid more, cs = [c] ∧ answers = BroadcastOk txid :: more ∧
                  sent = [frame 1 0 c] ∧ ids = [txid]) ∧
  (is_broadcast a = true → (∀ c txid, ¬ (cs = [c] ∧ a = BroadcastOk txid)) →
   run TimerThrows (new_job cs) (a :: rest) =
     ([payload (new_job cs)], Finished (Uncaught TypeError))) ∧
  length (run TimerThrows (new_job cs) answers).1 ≤ 1.
Proof.
  assert (∀ b, (sendMsgTransaction TimerThrows (new_job cs) b).2 ≠ Pending (new_job cs) ∧
               ∃ t o, sendMsgTransaction TimerThrows (new_job cs) b = (t, Finished o) ∧
                      length t ≤ 1) as Hfin.
  { intros b. destruct b; cbn; repeat case_bool_decide; cbn; split; try done; eauto. }
  split_and!.
  - destruct answers as [|b more]; [by split; [|intros (? & ? & ? & _ & ? & _)]|].
    destruct (Hfin b) as (_ & t & o & E & _). rewrite (run_cons_finished _ _ _ _ _ _ E).
    destruct b; cbn in E; try (split; [by simplify_eq|by intros (? & ? & ? & _ & ? & _)]).
    + case_bool_decide; cbn in E; (split; [by simplify_eq|by intros (? & ? & ? & _ & ? & _)]).
    + case_bool_decide as Hlast; cbn in E; simplify_eq.
      * destruct cs as [|c [|c' cs]]; cbn in Hlast; try lia. split.
        -- intros [= <- <-]. by exists c, txid, more.
        -- by intros (? & ? & ? & [= <-] & [= <- <-] & -> & ->).
      * split; [done|]. intros (c & ? & ? & -> & _). cbn in Hlast. lia.
  - intros Ha Hnot. apply run_cons_finished. destruct a; try done; cbn.
    rewrite bool_decide_eq_false_2; [done|]. intros Hlast.
    destruct cs as [|c [|c' cs]]; cbn in Hlast; try lia. by eapply Hnot.
  - destruct answers as [|b more]; [cbn; lia|].
    destruct (Hfin b) as (_ & t & o & E & Ht). by rewrite (run_cons_finished _ _ _ _ _ _ E).
Qed.

(** ** The whole of sendTMMessage *)

Section send_theorems.
Context `{Collab}.
Implicit Types (msgData : SendData) (policy : TimerPolicy).

(** Both addresses pass the check of line 98. *)
Definition valid_addresses msgData : bool :=
  isValidAddr (src msgData) (getBTCNetwork (src msgData)) &&
  isValidAddr (dst msgData) (getBTCNetwork (src msgData)).

(** The chunks of the message (line 102). *)
Definition chunks_of msgData : list string := chunkMessage (msg msgData) MAX_PAYLOAD_SIZE.

(** The balance covers the amount and the fee of every chunk (line 168). *)
Definition affordable (balance : Z) (n : nat) : Prop :=
  ((MIN_AMOUNT + MIN_FEE) * Z.of_nat n ≤ balance)%Z.

Lemma sendTMMessage_run policy msgData balance answers :
  valid_addresses msgData = true → affordable balance (length (chunks_of msgData)) →
  sendTMMessage policy msgData (BalanceOk balance) answers =
    run policy (new_job (chunks_of msgData)) answers.
Proof.
  unfold valid_addresses, affordable, sendTMMessage.
  intros [-> ->]%andb_prop Hbal. cbn [negb orb].
  by rewrite bool_decide_eq_false_2 by (unfold chunks_of in Hbal; lia).
Qed.

(** An address that fails the check ends the call with the error
    "Invalid address"; nothing is broadcast. *)
Theorem sendTMMessage_invalid policy msgData balance answers :
  valid_addresses msgData = false →
  sendTMMessage policy msgData balance answers =
    ([], Finished (CallbackErr (ErrText "Invalid address"))).
Proof.
  unfold valid_addresses, sendTMMessage. intros [E|E]%andb_false_iff; rewrite E; [done|].
  by rewrite orb_true_r.
Qed.

(** C17. When the balance does not cover every chunk nothing is broadcast,
    but the callback does not receive an error either: the code calls a
    function that is not in scope, and a ReferenceError escapes. *)
Theorem sendTMMessage_insufficient policy msgData balance answers :
  valid_addresses msgData = true → ¬ affordable balance (length (chunks_of msgData)) →
  sendTMMessage policy msgData (BalanceOk balance) answers =
    ([], Finished (Uncaught ReferenceError)).
Proof.
  unfold valid_addresses, affordable, sendTMMessage.
  intros [-> ->]%andb_prop Hbal. cbn [negb orb].
  by rewrite bool_decide_eq_true_2 by (unfold chunks_of in Hbal; lia).
Qed.

(** C4. A message of at least one chunk, valid addresses, a sufficient
    balance and broadcasts that all succeed: one transaction per chunk is
    broadcast, carrying the frames of the chunks in order, and the callback
    receives their identifiers in the same order, under a timer that
    ignores the argument [undefined] ([TimerIgnores], a browser). *)
Theorem sendTMMessage_delivers msgData balance (ids : list string) :
  valid_addresses msgData = true → affordable balance (length (chunks_of msgData)) →
  chunks_of msgData ≠ [] → length ids = length (chunks_of msgData) →
  sendTMMessage TimerIgnores msgData (BalanceOk balance) (BroadcastOk <$> ids) =
    (frames (chunks_of msgData), Finished (CallbackOk ids)).
Proof. intros Hv Hb Hne Hlen. by rewrite sendTMMessage_run, run_new_job_ok. Qed.

(** C18. A message that is cut into no chunk at all (the empty message) is
    never answered while the broadcasts succeed: every attempt broadcasts a
    frame that announces 0 chunks and carries the text "undefined". *)
Theorem sendTMMessage_no_chunks msgData balance (ids : list string) :
  valid_addresses msgData = true → (0 ≤ balance)%Z → chunks_of msgData = [] →
  sendTMMessage TimerIgnores msgData (BalanceOk balance) (BroadcastOk <$> ids) =
    ((λ i, frame 0 i "undefined") <$> List.seq 0 (length ids),
     Pending (mkSendJob [] (length ids) 0 ids)).
Proof.
  intros Hv Hb Hcs. rewrite sendTMMessage_run; [|done|].
  - rewrite Hcs. apply run_empty_ok.
  - unfold affordable. rewrite Hcs. cbn. lia.
Qed.

(** C39. The size of what is put on the ledger: with fewer than 16 chunks
    every frame of a message has more than 4 and at most
    [MAX_PAYLOAD_SIZE + 4] characters, the header and a chunk of up to
    [MAX_PAYLOAD_SIZE]. *)
Theorem frames_length_bound `{!ChunkingLaws} msgData (text : string) :
  length (chunks_of msgData) < 16 → text ∈ frames (chunks_of msgData) →
  4 < String.length text ≤ MAX_PAYLOAD_SIZE + 4.
Proof.
  intros Hn [i Hi]%list_elem_of_lookup_1. unfold frames in Hi.
  rewrite list_lookup_imap in Hi.
  destruct (chunks_of msgData !! i) as [c|] eqn:Hc; [|done]. injection Hi as <-.
  pose proof (lookup_lt_Some _ _ _ Hc).
  rewrite length_frame by lia.
  apply list_elem_of_lookup_2, (chunk_bound (msg msgData) MAX_PAYLOAD_SIZE) in Hc;
    unfold MAX_PAYLOAD_SIZE in *; lia.
Qed.

End send_theorems.

(** ** Examples *)

(** A message of two chunks and some answers of the collaborators. *)
Definition example_two : list string := ["first"; "second"].

Definition example_err : Attempt := BroadcastErr "timeout" "0100".

(** A request to send "hello" between two addresses of the test network,
    and collaborators that accept every address but the empty one. *)
Definition example_request : SendData :=
  {| src := "mSrc"; dst := "mDst"; msg := "hello"; pk := "key" |}.

Definition example_strict : Collab :=
  deployed (λ addr _, negb (String.eqb addr EmptyString)) (λ _, testnet).

Lemma job_wf_reachable_witness :
  let job := mkSendJob example_two 1 1 ["t0"] in
  job_wf job ∧ chunks job = example_two ∧ payload job ∈ frames example_two.
Proof.
  apply (job_wf_reachable TimerIgnores example_two); [done|].
  eapply rtc_l; [by eapply (job_step_attempt _ _ (BroadcastOk "t0"))|].
  eapply rtc_l; [by eapply (job_step_attempt _ _ example_err)|]. apply rtc_refl.
Defined.

Lemma run_terminates_witness :
  ∃ sent o,
    run TimerIgnores (new_job example_two)
      [example_err; BroadcastOk "t0"; example_err; example_err; example_err] =
    (sent, Finished o).
Proof. apply run_terminates; [done|vm_compute; lia]. Defined.

Lemma run_tolerates_retries_witness :
  (run TimerIgnores (new_job example_two)
     [example_err; BroadcastOk "t0"; example_err; example_err; BroadcastOk "t1"]).2 =
    Finished (CallbackOk ["t0"; "t1"]).
Proof. apply (run_tolerates_retries example_two); [done|done|done|vm_compute; lia]. Defined.

Lemma run_retries_per_job_witness :
  run TimerIgnores (new_job example_two)
    ([example_err; BroadcastOk "t0"; example_err; example_err] ++ [BroadcastErr "busy" "0100"]) =
    ([frame 2 0 "first"; frame 2 0 "first"; frame 2 1 "second"; frame 2 1 "second"]
       ++ [payload (mkSendJob example_two 1 3 ["t0"])],
     Finished (CallbackErr (ErrText ("[insight.broadcast]: " +:+ "busy" +:+ "0100")))).
Proof. by apply run_retries_per_job. Defined.

Lemma run_ok_txids_witness :
  length ["t0"; "t1"] = length example_two ∧
  ["t0"; "t1"] `prefix_of`
    omap broadcast_txid [BroadcastOk "t0"; example_err; BroadcastOk "t1"; BroadcastOk "t2"].
Proof.
  by apply (run_ok_txids TimerIgnores example_two _
              [frame 2 0 "first"; frame 2 1 "second"; frame 2 1 "second"]).
Defined.

Lemma run_sent_frames_witness :
  Forall (λ text, text ∈ frames example_two)
    (run TimerIgnores (new_job example_two) [BroadcastOk "t0"; example_err]).1.
Proof. by apply run_sent_frames. Defined.

Lemma run_stops_at_failure_witness :
  run TimerIgnores (new_job example_two) ([BroadcastOk "t0"] ++ SignThrows "bad key" :: []) =
    ([frame 2 0 "first"], Finished (CallbackErr (ErrExn "bad key"))).
Proof. by apply run_stops_at_failure with (job := mkSendJob example_two 1 0 ["t0"]). Defined.

(** A message of two chunks under a timer that throws: the first chunk is
    broadcast, and the job ends with the TypeError. *)
Example run_timer_throws_two :
  run TimerThrows (new_job example_two) [BroadcastOk "t0"; BroadcastOk "t1"] =
    ([frame 2 0 "first"], Finished (Uncaught TypeError)).
Proof. done. Qed.

Lemma run_utxo_throws_witness :
  run TimerIgnores (new_job example_two) ([BroadcastOk "t0"] ++ UtxoThrows "no route" :: []) =
    ([frame 2 0 "first"],
     Finished (if bool_decide ([BroadcastOk "t0"] = []) then CallbackErr (ErrExn "no route")
               else Uncaught (Thrown "no route"))).
Proof. by apply run_utxo_throws with (job := mkSendJob example_two 1 0 ["t0"]). Defined.

Lemma sendTMMessage_invalid_witness :
  sendTMMessage (H := example_strict) TimerIgnores
    {| src := "mSrc"; dst := EmptyString; msg := "hello"; pk := "key" |}
    (BalanceOk 100000) [BroadcastOk "t0"] =
    ([], Finished (CallbackErr (ErrText "Invalid address"))).
Proof. by apply sendTMMessage_invalid. Defined.

(** The balance 500 does not cover the one chunk of "hello", which costs
    546 + 3000. *)
Lemma sendTMMessage_insufficient_witness :
  sendTMMessage (H := example_strict) TimerIgnores example_request (BalanceOk 500)
    [BroadcastOk "t0"] =
    ([], Finished (Uncaught ReferenceError)).
Proof. apply sendTMMessage_insufficient; [done|]. vm_compute. by intros []. Defined.

Lemma sendTMMessage_delivers_witness :
  sendTMMessage (H := example_strict) TimerIgnores example_request (BalanceOk 3546)
    (BroadcastOk <$> ["t0"]) =
    (frames (chunks_of (H := example_strict) example_request), Finished (CallbackOk ["t0"])).
Proof. apply sendTMMessage_delivers; [done|by vm_compute|done|done]. Defined.

Lemma sendTMMessage_no_chunks_witness :
  sendTMMessage (H := example_strict) TimerIgnores
    {| src := "mSrc"; dst := "mDst"; msg := EmptyString; pk := "key" |} (BalanceOk 0)
    (BroadcastOk <$> ["t0"; "t1"]) =
    ((λ i, frame 0 i "undefined") <$> List.seq 0 (length ["t0"; "t1"]),
     Pending (mkSendJob [] (length ["t0"; "t1"]) 0 ["t0"; "t1"])).
Proof. by apply sendTMMessage_no_chunks. Defined.

Lemma frames_length_bound_witness :
  4 < String.length "TM10hello" ≤ MAX_PAYLOAD_SIZE + 4.
Proof.
  apply (frames_length_bound (H := example_strict) (H0 := deployed_chunking _ _)
           example_request); [vm_compute; lia|by left].
Defined.

(** A message of 150 characters makes two chunks, of 76 and 74 characters,
    and its first frame has 80 characters. *)
Example frames_of_150 :
  String.length <$> frames (chunkMessage (Collab := example_strict)
    (foldr String.append EmptyString (replicate 15 "0123456789")) MAX_PAYLOAD_SIZE) = [80; 78].
Proof. by vm_compute. Qed.

(** The frames of the example, as text. *)
Example frames_example_two : frames example_two = ["TM20first"; "TM21second"].
Proof. done. Qed.

(** What the empty message puts on the ledger. *)
Example frame_undefined : frame 0 1 "undefined" = "TM01undefined".
Proof. done. Qed.
