(* ===== verification/Trace.v ===== *)
(** * Trace: the order in which a job broadcasts

    [sendMsgTransaction] (src/TxMEx.js, lines 108 to 162) broadcasts one
    transaction per call, for the chunk that [seq] names, and [seq] moves
    on by one when a broadcast succeeds.  This file reads the texts that a
    job hands to the broadcast as a trace and says where each of them
    stands: the text of the attempt number [j] is the frame of the chunk
    whose number is the count of the broadcasts that succeeded before it.
    So the chunks are broadcast one at a time and in their order, none is
    skipped, and a retry broadcasts the same frame again. *)

From S2P Require Import Prelude.
From S2P Require Import JsString.
From S2P Require Import Ledger.
From S2P Require Import Codec.
From S2P Require Import Send.

(** The number of broadcasts that succeeded among the first [j]
    attempts. *)
Definition succeeded_before (answers : list Attempt) (j : nat) : nat :=
  length (omap broadcast_txid (take j answers)).

Lemma succeeded_before_0 (answers : list Attempt) : succeeded_before answers 0 = 0.
Proof. unfold succeeded_before. by rewrite take_0. Qed.

Lemma succeeded_before_S (a : Attempt) (answers : list Attempt) (j : nat) :
  succeeded_before (a :: answers) (S j) =
    (if broadcast_txid a is Some _ then 1 else 0) + succeeded_before answers j.
Proof. unfold succeeded_before. cbn. by destruct (broadcast_txid a). Qed.

Section trace.
Context (policy : TimerPolicy).

(** C15. The chunks are broadcast in sequence.  Whatever the collaborators
    answer, the text that a job over at least one chunk hands to the
    broadcast in its attempt number [j] is the frame of the chunk whose
    number is the count of the broadcasts that succeeded before: no
    chunk is skipped or broadcast before an earlier one was accepted, and
    a retry broadcasts the same frame again. *)
Theorem run_in_sequence (cs : list string) (answers : list Attempt) (j : nat) (text : string) :
  cs ≠ [] →
  (run policy (new_job cs) answers).1 !! j = Some text →
  frames cs !! succeeded_before answers j = Some text.
Proof.
  intros Hne.
  assert (∀ job, seq job < length (chunks job) →
            (run policy job answers).1 !! j = Some text →
            frames (chunks job) !! (seq job + succeeded_before answers j) = Some text)
    as Hfrom; [|apply (Hfrom (new_job cs)); destruct cs; [done|cbn; lia]].
  revert j. induction answers as [|a answers IH]; intros j job Hseq; [done|].
  destruct (sendMsgTransaction policy job a) as [sent [job'|o]] eqn:E.
  - rewrite (run_cons_pending _ _ _ _ _ _ E). cbn [fst].
    destruct (sendMsgTransaction_budget _ _ _ _ _ Hseq E) as (Hcs & Hseq' & _).
    apply sendMsgTransaction_pending in E as (_ & -> & Hjob).
    destruct j as [|j]; cbn [app lookup list_lookup].
    + intros [= <-]. rewrite succeeded_before_0, Nat.add_0_r. by apply frames_lookup_payload.
    + intros Hj%IH; [|done]. rewrite succeeded_before_S, <- Hj, Hcs. f_equal.
      destruct Hjob as [(? & ? & -> & _ & ->)|(? & -> & _ & ->)]; cbn; lia.
  - rewrite (run_cons_finished _ _ _ _ _ _ E). cbn [fst].
    assert (sent = [] ∨ sent = [payload job]) as [->| ->]
      by (destruct a; cbn in E; simplify_eq; auto); [done|].
    destruct j as [|j]; [|done]. intros [= <-].
    rewrite succeeded_before_0, Nat.add_0_r. by apply frames_lookup_payload.
Qed.

End trace.

(** ** Example *)

(** Two chunks, the second broadcast twice. *)
Lemma run_in_sequence_witness :
  frames example_two !! succeeded_before [BroadcastOk "t0"; example_err; BroadcastOk "t1"] 2
    = Some "TM21second".
Proof.
  by apply (run_in_sequence TimerIgnores example_two
              [BroadcastOk "t0"; example_err; BroadcastOk "t1"] 2 "TM21second").
Defined.

Example run_trace_example :
  (run TimerIgnores (new_job example_two)
     [BroadcastOk "t0"; example_err; BroadcastOk "t1"]).1 =
    ["TM20first"; "TM21second"; "TM21second"].
Proof. done. Qed.
