(* ===== verification/EndToEnd.v ===== *)
(** * EndToEnd: what is sent is what is read

    [Send] ends with the texts handed to the broadcast; [Reassembly] starts
    from the transactions of a history.  This file joins them through the
    ledger: the transactions that the ledger library builds for those texts
    ([builtTransaction]), read under the collaborators of the deployment
    ([deployed]).  The theorem is the round trip of the whole protocol: a
    message of 1 to 15 chunks of ASCII text, sent with no more failed
    broadcasts than the job retries and read back from a history that
    lists its transactions in any order, is returned as it was sent.
    Then two messages of one pair of addresses, which the reader does not
    keep apart, and the same round trip under the collaborators [literal],
    where nothing that is sent is read. *)

From S2P Require Import Prelude.
From S2P Require Import JsString.
From S2P Require Import JsArray.
From S2P Require Import Ledger.
From S2P Require Import Collaborators.
From S2P Require Import Codec.
From S2P Require Import Send.
From S2P Require Import Reassembly.

(** The transactions on the ledger once the texts [texts] have been
    broadcast under the identifiers [ids]. *)
Definition ledger (s d : string) (texts ids : list string) : list Transaction :=
  (λ p, builtTransaction s d p.1 p.2 [] []) <$> zip texts ids.

(** The transactions on the ledger after the attempts [answers] of a job
    that handed the texts [sent] to the broadcast: one for each broadcast
    that succeeded. *)
Definition ledger_of (s d : string) (sent : list string) (answers : list Attempt)
    : list Transaction :=
  (λ p, builtTransaction s d p.1 p.2 [] []) <$> accepted sent answers.

(** A history that lists the transactions of the ledger in the order
    [order]. *)
Definition history (txs : list Transaction) (order : list nat) : list Transaction :=
  omap (λ i, txs !! i) order.

(** ** ASCII text *)

Lemma is_ascii_append (s t : string) : is_ascii (s +:+ t) = is_ascii s && is_ascii t.
Proof. induction s as [|c s IH]; str_simpl; [done|]. cbn. by rewrite IH, andb_assoc. Qed.

Lemma is_ascii_concat (cs : list string) (c : string) :
  is_ascii (foldr String.append EmptyString cs) = true → c ∈ cs → is_ascii c = true.
Proof.
  induction cs as [|c' cs IH]; cbn; [by intros _ ?%elem_of_nil|].
  rewrite is_ascii_append. intros [Hc Hcs]%andb_prop [->|Hin]%elem_of_cons; auto.
Qed.

Lemma is_ascii_toString16 (n : nat) : n < 16 → is_ascii (toString16 n) = true.
Proof. intros Hn. rewrite toString16_small by done. below_16 n Hn; done. Qed.

Lemma is_ascii_frame (n i : nat) (p : string) :
  n < 16 → i < 16 → is_ascii p = true → is_ascii (frame n i p) = true.
Proof.
  intros Hn Hi Hp. unfold frame, frame_prefix.
  by rewrite !is_ascii_append, !is_ascii_toString16, Hp.
Qed.

(** ** The ledger of a message

    What holds of the ledger whatever the collaborators are. *)

Section ledger_of_a_message.
Context `{Collab}.

Section chunks_of_a_text.
Context `{!ChunkingLaws}.
Context (s d text : string) (ids : list string).

Local Abbreviation cs := (chunkMessage text MAX_PAYLOAD_SIZE).

(** The buffer slots the chunks and identifiers make. *)
Definition records : list Chunk := zip_with mkChunk cs ids.

Lemma lookup_frames (i : nat) : frames cs !! i = frame (length cs) i <$> cs !! i.
Proof. unfold frames. apply list_lookup_imap. Qed.

Lemma lookup_ledger (i : nat) (c id : string) :
  cs !! i = Some c → ids !! i = Some id →
  ledger s d (frames cs) ids !! i =
    Some (builtTransaction s d (frame (length cs) i c) id [] []).
Proof.
  intros Hc Hid. unfold ledger.
  by rewrite list_lookup_fmap, lookup_zip_with, lookup_frames, Hc, Hid.
Qed.

Lemma chunk_is_ascii (c : string) : is_ascii text = true → c ∈ cs → is_ascii c = true.
Proof.
  intros Htext. apply is_ascii_concat. by rewrite chunk_concat by (unfold MAX_PAYLOAD_SIZE; lia).
Qed.

Lemma chunk_fits (c : string) : c ∈ cs → String.length c ≤ MAX_PAYLOAD_SIZE.
Proof. intros Hc. by eapply chunk_bound; [unfold MAX_PAYLOAD_SIZE; lia|]. Qed.

Lemma message_of_records :
  length ids = length cs →
  message_of s d records = mkMsgData s d text ids.
Proof.
  intros Hids. unfold message_of, records. f_equal.
  - rewrite fmap_zip_with_l by (done || lia).
    apply chunk_concat. unfold MAX_PAYLOAD_SIZE. lia.
  - rewrite fmap_zip_with_r by (done || lia). done.
Qed.

(** Every transaction of the ledger is built for the frame of a chunk. *)
Lemma ledger_built (tx : Transaction) :
  tx ∈ ledger s d (frames cs) ids →
  ∃ i c id, c ∈ cs ∧ i < length cs ∧
            tx = builtTransaction s d (frame (length cs) i c) id [] [].
Proof.
  intros [i Hi]%list_elem_of_lookup_1. unfold ledger in Hi.
  rewrite list_lookup_fmap, lookup_zip_with, lookup_frames in Hi.
  destruct (cs !! i) as [c|] eqn:Hc; [|done]. destruct (ids !! i) as [id|]; [|done].
  injection Hi as <-. exists i, c, id.
  split_and!; [by eapply list_elem_of_lookup_2|by eapply lookup_lt_Some|done].
Qed.

End chunks_of_a_text.

(** The transactions on the ledger after a job without more failed
    broadcasts than it retries: one per chunk, built for its frame. *)
Lemma ledger_of_run (s d : string) (cs : list string) (answers : list Attempt) :
  cs ≠ [] → forallb is_broadcast answers = true →
  length (omap broadcast_txid answers) = length cs →
  length (omap broadcast_err answers) ≤ MAX_SEND_RETRY →
  ledger_of s d (run TimerIgnores (new_job cs) answers).1 answers =
    ledger s d (frames cs) (omap broadcast_txid answers).
Proof.
  intros Hne Hall Hok Herr. unfold ledger_of, new_job.
  rewrite (run_retries_accepted cs 0 0 [] answers Hall); [by rewrite drop_0| |done..].
  intros E. rewrite E in Hok. by destruct cs.
Qed.

(** Sending: the job calls back with the identifiers of the successful
    broadcasts, and the ledger holds the transactions of the frames. *)
Lemma sent_ledger (msgData : SendData) (funds : Z) (answers : list Attempt) :
  valid_addresses msgData = true → affordable funds (length (chunks_of msgData)) →
  0 < length (chunks_of msgData) →
  forallb is_broadcast answers = true →
  length (omap broadcast_txid answers) = length (chunks_of msgData) →
  length (omap broadcast_err answers) ≤ MAX_SEND_RETRY →
  ∃ sent,
    sendTMMessage TimerIgnores msgData (BalanceOk funds) answers =
      (sent, Finished (CallbackOk (omap broadcast_txid answers))) ∧
    ledger_of (Send.src msgData) (Send.dst msgData) sent answers =
      ledger (Send.src msgData) (Send.dst msgData) (frames (chunks_of msgData))
        (omap broadcast_txid answers).
Proof.
  intros Hvalid Hfunds Hn Hall Hok Herr.
  assert (chunks_of msgData ≠ []) as Hne.
  { intros E. rewrite E in Hn. cbn [length] in Hn. lia. }
  rewrite sendTMMessage_run by done.
  pose proof (run_tolerates_sent (chunks_of msgData) answers Hne Hall Hok Herr) as Hrun.
  pose proof (ledger_of_run (Send.src msgData) (Send.dst msgData) _ _ Hne Hall Hok Herr)
    as Hledger.
  destruct (run _ _ _) as [sent st]. exists sent. cbn [fst snd] in *. by rewrite Hrun, Hledger.
Qed.

End ledger_of_a_message.

Section end_to_end.
Context (valid : string → network → bool) (net : string → network).

(** The collaborators of the deployment, for the theorems of this file. *)
#[local] Instance deployment : Collab := deployed valid net.

(** ** One transaction *)

(** The decoded text of the data output that the ledger library builds: the
    text itself after one character of code 0, which the decoder makes of
    the [0x] that precedes the payload in the text of the script. *)
Lemma second_output_data_built (s d text txid : string) (ins : list Input) (ch : list Output) :
  text ≠ EmptyString → is_ascii text = true → String.length text ≤ 80 →
  second_output_data (builtTransaction s d text txid ins ch) = Some (String "000" text).
Proof.
  intros Hne Hascii Hlen. unfold second_output_data. cbn.
  rewrite (utf8_encode_ascii _ Hascii), bool_decide_eq_true_2 by done.
  change (if bool_decide _ then _ else _) with (script_toString (dataOutScript text)).
  by rewrite split_last_dataOutScript, hexToAscii_pairs_0x, hexToAscii_pairs_hex.
Qed.

(** Round trip of one chunk: the transaction built for the frame of a
    chunk of ASCII text is recognised and decoded to the chunk count, the
    sequence number and the chunk it was built from, and its source and
    destination are read back. *)
Lemma built_carries (netw : network) (s d p txid : string) (n i : nat)
    (ins : list Input) (ch : list Output) :
  n < 16 → i < 16 → is_ascii p = true → String.length p ≤ MAX_PAYLOAD_SIZE →
  carries netw (builtTransaction s d (frame n i p) txid ins ch) s d
    (mkTMMessage (Num (Z.of_nat i)) (Num (Z.of_nat n)) p).
Proof.
  intros Hn Hi Hp Hlen. split_and!; [done..|].
  apply (extractTMMessage_padded_frame _ "000"); try done.
  apply second_output_data_built.
  - by rewrite frame_small.
  - by apply is_ascii_frame.
  - rewrite length_frame by done. unfold MAX_PAYLOAD_SIZE in Hlen. lia.
Qed.

(** ** All the transactions of a message *)

Section one_message.
Context `{!ChunkingLaws}.
Context (netw : network) (s d text : string) (ids : list string).

Local Abbreviation cs := (chunkMessage text MAX_PAYLOAD_SIZE).

(** Every transaction of the history carries the chunk of its index. *)
Lemma history_carries (order : list nat) :
  is_ascii text = true → length cs < 16 → length ids = length cs →
  Forall (λ i, i < length cs) order →
  carry_chunks s d (records text ids) netw (history (ledger s d (frames cs) ids) order) order.
Proof.
  intros Htext Hn Hids. unfold carry_chunks, history.
  induction 1 as [|i order Hi _ IH]; [constructor|]. cbn [omap list_omap].
  destruct (lookup_lt_is_Some_2 cs i Hi) as [c Hc].
  destruct (lookup_lt_is_Some_2 ids i) as [id Hid]; [lia|].
  rewrite (lookup_ledger s d text ids i c id Hc Hid). constructor; [|done].
  exists (mkChunk c id). unfold frame_of, records. cbn [chunk_msg].
  rewrite lookup_zip_with, Hc, Hid, length_zip_with, Hids, Nat.min_id.
  split_and!; [done..|].
  apply (built_carries netw s d c id); [done|lia|..].
  - by eapply (chunk_is_ascii text), list_elem_of_lookup_2.
  - by eapply (chunk_fits text), list_elem_of_lookup_2.
Qed.

End one_message.

(** C1. Round trip of the protocol.  A message of ASCII text that is cut
    into 1 to 15 chunks is sent from valid addresses with a sufficient
    balance; broadcasts may fail, up to [MAX_SEND_RETRY] times in all, and
    each chunk is broadcast with success once.  Then the callback receives
    the identifiers of the successful broadcasts, the ledger holds one
    transaction per chunk, and whatever the order in which a history lists
    these transactions, scanning it returns one message with the text that
    was sent, its source and destination, and the identifiers in the order
    of the chunks.  The collaborators are those of the deployment
    ([deployed], the context of this section) and the timer is that of a
    browser ([TimerIgnores]); under [literal] nothing is read
    ([send_then_scan_exact]) and under the timer of Node a job of several
    chunks ends at its first broadcast. *)
Theorem send_then_scan `{!ChunkingLaws} (netw : network) (msgData : SendData)
    (funds : Z) (answers : list Attempt) (order : list nat) :
  valid_addresses msgData = true → affordable funds (length (chunks_of msgData)) →
  is_ascii (Send.msg msgData) = true →
  0 < length (chunks_of msgData) < 16 →
  forallb is_broadcast answers = true →
  length (omap broadcast_txid answers) = length (chunks_of msgData) →
  length (omap broadcast_err answers) ≤ MAX_SEND_RETRY →
  order ≡ₚ List.seq 0 (length (chunks_of msgData)) →
  ∃ sent,
    sendTMMessage TimerIgnores msgData (BalanceOk funds) answers =
      (sent, Finished (CallbackOk (omap broadcast_txid answers))) ∧
    length (ledger_of (Send.src msgData) (Send.dst msgData) sent answers) =
      length (chunks_of msgData) ∧
    scan netw (history (ledger_of (Send.src msgData) (Send.dst msgData) sent answers) order) =
      Val [mkMsgData (Send.src msgData) (Send.dst msgData) (Send.msg msgData)
             (omap broadcast_txid answers)].
Proof.
  intros Hvalid Hfunds Htext Hn Hall Hok Herr Horder.
  destruct (sent_ledger msgData funds answers) as (sent & Hsent & Hledger);
    [done|done|lia|done|done|done|].
  exists sent. rewrite Hledger. split_and!; [done| |].
  - unfold ledger, frames. rewrite length_fmap, length_zip_with, length_imap. lia.
  - unfold chunks_of in *. set (ids := omap broadcast_txid answers) in *.
    assert (length (records (Send.msg msgData) ids) = length ids) as Hrec
      by (unfold records; rewrite length_zip_with; lia).
    rewrite (scan_carried netw (Send.src msgData) (Send.dst msgData)
               (records (Send.msg msgData) ids) _ order).
    + by rewrite message_of_records.
    + intros E. rewrite E in Hrec. cbn [length] in Hrec. lia.
    + rewrite Hrec. lia.
    + by rewrite Hrec, Hok.
    + apply history_carries; [done|lia|done|]. rewrite Forall_forall. intros i Hi.
      rewrite Horder in Hi. apply elem_of_seq in Hi. lia.
Qed.

(** Reading back: a history that lists, in any order, the transactions of
    the frames of a message returns the message. *)
Lemma scan_ledger `{!ChunkingLaws} (netw : network) (s d text : string)
    (ids : list string) (order : list nat) :
  is_ascii text = true →
  0 < length (chunkMessage text MAX_PAYLOAD_SIZE) < 16 →
  length ids = length (chunkMessage text MAX_PAYLOAD_SIZE) →
  order ≡ₚ List.seq 0 (length ids) →
  scan netw (history (ledger s d (frames (chunkMessage text MAX_PAYLOAD_SIZE)) ids) order) =
    Val [mkMsgData s d text ids].
Proof.
  intros Htext [Hpos Hn] Hids Horder.
  assert (length (records text ids) = length ids) as Hrec.
  { unfold records. rewrite length_zip_with. lia. }
  rewrite (scan_carried netw s d (records text ids) _ order).
  - by rewrite message_of_records.
  - intros E. rewrite E in Hrec. cbn [length] in Hrec. lia.
  - rewrite Hrec. lia.
  - by rewrite Hrec.
  - apply history_carries; try done.
    rewrite Forall_forall. intros i Hi. rewrite Horder in Hi.
    apply elem_of_seq in Hi. lia.
Qed.

(** ** Two messages of one pair of addresses

    The key of the buffer is the source and the destination: the frames
    carry no identifier of their message.  When two messages from [s] to
    [d] have the same number of chunks, the reader cannot tell their chunks
    apart. *)

(** The list that takes its element at [i] from [xs] if [pick i] and from
    [ys] otherwise. *)
Definition pick_each {A : Type} (pick : nat → bool) (xs ys : list A) : list A :=
  imap (λ i x, if pick i then x else default x (ys !! i)) xs.

Lemma lookup_pick_each {A : Type} (pick : nat → bool) (xs ys : list A) (i : nat) :
  length xs = length ys →
  pick_each pick xs ys !! i = if pick i then xs !! i else ys !! i.
Proof.
  intros Hlen. unfold pick_each. rewrite list_lookup_imap.
  destruct (xs !! i) as [x|] eqn:Ex; cbn.
  - destruct (pick i); [done|].
    destruct (lookup_lt_is_Some_2 ys i) as [y ->]; [|done].
    apply lookup_lt_Some in Ex. lia.
  - destruct (pick i); [done|]. symmetry. apply lookup_ge_None.
    apply lookup_ge_None in Ex. lia.
Qed.

Lemma length_pick_each {A : Type} (pick : nat → bool) (xs ys : list A) :
  length (pick_each pick xs ys) = length xs.
Proof. apply length_imap. Qed.

Lemma fmap_pick_each {A B : Type} (f : A → B) (pick : nat → bool) (xs ys : list A) :
  length xs = length ys →
  f <$> pick_each pick xs ys = pick_each pick (f <$> xs) (f <$> ys).
Proof.
  intros Hlen. apply list_eq. intros i.
  rewrite list_lookup_fmap, !lookup_pick_each, !list_lookup_fmap
    by (by rewrite ?length_fmap).
  by destruct (pick i).
Qed.

Section two_messages.
Context `{!ChunkingLaws}.
Context (netw : network) (s d textA textB : string) (idsA idsB : list string).
Context (pick : nat → bool).

Local Abbreviation csA := (chunkMessage textA MAX_PAYLOAD_SIZE).
Local Abbreviation csB := (chunkMessage textB MAX_PAYLOAD_SIZE).

(** A history that lists, for each index of [order], the transaction of
    that chunk of the one or of the other message. *)
Definition mixed_history (order : list nat) : list Transaction :=
  omap (λ i, (if pick i then ledger s d (frames csA) idsA
              else ledger s d (frames csB) idsB) !! i) order.

Lemma mixed_history_carries (order : list nat) :
  is_ascii textA = true → is_ascii textB = true →
  length csA < 16 → length csB = length csA →
  length idsA = length csA → length idsB = length csA →
  Forall (λ i, i < length csA) order →
  carry_chunks s d (pick_each pick (records textA idsA) (records textB idsB)) netw
    (mixed_history order) order.
Proof.
  intros HA HB Hn HnB HidsA HidsB. unfold carry_chunks, mixed_history.
  assert (length (records textA idsA) = length (records textB idsB)) as Hrec
    by (unfold records; rewrite !length_zip_with; lia).
  induction 1 as [|i order Hi _ IH]; [constructor|]. cbn [omap list_omap].
  destruct (lookup_lt_is_Some_2 csA i) as [cA HcA]; [done|].
  destruct (lookup_lt_is_Some_2 csB i) as [cB HcB]; [lia|].
  destruct (lookup_lt_is_Some_2 idsA i) as [idA HidA]; [lia|].
  destruct (lookup_lt_is_Some_2 idsB i) as [idB HidB]; [lia|].
  assert (∀ c, frame_of (pick_each pick (records textA idsA) (records textB idsB)) i c
               = mkTMMessage (Num (Z.of_nat i)) (Num (Z.of_nat (length csA))) (chunk_msg c))
    as Hframe.
  { intros c. unfold frame_of, records. by rewrite length_pick_each, length_zip_with, HidsA, Nat.min_id. }
  assert (records textA idsA !! i = Some (mkChunk cA idA)) as HrA
    by (unfold records; by rewrite lookup_zip_with, HcA, HidA).
  assert (records textB idsB !! i = Some (mkChunk cB idB)) as HrB
    by (unfold records; by rewrite lookup_zip_with, HcB, HidB).
  destruct (pick i) eqn:Ep.
  - rewrite (lookup_ledger s d textA idsA i cA idA) by done.
    constructor; [|done]. rewrite lookup_pick_each, Ep by done.
    exists (mkChunk cA idA). rewrite Hframe. split_and!; [done..|].
    apply (built_carries netw s d cA idA); [done|lia|..].
    + by eapply (chunk_is_ascii textA), list_elem_of_lookup_2.
    + by eapply (chunk_fits textA), list_elem_of_lookup_2.
  - rewrite (lookup_ledger s d textB idsB i cB idB) by done.
    constructor; [|done]. rewrite lookup_pick_each, Ep by done.
    exists (mkChunk cB idB). rewrite Hframe, <- HnB. split_and!; [done..|].
    apply (built_carries netw s d cB idB); [lia|lia|..].
    + by eapply (chunk_is_ascii textB), list_elem_of_lookup_2.
    + by eapply (chunk_fits textB), list_elem_of_lookup_2.
Qed.

End two_messages.

(** C24. Messages of the same pair of addresses are not kept apart.  When
    two messages from [s] to [d] have the same number of chunks and a
    history lists, for every sequence number, the transaction of the one
    or of the other message, in any order, the scan returns one message:
    its text and its identifiers are, chunk by chunk, those of the message
    whose transaction was listed. *)
Theorem scan_mixes_messages `{!ChunkingLaws} (netw : network) (s d textA textB : string)
    (idsA idsB : list string) (pick : nat → bool) (order : list nat) :
  is_ascii textA = true → is_ascii textB = true →
  0 < length (chunkMessage textA MAX_PAYLOAD_SIZE) < 16 →
  length (chunkMessage textB MAX_PAYLOAD_SIZE) = length (chunkMessage textA MAX_PAYLOAD_SIZE) →
  length idsA = length (chunkMessage textA MAX_PAYLOAD_SIZE) →
  length idsB = length (chunkMessage textA MAX_PAYLOAD_SIZE) →
  order ≡ₚ List.seq 0 (length (chunkMessage textA MAX_PAYLOAD_SIZE)) →
  scan netw (mixed_history s d textA textB idsA idsB pick order) =
    Val [mkMsgData s d
           (foldr String.append EmptyString
              (pick_each pick (chunkMessage textA MAX_PAYLOAD_SIZE)
                 (chunkMessage textB MAX_PAYLOAD_SIZE)))
           (pick_each pick idsA idsB)].
Proof.
  intros HA HB [Hpos Hn] HnB HidsA HidsB Horder.
  pose (chunks := pick_each pick (records textA idsA) (records textB idsB)).
  assert (length (records textA idsA) = length (records textB idsB)) as Hrec
    by (unfold records; rewrite !length_zip_with; lia).
  assert (length chunks = length (chunkMessage textA MAX_PAYLOAD_SIZE)) as Hlen
    by (unfold chunks, records; rewrite length_pick_each, length_zip_with; lia).
  rewrite (scan_carried netw s d chunks _ order).
  - unfold message_of, chunks. rewrite !fmap_pick_each by done. unfold records.
    by rewrite !fmap_zip_with_l, !fmap_zip_with_r by (done || lia).
  - intros E. rewrite E in Hlen. cbn [length] in Hlen. lia.
  - rewrite Hlen. lia.
  - by rewrite Hlen.
  - apply mixed_history_carries; try done.
    rewrite Forall_forall. intros i Hi. rewrite Horder in Hi. apply elem_of_seq in Hi. lia.
Qed.

End end_to_end.

(** ** Exact decoding

    The round trip rests on the collaborators of the deployment.  Under
    collaborators that decode the hexadecimal text exactly and compare
    strings by code unit ([literal]), the reader recognises none of the
    frames that the sender writes: the classifier compares the first three
    characters, the tag and the count digit, with the tag. *)

(** A history of transactions that the loop body passes over returns no
    message. *)
Lemma scan_passes_over `{Collab} (netw : network) (items : list Transaction) :
  Forall (λ tx, ∀ st, scan_tx netw st tx = Val st) items → scan netw items = Val [].
Proof.
  intros Hitems. unfold scan.
  assert (∀ st, foldM (scan_tx netw) st items = Val st) as ->; [|done].
  induction Hitems as [|tx items Htx _ IH]; intros st; [done|].
  rewrite foldM_cons, Htx. apply IH.
Qed.

Lemma elem_of_history (txs : list Transaction) (order : list nat) (tx : Transaction) :
  tx ∈ history txs order → tx ∈ txs.
Proof. intros (i & _ & Hi)%list_elem_of_omap. by eapply list_elem_of_lookup_2. Qed.

Section exact_decoding.
Context (valid : string → network → bool) (net : string → network).

#[local] Instance literal_reading : Collab := literal valid net.

(** The decoded text of the data output is the text the transaction was
    built for. *)
Lemma second_output_data_exact (s d text txid : string) (ins : list Input) (ch : list Output) :
  text ≠ EmptyString → is_ascii text = true → String.length text ≤ 80 →
  second_output_data (builtTransaction s d text txid ins ch) = Some text.
Proof.
  intros Hne Hascii Hlen. unfold second_output_data. cbn.
  rewrite (utf8_encode_ascii _ Hascii), bool_decide_eq_true_2 by done.
  change (if bool_decide _ then _ else _) with (script_toString (dataOutScript text)).
  by rewrite split_last_dataOutScript, hexToAscii_exact_0x.
Qed.

(** The loop body passes over the transaction built for a frame. *)
Lemma scan_tx_exact (netw : network) (st : ScanState) (s d p txid : string) (n i : nat) :
  n < 16 → i < 16 → is_ascii p = true → String.length p ≤ MAX_PAYLOAD_SIZE →
  scan_tx netw st (builtTransaction s d (frame n i p) txid [] []) = Val st.
Proof.
  intros Hn Hi Hp Hlen. apply scan_tx_not_frame; [done..|].
  assert (second_output_data (builtTransaction s d (frame n i p) txid [] []) =
            Some (frame n i p)) as Hdata.
  { apply second_output_data_exact.
    - by rewrite frame_small.
    - by apply is_ascii_frame.
    - rewrite length_frame by done. unfold MAX_PAYLOAD_SIZE in Hlen. lia. }
  rewrite extractTMMessage_cases, isTMTransaction_cases. cbn [unwrap_tx]. rewrite Hdata.
  destruct (substring_frame n i p) as (c & Hc & E). cbn [tag_matches]. rewrite E.
  by rewrite (bool_decide_eq_false_2 (_ = _)) by (by apply separates_digits).
Qed.

(** C12. Under exact decoding nothing that is sent is read.  A message of
    ASCII text in 1 to 15 chunks is sent as in the round trip, the callback
    receives the identifiers and the ledger holds one transaction per
    chunk; but scanning any history made of these transactions returns no
    message at all. *)
Theorem send_then_scan_exact (netw : network) (msgData : SendData)
    (funds : Z) (answers : list Attempt) (order : list nat) :
  valid_addresses msgData = true → affordable funds (length (chunks_of msgData)) →
  is_ascii (Send.msg msgData) = true →
  0 < length (chunks_of msgData) < 16 →
  forallb is_broadcast answers = true →
  length (omap broadcast_txid answers) = length (chunks_of msgData) →
  length (omap broadcast_err answers) ≤ MAX_SEND_RETRY →
  ∃ sent,
    sendTMMessage TimerIgnores msgData (BalanceOk funds) answers =
      (sent, Finished (CallbackOk (omap broadcast_txid answers))) ∧
    length (ledger_of (Send.src msgData) (Send.dst msgData) sent answers) =
      length (chunks_of msgData) ∧
    scan netw (history (ledger_of (Send.src msgData) (Send.dst msgData) sent answers) order) =
      Val [].
Proof.
  intros Hvalid Hfunds Htext Hn Hall Hok Herr.
  destruct (sent_ledger msgData funds answers) as (sent & Hsent & Hledger);
    [done|done|lia|done|done|done|].
  exists sent. rewrite Hledger. split_and!; [done| |].
  - unfold ledger, frames. rewrite length_fmap, length_zip_with, length_imap. lia.
  - apply scan_passes_over, Forall_forall.
    intros tx (i & c & id & Hc & Hi & ->)%elem_of_history%ledger_built st.
    unfold chunks_of in *. apply scan_tx_exact; [lia|lia|..].
    + by eapply (chunk_is_ascii (Send.msg msgData)).
    + by eapply chunk_fits.
Qed.

End exact_decoding.

(** ** Example *)

(** A message of 80 characters, which makes two chunks. *)
Definition example_long : SendData :=
  {| Send.src := "mSrc"; Send.dst := "mDst";
     Send.msg := "0123456789abcdefghijklmnopqrstuvwxyzABCDEFGHabcdefghijklmnopqrstuvwxyz0123456789+TAIL";
     pk := "key" |}.

(** The first broadcast of the second chunk fails. *)
Definition example_answers : list Attempt :=
  [BroadcastOk "t0"; BroadcastErr "timeout" "0100"; BroadcastOk "t1"].

Lemma send_then_scan_witness :
  ∃ sent,
    sendTMMessage (H := deployment (λ _ _, true) (λ _, testnet)) TimerIgnores example_long
      (BalanceOk 10000) example_answers =
      (sent, Finished (CallbackOk ["t0"; "t1"])) ∧
    length (ledger_of (Send.src example_long) (Send.dst example_long) sent example_answers)
      = 2 ∧
    scan (H := deployment (λ _ _, true) (λ _, testnet)) testnet
      (history (ledger_of (Send.src example_long) (Send.dst example_long) sent
                  example_answers) [1; 0]) =
      Val [mkMsgData (Send.src example_long) (Send.dst example_long)
             (Send.msg example_long) ["t0"; "t1"]].
Proof.
  apply (send_then_scan (λ _ _, true) (λ _, testnet) (H := deployed_chunking _ _)
           testnet example_long 10000 example_answers [1; 0]);
    [done|by vm_compute|done|vm_compute; lia|done|done|vm_compute; lia|].
  apply (Permutation_swap 0 1 []).
Defined.

(** A second message of two chunks between the same addresses. *)
Definition example_other_text : string :=
  "ZYXWVUTSRQPONMLKJIHGFEDCBAzyxwvutsrqponmlkjihgfedcba9876543210ZYXWVUTSRQPONMLKJIHGFEDCBA-END".

(** The history lists the first chunk of the one message and the second of
    the other. *)
Lemma scan_mixes_messages_witness :
  scan (H := deployment (λ _ _, true) (λ _, testnet)) testnet
    (mixed_history (λ _ _, true) (λ _, testnet) "mSrc" "mDst" (Send.msg example_long)
       example_other_text ["a0"; "a1"] ["b0"; "b1"] (λ i, bool_decide (i = 0)) [1; 0]) =
    Val [mkMsgData "mSrc" "mDst"
           (foldr String.append EmptyString
              (pick_each (λ i, bool_decide (i = 0))
                 (chunkMessage (Collab := deployment (λ _ _, true) (λ _, testnet))
                    (Send.msg example_long) MAX_PAYLOAD_SIZE)
                 (chunkMessage (Collab := deployment (λ _ _, true) (λ _, testnet))
                    example_other_text MAX_PAYLOAD_SIZE)))
           (pick_each (λ i, bool_decide (i = 0)) ["a0"; "a1"] ["b0"; "b1"])].
Proof.
  apply (scan_mixes_messages (λ _ _, true) (λ _, testnet) (H := deployed_chunking _ _));
    [done|done|vm_compute; lia|done|done|done|].
  apply (Permutation_swap 0 1 []).
Defined.

(** What the reader returns for it. *)
Example scan_mixes_example :
  scan (H := deployment (λ _ _, true) (λ _, testnet)) testnet
    (mixed_history (λ _ _, true) (λ _, testnet) "mSrc" "mDst" (Send.msg example_long)
       example_other_text ["a0"; "a1"] ["b0"; "b1"] (λ i, bool_decide (i = 0)) [1; 0]) =
    Val [mkMsgData "mSrc" "mDst"
           "0123456789abcdefghijklmnopqrstuvwxyzABCDEFGHabcdefghijklmnopqrstuvwxyz012345LKJIHGFEDCBA-END"
           ["a0"; "b1"]].
Proof. by vm_compute. Qed.

(** The two transactions of the example carry these texts. *)
Example frames_example_long :
  frames (chunks_of (H := deployment (λ _ _, true) (λ _, testnet)) example_long) =
    ["TM200123456789abcdefghijklmnopqrstuvwxyzABCDEFGHabcdefghijklmnopqrstuvwxyz012345";
     "TM216789+TAIL"].
Proof. by vm_compute. Qed.

(** The same message under exact decoding: sent, and not read. *)
Lemma send_then_scan_exact_witness :
  ∃ sent,
    sendTMMessage (H := literal_reading (λ _ _, true) (λ _, testnet)) TimerIgnores example_long
      (BalanceOk 10000) example_answers =
      (sent, Finished (CallbackOk ["t0"; "t1"])) ∧
    length (ledger_of (Send.src example_long) (Send.dst example_long) sent example_answers)
      = 2 ∧
    scan (H := literal_reading (λ _ _, true) (λ _, testnet)) testnet
      (history (ledger_of (Send.src example_long) (Send.dst example_long) sent
                  example_answers) [1; 0]) = Val [].
Proof.
  apply (send_then_scan_exact (λ _ _, true) (λ _, testnet) testnet example_long 10000
           example_answers [1; 0]);
    [done|by vm_compute|done|vm_compute; lia|done|done|vm_compute; lia].
Defined.
