(* ===== verification/Provenance.v ===== *)
(** * Provenance: what a scan returns comes from the history

    An invariant of the loop of [getTMMessages] (src/TxMEx.js, lines 202 to
    247) over any history at all, with frames of any shape: the chunk in
    slot [j] of a buffer, and the chunk at position [j] of a message that
    the scan has emitted, is the payload of a frame numbered [j] that a
    transaction of the history carries, under the identifier of that
    transaction, and the source and destination of that transaction make
    the conversation key of the buffer or message.  The scan invents
    nothing, moves no chunk from one conversation to another and puts no
    chunk at a position other than the one its frame names. *)

From stdpp Require Import gmap.
From S2P Require Import Prelude.
From S2P Require Import JsString.
From S2P Require Import JsArray.
From S2P Require Import Ledger.
From S2P Require Import Collaborators.
From S2P Require Import Codec.
From S2P Require Import Reassembly.

(** ** The slots of an array after a store *)

Section slots_of_arrays.
Context {A : Type}.
Implicit Types (a : list (option A)) (v c : A).

Lemma array_get_set_inv a (i : number) v (j : nat) c :
  array_get (array_set a i v) j = Some c →
  (i = Num (Z.of_nat j) ∧ c = v) ∨ array_get a j = Some c.
Proof.
  unfold array_set. destruct i as [|z]; [by right|]. case_bool_decide; [|by right].
  rewrite array_get_set_at. case_decide as Hj; [|by right].
  intros [= <-]. left. split; [|done]. f_equal. lia.
Qed.

Lemma array_get_new_Array (n : number) a (j : nat) :
  new_Array n = Val a → array_get a j = None.
Proof.
  unfold new_Array, array_get. destruct n as [|z]; [done|]. case_bool_decide; [|done].
  intros [= <-]. by destruct (replicate _ _ !! j) as [?|] eqn:E;
    [apply lookup_replicate in E as [-> _]|].
Qed.

(** Where every element has an image, [omap] is [fmap]. *)
Lemma omap_total {B C : Type} (f : B → option C) (l : list B) :
  Forall (λ x, is_Some (f x)) l → Some <$> omap f l = f <$> l.
Proof.
  induction 1 as [|x l [y Hy] _ IH]; [done|]. cbn. rewrite Hy. cbn. by rewrite IH.
Qed.

End slots_of_arrays.

(** The chunk at position [j] of the chunks read from a complete buffer is
    the one in slot [j]. *)
Lemma lookup_slots (buf : list (option Chunk)) (n : number) (j : nat) (c : Chunk) :
  complete buf n = true → slots buf n !! j = Some c → array_get buf j = Some c.
Proof.
  rewrite complete_filled, filled_below_Forall. intros Hfilled Hj.
  assert ((Some <$> slots buf n) !! j = Some (Some c)) as Hlook
    by by rewrite list_lookup_fmap, Hj.
  unfold slots in Hlook. rewrite omap_total, list_lookup_fmap in Hlook by done.
  destruct (List.seq 0 (loop_count n) !! j) as [i|] eqn:E; [|done].
  apply lookup_seq in E as [-> _]. by injection Hlook.
Qed.

Section provenance.
Context `{Collab}.
Context (net : network).
Implicit Types (seen items : list Transaction) (st : ScanState) (k : string) (c : Chunk).

(** [c] is the chunk of a frame numbered [j] that a transaction of [seen]
    carries, and the source and destination of that transaction make the
    key [k]. *)
Definition carried seen k (j : nat) c : Prop :=
  ∃ tx s d m, tx ∈ seen ∧ carries net tx s d m ∧ s +:+ d = k ∧
              seq m = Num (Z.of_nat j) ∧ c = mkChunk (msg m) (hash tx).

(** The message is the assembly of chunks carried for its key, each at the
    position its frame names. *)
Definition made_of seen (md : MsgData) : Prop :=
  ∃ cs, (∀ j c, cs !! j = Some c → carried seen (src md +:+ dst md) j c) ∧
        data md = foldr String.append EmptyString (chunk_msg <$> cs) ∧
        txs md = chunk_txid <$> cs.

(** The slots of a buffer of the key [k] hold carried chunks. *)
Definition buffer_ok seen k (buf : list (option Chunk)) : Prop :=
  ∀ j c, array_get buf j = Some c → carried seen k j c.

(** The invariant of the loop once the transactions [seen] are scanned. *)
Definition scan_inv seen st : Prop :=
  map_Forall (buffer_ok seen) (chnkBuf st) ∧ Forall (made_of seen) (msgs st).

Lemma carried_mono seen seen' k j c :
  seen ⊆ seen' → carried seen k j c → carried seen' k j c.
Proof. intros Hsub (tx & s & d & m & Hin & ?). exists tx, s, d, m. auto. Qed.

Lemma made_of_mono seen seen' md : seen ⊆ seen' → made_of seen md → made_of seen' md.
Proof.
  intros Hsub (cs & Hcs & ?). exists cs. split; [|done].
  intros j c Hj. by eapply carried_mono, Hcs.
Qed.

Lemma scan_inv_mono seen seen' st : seen ⊆ seen' → scan_inv seen st → scan_inv seen' st.
Proof.
  intros Hsub [Hbuf Hmsgs]. split.
  - eapply map_Forall_impl; [done|]. intros k buf Hk j c Hc. by eapply carried_mono, Hk.
  - eapply Forall_impl; [done|]. intros md. by apply made_of_mono.
Qed.

Lemma scan_inv_init : scan_inv [] scan_init.
Proof. split; [apply map_Forall_empty|constructor]. Qed.

(** The buffer a frame is stored into holds carried chunks only. *)
Lemma buffer_for_ok seen st k (n : number) buf :
  scan_inv seen st → buffer_for st k n = Val buf → buffer_ok seen k buf.
Proof.
  intros [Hbuf _]. unfold buffer_for. destruct (chnkBuf st !! k) as [buf'|] eqn:E.
  - intros [= <-]. by apply (Hbuf k).
  - intros Hnew j c. by rewrite (array_get_new_Array _ _ j Hnew).
Qed.

(** Storing the chunk of a carried frame keeps a buffer in order. *)
Lemma array_set_ok seen (tx : Transaction) (s d : string) (m : TMMessage) buf :
  carries net tx s d m → buffer_ok seen (s +:+ d) buf →
  buffer_ok (seen ++ [tx]) (s +:+ d) (array_set buf (seq m) (mkChunk (msg m) (hash tx))).
Proof.
  intros Hcarries Hbuf j c [[Hseq ->]|Hc]%array_get_set_inv.
  - exists tx, s, d, m. split_and!; [set_solver|done..].
  - eapply carried_mono, Hbuf; [set_solver|done].
Qed.

Lemma assemble_made_of seen (s d : string) buf (n : number) :
  complete buf n = true → buffer_ok seen (s +:+ d) buf → made_of seen (assemble s d buf n).
Proof.
  intros Hcomplete Hbuf. exists (slots buf n). split; [|done].
  intros j c Hj. by eapply Hbuf, lookup_slots.
Qed.

(** Storing a frame keeps the invariant. *)
Lemma ingest_inv seen st (tx : Transaction) (s d : string) (m : TMMessage) st' :
  scan_inv seen st → carries net tx s d m → ingest st s d m (hash tx) = Val st' →
  scan_inv (seen ++ [tx]) st'.
Proof.
  intros Hinv Hcarries. rewrite ingest_unfold.
  intros (buf0 & Hbuf0 & [= <-])%res_bind_Val_inv.
  pose proof (array_set_ok seen tx s d m buf0 Hcarries
                (buffer_for_ok _ _ _ _ _ Hinv Hbuf0)) as Hbuf.
  apply (scan_inv_mono seen (seen ++ [tx])) in Hinv as [Hbufs Hmsgs]; [|set_solver].
  destruct (complete _ _) eqn:Hcomplete; split; cbn.
  - by apply map_Forall_delete.
  - apply Forall_app. split; [done|]. constructor; [|done]. by apply assemble_made_of.
  - by apply map_Forall_insert_2.
  - done.
Qed.

(** The body of the loop keeps the invariant. *)
Lemma scan_tx_inv seen st (tx : Transaction) st' :
  scan_inv seen st → scan_tx net st tx = Val st' → scan_inv (seen ++ [tx]) st'.
Proof.
  intros Hinv. unfold scan_tx.
  intros (s & Hs & (d & Hd & (txMsg & Hm & E)%res_bind_Val_inv)%res_bind_Val_inv)
    %res_bind_Val_inv.
  destruct txMsg as [m|].
  - by eapply ingest_inv.
  - injection E as <-. eapply scan_inv_mono; [|done]. set_solver.
Qed.

Lemma foldM_scan_inv seen st items st' :
  scan_inv seen st → foldM (scan_tx net) st items = Val st' → scan_inv (seen ++ items) st'.
Proof.
  revert seen st. induction items as [|tx items IH]; intros seen st Hinv.
  - intros [= <-]. by rewrite app_nil_r.
  - rewrite foldM_cons. intros (st1 & E1 & E2)%res_bind_Val_inv.
    rewrite cons_middle, (assoc_L (++)). eapply IH; [|done]. by eapply scan_tx_inv.
Qed.

(** The identifiers a message lists are those of transactions seen. *)
Lemma made_of_txids seen (md : MsgData) (t : string) :
  made_of seen md → t ∈ txs md → ∃ tx, tx ∈ seen ∧ hash tx = t.
Proof.
  intros (cs & Hcs & _ & Htxs). rewrite Htxs.
  intros (c & -> & [j Hj]%list_elem_of_lookup_1)%list_elem_of_fmap.
  destruct (Hcs j c Hj) as (tx & s & d & m & Hin & _ & _ & _ & ->). by exists tx.
Qed.

(** C8. The scan invents nothing.  Whatever the history holds, every
    message that the scan returns is the assembly of chunks of which the
    one at position [j] is the payload of a frame numbered [j] carried by
    a transaction of the history, listed under the identifier of that
    transaction; and the source and the destination of that transaction
    make the conversation key of the message. *)
Theorem scan_provenance items (ms : list MsgData) :
  scan net items = Val ms → Forall (made_of items) ms.
Proof.
  unfold scan. intros (st & Hst & [= <-])%res_bind_Val_inv.
  by destruct (foldM_scan_inv [] scan_init items st scan_inv_init Hst) as [_ ?].
Qed.

End provenance.

(** ** Examples *)

(** The message of the example history, scanned out of order, is made of
    the chunks its three transactions carry. *)
Lemma scan_provenance_witness :
  Forall (made_of (H := example_collab) testnet (example_history [2; 0; 1]))
    [mkMsgData "mSrc" "mDst" "hello you" ["tx0"; "tx1"; "tx2"]].
Proof. by apply (scan_provenance (H := example_collab) testnet). Defined.
