(* ===== verification/LastWrite.v ===== *)
(** * LastWrite: chunks that arrive more than once

    The loop of [getTMMessages] stores a chunk with
    [chnkBuf[msgid][txMsg.seq] = {msg: txMsg.msg, txid: tx.hash}]
    (src/TxMEx.js, line 214), whatever the slot holds.  A chunk that is
    broadcast again, in a second transaction, therefore replaces the one
    stored before, text and identifier.  This file follows a history that
    lists chunks of one message any number of times up to the transaction
    that fills the last empty slot: the scan returns one message, made of
    the last write of every sequence number. *)

From stdpp Require Import gmap.
From S2P Require Import Prelude.
From S2P Require Import JsString.
From S2P Require Import JsArray.
From S2P Require Import Ledger.
From S2P Require Import Collaborators.
From S2P Require Import Codec.
From S2P Require Import Reassembly.

(** ** The last write of a sequence number *)

(** The writes of a history, in its order: the sequence number of each
    frame and the chunk line 214 stores for it.  [written ws j] is the
    chunk of the last write under [j]. *)
Definition written (ws : list (nat * Chunk)) (j : nat) : option Chunk :=
  snd <$> last (filter (λ w, w.1 = j) ws).

Lemma written_nil (j : nat) : written [] j = None.
Proof. done. Qed.

Lemma written_snoc (ws : list (nat * Chunk)) (i : nat) (c : Chunk) (j : nat) :
  written (ws ++ [(i, c)]) j = if decide (i = j) then Some c else written ws j.
Proof.
  unfold written. rewrite filter_app, filter_cons, filter_nil. cbn [fst].
  destruct (decide (i = j)); [by rewrite last_snoc|by rewrite app_nil_r].
Qed.

Lemma written_None (ws : list (nat * Chunk)) (j : nat) :
  written ws j = None ↔ ∀ w, w ∈ ws → w.1 ≠ j.
Proof.
  unfold written. rewrite fmap_None, last_None. split.
  - intros Hnil w Hw Hj. by apply (filter_nil_not_elem_of _ _ w Hnil).
  - intros Hall. induction ws as [|w ws IH]; [done|].
    rewrite filter_cons_False by (apply Hall; left).
    apply IH. intros w' Hw'. apply Hall. by right.
Qed.

Lemma written_app_None (ws ws' : list (nat * Chunk)) (j : nat) :
  written (ws ++ ws') j = None ↔ written ws j = None ∧ written ws' j = None.
Proof. rewrite !written_None. setoid_rewrite elem_of_app. naive_solver. Qed.

Lemma written_elem_of (ws : list (nat * Chunk)) (j : nat) (c : Chunk) :
  written ws j = Some c → (j, c) ∈ ws.
Proof.
  unfold written. intros ([i c'] & Hlast%last_Some_elem_of & [= <-])%fmap_Some.
  by apply list_elem_of_filter in Hlast as [<- Hin].
Qed.

(** Later writes under a sequence number hide the earlier ones. *)
Lemma written_app_Some (ws ws' : list (nat * Chunk)) (j : nat) :
  is_Some (written ws' j) → written (ws ++ ws') j = written ws' j.
Proof.
  unfold written. rewrite filter_app, last_app.
  by intros [c (w & -> & _)%fmap_Some].
Qed.

Lemma written_app_l (ws ws' : list (nat * Chunk)) (j : nat) :
  written ws' j = None → written (ws ++ ws') j = written ws j.
Proof.
  unfold written. rewrite filter_app, last_app, fmap_None. by intros ->.
Qed.

(** The writes of the chunks [xs] in the order [order] of their sequence
    numbers, as a history lists the transactions of one call. *)
Definition writes_at (xs : list Chunk) (order : list nat) : list (nat * Chunk) :=
  omap (λ i, pair i <$> xs !! i) order.

Lemma writes_at_snoc (xs : list Chunk) (order : list nat) (i : nat) (c : Chunk) :
  xs !! i = Some c → writes_at xs (order ++ [i]) = writes_at xs order ++ [(i, c)].
Proof. intros Hc. unfold writes_at. rewrite omap_app. cbn. by rewrite Hc. Qed.

Lemma written_writes_at (xs : list Chunk) (order : list nat) (j : nat) :
  written (writes_at xs order) j = if decide (j ∈ order) then xs !! j else None.
Proof.
  induction order as [|i order IH] using rev_ind; [done|].
  destruct (xs !! i) as [c|] eqn:Hc.
  - rewrite (writes_at_snoc _ _ _ _ Hc), written_snoc, IH.
    destruct (decide (i = j)) as [->|Hne]; [by rewrite decide_True by set_solver|].
    destruct (decide (j ∈ order)); [by rewrite decide_True by set_solver|].
    by rewrite decide_False by set_solver.
  - unfold writes_at in *. rewrite omap_app. cbn. rewrite Hc, app_nil_r, IH.
    destruct (decide (j ∈ order)); [by rewrite decide_True by set_solver|].
    destruct (decide (i = j)) as [->|Hne]; [by rewrite Hc; case_decide|].
    by rewrite decide_False by set_solver.
Qed.

Lemma written_writes_at_above (xs : list Chunk) (order : list nat) (k j : nat) :
  Forall (λ i, i < k) order → k ≤ j → written (writes_at xs order) j = None.
Proof.
  intros Horder Hj. rewrite written_writes_at, decide_False; [done|].
  intros Hin. rewrite Forall_forall in Horder. specialize (Horder j Hin). lia.
Qed.

Section last_write.
Context `{Collab}.
Context (s d : string) (n : nat).
Implicit Types (ws pre : list (nat * Chunk)) (i j : nat) (c : Chunk) (st : ScanState).

Local Abbreviation msgid := (s +:+ d).

(** The frame of a write: the chunk [c] under the sequence number [i], of
    a message of [n] chunks. *)
Definition frame_at (i : nat) (c : Chunk) : TMMessage :=
  {| seq := Num (Z.of_nat i); len := Num (Z.of_nat n); msg := chunk_msg c |}.

(** The buffer of the conversation after the writes [ws], and the chunks
    it holds in the order of their sequence numbers. *)
Definition written_buf ws : list (option Chunk) := written ws <$> List.seq 0 n.

Definition final ws : list Chunk := omap (written ws) (List.seq 0 n).

Lemma array_get_written_buf ws j :
  array_get (written_buf ws) j = if decide (j < n) then written ws j else None.
Proof.
  unfold array_get, written_buf. rewrite list_lookup_fmap. destruct (decide (j < n)).
  - by rewrite lookup_seq_lt.
  - by rewrite lookup_seq_ge by lia.
Qed.

Lemma written_buf_nil : written_buf [] = replicate n None.
Proof.
  apply list_eq. intros j. unfold written_buf. rewrite list_lookup_fmap.
  destruct (decide (j < n)).
  - by rewrite lookup_seq_lt, lookup_replicate_2.
  - rewrite lookup_seq_ge, lookup_ge_None_2; [done|rewrite length_replicate|]; lia.
Qed.

Lemma array_set_written_buf ws i c :
  i < n → array_set (written_buf ws) (Num (Z.of_nat i)) c = written_buf (ws ++ [(i, c)]).
Proof.
  intros Hi. rewrite array_set_nat. unfold array_set_at, written_buf.
  rewrite length_fmap, length_seq, decide_True by done.
  apply list_eq. intros j. rewrite list_lookup_fmap.
  destruct (decide (i = j)) as [<-|Hne].
  - rewrite list_lookup_insert_eq by (by rewrite length_fmap, length_seq).
    rewrite lookup_seq_lt by done. cbn. by rewrite written_snoc, decide_True.
  - rewrite list_lookup_insert_ne, list_lookup_fmap by done.
    destruct (List.seq 0 n !! j) as [k|] eqn:E; [|done]. cbn.
    apply lookup_seq in E as [-> _]. by rewrite written_snoc, decide_False.
Qed.

Lemma complete_written_buf ws :
  complete (written_buf ws) (Num (Z.of_nat n)) = true ↔ ∀ j, j < n → is_Some (written ws j).
Proof.
  rewrite complete_filled. cbn. rewrite Nat2Z.id. unfold filled_below.
  split; intros Hall j Hj; specialize (Hall j Hj);
    by rewrite array_get_written_buf, decide_True in *.
Qed.

Lemma slots_written_buf ws : slots (written_buf ws) (Num (Z.of_nat n)) = final ws.
Proof.
  unfold slots, final. cbn. rewrite Nat2Z.id. apply omap_ext_in.
  intros j Hj%elem_of_seq. by rewrite array_get_written_buf, decide_True by lia.
Qed.

(** When every sequence number was written, these are [n] chunks: the last
    write of each. *)
Lemma final_lookup ws j :
  (∀ k, k < n → is_Some (written ws k)) → j < n → final ws !! j = written ws j.
Proof.
  intros Hall Hj. unfold final.
  assert (∀ m k, k ≤ j → k + m ≤ n →
            omap (written ws) (List.seq k m) !! (j - k) =
            if decide (j < k + m) then written ws j else None) as Hseq.
  { induction m as [|m IH]; intros k Hk Hm.
    - cbn. by rewrite decide_False by lia.
    - cbn [List.seq omap list_omap]. destruct (Hall k) as [c Hc]; [lia|]. rewrite Hc.
      destruct (decide (j = k)) as [->|Hne].
      + rewrite Nat.sub_diag, decide_True by lia. by cbn.
      + replace (j - k) with (S (j - S k)) by lia. cbn. rewrite IH by lia.
        repeat case_decide; first [done|lia]. }
  specialize (Hseq n 0). rewrite Nat.sub_0_r in Hseq. rewrite Hseq by lia.
  by rewrite decide_True by lia.
Qed.

Lemma length_final ws : (∀ k, k < n → is_Some (written ws k)) → length (final ws) = n.
Proof.
  intros Hall. rewrite <- slots_written_buf, length_slots; [by cbn; rewrite Nat2Z.id|].
  by apply complete_written_buf.
Qed.

(** The state once [ws] were stored and none of them completed the
    message. *)
Definition holding st ws : ScanState :=
  match ws with
  | [] => st
  | _ => {| chnkBuf := <[msgid := written_buf ws]> (chnkBuf st); msgs := msgs st |}
  end.

Lemma buffer_for_holding st ws :
  chnkBuf st !! msgid = None → (Z.of_nat n < 2 ^ 32)%Z →
  buffer_for (holding st ws) msgid (Num (Z.of_nat n)) = Val (written_buf ws).
Proof.
  intros Hnone Hn. unfold buffer_for, holding. destruct ws.
  - by rewrite Hnone, new_Array_small, written_buf_nil.
  - cbn [chnkBuf]. by rewrite lookup_insert_eq.
Qed.

Lemma holding_snoc st ws i c :
  chnkBuf st !! msgid = None →
  holding st (ws ++ [(i, c)]) =
    {| chnkBuf := <[msgid := written_buf (ws ++ [(i, c)])]> (chnkBuf (holding st ws));
       msgs := msgs (holding st ws) |}.
Proof.
  intros Hnone. unfold holding. destruct ws as [|w ws]; cbn; [done|].
  by rewrite insert_insert_eq.
Qed.

Lemma delete_holding st ws :
  chnkBuf st !! msgid = None → delete msgid (chnkBuf (holding st ws)) = chnkBuf st.
Proof.
  intros Hnone. destruct ws; cbn; [by apply delete_id|].
  by rewrite delete_insert_eq, delete_id.
Qed.

Lemma msgs_holding st ws : msgs (holding st ws) = msgs st.
Proof. by destruct ws. Qed.

(** One more write: the slot is replaced, and the message is assembled
    when no slot is empty. *)
Lemma ingest_holding st ws i c :
  chnkBuf st !! msgid = None → (Z.of_nat n < 2 ^ 32)%Z → i < n →
  ingest (holding st ws) s d (frame_at i c) (chunk_txid c) =
    Val (if complete (written_buf (ws ++ [(i, c)])) (Num (Z.of_nat n))
         then {| chnkBuf := chnkBuf st;
                 msgs := msgs st ++ [message_of s d (final (ws ++ [(i, c)]))] |}
         else holding st (ws ++ [(i, c)])).
Proof.
  intros Hnone Hn Hi. rewrite ingest_unfold. cbn [len seq msg frame_at].
  rewrite buffer_for_holding by done. cbn [mbind res_bind]; cbv zeta.
  replace (mkChunk (chunk_msg c) (chunk_txid c)) with c by (by destruct c).
  rewrite array_set_written_buf by done. f_equal. destruct (complete _ _).
  - unfold assemble. by rewrite slots_written_buf, delete_holding, msgs_holding.
  - by rewrite holding_snoc.
Qed.

(** The transactions [items] carry the writes [ws], one each. *)
Definition carry_writes (net : network) (items : list Transaction) ws : Prop :=
  Forall2 (λ tx w, w.1 < n ∧ hash tx = chunk_txid w.2 ∧
                   carries net tx s d (frame_at w.1 w.2)) items ws.

(** While a sequence number is missing the loop goes on storing. *)
Lemma foldM_writes_pending (net : network) st ws items pre k :
  chnkBuf st !! msgid = None → (Z.of_nat n < 2 ^ 32)%Z →
  k < n → written (ws ++ pre) k = None →
  carry_writes net items pre →
  foldM (scan_tx net) (holding st ws) items = Val (holding st (ws ++ pre)).
Proof.
  intros Hnone Hn Hk Hmiss Hcarry. revert ws Hmiss.
  induction Hcarry as [|tx [i c] items pre (Hi & Hh & Hcar) _ IH]; intros ws Hmiss.
  - by rewrite app_nil_r.
  - cbn [foldM]. cbn [fst snd] in *. rewrite (scan_tx_carries _ _ _ _ _ _ Hcar), Hh.
    rewrite (cons_middle (i, c) ws pre), (assoc_L (++)) in Hmiss |- *.
    rewrite ingest_holding by done.
    destruct (complete _ _) eqn:E; [|by apply IH].
    destruct (proj1 (complete_written_buf _) E k Hk) as [c' Hc'].
    apply written_app_None in Hmiss as [Hmiss _]. congruence.
Qed.

(** A message with a sequence number that no transaction carries is not
    returned, however often the others are carried. *)
Lemma scan_missing (net : network) (items : list Transaction) ws k :
  (Z.of_nat n < 2 ^ 32)%Z → k < n → written ws k = None →
  carry_writes net items ws → scan net items = Val [].
Proof.
  intros Hn Hk Hmiss Hcarry. unfold scan.
  change scan_init with (holding scan_init []) at 1.
  rewrite (foldM_writes_pending net scan_init [] items ws k) by done.
  cbn [mbind res_bind app]. by rewrite msgs_holding.
Qed.

(** The transaction that fills the last empty slot ends the message. *)
Lemma scan_writes (net : network) (items : list Transaction) pre i c :
  (Z.of_nat n < 2 ^ 32)%Z →
  carry_writes net items (pre ++ [(i, c)]) →
  written pre i = None →
  (∀ j, j < n → j ≠ i → is_Some (written pre j)) →
  scan net items = Val [message_of s d (final (pre ++ [(i, c)]))].
Proof.
  intros Hn (items' & last_tx & Hpre & Hlast & ->)%Forall2_app_inv_r Hi Hothers.
  apply Forall2_cons_inv_r in Hlast as (tx & ? & (Hin & Hh & Hcar) & ->%Forall2_nil_inv_r & ->).
  cbn [fst snd] in *. unfold scan. rewrite foldM_snoc.
  change scan_init with (holding scan_init []) at 1.
  rewrite (foldM_writes_pending net scan_init [] items' pre i) by done.
  cbn [mbind res_bind app]. rewrite (scan_tx_carries _ _ _ _ _ _ Hcar), Hh.
  rewrite ingest_holding by done.
  rewrite (proj2 (complete_written_buf _)); [done|].
  intros j Hj. rewrite written_snoc. case_decide; [done|]. by apply Hothers.
Qed.

(** The chunks at the end, when every write under a sequence number
    stores the chunk [xs] has there. *)
Lemma final_eq ws (xs : list Chunk) :
  length xs = n → (∀ j, j < n → written ws j = xs !! j) → final ws = xs.
Proof.
  intros Hlen Hxs. unfold final. rewrite <- (omap_lookup_seq xs), Hlen.
  apply omap_ext_in. intros j Hj%elem_of_seq. apply Hxs. lia.
Qed.

(** A message sent again.  After any writes that left the slot [i] empty,
    the chunks [xs] are written once each, the one under [i] last: the
    scan returns the message of [xs], whatever was written before. *)
Lemma scan_rewritten (net : network) (items : list Transaction) (xs : list Chunk)
    ws order i :
  length xs = n → (Z.of_nat n < 2 ^ 32)%Z →
  order ++ [i] ≡ₚ List.seq 0 n → written ws i = None →
  carry_writes net items (ws ++ writes_at xs (order ++ [i])) →
  scan net items = Val [message_of s d xs].
Proof.
  intros Hlen Hn Hperm Hi Hcarry.
  assert (i < n ∧ i ∉ order) as [Hin Hnotin].
  { split; [apply (elem_of_seq 0 n i); rewrite <- Hperm; set_solver|].
    pose proof (NoDup_seq 0 n) as Hnd. rewrite <- Hperm in Hnd.
    apply NoDup_app in Hnd as (_ & Hnd & _). intros Hi'. apply (Hnd i Hi'). left. }
  destruct (lookup_lt_is_Some_2 xs i) as [c Hc]; [lia|].
  rewrite (writes_at_snoc _ _ _ _ Hc), (assoc_L (++)) in Hcarry.
  assert (∀ j, j < n → j ≠ i → written (ws ++ writes_at xs order) j = xs !! j) as Hothers.
  { intros j Hj Hne. assert (j ∈ order) as Hjo.
    { assert (j ∈ order ++ [i]) by (rewrite Hperm; apply elem_of_seq; lia). set_solver. }
    rewrite written_app_Some; rewrite written_writes_at, decide_True by done; [done|].
    apply lookup_lt_is_Some_2. lia. }
  rewrite (scan_writes net items _ i c Hn Hcarry).
  - do 3 f_equal. apply final_eq; [done|]. intros j Hj. rewrite written_snoc.
    case_decide as E; [by subst|]. by apply Hothers.
  - rewrite written_app_l; [done|]. by rewrite written_writes_at, decide_False.
  - intros j Hj Hne. rewrite Hothers by done. apply lookup_lt_is_Some_2. lia.
Qed.

End last_write.

(** C7. Chunks that arrive more than once.  A history lists transactions
    from [s] to [d] that carry chunks of a message of [n] chunks, some of
    them more than once, and its last transaction is the first to carry
    the sequence number [i], all the others having been carried before.
    Then the scan returns one message, and its text and its identifiers
    are, sequence number by sequence number, those of the last transaction
    that carried the number. *)
Theorem scan_last_write `{Collab} (net : network) (s d : string) (n : nat)
    (items : list Transaction) (pre : list (nat * Chunk)) (i : nat) (c : Chunk) :
  (Z.of_nat n < 2 ^ 32)%Z →
  carry_writes s d n net items (pre ++ [(i, c)]) →
  written pre i = None →
  (∀ j, j < n → j ≠ i → is_Some (written pre j)) →
  ∃ cs, scan net items = Val [message_of s d cs] ∧ length cs = n ∧
        ∀ j, j < n → cs !! j = written (pre ++ [(i, c)]) j.
Proof.
  intros Hn Hcarry Hi Hothers. exists (final n (pre ++ [(i, c)])).
  assert (∀ j, j < n → is_Some (written (pre ++ [(i, c)]) j)) as Hall.
  { intros j Hj. rewrite written_snoc. case_decide; [done|]. by apply Hothers. }
  split_and!; [by apply scan_writes| |intros j Hj; by apply final_lookup].
  apply length_final. exact Hall.
Qed.

(** ** Example *)

(** The message of the examples with its first chunk broadcast twice: the
    first time under another identifier and in capitals. *)
Definition example_repeated : list Transaction :=
  [example_tx 0 (mkChunk "HEL" "old"); example_tx 2 (mkChunk "you" "tx2");
   example_tx 0 (mkChunk "hel" "tx0"); example_tx 1 (mkChunk "lo " "tx1")].

Lemma scan_last_write_witness :
  ∃ cs, scan (H := example_collab) testnet example_repeated =
          Val [message_of "mSrc" "mDst" cs] ∧ length cs = 3 ∧
        ∀ j, j < 3 → cs !! j =
          written ([(0, mkChunk "HEL" "old"); (2, mkChunk "you" "tx2");
                    (0, mkChunk "hel" "tx0")] ++ [(1, mkChunk "lo " "tx1")]) j.
Proof.
  apply (scan_last_write (H := example_collab) testnet "mSrc" "mDst" 3 example_repeated).
  - done.
  - repeat (constructor; [split_and!; [cbn; lia|done|by vm_compute]|]). constructor.
  - done.
  - intros [|[|[|j]]] Hj Hne; by (lia || eexists).
Defined.

Example scan_example_repeated :
  scan (H := example_collab) testnet example_repeated =
    Val [mkMsgData "mSrc" "mDst" "hello you" ["tx0"; "tx1"; "tx2"]].
Proof. by vm_compute. Qed.
