(* ===== verification/Bytes.v ===== *)
(** * Bytes: text that is not ASCII

    [sendMsgTransaction] hands [prefix + chunks[seq]] to [addData]
    (src/TxMEx.js, line 124), which stores the UTF-8 bytes of the text, and
    the reader turns the bytes back into text with [hexToAscii] (lines 39
    and 74), one character per byte.  The chunks are cut by characters
    (line 102), while a data output holds at most 80 bytes.  This file
    follows a text of any characters below 256 from the sender to the
    reader, under the collaborators of the deployment: the message comes
    back as its UTF-8 bytes, read as characters, when every chunk fits;
    it does not come back when the bytes of one chunk are more than
    [MAX_PAYLOAD_SIZE]. *)

From stdpp Require Import gmap.
From S2P Require Import Prelude.
From S2P Require Import JsString.
From S2P Require Import JsArray.
From S2P Require Import Ledger.
From S2P Require Import Collaborators.
From S2P Require Import Codec.
From S2P Require Import Reassembly.
From S2P Require Import Tolerance.
From S2P Require Import Send.
From S2P Require Import EndToEnd.
From S2P Require Import LastWrite.

(** ** The bytes of a text *)

Lemma utf8_encode_append (s t : string) :
  utf8_encode (s +:+ t) = utf8_encode s +:+ utf8_encode t.
Proof.
  induction s as [|c s IH]; str_simpl; [done|]. cbn [utf8_encode].
  by rewrite IH, append_assoc.
Qed.

Lemma utf8_encode_concat (cs : list string) :
  utf8_encode (foldr String.append EmptyString cs) =
    foldr String.append EmptyString (utf8_encode <$> cs).
Proof.
  induction cs as [|c cs IH]; [done|]. cbn [foldr fmap list_fmap].
  by rewrite utf8_encode_append, IH.
Qed.

Lemma utf8_encode_nonempty (text : string) :
  text ≠ EmptyString → utf8_encode text ≠ EmptyString.
Proof.
  intros Hne E. apply (f_equal String.length) in E.
  pose proof (length_utf8_encode text). destruct text; [done|]. cbn in *. lia.
Qed.

(** The text comes back unchanged exactly when it is ASCII. *)
Lemma utf8_encode_id (text : string) : utf8_encode text = text ↔ is_ascii text = true.
Proof.
  split; [|apply utf8_encode_ascii].
  induction text as [|c rest IH]; [done|]. cbn [utf8_encode is_ascii]. unfold utf8_char.
  case_bool_decide as Hc; str_simpl; [naive_solver|].
  intros [= Hhead Hrest]. apply (f_equal String.length) in Hrest. cbn in Hrest.
  pose proof (length_utf8_encode rest). lia.
Qed.

(** The header of a frame is ASCII: the bytes of a frame are the frame of
    the bytes of its chunk. *)
Lemma utf8_encode_frame (n i : nat) (p : string) :
  n < 16 → i < 16 → utf8_encode (frame n i p) = frame n i (utf8_encode p).
Proof.
  intros Hn Hi. unfold frame. rewrite utf8_encode_append. f_equal.
  apply utf8_encode_ascii. unfold frame_prefix.
  by rewrite !is_ascii_append, !is_ascii_toString16.
Qed.

(** A test that fails on a list fails on one of its elements. *)
Lemma forallb_false_lookup {A : Type} (f : A → bool) (xs : list A) :
  forallb f xs = false → ∃ k x, xs !! k = Some x ∧ f x = false.
Proof.
  induction xs as [|x xs IH]; [done|]. cbn. intros [Hx|Hxs]%andb_false_iff.
  - by exists 0, x.
  - destruct (IH Hxs) as (k & y & Hy & Hf). by exists (S k), y.
Qed.

(** A chunk fits when its bytes are at most [MAX_PAYLOAD_SIZE]. *)
Definition fits (c : string) : bool :=
  bool_decide (String.length (utf8_encode c) ≤ MAX_PAYLOAD_SIZE).

Lemma fits_ascii (c : string) :
  is_ascii c = true → String.length c ≤ MAX_PAYLOAD_SIZE → fits c = true.
Proof. intros Hc Hlen. unfold fits. by rewrite utf8_encode_ascii, bool_decide_eq_true_2. Qed.

Section bytes.
Context (valid : string → network → bool) (net : string → network).

#[local] Hint Extern 0 Collab => exact (deployment valid net) : typeclass_instances.

(** ** One transaction *)

(** The transaction of a chunk that fits carries its bytes. *)
Lemma built_fits_carries (netw : network) (s d p txid : string) (n i : nat) :
  n < 16 → i < 16 → fits p = true →
  carries netw (builtTransaction s d (frame n i p) txid [] []) s d
    (mkTMMessage (Num (Z.of_nat i)) (Num (Z.of_nat n)) (utf8_encode p)).
Proof.
  intros Hn Hi Hp%bool_decide_eq_true. split_and!; [done..|].
  apply (extractTMMessage_padded_frame _ "000"); try done.
  unfold second_output_data. cbn. rewrite utf8_encode_frame by done.
  rewrite bool_decide_eq_true_2
    by (rewrite length_frame by done; unfold MAX_PAYLOAD_SIZE in Hp; lia).
  change (if bool_decide _ then _ else _)
    with (script_toString (dataOutScript (frame n i (utf8_encode p)))).
  rewrite split_last_dataOutScript by (by rewrite frame_small).
  by rewrite hexToAscii_pairs_0x, hexToAscii_pairs_hex.
Qed.

(** The transaction of a chunk that does not fit has no data output: the
    reader passes it over. *)
Lemma built_long_unrelated (s d p txid : string) (n i : nat) :
  n < 16 → i < 16 → fits p = false →
  unrelated (builtTransaction s d (frame n i p) txid [] []) = true.
Proof.
  intros Hn Hi Hp%bool_decide_eq_false. apply unrelated_classified. split_and!; [done..|].
  rewrite isTMTransaction_cases. cbn. rewrite utf8_encode_frame by done.
  unfold second_output_data. cbn.
  by rewrite bool_decide_eq_false_2
    by (rewrite length_frame by done; unfold MAX_PAYLOAD_SIZE in Hp; lia).
Qed.

(** ** The transactions of a message *)

Section one_text.
Context `{!ChunkingLaws}.
Context (netw : network) (s d text : string) (ids : list string).

Local Abbreviation cs := (chunkMessage text MAX_PAYLOAD_SIZE).

(** The slots that the chunks fill: their bytes and the identifiers. *)
Definition byte_records : list Chunk := zip_with mkChunk (utf8_encode <$> cs) ids.

(** The sequence numbers of the chunks that fit. *)
Definition fitting (order : list nat) : list nat :=
  filter (λ i, from_option fits false (cs !! i) = true) order.

Lemma message_of_byte_records :
  length ids = length cs →
  message_of s d byte_records = mkMsgData s d (utf8_encode text) ids.
Proof.
  intros Hids. unfold message_of, byte_records. f_equal.
  - rewrite fmap_zip_with_l by (rewrite ?length_fmap; done || lia).
    rewrite <- utf8_encode_concat.
    by rewrite chunk_concat by (unfold MAX_PAYLOAD_SIZE; lia).
  - rewrite fmap_zip_with_r by (rewrite ?length_fmap; done || lia). done.
Qed.

(** Of the transactions of the message a history lists, the related ones
    are those of the chunks that fit, and they carry their bytes. *)
Lemma history_carries_bytes (order : list nat) :
  length cs < 16 → length ids = length cs → Forall (λ i, i < length cs) order →
  carry_writes s d (length cs) netw
    (related_only (history (ledger s d (frames cs) ids) order))
    (writes_at byte_records (fitting order)).
Proof.
  intros Hn Hids. unfold carry_writes, history, writes_at, fitting, related_only.
  induction 1 as [|i order Hi _ IH]; [constructor|]. cbn [omap list_omap].
  destruct (lookup_lt_is_Some_2 cs i Hi) as [c Hc].
  destruct (lookup_lt_is_Some_2 ids i) as [id Hid]; [lia|].
  rewrite (lookup_ledger s d text ids i c id Hc Hid), !filter_cons, Hc. cbn [from_option].
  destruct (fits c) eqn:Hfit.
  - pose proof (built_fits_carries netw s d c id (length cs) i Hn ltac:(lia) Hfit) as Hcar.
    rewrite !decide_True by (done || by eapply carries_related).
    cbn [omap list_omap]. unfold byte_records at 1.
    rewrite lookup_zip_with, list_lookup_fmap, Hc, Hid.
    cbn [fmap option_fmap option_map mbind option_bind].
    constructor; [|done]. cbn [fst snd]. by split_and!; [lia|..].
  - by rewrite !decide_False by (done || by rewrite built_long_unrelated by (done || lia)).
Qed.

Lemma fitting_all (order : list nat) :
  forallb fits cs = true → Forall (λ i, i < length cs) order → fitting order = order.
Proof.
  rewrite forallb_forall. intros Hall Horder. unfold fitting.
  induction Horder as [|i order Hi _ IH]; [done|].
  destruct (lookup_lt_is_Some_2 cs i Hi) as [c Hc].
  rewrite filter_cons_True, IH; [done|]. rewrite Hc. cbn.
  apply Hall, list_elem_of_In. by eapply list_elem_of_lookup_2.
Qed.

Lemma fitting_misses (order : list nat) :
  forallb fits cs = false →
  ∃ k, k < length cs ∧ written (writes_at byte_records (fitting order)) k = None.
Proof.
  intros (k & c & Hc & Hfit)%forallb_false_lookup.
  exists k. split; [by eapply lookup_lt_Some|].
  rewrite written_writes_at, decide_False; [done|].
  unfold fitting. rewrite list_elem_of_filter, Hc. cbn. rewrite Hfit. naive_solver.
Qed.

(** What the reader returns for the transactions of the message, in any
    order. *)
Lemma scan_ledger_bytes (order : list nat) :
  0 < length cs < 16 → length ids = length cs → order ≡ₚ List.seq 0 (length cs) →
  scan netw (history (ledger s d (frames cs) ids) order) =
    Val (if forallb fits cs then [mkMsgData s d (utf8_encode text) ids] else []).
Proof.
  intros [Hpos Hn] Hids Hperm.
  assert (Forall (λ i, i < length cs) order) as Horder.
  { rewrite Forall_forall. intros i Hi. rewrite Hperm in Hi. apply elem_of_seq in Hi. lia. }
  pose proof (history_carries_bytes order Hn Hids Horder) as Hcarry.
  rewrite <- scan_related_only. destruct (forallb fits cs) eqn:Hall.
  - rewrite fitting_all in Hcarry by done.
    destruct (last order) as [j|] eqn:Hlast.
    2: { apply last_None in Hlast. rewrite Hlast in Hperm.
         apply Permutation_nil_l in Hperm. revert Hperm Hpos. destruct (length cs); [lia|done]. }
    apply last_Some in Hlast as [order' ->]. rewrite <- message_of_byte_records by done.
    eapply (scan_rewritten _ _ (length cs) netw _ _ [] order' j); [|lia|done|done|done].
    unfold byte_records. rewrite length_zip_with, length_fmap. lia.
  - destruct (fitting_misses order Hall) as (k & Hk & Hmiss).
    eapply (scan_missing _ _ (length cs) netw _ _ k); [lia|done..].
Qed.

End one_text.

(** C13. The round trip of a text of any characters.  A message in 1 to 15
    chunks is sent with valid addresses and sufficient balance, every
    chunk is broadcast with success once and up to [MAX_SEND_RETRY]
    broadcasts fail.  Then the callback receives the identifiers, and on a
    history that lists the transactions in any order the scan returns the
    message with its UTF-8 bytes read as characters for text, when the
    bytes of every chunk are at most [MAX_PAYLOAD_SIZE], and no message
    otherwise.  The text comes back as it was sent exactly when it is
    ASCII. *)
Theorem send_then_scan_bytes `{!ChunkingLaws} (netw : network) (msgData : SendData)
    (funds : Z) (answers : list Attempt) (order : list nat) :
  valid_addresses msgData = true → affordable funds (length (chunks_of msgData)) →
  0 < length (chunks_of msgData) < 16 →
  forallb is_broadcast answers = true →
  length (omap broadcast_txid answers) = length (chunks_of msgData) →
  length (omap broadcast_err answers) ≤ MAX_SEND_RETRY →
  order ≡ₚ List.seq 0 (length (chunks_of msgData)) →
  ∃ sent,
    sendTMMessage TimerIgnores msgData (BalanceOk funds) answers =
      (sent, Finished (CallbackOk (omap broadcast_txid answers))) ∧
    scan netw (history (ledger_of (Send.src msgData) (Send.dst msgData) sent answers) order) =
      Val (if forallb fits (chunks_of msgData)
           then [mkMsgData (Send.src msgData) (Send.dst msgData)
                   (utf8_encode (Send.msg msgData)) (omap broadcast_txid answers)]
           else []) ∧
    (utf8_encode (Send.msg msgData) = Send.msg msgData ↔
     is_ascii (Send.msg msgData) = true).
Proof.
  intros Hvalid Hfunds Hn Hall Hok Herr Horder.
  destruct (sent_ledger msgData funds answers) as (sent & Hsent & Hledger);
    [done|done|lia|done|done|done|].
  exists sent. rewrite Hledger. split_and!; [done| |apply utf8_encode_id].
  by apply scan_ledger_bytes.
Qed.

End bytes.

(** ** Examples *)

(** A word with one character above 127, the e with an acute accent
    (code 233), and a line of forty of them. *)
Definition example_accent : SendData :=
  {| Send.src := "mSrc"; Send.dst := "mDst";
     Send.msg := "caf" +:+ String "233"%char EmptyString; pk := "key" |}.

Definition example_accents : SendData :=
  {| Send.src := "mSrc"; Send.dst := "mDst";
     Send.msg := foldr String EmptyString (replicate 40 "233"%char); pk := "key" |}.

Lemma send_then_scan_bytes_witness :
  ∃ sent,
    sendTMMessage (H := deployment (λ _ _, true) (λ _, testnet)) TimerIgnores example_accent
        (BalanceOk 10000) [BroadcastOk "c0"] =
      (sent, Finished (CallbackOk (omap broadcast_txid [BroadcastOk "c0"]))) ∧
    scan (H := deployment (λ _ _, true) (λ _, testnet)) testnet
        (history (ledger_of "mSrc" "mDst" sent [BroadcastOk "c0"]) [0]) =
      Val (if forallb fits (chunks_of (H := deployment (λ _ _, true) (λ _, testnet))
                              example_accent)
           then [mkMsgData "mSrc" "mDst" (utf8_encode (Send.msg example_accent))
                   (omap broadcast_txid [BroadcastOk "c0"])]
           else []) ∧
    (utf8_encode (Send.msg example_accent) = Send.msg example_accent ↔
     is_ascii (Send.msg example_accent) = true).
Proof.
  apply (send_then_scan_bytes (λ _ _, true) (λ _, testnet) (H := deployed_chunking _ _)
           testnet example_accent 10000 [BroadcastOk "c0"] [0]);
    try (done || (vm_compute; lia) || by vm_compute).
Defined.

(** The word comes back with two characters for the accented one. *)
Example scan_example_accent :
  scan (H := deployment (λ _ _, true) (λ _, testnet)) testnet
    (history (ledger_of "mSrc" "mDst"
                (sendTMMessage (H := deployment (λ _ _, true) (λ _, testnet)) TimerIgnores
                   example_accent (BalanceOk 10000) [BroadcastOk "c0"]).1
                [BroadcastOk "c0"]) [0]) =
    Val [mkMsgData "mSrc" "mDst" ("caf" +:+ String "195"%char (String "169"%char EmptyString))
           ["c0"]].
Proof. by vm_compute. Qed.

(** The line is one chunk of 40 characters and 80 bytes: it is broadcast,
    and the reader returns nothing. *)
Example scan_example_accents :
  (sendTMMessage (H := deployment (λ _ _, true) (λ _, testnet)) TimerIgnores
     example_accents (BalanceOk 10000) [BroadcastOk "c0"]).2 =
    Finished (CallbackOk ["c0"]) ∧
  scan (H := deployment (λ _ _, true) (λ _, testnet)) testnet
    (history (ledger_of "mSrc" "mDst"
                (sendTMMessage (H := deployment (λ _ _, true) (λ _, testnet)) TimerIgnores
                   example_accents (BalanceOk 10000) [BroadcastOk "c0"]).1
                [BroadcastOk "c0"]) [0]) = Val [].
Proof. by vm_compute. Qed.
