(* ===== verification/ReassemblySpec.v ===== *)
(** * ReassemblySpec: what the reader promises, and that the loop keeps it

    To its callers the loop of [getTMMessages] (src/TxMEx.js, lines 200 to
    247) is a reassembly buffer: per conversation a finite map from
    sequence numbers to chunks, filled frame by frame, and drained into a
    message as soon as every sequence number below the count of the
    current frame has a chunk.  [spec_ingest] and [spec_receive] say this
    on frames whose count and sequence number are natural numbers, without
    arrays, holes and numbers that are none.

    [abs_state] takes a state of the loop to the state of the
    specification: an array is the finite map of its filled slots.  The
    theorems say that storing a frame commutes with the abstraction, and
    that the scan of a history returns what the specification returns on
    the frames the history carries: a functional refinement, on every
    history whose frames have hexadecimal digits for count and sequence
    number and whose transactions have the scripts the loop reads. *)

From stdpp Require Import gmap.
From S2P Require Import Prelude.
From S2P Require Import JsString.
From S2P Require Import JsArray.
From S2P Require Import Ledger.
From S2P Require Import Collaborators.
From S2P Require Import Codec.
From S2P Require Import Reassembly.

(** ** The specification *)

(** A frame: the count of chunks, the sequence number and the payload. *)
Record Frame : Type := mkFrame {
  totalChunks : nat;
  sequence : nat;
  payload : string;
}.

(** A frame as it is observed on the ledger: between two addresses, in a
    transaction. *)
Record Observed : Type := mkObserved {
  obs_src : string;
  obs_dst : string;
  obs_frame : Frame;
  obs_txid : string;
}.

(** The buffers, one per conversation, and the messages drained so far. *)
Record SpecState : Type := mkSpecState {
  spec_bufs : gmap string (gmap nat Chunk);
  spec_out : list MsgData;
}.

Definition spec_init : SpecState := mkSpecState ∅ [].

(** Every sequence number below [n] has a chunk. *)
Definition spec_complete (slots : gmap nat Chunk) (n : nat) : bool :=
  forallb (λ j, bool_decide (is_Some (slots !! j))) (List.seq 0 n).

(** The message of the chunks below [n], in the order of their sequence
    numbers. *)
Definition spec_drain (s d : string) (slots : gmap nat Chunk) (n : nat) : MsgData :=
  let cs := omap (λ j, slots !! j) (List.seq 0 n) in
  mkMsgData s d (foldr String.append EmptyString (chunk_msg <$> cs)) (chunk_txid <$> cs).

(** One observed frame: its chunk is put under its sequence number in the
    buffer of its conversation, over what was there; a buffer that is
    complete for the count of this frame is drained and removed. *)
Definition spec_ingest (st : SpecState) (o : Observed) : SpecState :=
  let key := obs_src o +:+ obs_dst o in
  let slots := <[sequence (obs_frame o) := mkChunk (payload (obs_frame o)) (obs_txid o)]>
                 (default ∅ (spec_bufs st !! key)) in
  if spec_complete slots (totalChunks (obs_frame o))
  then mkSpecState (delete key (spec_bufs st))
         (spec_out st ++ [spec_drain (obs_src o) (obs_dst o) slots (totalChunks (obs_frame o))])
  else mkSpecState (<[key := slots]> (spec_bufs st)) (spec_out st).

Definition spec_receive (os : list Observed) : list MsgData :=
  spec_out (foldl spec_ingest spec_init os).

(** ** The abstraction *)

(** The finite map of the filled slots of an array. *)
Definition abs_array (a : list (option Chunk)) : gmap nat Chunk :=
  omap id (map_seq 0 a).

Definition abs_state (st : ScanState) : SpecState :=
  mkSpecState (abs_array <$> chnkBuf st) (msgs st).

Lemma abs_state_init : abs_state scan_init = spec_init.
Proof. unfold abs_state, spec_init. cbn. by rewrite fmap_empty. Qed.

Lemma lookup_abs_array (a : list (option Chunk)) (j : nat) :
  abs_array a !! j = array_get a j.
Proof.
  unfold abs_array, array_get. rewrite lookup_omap, lookup_map_seq_0.
  by destruct (a !! j) as [[c|]|].
Qed.

Lemma abs_array_new (n : number) (a : list (option Chunk)) :
  new_Array n = Val a → abs_array a = ∅.
Proof.
  unfold new_Array. destruct n as [|z]; [done|]. case_bool_decide; [|done].
  intros [= <-]. apply map_eq. intros j.
  by rewrite lookup_abs_array, array_get_replicate, lookup_empty.
Qed.

Lemma abs_array_set (a : list (option Chunk)) (i : nat) (c : Chunk) :
  abs_array (array_set a (Num (Z.of_nat i)) c) = <[i := c]> (abs_array a).
Proof.
  apply map_eq. intros j. rewrite array_set_nat, lookup_abs_array, array_get_set_at.
  case_decide as Hij; [subst; by rewrite lookup_insert_eq|].
  by rewrite lookup_insert_ne, lookup_abs_array.
Qed.

Lemma complete_abs (a : list (option Chunk)) (n : nat) :
  complete a (Num (Z.of_nat n)) = spec_complete (abs_array a) n.
Proof.
  unfold spec_complete, complete. cbn [loop_count]. rewrite Nat2Z.id.
  induction (List.seq 0 n) as [|j l IH]; [done|]. cbn [forallb].
  by rewrite IH, lookup_abs_array.
Qed.

Lemma assemble_abs (s d : string) (a : list (option Chunk)) (n : nat) :
  assemble s d a (Num (Z.of_nat n)) = spec_drain s d (abs_array a) n.
Proof.
  unfold assemble, spec_drain, slots. cbn [loop_count]. rewrite Nat2Z.id. cbv zeta.
  by rewrite (omap_ext_in (array_get a) (λ j, abs_array a !! j))
    by (intros j _; by rewrite lookup_abs_array).
Qed.

(** ** Storing a frame *)

(** The frame of the loop for a frame of the specification. *)
Definition message_of_frame (f : Frame) : TMMessage :=
  mkTMMessage (Num (Z.of_nat (sequence f))) (Num (Z.of_nat (totalChunks f))) (payload f).

(** The buffer a frame is stored into stands for the buffer of the
    specification, empty when the conversation has none. *)
Lemma buffer_for_abs (st : ScanState) (k : string) (n : number) (a : list (option Chunk)) :
  buffer_for st k n = Val a → abs_array a = default ∅ (spec_bufs (abs_state st) !! k).
Proof.
  unfold buffer_for. cbn [abs_state spec_bufs]. rewrite lookup_fmap.
  destruct (chnkBuf st !! k) as [a'|]; cbn; [by intros [= <-]|apply abs_array_new].
Qed.

(** Storing a frame commutes with the abstraction. *)
Lemma ingest_abs (st : ScanState) (o : Observed) :
  (Z.of_nat (totalChunks (obs_frame o)) < 2 ^ 32)%Z →
  abs_state <$> ingest st (obs_src o) (obs_dst o) (message_of_frame (obs_frame o)) (obs_txid o)
    = Val (spec_ingest (abs_state st) o).
Proof.
  intros Hn. rewrite ingest_unfold. cbn [message_of_frame len seq msg].
  destruct (buffer_for st (obs_src o +:+ obs_dst o) _) as [a|e] eqn:Ha.
  - pose proof (buffer_for_abs _ _ _ _ Ha) as Habs. cbn [mbind res_bind fmap res_fmap].
    cbv zeta. unfold spec_ingest. cbv zeta.
    rewrite complete_abs, abs_array_set, Habs. f_equal.
    destruct (spec_complete _ _); unfold abs_state; cbn [chnkBuf msgs spec_bufs spec_out].
    + by rewrite fmap_delete, assemble_abs, abs_array_set, Habs.
    + by rewrite fmap_insert, abs_array_set, Habs.
  - unfold buffer_for in Ha. destruct (chnkBuf st !! _); [done|].
    by rewrite new_Array_small in Ha.
Qed.

(** ** The scan *)

Section refinement.
Context `{Collab}.
Context (net : network).

(** What the loop body reads off a transaction: a frame of the
    specification between two addresses, or nothing, for a transaction
    that is no frame. *)
Definition observes (tx : Transaction) (o : option Observed) : Prop :=
  match o with
  | Some o => carries net tx (obs_src o) (obs_dst o) (message_of_frame (obs_frame o)) ∧
              hash tx = obs_txid o
  | None => is_Some (first_input_script tx) ∧ is_Some (first_output_script tx) ∧
            extractTMMessage (PlainTx tx) = Val None
  end.

(** The count of an observed frame is one hexadecimal digit. *)
Lemma observes_total (tx : Transaction) (o : Observed) :
  observes tx (Some o) → totalChunks (obs_frame o) < 16.
Proof.
  intros [(_ & _ & Hm) _]. apply extractTMMessage_len in Hm.
  destruct Hm as [Hm|(z & Hz & ?)]; [done|]. cbn in Hz. simplify_eq. lia.
Qed.

(** One round of the loop is one step of the specification, or none. *)
Lemma scan_tx_abs (st : ScanState) (tx : Transaction) (o : option Observed) :
  observes tx o →
  abs_state <$> scan_tx net st tx =
    Val (from_option (spec_ingest (abs_state st)) (abs_state st) o).
Proof.
  destruct o as [o|]; cbn [observes from_option].
  - intros [Hcarries Hh]. rewrite (scan_tx_carries _ _ _ _ _ _ Hcarries), Hh.
    apply ingest_abs. pose proof (observes_total tx o (conj Hcarries Hh)). lia.
  - intros (Hin & Hout & Hm). by rewrite scan_tx_not_frame.
Qed.

Lemma foldM_scan_tx_abs (st : ScanState) (items : list Transaction)
    (os : list (option Observed)) :
  Forall2 observes items os →
  abs_state <$> foldM (scan_tx net) st items =
    Val (foldl spec_ingest (abs_state st) (omap id os)).
Proof.
  intros Hobs. revert st. induction Hobs as [|tx o items os Ho _ IH]; intros st; [done|].
  rewrite foldM_cons. pose proof (scan_tx_abs st tx o Ho) as Hstep.
  destruct (scan_tx net st tx) as [st1|e]; [|done]. injection Hstep as Hstep.
  cbn [mbind res_bind]. rewrite IH, Hstep. by destruct o.
Qed.

(** C26. The reader refines the reassembly buffer.  On a history whose
    transactions the loop can read and whose frames have hexadecimal
    digits for count and sequence number, [getTMMessages] hands to its
    callback exactly the messages that the specification drains from the
    frames of the history, taken in the order of the history. *)
Theorem scan_refines (address : string) (items : list Transaction)
    (os : list (option Observed)) :
  Forall2 observes items os →
  getTMMessages address net (HistoryOk items) = CallbackOk (spec_receive (omap id os)).
Proof.
  intros Hobs. unfold getTMMessages, scan, spec_receive.
  pose proof (foldM_scan_tx_abs scan_init items os Hobs) as Hfold.
  rewrite abs_state_init in Hfold.
  destruct (foldM (scan_tx net) scan_init items) as [st|e]; [|done].
  injection Hfold as Hfold. cbn. by rewrite <- Hfold.
Qed.

End refinement.

(** ** Example *)

(** The frames that the example history carries, in the order [2; 0; 1]. *)
Definition example_observed : list (option Observed) :=
  [Some (mkObserved "mSrc" "mDst" (mkFrame 3 2 "you") "tx2");
   Some (mkObserved "mSrc" "mDst" (mkFrame 3 0 "hel") "tx0");
   Some (mkObserved "mSrc" "mDst" (mkFrame 3 1 "lo ") "tx1")].

Lemma scan_refines_witness :
  getTMMessages (H := example_collab) "mDst" testnet (HistoryOk (example_history [2; 0; 1])) =
    CallbackOk (spec_receive (omap id example_observed)).
Proof.
  apply (scan_refines (H := example_collab) testnet "mDst").
  repeat (constructor; [split; [by vm_compute|done]|]). constructor.
Defined.

(** What the specification drains from them. *)
Example spec_receive_example :
  spec_receive (omap id example_observed) =
    [mkMsgData "mSrc" "mDst" "hello you" ["tx0"; "tx1"; "tx2"]].
Proof. by vm_compute. Qed.

(** The count that decides is the one of the current frame, not the one
    the buffer was made for: after the first chunk of a message of three,
    a frame that announces one chunk completes the buffer, and the chunk
    that was waiting is dropped. *)
Example current_frame_counts :
  scan (H := example_collab) testnet
    [example_tx 0 (mkChunk "hel" "tx0");
     builtTransaction "mSrc" "mDst" (frame 1 0 "x") "txX" [] []] =
    Val [mkMsgData "mSrc" "mDst" "x" ["txX"]].
Proof. by vm_compute. Qed.
