(* ===== verification/Recognition.v ===== *)
(** * Recognition: which transactions the classifier takes for frames

    [isTMTransaction] (src/TxMEx.js, lines 48 to 62) compares the first
    three characters of the decoded text of the second output with the
    tag of two characters.  This file says what that test amounts to on
    the transactions that the ledger library builds for a text, under
    each of the two sets of collaborators: under [deployed], where the
    decoded text starts with one character that the collation ignores,
    the classifier recognises exactly the texts that start with the tag;
    under [literal] it recognises the tag alone, and no frame. *)

From S2P Require Import Prelude.
From S2P Require Import JsString.
From S2P Require Import Ledger.
From S2P Require Import Collaborators.
From S2P Require Import Codec.
From S2P Require Import Send.
From S2P Require Import Reassembly.
From S2P Require Import EndToEnd.

(** ** Two characters against the tag *)

(** A text of at most two characters that the collation takes for the tag
    is the tag. *)
Lemma drop_ignorable_tag (t : string) :
  String.length t ≤ 2 → drop_ignorable t = TX_PREFIX ↔ t = TX_PREFIX.
Proof.
  intros Hlen. split; [|by intros ->].
  destruct t as [|a [|b [|c t]]]; cbn in *; [done| | |lia].
  - by destruct (ignorable a).
  - by destruct (ignorable a), (ignorable b).
Qed.

(** A text whose first three characters are the tag is the tag. *)
Lemma take_str_3_tag (text : string) : take_str 3 text = TX_PREFIX ↔ text = TX_PREFIX.
Proof.
  split; [|by intros ->]. intros E.
  assert (String.length text ≤ 2) as Hlen.
  { apply (f_equal String.length) in E. rewrite length_take_str in E.
    change (String.length TX_PREFIX) with 2 in E. lia. }
  by rewrite take_str_ge in E by lia.
Qed.

(** The second output of a text of more than 80 characters is no data
    output. *)
Lemma second_output_data_long `{Collab} (s d text txid : string)
    (ins : list Input) (ch : list Output) :
  is_ascii text = true → 80 < String.length text →
  second_output_data (builtTransaction s d text txid ins ch) = None.
Proof.
  intros Hascii Hlen. unfold second_output_data. cbn.
  by rewrite utf8_encode_ascii, bool_decide_eq_false_2 by (done || lia).
Qed.

Lemma isTMTransaction_built `{Collab} (s d text txid : string)
    (ins : list Input) (ch : list Output) :
  isTMTransaction (builtTransaction s d text txid ins ch) =
    Val (tag_matches (second_output_data (builtTransaction s d text txid ins ch))).
Proof. by rewrite isTMTransaction_cases. Qed.

(** ** The two sets of collaborators *)

Section recognition.
Context (valid : string → network → bool) (net : string → network).
Context (s d text txid : string) (ins : list Input) (ch : list Output).

(** C10. Under the collaborators of the deployment the classifier
    recognises, among the transactions built for a text of ASCII
    characters, exactly those whose text fits a data output and starts
    with the tag: the character that the decoder makes of [0x] fills the
    third position that the classifier compares. *)
Theorem recognised_deployed :
  text ≠ EmptyString → is_ascii text = true →
  isTMTransaction (H := deployed valid net) (builtTransaction s d text txid ins ch) =
    Val (bool_decide (String.length text ≤ 80 ∧ take_str 2 text = TX_PREFIX)).
Proof.
  intros Hne Hascii. rewrite isTMTransaction_built. f_equal.
  destruct (decide (String.length text ≤ 80)) as [Hlen|Hlen].
  - rewrite (second_output_data_built valid net) by done. cbn [tag_matches truthy].
    rewrite substring_0. change (take_str 3 (String ?c text)) with (String c (take_str 2 text)).
    apply bool_decide_ext. rewrite (ignoring_compare_eq _ TX_PREFIX).
    change (drop_ignorable (String "000" ?t)) with (drop_ignorable t).
    rewrite drop_ignorable_tag by (rewrite length_take_str; lia). tauto.
  - rewrite second_output_data_long by (done || lia). cbn [tag_matches].
    symmetry. apply bool_decide_eq_false_2. tauto.
Qed.

(** Under exact decoding the classifier recognises the transaction of the
    tag alone. *)
Theorem recognised_literal :
  text ≠ EmptyString → is_ascii text = true →
  isTMTransaction (H := literal valid net) (builtTransaction s d text txid ins ch) =
    Val (bool_decide (text = TX_PREFIX)).
Proof.
  intros Hne Hascii. rewrite isTMTransaction_built. f_equal.
  destruct (decide (String.length text ≤ 80)) as [Hlen|Hlen].
  - rewrite (second_output_data_exact valid net) by done. cbn [tag_matches].
    destruct text as [|c t]; [done|]. cbn [truthy andb]. rewrite substring_0.
    apply bool_decide_ext. rewrite (ordinal_compare_eq _ TX_PREFIX). apply take_str_3_tag.
  - rewrite second_output_data_long by (done || lia). cbn [tag_matches].
    symmetry. apply bool_decide_eq_false_2. intros ->. cbn in Hlen. lia.
Qed.

End recognition.

(** ** Examples *)

Lemma recognised_deployed_witness :
  isTMTransaction (H := deployed (λ _ _, true) (λ _, testnet))
    (builtTransaction "mSrc" "mDst" "TM10hello world" "tx" [] []) =
    Val (bool_decide (String.length "TM10hello world" ≤ 80 ∧
                      take_str 2 "TM10hello world" = TX_PREFIX)).
Proof. by apply recognised_deployed. Defined.

Lemma recognised_literal_witness :
  isTMTransaction (H := literal (λ _ _, true) (λ _, testnet))
    (builtTransaction "mSrc" "mDst" "TM10hello world" "tx" [] []) =
    Val (bool_decide ("TM10hello world" = TX_PREFIX)).
Proof. by apply recognised_literal. Defined.

(** A frame is recognised, a text without the tag is not; under exact
    decoding neither is. *)
Example recognised_frame :
  isTMTransaction (H := deployed (λ _ _, true) (λ _, testnet))
    (builtTransaction "mSrc" "mDst" "TM10hello world" "tx" [] []) = Val true.
Proof. by vm_compute. Qed.

Example rejected_text :
  isTMTransaction (H := deployed (λ _ _, true) (λ _, testnet))
    (builtTransaction "mSrc" "mDst" "hello world" "tx" [] []) = Val false.
Proof. by vm_compute. Qed.

Example rejected_frame_literal :
  isTMTransaction (H := literal (λ _ _, true) (λ _, testnet))
    (builtTransaction "mSrc" "mDst" "TM10hello world" "tx" [] []) = Val false.
Proof. by vm_compute. Qed.
