(* ===== verification/Status.v ===== *)
(** * Status: the status of a node

    [getTMNodeStatus] (src/TxMEx.js, lines 257 to 289) asks for the balance
    of an address, turns it into the number of messages it pays for, scans
    the history of the address with [getTMMessages] and splits the messages
    into those the address sent (outbox) and the others (inbox).

    The answers of the balance query and of the history query are data, as
    in [Send] and [Reassembly].  The theorems: the number of messages is the
    largest number of chunks the balance check of [sendTMMessage] accepts;
    the split keeps every message, in order, in exactly one of the two
    boxes; an error of the history never reaches the callback; and, with
    [EndToEnd], what the status of an address shows after a message was
    sent. *)

From stdpp Require Import pretty.
From S2P Require Import Prelude.
From S2P Require Import JsString.
From S2P Require Import Ledger.
From S2P Require Import Collaborators.
From S2P Require Import Codec.
From S2P Require Import Send.
From S2P Require Import Reassembly.
From S2P Require Import EndToEnd.

(** An entry of the inbox: [{msg: msg.data, src: msg.src}] (line 281). *)
Record InboxItem : Type := mkInboxItem {
  inbox_msg : string;
  inbox_src : string;
}.

(** An entry of the outbox: [{msg: msg.data, dst: msg.dst}] (line 279). *)
Record OutboxItem : Type := mkOutboxItem {
  outbox_msg : string;
  outbox_dst : string;
}.

(** The object handed to the callback (lines 261, 269 and 284). *)
Record NodeStatus : Type := mkNodeStatus {
  address : string;
  balance : string;
  inbox : list InboxItem;
  outbox : list OutboxItem;
}.

#[export] Instance InboxItem_eq_dec : EqDecision InboxItem.
Proof. solve_decision. Defined.

#[export] Instance OutboxItem_eq_dec : EqDecision OutboxItem.
Proof. solve_decision. Defined.

#[export] Instance NodeStatus_eq_dec : EqDecision NodeStatus.
Proof. solve_decision. Defined.

(** [Math.floor(balance/(MIN_AMOUNT+MIN_FEE))] (line 268). *)
Definition nmsgs (balance : Z) : Z := (balance / (MIN_AMOUNT + MIN_FEE))%Z.

(** [balance+"("+nmsgs+" messages can be sent)"] (line 269). *)
Definition balance_text (balance : Z) : string :=
  pretty balance +:+ "(" +:+ pretty (nmsgs balance) +:+ " messages can be sent)".

(** The loop of lines 276 to 282: the messages whose source is the address
    go to the outbox, the others to the inbox. *)
Definition outbox_of (address : string) (msgs : list MsgData) : list OutboxItem :=
  (λ m, mkOutboxItem (data m) (dst m)) <$> filter (λ m, src m = address) msgs.

Definition inbox_of (address : string) (msgs : list MsgData) : list InboxItem :=
  (λ m, mkInboxItem (data m) (src m)) <$> filter (λ m, src m ≠ address) msgs.

Section status.
Context `{Collab}.

(** [getTMNodeStatus(address, node, callback)] given the answers of the
    balance query and of the history query.  The callback of
    [getTMMessages] ignores its error argument (line 272): with an error the
    loop runs over [undefined] and both boxes stay empty. *)
Definition getTMNodeStatus (address : string) (net : network)
    (funds : BalanceAnswer) (history : HistoryAnswer) : outcome string NodeStatus :=
  match funds with
  | BalanceErr err => CallbackErr ("[getBTCAddrBalance] " +:+ err)
  | BalanceOk balance =>
      match getTMMessages address net history with
      | CallbackErr _ => CallbackOk (mkNodeStatus address (balance_text balance) [] [])
      | CallbackOk msgs =>
          CallbackOk (mkNodeStatus address (balance_text balance)
                        (inbox_of address msgs) (outbox_of address msgs))
      | Uncaught e => Uncaught e
      end
  end.

End status.

(** ** The number of messages the balance pays for *)

(** The number shown in the status is the largest number of chunks for
    which the balance check of [sendTMMessage] passes. *)
Theorem nmsgs_affordable (funds : Z) (n : nat) :
  affordable funds n ↔ (Z.of_nat n ≤ nmsgs funds)%Z.
Proof.
  unfold affordable, nmsgs, MIN_AMOUNT, MIN_FEE. split; intros Hn.
  - apply Z.div_le_lower_bound; lia.
  - etrans; [apply Z.mul_le_mono_nonneg_l, Hn; lia|]. apply Z.mul_div_le. lia.
Qed.

(** ** Inbox and outbox *)

Lemma outbox_of_cons (a : string) (m : MsgData) (msgs : list MsgData) :
  outbox_of a (m :: msgs) =
    if decide (src m = a) then mkOutboxItem (data m) (dst m) :: outbox_of a msgs
    else outbox_of a msgs.
Proof. unfold outbox_of. rewrite filter_cons. by case_decide. Qed.

Lemma inbox_of_cons (a : string) (m : MsgData) (msgs : list MsgData) :
  inbox_of a (m :: msgs) =
    if decide (src m = a) then inbox_of a msgs
    else mkInboxItem (data m) (src m) :: inbox_of a msgs.
Proof. unfold inbox_of. rewrite filter_cons. by repeat case_decide. Qed.

(** The split loses and invents nothing: the two boxes together hold as
    many entries as there are messages, and their texts are the texts of the
    messages. *)
Theorem boxes_partition (a : string) (msgs : list MsgData) :
  length (inbox_of a msgs) + length (outbox_of a msgs) = length msgs ∧
  (inbox_msg <$> inbox_of a msgs) ++ (outbox_msg <$> outbox_of a msgs) ≡ₚ data <$> msgs.
Proof.
  induction msgs as [|m msgs [IH1 IH2]]; [done|].
  rewrite inbox_of_cons, outbox_of_cons. case_decide; csimpl; (split; [lia|]).
  - by rewrite <- Permutation_middle, IH2.
  - by rewrite IH2.
Qed.

(** The outbox holds exactly the messages whose source is the address,
    in the order of the messages, and the inbox the others: a message the
    address sent to itself is in the outbox only. *)
Theorem boxes_by_source (a : string) (msgs : list MsgData) :
  outbox_dst <$> outbox_of a msgs = dst <$> filter (λ m, src m = a) msgs ∧
  Forall (λ i, inbox_src i ≠ a) (inbox_of a msgs).
Proof.
  unfold outbox_of, inbox_of. split; [by rewrite <- list_fmap_compose|].
  apply Forall_fmap, Forall_forall. by intros m [Hm _]%list_elem_of_filter.
Qed.

Section status_theorems.
Context `{Collab}.

(** C40. The only error [getTMNodeStatus] hands to its callback is that of
    the balance query.  An error of the history query never reaches it:
    [getTMMessages] throws before it calls back (line 197), and the
    callback of line 272 ignores its error argument; an exception of the
    scan escapes in the same way. *)
Theorem getTMNodeStatus_error_iff (a : string) (net : network) (funds : BalanceAnswer)
    (history : HistoryAnswer) (e : string) :
  getTMNodeStatus a net funds history = CallbackErr e ↔
  ∃ err, funds = BalanceErr err ∧ e = "[getBTCAddrBalance] " +:+ err.
Proof.
  unfold getTMNodeStatus. destruct funds as [err|funds]; [naive_solver|].
  split; [|by intros (? & ? & _)].
  by destruct (getTMMessages a net history).
Qed.

(** When the scan of the history returns, the callback receives the
    address, the balance with the number of messages it pays for, and the
    two boxes of the scanned messages. *)
Theorem getTMNodeStatus_ok (a : string) (net : network) (funds : Z)
    (items : list Transaction) (ms : list MsgData) :
  scan net items = Val ms →
  getTMNodeStatus a net (BalanceOk funds) (HistoryOk items) =
    CallbackOk (mkNodeStatus a (balance_text funds) (inbox_of a ms) (outbox_of a ms)).
Proof. intros Hscan. unfold getTMNodeStatus, getTMMessages. by rewrite Hscan. Qed.

(** An exception of the scan, or an error of the history query, escapes
    [getTMNodeStatus]: its callback is not called at all. *)
Theorem getTMNodeStatus_uncaught (a : string) (net : network) (funds : Z)
    (history : HistoryAnswer) (e : exn) :
  getTMNodeStatus a net (BalanceOk funds) history = Uncaught e ↔
  (e = ReferenceError ∧ ∃ err, history = HistoryErr err) ∨
  (∃ items, history = HistoryOk items ∧ scan net items = Throw e).
Proof.
  unfold getTMNodeStatus, getTMMessages. destruct history as [err|items].
  - split; [intros [= <-]; left; eauto|]. by intros [[-> _]|(? & ? & _)].
  - destruct (scan net items) eqn:E;
      (split; [|intros [(_ & ? & ?)|(? & [= <-] & ?)]; congruence]); [done|].
    intros [= <-]. right. eauto.
Qed.

End status_theorems.

(** ** The status after a message was sent *)

Section after_send.
Context (valid : string → network → bool) (net : string → network).

#[local] Hint Extern 0 Collab => exact (deployment valid net) : typeclass_instances.

(** Sending, the ledger and the status together.  After a message of
    ASCII text in 1 to 15 chunks was sent, with no more failed broadcasts
    than the job retries, the status of an address whose history lists the
    transactions of the message, in any order, shows the message once: in
    the outbox with its destination if the address is the source, and in
    the inbox with its source otherwise. *)
Theorem status_after_send `{!ChunkingLaws} (netw : network) (msgData : SendData)
    (funds : Z) (answers : list Attempt) (order : list nat) (a : string) (funds_a : Z) :
  valid_addresses msgData = true → affordable funds (length (chunks_of msgData)) →
  is_ascii (Send.msg msgData) = true →
  0 < length (chunks_of msgData) < 16 →
  forallb is_broadcast answers = true →
  length (omap broadcast_txid answers) = length (chunks_of msgData) →
  length (omap broadcast_err answers) ≤ MAX_SEND_RETRY →
  order ≡ₚ List.seq 0 (length (chunks_of msgData)) →
  ∃ sent,
    sendTMMessage TimerIgnores msgData (BalanceOk funds) answers =
      (sent, Finished (CallbackOk (omap broadcast_txid answers))) ∧
    getTMNodeStatus a netw (BalanceOk funds_a)
      (HistoryOk (history (ledger_of (Send.src msgData) (Send.dst msgData) sent answers)
                    order)) =
      CallbackOk (mkNodeStatus a (balance_text funds_a)
        (if decide (Send.src msgData = a) then []
         else [mkInboxItem (Send.msg msgData) (Send.src msgData)])
        (if decide (Send.src msgData = a)
         then [mkOutboxItem (Send.msg msgData) (Send.dst msgData)] else [])).
Proof.
  intros Hvalid Hfunds Htext Hn Hall Hok Herr Horder.
  destruct (sent_ledger msgData funds answers) as (sent & Hsent & Hledger);
    [done|done|lia|done|done|done|].
  exists sent. split; [done|]. rewrite Hledger. unfold chunks_of in *.
  unfold getTMNodeStatus, getTMMessages.
  rewrite (scan_ledger valid net) by (done || by rewrite Hok).
  rewrite inbox_of_cons, outbox_of_cons. cbn [Reassembly.src data dst]. by case_decide.
Qed.

End after_send.

(** ** Examples *)

Example balance_text_example : balance_text 10000 = "10000(2 messages can be sent)".
Proof. done. Qed.

Lemma getTMNodeStatus_ok_witness :
  getTMNodeStatus (H := example_collab) "mDst" testnet (BalanceOk 10000)
    (HistoryOk (example_history [1; 2; 0])) =
    CallbackOk (mkNodeStatus "mDst" (balance_text 10000)
      (inbox_of "mDst" [mkMsgData "mSrc" "mDst" "hello you" ["tx0"; "tx1"; "tx2"]])
      (outbox_of "mDst" [mkMsgData "mSrc" "mDst" "hello you" ["tx0"; "tx1"; "tx2"]])).
Proof. apply getTMNodeStatus_ok. by vm_compute. Defined.

(** The same history seen from the two ends. *)
Example status_of_receiver :
  getTMNodeStatus (H := example_collab) "mDst" testnet (BalanceOk 10000)
    (HistoryOk (example_history [1; 2; 0])) =
    CallbackOk (mkNodeStatus "mDst" "10000(2 messages can be sent)"
                  [mkInboxItem "hello you" "mSrc"] []).
Proof. by vm_compute. Qed.

Example status_of_sender :
  getTMNodeStatus (H := example_collab) "mSrc" testnet (BalanceOk 500)
    (HistoryOk (example_history [1; 2; 0])) =
    CallbackOk (mkNodeStatus "mSrc" "500(0 messages can be sent)"
                  [] [mkOutboxItem "hello you" "mDst"]).
Proof. by vm_compute. Qed.

Lemma status_after_send_witness :
  ∃ sent,
    sendTMMessage (H := deployment (λ _ _, true) (λ _, testnet)) TimerIgnores example_long
      (BalanceOk 10000) example_answers =
      (sent, Finished (CallbackOk ["t0"; "t1"])) ∧
    getTMNodeStatus (H := deployment (λ _ _, true) (λ _, testnet)) "mDst" testnet
      (BalanceOk 500)
      (HistoryOk (history (ledger_of (Send.src example_long) (Send.dst example_long) sent
                             example_answers) [1; 0])) =
      CallbackOk (mkNodeStatus "mDst" (balance_text 500)
                    [mkInboxItem (Send.msg example_long) "mSrc"] []).
Proof.
  apply (status_after_send (λ _ _, true) (λ _, testnet) (H := deployed_chunking _ _)
           testnet example_long 10000 example_answers [1; 0] "mDst" 500);
    [done|by vm_compute|done|vm_compute; lia|done|done|vm_compute; lia|].
  apply (Permutation_swap 0 1 []).
Defined.
