(* ===== verification/Rounds.v ===== *)
(** * Rounds: one message after another

    The buffer of a conversation is removed when its message is complete
    (src/TxMEx.js, line 243), so the next chunk of the same pair of
    addresses starts a new buffer.  This file is about histories in which
    messages follow one another, between the same or different addresses,
    with transactions that are no frames between them: the scan returns
    the messages all, in their order.  With [EndToEnd] and
    [Status] this gives the round trip of a whole exchange: every message
    sent is read, and shown in the status of both ends. *)

From stdpp Require Import gmap.
From S2P Require Import Prelude.
From S2P Require Import JsString.
From S2P Require Import JsArray.
From S2P Require Import Ledger.
From S2P Require Import Collaborators.
From S2P Require Import Codec.
From S2P Require Import Send.
From S2P Require Import Reassembly.
From S2P Require Import Tolerance.
From S2P Require Import EndToEnd.
From S2P Require Import Status.

(** A stretch of a history: the transactions of one message, which carry
    its chunks in some order, or transactions that are no frames. *)
Inductive Stretch : Type :=
| Round (s d : string) (chunks : list Chunk) (items : list Transaction) (order : list nat)
| Unrelated (items : list Transaction).

Definition stretch_items (x : Stretch) : list Transaction :=
  match x with
  | Round _ _ _ items _ => items
  | Unrelated items => items
  end.

(** The message of a stretch, if it is one. *)
Definition stretch_message (x : Stretch) : option MsgData :=
  match x with
  | Round s d chunks _ _ => Some (message_of s d chunks)
  | Unrelated _ => None
  end.

(** The history of stretches that follow one another. *)
Definition stretches_history (xs : list Stretch) : list Transaction :=
  xs ≫= stretch_items.

Lemma stretches_history_fmap {A : Type} (f : A → Stretch) (xs : list A) :
  stretches_history (f <$> xs) = xs ≫= (stretch_items ∘ f).
Proof.
  unfold stretches_history. induction xs as [|x xs IH]; [done|].
  by rewrite fmap_cons, !bind_cons, IH.
Qed.

(** Filtering the images is filtering the elements. *)
Lemma filter_fmap {A B : Type} (f : A → B) (P : B → Prop) `{!∀ y, Decision (P y)}
    (xs : list A) :
  filter P (f <$> xs) = f <$> filter (P ∘ f) xs.
Proof.
  induction xs as [|x xs IH]; [done|].
  rewrite fmap_cons, !filter_cons, IH. cbn. by case_decide.
Qed.

(** The messages of stretches that are all rounds. *)
Lemma omap_fmap_Some {A B C : Type} (f : B → option C) (g : A → B) (h : A → C)
    (xs : list A) :
  Forall (λ x, f (g x) = Some (h x)) xs → omap f (g <$> xs) = h <$> xs.
Proof. induction 1 as [|x xs Hx _ IH]; [done|]. cbn. by rewrite Hx, IH. Qed.

Lemma stretches_history_omap {A : Type} (f : A → option Stretch) (xs : list A) :
  stretches_history (omap f xs) = xs ≫= λ x, from_option stretch_items [] (f x).
Proof.
  unfold stretches_history. induction xs as [|x xs IH]; [done|].
  cbn [omap list_omap]. destruct (f x) as [y|] eqn:E;
    rewrite !bind_cons, E, IH; done.
Qed.

Section rounds.
Context `{Collab}.
Context (net : network).

(** The loop body leaves every state as it is on [tx]. *)
Definition passed_over (tx : Transaction) : Prop := ∀ st, scan_tx net st tx = Val st.

(** The transactions of a round carry its chunks, each once; the others
    are passed over. *)
Definition stretch_ok (x : Stretch) : Prop :=
  match x with
  | Round s d chunks items order =>
      chunks ≠ [] ∧ (Z.of_nat (length chunks) < 2 ^ 32)%Z ∧
      order ≡ₚ List.seq 0 (length chunks) ∧ carry_chunks s d chunks net items order
  | Unrelated items => Forall passed_over items
  end.

Lemma foldM_passed_over (st : ScanState) (items : list Transaction) :
  Forall passed_over items → foldM (scan_tx net) st items = Val st.
Proof.
  induction 1 as [|tx items Htx _ IH]; [done|]. by rewrite foldM_cons, Htx.
Qed.

(** A stretch scanned from a state without a buffer for its conversation
    appends its message, if it is one, and leaves the buffers as they
    were. *)
Lemma scan_stretch (st : ScanState) (x : Stretch) :
  stretch_ok x → chnkBuf st = ∅ →
  foldM (scan_tx net) st (stretch_items x) =
    Val {| chnkBuf := ∅; msgs := msgs st ++ option_list (stretch_message x) |}.
Proof.
  destruct x as [s d chunks items order|items]; cbn [stretch_items stretch_message].
  - intros (Hne & Hn & Hperm & Hcarry) Hst.
    rewrite (scan_chunks s d chunks net st [] items order);
      [by rewrite Hst|by rewrite Hst, lookup_empty|done|done| |done].
    intros ->. apply Permutation_nil_l in Hperm. by destruct chunks.
  - intros Hitems Hst. rewrite foldM_passed_over by done.
    destruct st; cbn in *. by rewrite Hst, app_nil_r.
Qed.

Lemma scan_stretches_from (st : ScanState) (xs : list Stretch) :
  Forall stretch_ok xs → chnkBuf st = ∅ →
  foldM (scan_tx net) st (stretches_history xs) =
    Val {| chnkBuf := ∅; msgs := msgs st ++ omap stretch_message xs |}.
Proof.
  intros Hxs. revert st. induction Hxs as [|x xs Hx _ IH]; intros st Hst.
  - cbn. rewrite app_nil_r. by destruct st; cbn in *; subst.
  - unfold stretches_history. rewrite bind_cons, foldM_app, scan_stretch by done.
    cbn [mbind res_bind]. rewrite IH by done. cbn [msgs omap list_omap].
    rewrite <- app_assoc. by destruct (stretch_message x).
Qed.

(** Messages that follow one another, with transactions that are no
    frames before, between and after them, are all returned, in their
    order, whatever the order of the chunks inside each and whether or not
    they are between the same addresses. *)
Lemma scan_stretches (xs : list Stretch) :
  Forall stretch_ok xs → scan net (stretches_history xs) = Val (omap stretch_message xs).
Proof.
  intros Hxs. unfold scan. by rewrite (scan_stretches_from scan_init xs Hxs).
Qed.

End rounds.

(** ** An exchange of messages, sent and read *)

(** One call of [sendTMMessage]: its argument, the balance of the source,
    what the broadcasts answer, and the order in which a history lists the
    transactions of the message. *)
Record Sending : Type := mkSending {
  sending_data : SendData;
  sending_funds : Z;
  sending_answers : list Attempt;
  sending_order : list nat;
}.

Section exchange.
Context (valid : string → network → bool) (net : string → network).

#[local] Hint Extern 0 Collab => exact (deployment valid net) : typeclass_instances.

(** What the round trip of one message asks for. *)
Definition sending_ok (x : Sending) : Prop :=
  valid_addresses (sending_data x) = true ∧
  affordable (sending_funds x) (length (chunks_of (sending_data x))) ∧
  is_ascii (Send.msg (sending_data x)) = true ∧
  0 < length (chunks_of (sending_data x)) < 16 ∧
  forallb is_broadcast (sending_answers x) = true ∧
  length (omap broadcast_txid (sending_answers x)) = length (chunks_of (sending_data x)) ∧
  length (omap broadcast_err (sending_answers x)) ≤ MAX_SEND_RETRY ∧
  sending_order x ≡ₚ List.seq 0 (length (chunks_of (sending_data x))).

(** The run of the call, the transactions it leaves on the ledger, the
    history that lists them, and the message as the reader is to return
    it. *)
Definition sending_run (x : Sending) : list string * Status :=
  sendTMMessage TimerIgnores (sending_data x) (BalanceOk (sending_funds x)) (sending_answers x).

Definition sending_history (x : Sending) : list Transaction :=
  history (ledger_of (Send.src (sending_data x)) (Send.dst (sending_data x))
             (sending_run x).1 (sending_answers x)) (sending_order x).

Definition sending_message (x : Sending) : MsgData :=
  mkMsgData (Send.src (sending_data x)) (Send.dst (sending_data x))
    (Send.msg (sending_data x)) (omap broadcast_txid (sending_answers x)).

(** The round that a call makes. *)
Definition sending_round (x : Sending) : Stretch :=
  Round (Send.src (sending_data x)) (Send.dst (sending_data x))
    (records (Send.msg (sending_data x)) (omap broadcast_txid (sending_answers x)))
    (sending_history x) (sending_order x).

Lemma sending_finishes (x : Sending) :
  sending_ok x →
  (sending_run x).2 = Finished (CallbackOk (omap broadcast_txid (sending_answers x))) ∧
  ledger_of (Send.src (sending_data x)) (Send.dst (sending_data x))
    (sending_run x).1 (sending_answers x) =
  ledger (Send.src (sending_data x)) (Send.dst (sending_data x))
    (frames (chunks_of (sending_data x))) (omap broadcast_txid (sending_answers x)).
Proof.
  intros (Hvalid & Hfunds & _ & [Hpos _] & Hall & Hok & Herr & _). unfold sending_run.
  destruct (sent_ledger (sending_data x) (sending_funds x) (sending_answers x))
    as (sent & -> & Hledger); done.
Qed.

Lemma sending_round_ok `{!ChunkingLaws} (netw : network) (x : Sending) :
  sending_ok x → stretch_ok netw (sending_round x) ∧
                 stretch_message (sending_round x) = Some (sending_message x).
Proof.
  intros Hx. destruct (sending_finishes x Hx) as [_ Hledger].
  destruct Hx as (_ & _ & Htext & [Hpos Hn] & _ & Hok & _ & Horder).
  unfold sending_round, sending_history, chunks_of in *.
  cbn [stretch_ok stretch_message]. rewrite Hledger.
  set (ids := omap broadcast_txid (sending_answers x)) in *.
  assert (length (records (Send.msg (sending_data x)) ids) = length ids) as Hrec
    by (unfold records; rewrite length_zip_with; lia).
  rewrite Hrec, Hok. split_and!; [|lia|done| |by rewrite message_of_records].
  - intros E. rewrite E in Hrec. cbn [length] in Hrec. lia.
  - apply history_carries; try (done || lia). rewrite Forall_forall. intros i Hi.
    rewrite Horder in Hi. apply elem_of_seq in Hi. lia.
Qed.

(** Every transaction of an exchange is related: the history that lists
    nothing else is one of the histories below. *)
Lemma related_only_exchange `{!ChunkingLaws} (xs : list Sending) :
  Forall sending_ok xs → related_only (xs ≫= sending_history) = xs ≫= sending_history.
Proof.
  intros Hxs. apply related_only_all, Forall_bind. eapply Forall_impl; [done|].
  intros x [(_ & _ & _ & Hcarry) _]%(sending_round_ok testnet). cbn in Hcarry.
  apply Forall2_Forall_l with (Q := λ tx, unrelated tx = false) in Hcarry; [done|].
  apply Forall_true. intros i tx (c & _ & _ & Hc). by eapply carries_related.
Qed.

(** The loop over an exchange ends without a buffer and with every
    message, in the order of sending, whatever unrelated transactions the
    history lists between those of the exchange. *)
Lemma foldM_exchange `{!ChunkingLaws} (netw : network) (xs : list Sending)
    (items : list Transaction) :
  Forall sending_ok xs → related_only items = xs ≫= sending_history →
  foldM (scan_tx netw) scan_init items =
    Val {| chnkBuf := ∅; msgs := sending_message <$> xs |}.
Proof.
  intros Hxs Hitems. rewrite <- foldM_related_only, Hitems.
  change sending_history with (stretch_items ∘ sending_round).
  rewrite <- stretches_history_fmap, scan_stretches_from; [|..|done].
  - cbn [msgs scan_init app]. do 2 f_equal. apply omap_fmap_Some.
    eapply Forall_impl; [done|]. intros x Hx. by apply sending_round_ok.
  - apply Forall_fmap. eapply Forall_impl; [done|]. intros x Hx. by apply sending_round_ok.
Qed.

(** Reading an exchange: the scan returns every message, in the order of
    sending. *)
Lemma scan_exchange `{!ChunkingLaws} (netw : network) (xs : list Sending)
    (items : list Transaction) :
  Forall sending_ok xs → related_only items = xs ≫= sending_history →
  scan netw items = Val (sending_message <$> xs).
Proof. intros Hxs Hitems. unfold scan. by rewrite (foldM_exchange netw xs). Qed.

(** C21. Round trip of an exchange.  Messages of ASCII text in 1 to 15
    chunks each are sent one after another, between any addresses, under
    the conditions of the round trip of one message.  Then every call
    hands the identifiers of its transactions to its callback, and
    scanning a history that lists the transactions message after message,
    in any order inside each message and with any unrelated transactions
    between them, returns every message that was sent, in the order of
    sending: the buffer of a conversation is removed with the last chunk
    of a message, and the next chunk of the same addresses starts a new
    one. *)
Theorem exchange_round_trip `{!ChunkingLaws} (netw : network) (xs : list Sending)
    (items : list Transaction) :
  Forall sending_ok xs → related_only items = xs ≫= sending_history →
  Forall (λ x, (sending_run x).2 =
               Finished (CallbackOk (omap broadcast_txid (sending_answers x)))) xs ∧
  scan netw items = Val (sending_message <$> xs).
Proof.
  intros Hxs Hitems. split; [|by apply scan_exchange].
  eapply Forall_impl; [done|]. intros x Hx. by apply sending_finishes.
Qed.

(** C22. The status after an exchange.  An address whose history lists the
    transactions of an exchange, message after message and with any
    unrelated transactions between them, sees in its outbox the messages
    it sent, each with its destination, and in its inbox every other
    message, each with its source, both in the order of sending. *)
Theorem status_after_exchange `{!ChunkingLaws} (netw : network) (xs : list Sending)
    (items : list Transaction) (a : string) (funds_a : Z) :
  Forall sending_ok xs → related_only items = xs ≫= sending_history →
  getTMNodeStatus a netw (BalanceOk funds_a) (HistoryOk items) =
    CallbackOk (mkNodeStatus a (balance_text funds_a)
      ((λ x, mkInboxItem (Send.msg (sending_data x)) (Send.src (sending_data x))) <$>
         filter (λ x, Send.src (sending_data x) ≠ a) xs)
      ((λ x, mkOutboxItem (Send.msg (sending_data x)) (Send.dst (sending_data x))) <$>
         filter (λ x, Send.src (sending_data x) = a) xs)).
Proof.
  intros Hxs Hitems. unfold getTMNodeStatus, getTMMessages.
  rewrite (scan_exchange netw xs) by done.
  unfold inbox_of, outbox_of. by rewrite !filter_fmap, <- !list_fmap_compose.
Qed.

End exchange.

(** ** Examples *)

(** A message of two chunks from "mSrc" to "mDst" whose second chunk is
    broadcast twice, an answer from "mDst", and a second message from
    "mSrc" to "mDst". *)
Definition example_exchange : list Sending :=
  [mkSending example_long 10000 example_answers [1; 0];
   mkSending {| Send.src := "mDst"; Send.dst := "mSrc"; Send.msg := "got it"; pk := "key2" |}
     4000 [BroadcastOk "r0"] [0];
   mkSending {| Send.src := "mSrc"; Send.dst := "mDst"; Send.msg := "again"; pk := "key" |}
     6000 [BroadcastErr "busy" "0100"; BroadcastOk "t2"] [0]].

Lemma example_exchange_ok :
  Forall (sending_ok (λ _ _, true) (λ _, testnet)) example_exchange.
Proof.
  repeat (apply Forall_cons_2;
    [unfold sending_ok; split_and!; try (done || (vm_compute; lia) || by vm_compute)|]);
    [apply (Permutation_swap 0 1 [])|constructor].
Qed.

(** The history of the example: a payment in front of every transaction
    of the exchange, and one at the end. *)
Definition example_exchange_history : list Transaction :=
  ((example_exchange ≫= sending_history (λ _ _, true) (λ _, testnet)) ≫=
     λ tx, [example_payment; tx]) ++ [example_payment].

Lemma example_exchange_related :
  related_only (H := deployment (λ _ _, true) (λ _, testnet)) example_exchange_history =
    example_exchange ≫= sending_history (λ _ _, true) (λ _, testnet).
Proof. by vm_compute. Qed.

Lemma exchange_round_trip_witness :
  Forall (λ x, (sending_run (λ _ _, true) (λ _, testnet) x).2 =
               Finished (CallbackOk (omap broadcast_txid (sending_answers x))))
    example_exchange ∧
  scan (H := deployment (λ _ _, true) (λ _, testnet)) testnet example_exchange_history =
    Val (sending_message <$> example_exchange).
Proof.
  apply (exchange_round_trip (λ _ _, true) (λ _, testnet) (H := deployed_chunking _ _));
    [apply example_exchange_ok|apply example_exchange_related].
Defined.

Lemma status_after_exchange_witness :
  getTMNodeStatus (H := deployment (λ _ _, true) (λ _, testnet)) "mSrc" testnet
    (BalanceOk 2454) (HistoryOk example_exchange_history) =
    CallbackOk (mkNodeStatus "mSrc" (balance_text 2454)
      ((λ x, mkInboxItem (Send.msg (sending_data x)) (Send.src (sending_data x))) <$>
         filter (λ x, Send.src (sending_data x) ≠ "mSrc") example_exchange)
      ((λ x, mkOutboxItem (Send.msg (sending_data x)) (Send.dst (sending_data x))) <$>
         filter (λ x, Send.src (sending_data x) = "mSrc") example_exchange)).
Proof.
  apply (status_after_exchange (λ _ _, true) (λ _, testnet) (H := deployed_chunking _ _));
    [apply example_exchange_ok|apply example_exchange_related].
Defined.

(** What the sender of the example sees. *)
Example status_of_example_exchange :
  getTMNodeStatus (H := deployment (λ _ _, true) (λ _, testnet)) "mSrc" testnet
    (BalanceOk 2454) (HistoryOk example_exchange_history) =
    CallbackOk (mkNodeStatus "mSrc" "2454(0 messages can be sent)"
      [mkInboxItem "got it" "mDst"]
      [mkOutboxItem (Send.msg example_long) "mDst"; mkOutboxItem "again" "mDst"]).
Proof. by vm_compute. Qed.
