(* ===== verification/Resend.v ===== *)
(** * Resend: a job that gives up and the message sent again

    A job of [sendTMMessage] that runs out of retries calls back with the
    error of the broadcast (src/TxMEx.js, line 145); the transactions of
    the chunks it had sent stay on the ledger.  There is no way to resume:
    the caller sends the whole message again, and the history of the two
    addresses then lists the chunks of the failed call and, after them,
    every chunk a second time.  This file follows the two calls through
    [Send], the ledger and [Reassembly]: the reader returns the message
    once, with the identifiers of the second call. *)

From stdpp Require Import gmap.
From S2P Require Import Prelude.
From S2P Require Import JsString.
From S2P Require Import JsArray.
From S2P Require Import Ledger.
From S2P Require Import Collaborators.
From S2P Require Import Codec.
From S2P Require Import Reassembly.
From S2P Require Import Tolerance.
From S2P Require Import LastWrite.
From S2P Require Import Send.
From S2P Require Import EndToEnd.
From S2P Require Import Rounds.

(** ** The job that gives up *)

Section giving_up.
Implicit Types (cs acc : list string) (answers : list Attempt) (k t : nat).

(** While chunks are left and the retries last, the job is under way: it
    has handed one text to the broadcast in every attempt, and the
    broadcasts that succeeded are those of the next frames, in order. *)
Lemma run_pending_accepted cs k t acc answers :
  forallb is_broadcast answers = true →
  k + length (omap broadcast_txid answers) < length cs →
  t + length (omap broadcast_err answers) ≤ MAX_SEND_RETRY →
  ∃ sent,
    run TimerIgnores (mkSendJob cs k t acc) answers =
      (sent, Pending (mkSendJob cs (k + length (omap broadcast_txid answers))
                        (t + length (omap broadcast_err answers))
                        (acc ++ omap broadcast_txid answers))) ∧
    length sent = length answers ∧
    accepted sent answers = zip (drop k (frames cs)) (omap broadcast_txid answers).
Proof.
  revert k t acc. induction answers as [|a answers IH]; intros k t acc Hall Hk Ht.
  { exists []. cbn. by rewrite !Nat.add_0_r, app_nil_r, zip_with_nil_r. }
  apply andb_prop in Hall as [Ha Hall].
  destruct a; try done; csimpl in Hk; csimpl in Ht.
  - destruct (IH k (S t) acc) as (sent & Hrun & Hlen & Hacc); [done|lia..|].
    exists (payload (mkSendJob cs k t acc) :: sent).
    erewrite run_cons_pending; [|by cbn; rewrite bool_decide_eq_true_2 by lia].
    rewrite Hrun. csimpl. rewrite Hlen, <- Nat.add_succ_comm. by unfold accepted in *.
  - destruct (IH (S k) t (acc ++ [txid])) as (sent & Hrun & Hlen & Hacc); [done|lia..|].
    exists (payload (mkSendJob cs k t acc) :: sent).
    erewrite run_cons_pending; [|by cbn; rewrite bool_decide_eq_false_2 by lia].
    rewrite Hrun. csimpl. rewrite Hlen, <- Nat.add_succ_comm, <- (assoc_L (++)).
    split_and!; [done..|].
    rewrite (drop_frames_payload cs k t acc) by lia. unfold accepted in *. csimpl.
    by rewrite Hacc.
Qed.

(** With [MAX_SEND_RETRY] failed broadcasts behind it and chunks left, the
    job ends at the next failed broadcast; the transactions it leaves are
    those of its first frames. *)
Lemma run_gives_up cs answers (err txtext : string) :
  forallb is_broadcast answers = true →
  length (omap broadcast_txid answers) < length cs →
  length (omap broadcast_err answers) = MAX_SEND_RETRY →
  ∃ sent,
    run TimerIgnores (new_job cs) (answers ++ [BroadcastErr err txtext]) =
      (sent, Finished (CallbackErr (ErrText ("[insight.broadcast]: " +:+ err +:+ txtext)))) ∧
    accepted sent (answers ++ [BroadcastErr err txtext]) =
      zip (frames cs) (omap broadcast_txid answers).
Proof.
  intros Hall Hok Herr.
  destruct (run_pending_accepted cs 0 0 [] answers) as (sent & Hrun & Hlen & Hacc);
    [done|lia..|].
  eexists. rewrite (run_app_pending _ _ _ _ _ _ Hrun). cbn [run sendMsgTransaction tries].
  rewrite bool_decide_eq_false_2 by lia. cbn [fst snd]. split; [done|].
  unfold accepted in *. rewrite zip_with_app by done. rewrite omap_app, Hacc. cbn.
  by rewrite app_nil_r, drop_0.
Qed.

End giving_up.

(** ** The two calls and the history *)

Section resend.
Context (valid : string → network → bool) (net : string → network).

#[local] Hint Extern 0 Collab => exact (deployment valid net) : typeclass_instances.

Section ledger_writes.
Context `{!ChunkingLaws}.
Context (netw : network) (s d text : string).

Local Abbreviation cs := (chunkMessage text MAX_PAYLOAD_SIZE).

(** The transactions of a call, of all its chunks or of the first of
    them, carry the writes of its chunks. *)
Lemma ledger_carries_writes (ids : list string) (order : list nat) :
  is_ascii text = true → length cs < 16 → length ids ≤ length cs →
  Forall (λ i, i < length ids) order →
  carry_writes s d (length cs) netw (history (ledger s d (frames cs) ids) order)
    (writes_at (records text ids) order).
Proof.
  intros Htext Hn Hids. unfold carry_writes, history, writes_at.
  induction 1 as [|i order Hi _ IH]; [constructor|]. cbn [omap list_omap].
  destruct (lookup_lt_is_Some_2 ids i Hi) as [id Hid].
  destruct (lookup_lt_is_Some_2 cs i) as [c Hc]; [lia|].
  rewrite (lookup_ledger s d text ids i c id Hc Hid).
  unfold records at 1. rewrite lookup_zip_with, Hc, Hid. cbn [fmap option_fmap option_map mbind option_bind].
  constructor; [|done]. cbn [fst snd]. split_and!; [lia|done|].
  apply (built_carries valid net netw s d c id); [done|lia|..].
  - by eapply (chunk_is_ascii text), list_elem_of_lookup_2.
  - by eapply (chunk_fits text), list_elem_of_lookup_2.
Qed.

End ledger_writes.

(** The first call: the message and the addresses of [x], its own balance
    and answers, and one more failed broadcast. *)
Definition failed_run (x : Sending) (funds : Z) (answers : list Attempt)
    (err txtext : string) : list string * Status :=
  sendTMMessage TimerIgnores (sending_data x) (BalanceOk funds)
    (answers ++ [BroadcastErr err txtext]).

(** The transactions it leaves, as a history lists them. *)
Definition failed_history (x : Sending) (funds : Z) (answers : list Attempt)
    (err txtext : string) (order : list nat) : list Transaction :=
  history (ledger_of (Send.src (sending_data x)) (Send.dst (sending_data x))
             (failed_run x funds answers err txtext).1
             (answers ++ [BroadcastErr err txtext])) order.

(** The failed call ends with the error of the broadcast, and leaves the
    transactions of its first frames. *)
Lemma failed_ledger (x : Sending) (funds : Z) (answers : list Attempt)
    (err txtext : string) :
  valid_addresses (sending_data x) = true →
  affordable funds (length (chunks_of (sending_data x))) →
  forallb is_broadcast answers = true →
  length (omap broadcast_txid answers) < length (chunks_of (sending_data x)) →
  length (omap broadcast_err answers) = MAX_SEND_RETRY →
  (failed_run x funds answers err txtext).2 =
    Finished (CallbackErr (ErrText ("[insight.broadcast]: " +:+ err +:+ txtext))) ∧
  ledger_of (Send.src (sending_data x)) (Send.dst (sending_data x))
    (failed_run x funds answers err txtext).1 (answers ++ [BroadcastErr err txtext]) =
  ledger (Send.src (sending_data x)) (Send.dst (sending_data x))
    (frames (chunks_of (sending_data x))) (omap broadcast_txid answers).
Proof.
  intros Hvalid Hfunds Hall Hok Herr. unfold failed_run.
  rewrite sendTMMessage_run by done.
  destruct (run_gives_up _ answers err txtext Hall Hok Herr) as (sent & -> & Hacc).
  cbn [fst snd]. split; [done|]. unfold ledger_of. by rewrite Hacc.
Qed.

(** C23. A message sent again after a failed call.  A call sends some of
    the chunks of a message, fewer than all, and gives up at the failed
    broadcast that follows [MAX_SEND_RETRY] others; a second call with the
    same message and addresses sends every chunk.  A history lists
    transactions of the first call, in any order, then those of the second
    in an order whose last is a chunk the first call had not sent, with
    any unrelated transactions between them.  Then the first call has
    called back with the error of the broadcast, the second with its
    identifiers; the scan of the transactions of the first call alone
    returns no message, and the scan of the history returns the message
    once, with the identifiers of the second call. *)
Theorem resend_after_failure `{!ChunkingLaws} (netw : network) (x : Sending)
    (funds : Z) (answers : list Attempt) (err txtext : string)
    (order : list nat) (j : nat) (items : list Transaction) :
  sending_ok valid net x →
  affordable funds (length (chunks_of (sending_data x))) →
  forallb is_broadcast answers = true →
  length (omap broadcast_txid answers) < length (chunks_of (sending_data x)) →
  length (omap broadcast_err answers) = MAX_SEND_RETRY →
  Forall (λ i, i < length (omap broadcast_txid answers)) order →
  last (sending_order x) = Some j → length (omap broadcast_txid answers) ≤ j →
  related_only items =
    failed_history x funds answers err txtext order ++ sending_history valid net x →
  (failed_run x funds answers err txtext).2 =
    Finished (CallbackErr (ErrText ("[insight.broadcast]: " +:+ err +:+ txtext))) ∧
  (sending_run valid net x).2 =
    Finished (CallbackOk (omap broadcast_txid (sending_answers x))) ∧
  scan netw (failed_history x funds answers err txtext order) = Val [] ∧
  scan netw items = Val [sending_message x].
Proof.
  intros Hx Hfunds Hall Hok Herr Horder Hlast Hj Hitems.
  destruct (sending_finishes valid net x Hx) as [Hrun2 Hledger2].
  destruct Hx as (Hvalid & _ & Htext & [Hpos Hn] & _ & Hok2 & _ & Hperm).
  destruct (failed_ledger x funds answers err txtext) as [Hrun1 Hledger1]; [done..|].
  apply last_Some in Hlast as [order2 Hlast].
  unfold failed_history, sending_history, sending_message, chunks_of in *.
  rewrite <- (scan_related_only _ items), Hitems, Hledger1, Hledger2, Hlast in *.
  split_and!; [done..| |].
  { eapply (scan_missing _ _ (length (chunkMessage (Send.msg (sending_data x))
      MAX_PAYLOAD_SIZE)) netw _ _ j);
      [lia| |by eapply written_writes_at_above
      |apply ledger_carries_writes; try (done || lia)].
    assert (j ∈ order2 ++ [j]) as Hin by set_solver.
    rewrite Hperm in Hin. apply elem_of_seq in Hin. lia. }
  rewrite <- (message_of_records _ _ _ _ Hok2).
  eapply (scan_rewritten _ _ _ netw _ _ _ order2 j); [| |done| |].
  - unfold records. rewrite length_zip_with. lia.
  - lia.
  - by eapply written_writes_at_above.
  - apply Forall2_app; apply ledger_carries_writes; try (done || lia).
    rewrite Forall_forall. intros i Hi. rewrite Hperm in Hi. apply elem_of_seq in Hi. lia.
Qed.

End resend.

(** ** Example *)

(** The message of two chunks is sent again: the second call broadcasts
    both chunks, the second of them at the second attempt. *)
Definition example_again : Sending := mkSending example_long 10000 example_answers [0; 1].

(** The first call had sent the first chunk and then met three failed
    broadcasts; the fourth ends it. *)
Definition example_first_answers : list Attempt :=
  [BroadcastOk "f0"; example_err; example_err; example_err].

(** The history: the transaction of the first call, those of the second,
    and a payment in front of each. *)
Definition example_resent_history : list Transaction :=
  (failed_history (λ _ _, true) (λ _, testnet) example_again 8000 example_first_answers
     "busy" "0100" [0] ++
   sending_history (λ _ _, true) (λ _, testnet) example_again) ≫=
    λ tx, [example_payment; tx].

Lemma resend_after_failure_witness :
  (failed_run (λ _ _, true) (λ _, testnet) example_again 8000 example_first_answers
     "busy" "0100").2 =
    Finished (CallbackErr (ErrText ("[insight.broadcast]: " +:+ "busy" +:+ "0100"))) ∧
  (sending_run (λ _ _, true) (λ _, testnet) example_again).2 =
    Finished (CallbackOk (omap broadcast_txid (sending_answers example_again))) ∧
  scan (H := deployment (λ _ _, true) (λ _, testnet)) testnet
    (failed_history (λ _ _, true) (λ _, testnet) example_again 8000 example_first_answers
       "busy" "0100" [0]) = Val [] ∧
  scan (H := deployment (λ _ _, true) (λ _, testnet)) testnet example_resent_history =
    Val [sending_message example_again].
Proof.
  apply (resend_after_failure (λ _ _, true) (λ _, testnet) (H := deployed_chunking _ _)
           testnet example_again 8000 example_first_answers "busy" "0100" [0] 1);
    try (done || (vm_compute; lia) || by vm_compute).
  - unfold sending_ok. split_and!; try (done || (vm_compute; lia) || by vm_compute).
  - by repeat constructor.
Defined.

(** What the reader returns for it. *)
Example scan_example_resent :
  scan (H := deployment (λ _ _, true) (λ _, testnet)) testnet example_resent_history =
    Val [mkMsgData "mSrc" "mDst" (Send.msg example_long) ["t0"; "t1"]].
Proof. by vm_compute. Qed.
