(* ===== verification/Malformed.v ===== *)
(** * Malformed: one frame that stops the reader

    The loop of [getTMMessages] (src/TxMEx.js, lines 202 to 247) makes the
    buffer of a conversation with [new Array(txMsg.len)] (line 211), and
    [txMsg.len] is [parseInt] of one character of the decoded text (line
    76).  A text that starts with the tag and goes on with a character
    that is no hexadecimal digit decodes to a count that is no number, and
    [new Array] throws.  This file follows such a transaction through the
    reader and the status, under the collaborators of the deployment:
    whoever puts it into the history of an address stops every later scan
    of that history.  The file ends with the other field the loop does
    not check: a sequence number that is not below the count (line 214). *)

From stdpp Require Import gmap.
From S2P Require Import Prelude.
From S2P Require Import JsString.
From S2P Require Import JsArray.
From S2P Require Import Ledger.
From S2P Require Import Collaborators.
From S2P Require Import Codec.
From S2P Require Import Send.
From S2P Require Import Reassembly.
From S2P Require Import Tolerance.
From S2P Require Import EndToEnd.
From S2P Require Import Status.
From S2P Require Import Rounds.

(** The tag, a character in the place of the count, and any text. *)
Definition malformed_text (c : ascii) (rest : string) : string :=
  TX_PREFIX +:+ String c rest.

Section malformed.
Context (valid : string → network → bool) (net : string → network).

#[local] Hint Extern 0 Collab => exact (deployment valid net) : typeclass_instances.

(** The transaction built for such a text is recognised, and the count of
    its frame is no number. *)
Lemma malformed_carries (netw : network) (s d txid : string) (c : ascii) (rest : string) :
  hex_value c = None → is_ascii (String c rest) = true → String.length rest ≤ 77 →
  ∃ m, carries netw (builtTransaction s d (malformed_text c rest) txid [] []) s d m ∧
       len m = NaN.
Proof.
  intros Hc Hascii Hlen.
  assert (second_output_data (builtTransaction s d (malformed_text c rest) txid [] []) =
            Some (String "000" (malformed_text c rest))) as Hdata.
  { apply second_output_data_built; [done|exact Hascii|change (3 + String.length rest ≤ 80); lia]. }
  exists (decode_data (String "000" (malformed_text c rest))). split.
  - split_and!; [done..|]. apply extractTMMessage_Some. cbn [unwrap_tx].
    rewrite isTMTransaction_true_iff, Hdata. split; [by split_and!|by eexists].
  - cbn. by apply parseInt16_char_NaN.
Qed.

(** The loop body throws on it when its conversation has no buffer. *)
Lemma scan_tx_malformed (netw : network) (st : ScanState) (s d txid : string)
    (c : ascii) (rest : string) :
  hex_value c = None → is_ascii (String c rest) = true → String.length rest ≤ 77 →
  chnkBuf st !! (s +:+ d) = None →
  scan_tx netw st (builtTransaction s d (malformed_text c rest) txid [] []) =
    Throw RangeError.
Proof.
  intros Hc Hascii Hlen Hnone.
  destruct (malformed_carries netw s d txid c rest) as (m & Hm & Hnan); [done..|].
  rewrite (scan_tx_carries _ _ _ _ _ _ Hm). by apply ingest_NaN_fresh.
Qed.

(** The reader stops at it: after any exchange of messages, with any
    unrelated transactions between them, the exception of line 211 leaves
    [getTMMessages], whatever follows in the history. *)
Lemma malformed_stops_scan `{!ChunkingLaws} (netw : network) (xs : list Sending)
    (pre post : list Transaction) (s d txid : string) (c : ascii) (rest : string)
    (a : string) :
  Forall (sending_ok valid net) xs → related_only pre = xs ≫= sending_history valid net →
  hex_value c = None → is_ascii (String c rest) = true → String.length rest ≤ 77 →
  getTMMessages a netw
    (HistoryOk (pre ++ builtTransaction s d (malformed_text c rest) txid [] [] :: post)) =
    Uncaught RangeError.
Proof.
  intros Hxs Hpre Hc Hascii Hlen. unfold getTMMessages, scan.
  rewrite (foldM_throw _ _ _ _ RangeError _ _ (foldM_exchange valid net netw xs pre Hxs Hpre));
    [done|].
  by apply scan_tx_malformed.
Qed.

(** C20. One frame stops the status.  After any exchange of messages, a
    transaction between any two addresses whose text is the tag followed
    by a character that is no hexadecimal digit makes [getTMNodeStatus]
    throw a RangeError on every history that lists it after the exchange,
    whatever follows it and whatever the balance: the callback is not
    called, and no message of the history is shown. *)
Theorem malformed_stops_status `{!ChunkingLaws} (netw : network) (xs : list Sending)
    (pre post : list Transaction) (s d txid : string) (c : ascii) (rest : string)
    (a : string) (funds_a : Z) :
  Forall (sending_ok valid net) xs → related_only pre = xs ≫= sending_history valid net →
  hex_value c = None → is_ascii (String c rest) = true → String.length rest ≤ 77 →
  getTMNodeStatus a netw (BalanceOk funds_a)
    (HistoryOk (pre ++ builtTransaction s d (malformed_text c rest) txid [] [] :: post)) =
    Uncaught RangeError.
Proof.
  intros Hxs Hpre Hc Hascii Hlen. unfold getTMNodeStatus.
  by rewrite (malformed_stops_scan netw xs).
Qed.

(** ** A sequence number that is not below the count *)

(** The loop stores a chunk at the slot its frame names (line 214)
    without comparing it to the count: a frame of a conversation without
    a buffer whose sequence number is not below its count lengthens the
    array, and the conversation stays incomplete, with nothing in the
    slots the count covers. *)
Lemma ingest_beyond_count (st : ScanState) (s d : string) (i n : nat) (p txid : string) :
  chnkBuf st !! (s +:+ d) = None → 0 < n ≤ i → (Z.of_nat n < 2 ^ 32)%Z →
  ingest st s d (mkTMMessage (Num (Z.of_nat i)) (Num (Z.of_nat n)) p) txid =
    Val {| chnkBuf := <[s +:+ d := replicate i None ++ [Some (mkChunk p txid)]]> (chnkBuf st);
           msgs := msgs st |}.
Proof.
  intros Hnone [Hpos Hle] Hn. rewrite ingest_unfold. unfold buffer_for.
  rewrite Hnone. cbn [len]. rewrite new_Array_small by done.
  cbn [mbind res_bind Codec.seq Codec.msg].
  rewrite array_set_nat. unfold array_set_at.
  rewrite decide_False by (rewrite length_replicate; lia).
  rewrite length_replicate, (assoc_L (++)), <- replicate_add.
  replace (n + (i - n)) with i by lia.
  destruct (complete _ _) eqn:E; [|done].
  apply complete_filled in E. destruct (E 0) as [c Hc].
  - unfold loop_count. rewrite Nat2Z.id. lia.
  - unfold array_get in Hc. destruct i; [lia|]. done.
Qed.

End malformed.

(** ** Example *)

Lemma malformed_stops_status_witness :
  getTMNodeStatus (H := deployment (λ _ _, true) (λ _, testnet)) "mDst" testnet
    (BalanceOk 10000)
    (HistoryOk (example_exchange_history ++
                builtTransaction "mEve" "mDst" (malformed_text "z" "zz") "e0" [] [] ::
                [builtTransaction "mSrc" "mDst" (frame 1 0 "later") "t9" [] []])) =
    Uncaught RangeError.
Proof.
  apply (malformed_stops_status (λ _ _, true) (λ _, testnet) (H := deployed_chunking _ _)
           testnet example_exchange);
    [apply example_exchange_ok|apply example_exchange_related|done|done|cbn; lia].
Defined.

(** The same on a history that holds nothing else. *)
Example malformed_alone :
  getTMMessages (H := deployment (λ _ _, true) (λ _, testnet)) "mDst" testnet
    (HistoryOk [builtTransaction "mEve" "mDst" "TMzz" "e0" [] []]) = Uncaught RangeError.
Proof. by vm_compute. Qed.

(** A frame with the sequence number 1 and the count 1 waits in the
    buffer of its conversation: the first chunk of the next message of two
    chunks completes it, and the reader returns that chunk followed by the
    text of the stray frame. *)
Example stray_frame_joins_next :
  getTMMessages (H := deployment (λ _ _, true) (λ _, testnet)) "mDst" testnet
    (HistoryOk [builtTransaction "mSrc" "mDst" (frame 1 1 "X") "e0" [] [];
                builtTransaction "mSrc" "mDst" (frame 2 0 "hello ") "t0" [] [];
                builtTransaction "mSrc" "mDst" (frame 2 1 "you") "t1" [] []]) =
    CallbackOk [mkMsgData "mSrc" "mDst" "hello X" ["t0"; "e0"]].
Proof. by vm_compute. Qed.
