(* ===== verification/Capacity.v ===== *)
(** * Capacity: the sixteenth chunk

    [sendTMMessage] (src/TxMEx.js, lines 101 to 116) cuts a message into
    chunks of [MAX_PAYLOAD_SIZE] characters and writes the number of chunks
    with [toString(16)], without a bound: from 16 chunks on the header has
    five characters and more, and the frame of a full chunk is longer than
    the 80 bytes a data output holds.  This file follows a message of
    exactly 16 chunks through the sender, the ledger and the reader, under
    the collaborators of the deployment: it is sent as any other, the
    reader passes over the transaction of every chunk of 76 characters,
    and takes every shorter chunk for a message of its own. *)

From stdpp Require Import gmap pretty.
From S2P Require Import Prelude.
From S2P Require Import JsString.
From S2P Require Import JsArray.
From S2P Require Import Ledger.
From S2P Require Import Collaborators.
From S2P Require Import Codec.
From S2P Require Import Send.
From S2P Require Import Reassembly.
From S2P Require Import EndToEnd.
From S2P Require Import Status.
From S2P Require Import Rounds.

(** ** Full chunks *)

(** Every chunk but the last has [size] characters. *)
Lemma chunk_go_full (fuel size : nat) (s c : string) (i : nat) :
  chunk_go fuel size s !! i = Some c → S i < length (chunk_go fuel size s) →
  String.length c = size.
Proof.
  revert s i. induction fuel as [|fuel IH]; intros s i; [done|].
  destruct s as [|a s]; [done|]. cbn [chunk_go]. destruct i as [|i]; cbn [lookup length].
  - intros [= <-] Hmore. rewrite length_take_str.
    destruct (decide (size ≤ String.length (String a s))); [lia|].
    rewrite drop_str_ge in Hmore by lia. destruct fuel; cbn in Hmore; lia.
  - intros Hc Hmore. apply (IH (drop_str size (String a s)) i); [done|lia].
Qed.

Lemma chunk_by_size_full (s c : string) (size i : nat) :
  chunk_by_size s size !! i = Some c → S i < length (chunk_by_size s size) →
  String.length c = size.
Proof. apply chunk_go_full. Qed.

(** ** One transaction of sixteen *)

Section capacity.
Context (valid : string → network → bool) (net : string → network).

#[local] Hint Extern 0 Collab => exact (deployment valid net) : typeclass_instances.

Lemma frame_sixteen (i : nat) (c : string) :
  i < 16 → frame 16 i c = "TM10" +:+ String (hex_digit i) c.
Proof. intros Hi. unfold frame, frame_prefix. by rewrite (toString16_small i). Qed.

Lemma length_frame_sixteen (i : nat) (c : string) :
  i < 16 → String.length (frame 16 i c) = 5 + String.length c.
Proof. intros Hi. by rewrite frame_sixteen, length_append. Qed.

Lemma is_ascii_frame_sixteen (i : nat) (c : string) :
  i < 16 → is_ascii c = true → is_ascii (frame 16 i c) = true.
Proof.
  intros Hi Hc. unfold frame, frame_prefix.
  by rewrite !is_ascii_append, (is_ascii_toString16 i), Hc.
Qed.

(** The decoded text of the data output of a chunk of at most 75
    characters. *)
Lemma second_output_data_sixteen (s d c txid : string) (i : nat) :
  i < 16 → is_ascii c = true → String.length c ≤ 75 →
  second_output_data (builtTransaction s d (frame 16 i c) txid [] []) =
    Some (String "000" ("TM10" +:+ String (hex_digit i) c)).
Proof.
  intros Hi Hc Hlen. rewrite <- frame_sixteen by done.
  apply second_output_data_built.
  - by rewrite frame_sixteen.
  - by apply is_ascii_frame_sixteen.
  - rewrite length_frame_sixteen by done. lia.
Qed.

(** The transaction of a chunk of at most 75 characters carries a message
    of one chunk: the digit of its sequence number and the chunk. *)
Lemma built_sixteen_carries (netw : network) (s d c txid : string) (i : nat) :
  i < 16 → is_ascii c = true → String.length c ≤ 75 →
  carries netw (builtTransaction s d (frame 16 i c) txid [] []) s d
    (mkTMMessage (Num 0) (Num 1) (String (hex_digit i) c)).
Proof.
  intros Hi Hc Hlen. split_and!; [done..|].
  apply extractTMMessage_Some. cbn [unwrap_tx].
  rewrite isTMTransaction_true_iff, second_output_data_sixteen by done.
  split; [by split_and!|by eexists].
Qed.

(** The transaction of a chunk of 76 characters and more is passed over:
    its second output is no data output. *)
Lemma built_sixteen_passed (netw : network) (s d c txid : string) (i : nat) :
  i < 16 → is_ascii c = true → 75 < String.length c →
  passed_over netw (builtTransaction s d (frame 16 i c) txid [] []).
Proof.
  intros Hi Hc Hlen st. apply scan_tx_not_frame; [done..|].
  rewrite extractTMMessage_cases, isTMTransaction_cases. cbn.
  rewrite bool_decide_eq_false_2; [done|].
  rewrite utf8_encode_ascii, length_frame_sixteen by auto using is_ascii_frame_sixteen.
  lia.
Qed.

(** ** The sixteen transactions *)

(** What the reader makes of the chunk [c] with the sequence number [i],
    broadcast under [id]: nothing when [c] has 76 characters, and otherwise
    a message of its own. *)
Definition read_of_sixteen (s d : string) (i : nat) (c id : string) : option MsgData :=
  if decide (String.length c ≤ 75)
  then Some (mkMsgData s d (String (hex_digit i) c) [id]) else None.

Section sixteen_chunks.
Context `{!ChunkingLaws}.
Context (netw : network) (s d text : string) (ids : list string).

Local Abbreviation cs := (chunkMessage text MAX_PAYLOAD_SIZE).

(** The stretch of the history that the transaction of one chunk makes. *)
Definition sixteen_stretch (i : nat) (c id : string) : Stretch :=
  let tx := builtTransaction s d (frame 16 i c) id [] [] in
  if decide (String.length c ≤ 75)
  then Round s d [mkChunk (String (hex_digit i) c) id] [tx] [0]
  else Unrelated [tx].

Definition sixteen_stretch_at (i : nat) : option Stretch :=
  c ← cs !! i; id ← ids !! i; Some (sixteen_stretch i c id).

Lemma sixteen_stretch_ok (i : nat) (c id : string) :
  i < 16 → is_ascii c = true →
  stretch_ok netw (sixteen_stretch i c id) ∧
  stretch_items (sixteen_stretch i c id) = [builtTransaction s d (frame 16 i c) id [] []] ∧
  stretch_message (sixteen_stretch i c id) = read_of_sixteen s d i c id.
Proof.
  intros Hi Hc. unfold sixteen_stretch, read_of_sixteen. cbv zeta.
  case_decide; cbn [stretch_ok stretch_items stretch_message];
    (split; [|split; [done|]]).
  - split_and!; [done..|]. repeat constructor.
    eexists. split_and!; [done..|]. by apply built_sixteen_carries.
  - unfold message_of. cbn [fmap list_fmap foldr chunk_msg chunk_txid].
    by rewrite append_nil_r.
  - repeat constructor. apply built_sixteen_passed; [done..|lia].
  - done.
Qed.

Lemma lookup_ledger_frames (i : nat) :
  ledger s d (frames cs) ids !! i =
    c ← cs !! i; id ← ids !! i;
    Some (builtTransaction s d (frame (length cs) i c) id [] []).
Proof.
  unfold ledger. rewrite list_lookup_fmap, lookup_zip_with, lookup_frames.
  by destruct (cs !! i), (ids !! i).
Qed.

(** The history is one stretch per transaction. *)
Lemma sixteen_stretches (order : list nat) :
  is_ascii text = true → length cs = 16 →
  Forall (stretch_ok netw) (omap sixteen_stretch_at order) ∧
  stretches_history (omap sixteen_stretch_at order) =
    history (ledger s d (frames cs) ids) order ∧
  omap stretch_message (omap sixteen_stretch_at order) =
    omap (λ i, c ← cs !! i; id ← ids !! i; read_of_sixteen s d i c id) order.
Proof.
  intros Htext Hn. unfold history, stretches_history.
  induction order as [|i order (IHok & IHitems & IHmsgs)]; [by split_and!|].
  cbn [omap list_omap]. rewrite lookup_ledger_frames.
  assert (sixteen_stretch_at i = c ← cs !! i; id ← ids !! i; Some (sixteen_stretch i c id))
    as -> by done.
  destruct (cs !! i) as [c|] eqn:Hc; cbn [mbind option_bind]; [|done].
  destruct (ids !! i) as [id|]; cbn [mbind option_bind]; [|done].
  destruct (sixteen_stretch_ok i c id) as (Hok & Hitems & Hmsg).
  { apply lookup_lt_Some in Hc. lia. }
  { by eapply (chunk_is_ascii text), list_elem_of_lookup_2. }
  cbn [omap list_omap]. rewrite bind_cons, Hitems, Hmsg, IHitems, IHmsgs, Hn.
  split_and!; [by constructor|done|by destruct (read_of_sixteen s d i c id)].
Qed.

(** Reading the ledger of a message of 16 chunks. *)
Lemma scan_sixteen (order : list nat) :
  is_ascii text = true → length cs = 16 →
  scan netw (history (ledger s d (frames cs) ids) order) =
    Val (omap (λ i, c ← cs !! i; id ← ids !! i; read_of_sixteen s d i c id) order).
Proof.
  intros Htext Hn. destruct (sixteen_stretches order Htext Hn) as (Hok & <- & <-).
  by apply scan_stretches.
Qed.

End sixteen_chunks.

(** C14. No capacity check.  A message of ASCII text that makes exactly 16
    chunks is sent like any other: every chunk is broadcast and the
    callback receives the 16 identifiers.  Every chunk but the last has
    76 characters, and the reader passes over its transaction, which is
    no data output; the last chunk, when it has at most 75 characters, is
    returned as a message of its own whose text starts with the digit of
    its sequence number.  The message that was sent is not returned. *)
Theorem send_then_scan_sixteen (netw : network) (msgData : SendData)
    (funds : Z) (answers : list Attempt) (order : list nat) :
  valid_addresses msgData = true → affordable funds (length (chunks_of msgData)) →
  is_ascii (Send.msg msgData) = true →
  length (chunks_of msgData) = 16 →
  forallb is_broadcast answers = true →
  length (omap broadcast_txid answers) = 16 →
  length (omap broadcast_err answers) ≤ MAX_SEND_RETRY →
  ∃ sent,
    sendTMMessage TimerIgnores msgData (BalanceOk funds) answers =
      (sent, Finished (CallbackOk (omap broadcast_txid answers))) ∧
    scan netw (history (ledger_of (Send.src msgData) (Send.dst msgData) sent answers) order) =
      Val (omap (λ i, c ← chunks_of msgData !! i; id ← omap broadcast_txid answers !! i;
                      read_of_sixteen (Send.src msgData) (Send.dst msgData) i c id) order) ∧
    ∀ i c id, chunks_of msgData !! i = Some c → i < 15 →
              read_of_sixteen (Send.src msgData) (Send.dst msgData) i c id = None.
Proof.
  intros Hvalid Hfunds Htext Hn Hall Hok Herr.
  destruct (sent_ledger msgData funds answers) as (sent & Hsent & Hledger);
    [done|done|lia|done|lia|done|].
  exists sent. rewrite Hledger. split_and!; [done|by apply scan_sixteen|].
  intros i c id Hc Hi. unfold read_of_sixteen.
  rewrite (chunk_by_size_full (Send.msg msgData) c MAX_PAYLOAD_SIZE i), decide_False;
    [done|unfold MAX_PAYLOAD_SIZE; lia|done|].
  change (chunk_by_size _ _) with (chunks_of msgData). lia.
Qed.

End capacity.

(** ** Example *)

(** Fifteen times 76 characters and four more: 16 chunks. *)
Definition example_line : string :=
  "0123456789abcdefghijklmnopqrstuvwxyzABCDEFGHIJKLMNOPQRSTUVWXYZ0123456789+-*/".

Definition example_sixteen : SendData :=
  {| Send.src := "mSrc"; Send.dst := "mDst";
     Send.msg := foldr String.append "tail" (replicate 15 example_line);
     pk := "key" |}.

Definition example_sixteen_answers : list Attempt :=
  (λ i : nat, BroadcastOk ("t" +:+ pretty i)) <$> List.seq 0 16.

Lemma send_then_scan_sixteen_witness :
  ∃ sent,
    sendTMMessage (H := deployment (λ _ _, true) (λ _, testnet)) TimerIgnores
      example_sixteen (BalanceOk 60000) example_sixteen_answers =
      (sent, Finished (CallbackOk (omap broadcast_txid example_sixteen_answers))) ∧
    scan (H := deployment (λ _ _, true) (λ _, testnet)) testnet
      (history (ledger_of (Send.src example_sixteen) (Send.dst example_sixteen) sent
                  example_sixteen_answers) (List.seq 0 16)) =
      Val (omap (λ i, c ← chunks_of (H := deployment (λ _ _, true) (λ _, testnet))
                            example_sixteen !! i;
                      id ← omap broadcast_txid example_sixteen_answers !! i;
                      read_of_sixteen (Send.src example_sixteen) (Send.dst example_sixteen)
                        i c id) (List.seq 0 16)) ∧
    ∀ i c id,
      chunks_of (H := deployment (λ _ _, true) (λ _, testnet)) example_sixteen !! i = Some c →
      i < 15 →
      read_of_sixteen (Send.src example_sixteen) (Send.dst example_sixteen) i c id = None.
Proof.
  apply (send_then_scan_sixteen (λ _ _, true) (λ _, testnet)
           testnet example_sixteen 60000 example_sixteen_answers (List.seq 0 16));
    [done|by vm_compute|by vm_compute|by vm_compute|done|by vm_compute|vm_compute; lia].
Defined.

(** What the reader returns for it: the last chunk alone, behind the digit
    of its sequence number. *)
Example scan_example_sixteen :
  scan (H := deployment (λ _ _, true) (λ _, testnet)) testnet
    (ledger_of "mSrc" "mDst"
       (sendTMMessage (H := deployment (λ _ _, true) (λ _, testnet)) TimerIgnores
          example_sixteen (BalanceOk 60000) example_sixteen_answers).1
       example_sixteen_answers) =
    Val [mkMsgData "mSrc" "mDst" "ftail" ["t15"]].
Proof. by vm_compute. Qed.
