(* ===== verification/Registry.v ===== *)
(** * Registry: the network of named nodes

    src/TMNet.js keeps the nodes of a network in the object [this.bmnodes],
    from identifier to node.  The state is [BMNet]: the instance [bm] the
    network belongs to (its [name] and [dir]) and [bmnodes], an object in
    the sense of [JsObject].  Every method of the prototype is one
    definition here, with the name it has in the source; a method that reads
    returns a [res], a method that changes the registry returns the new
    registry in a [res].  A read [this.bmnodes[id]] is [obj_read]: it finds
    a node of the registry, or what the object inherits under the name.

    A node (BMNode) and the helpers of BMutils are not part of the sources:
    the class [NodeLib] names what the registry calls of them, and the
    conversions of the runtime that [_generateID] relies on.  The class
    [DecimalLaws] says how these behave on the decimal text of a natural
    number up to 2^53, where every integer is a double.  The sum of line
    63 and the text of line 67 are those of [JsNumber].  The constructor
    of a node is taken not to change the registry.  The constructor of the
    registry fails when the instance has no [bms]; when it has one, its
    logger is taken to return, and what is logged is not modelled.

    The theorems follow the definitions: the invariant [registry_wf] and
    the registries reachable by [step]; the lookups after a change; the
    lookups by address; the status; the errors of a removal; loading; and
    the identifiers that [_generateID] makes: new ones under the
    hypotheses [agreeing] and [in_range], one in use when the conversions
    disagree or when the numbers reach 2^53.  The file ends with the
    instances [plain_lib] and [loose_lib] and the examples the theorems
    are applied to. *)

From stdpp Require Import pretty relations.
From S2P Require Import Prelude.
From S2P Require Import JsString.
From S2P Require Import JsNumber.
From S2P Require Import JsObject.

(** The modes of BMutils.MODE that the registry tells apart. *)
Inductive MODE : Type :=
| MODE_DEFAULT
| MODE_TMP.

#[export] Instance MODE_eq_dec : EqDecision MODE.
Proof. solve_decision. Defined.

(** The instance [bm]: [bm.name], [bm.dir], and whether it has the object
    [bm.bms] that line 17 reads the logger of. *)
Record BM : Type := mkBM {
  bm_name : string;
  bm_dir : string;
  bm_bms : bool;
}.

(** The data of a node: its [id], which is empty when it is missing, and
    the rest, which only the node reads. *)
Record NodeData (Extra : Type) : Type := mkNodeData {
  nd_id : string;
  nd_more : Extra;
}.

Arguments mkNodeData {Extra} nd_id nd_more.
Arguments nd_id {Extra} n.
Arguments nd_more {Extra} n.

(** What the registry calls and does not define. *)
Class NodeLib (Extra Node : Type) : Type := {
  (** [new BMNode(net, nodeData, mode)] *)
  newBMNode : NodeData Extra → MODE → res Node;
  (** [node.id], [node.addr], [node.getAddr()] and [node.destroy()] *)
  node_id : Node → string;
  node_addr : Node → string;
  getAddr : Node → string;
  destroy : Node → res ();
  (** [BMutils.isNum] and [BMutils.getFileExtension] *)
  isNum : string → bool;
  getFileExtension : string → string;
  (** the conversion of a string in [idnum >= maxn], and [parseInt(idnum)] *)
  ToNumber : string → number;
  parseInt : string → number;
}.

(** On the decimal text of a natural number up to 2^53 the helpers agree
    with its value. *)
Class DecimalLaws `{NodeLib Extra Node} : Prop := {
  isNum_pretty : ∀ n : N, (n ≤ 2 ^ 53)%N → isNum (pretty n) = true;
  ToNumber_pretty : ∀ n : N, (n ≤ 2 ^ 53)%N → ToNumber (pretty n) = Num (Z.of_N n);
  parseInt_pretty : ∀ n : N, (n ≤ 2 ^ 53)%N → parseInt (pretty n) = Num (Z.of_N n);
}.

(** A file of the data folder: its name and what [BMutils.loadObject]
    returns for it. *)
Record DirEntry (Extra : Type) : Type := mkDirEntry {
  file_name : string;
  file_object : res (NodeData Extra);
}.

Arguments mkDirEntry {Extra} file_name file_object.
Arguments file_name {Extra} d.
Arguments file_object {Extra} d.

(** The registry (lines 15 and 16). *)
Record BMNet (Node : Type) : Type := mkBMNet {
  bm : BM;
  bmnodes : list (string * Node);
}.

Arguments mkBMNet {Node} bm bmnodes.
Arguments bm {Node} b.
Arguments bmnodes {Node} b.

(** An entry of the status: [{id, address}] (lines 50 and 79). *)
Record NodeRef : Type := mkNodeRef {
  ref_id : string;
  ref_address : string;
}.

#[export] Instance NodeRef_eq_dec : EqDecision NodeRef.
Proof. solve_decision. Defined.

(** A call of a method that changes the registry, and what the caller
    gets: the answer of [addBMNode], nothing, or an exception. *)
Inductive Call (Extra : Type) : Type :=
| AddBMNode (nodeData : NodeData Extra) (mode : MODE)
| RemoveBMNode (id : string)
| LoadBMNet (listing : res (list (DirEntry Extra))).

Arguments AddBMNode {Extra} nodeData mode.
Arguments RemoveBMNode {Extra} id.
Arguments LoadBMNet {Extra} listing.

Inductive Answer : Type :=
| Returned (r : option NodeRef)
| Threw (e : exn).

Section registry.
Context `{NodeLib Extra Node}.
Implicit Types (net : BMNet Node) (id addr base : string).

(** [getNode(id)] (lines 92 to 96): what the read [this.bmnodes[id]]
    finds, a node of the registry or something the object inherits. *)
Definition getNode net id : res (option (Found Node)) :=
  if negb (truthy id) then Throw (Thrown "ERR: ID is required")
  else Val (obj_read (bmnodes net) id).

(** [getNodeID(addr)] (lines 99 to 104): the first identifier, in the
    order of the loop, whose node has the address. *)
Definition getNodeID net addr : res (option string) :=
  if negb (truthy addr) then Throw (Thrown "ERR: addr is required")
  else
    Val (head (filter (λ id, getAddr <$> obj_get (bmnodes net) id = Some addr)
                 (obj_keys (bmnodes net)))).

(** [isBMNodeID(id)] (lines 122 to 125). *)
Definition isBMNodeID net id : res bool :=
  node ← getNode net id;
  Val (bool_decide (is_Some node)).

(** [isBMNodeAddr(addr)] (lines 128 to 131): whether the identifier that
    [getNodeID] returns is a non-empty string. *)
Definition isBMNodeAddr net addr : res bool :=
  found ← getNodeID net addr;
  Val (from_option truthy false found).

(** [isBMNode(node)] (lines 116 to 119). *)
Definition isBMNode net (node : string) : res bool :=
  isBMNodeAddr net node ≫= λ a : bool,
  if a then Val true else isBMNodeID net node.

(** [getNodeAddress(id)] (lines 107 to 113); what the object inherits has
    no method [getAddr]. *)
Definition getNodeAddress net id : res (option string) :=
  if negb (truthy id) then Throw (Thrown "ERR: ID is required")
  else
    isBMNodeAddr net id ≫= λ a : bool,
    if a then Val (Some id)
    else match obj_read (bmnodes net) id with
         | Some (Own node) => Val (Some (getAddr node))
         | Some FromPrototype => Throw TypeError
         | None => Val None
         end.

(** [getStatus()] (lines 44 to 53). *)
Definition getStatus net : string * list NodeRef :=
  (bm_name (bm net),
   omap (λ id, (λ node, mkNodeRef id (node_addr node)) <$> obj_get (bmnodes net) id)
     (obj_keys (bmnodes net))).

(** One round of the loop of [_generateID] (lines 61 to 64). *)
Definition generateID_step base (maxn : number) id : number :=
  if String.prefix base id then
    let idnum := substring id (String.length base) (String.length id) in
    if isNum idnum && ge_number (ToNumber idnum) maxn then succ_number (parseInt idnum)
    else maxn
  else maxn.

(** The base of a generated identifier (line 57); a missing [base] is the
    empty string. *)
Definition base_or_N base : string := if truthy base then base else "N".

(** [_generateID(base)] (lines 56 to 68). *)
Definition _generateID net base : string :=
  let base := base_or_N base in
  let maxn := foldl (generateID_step base) (Num 1) (obj_keys (bmnodes net)) in
  base +:+ number_text maxn.

(** The identifier under which [addBMNode] stores the node (lines 72 to
    75). *)
Definition assigned_id net (nodeData : NodeData Extra) (mode : MODE) : string :=
  if truthy (nd_id nodeData) then nd_id nodeData
  else if decide (mode = MODE_TMP) then _generateID net "TMP"
  else _generateID net EmptyString.

(** [addBMNode(nodeData, mode)] (lines 71 to 80). *)
Definition addBMNode net (nodeData : NodeData Extra) (mode : MODE)
    : res (BMNet Node * NodeRef) :=
  let id := assigned_id net nodeData mode in
  node ← newBMNode (mkNodeData id (nd_more nodeData)) mode;
  Val (mkBMNet (bm net) (obj_set (bmnodes net) id node),
       mkNodeRef (node_id node) (node_addr node)).

(** [removeBMNode(id)] (lines 84 to 89); what the object inherits has no
    method [destroy], and neither has [null]. *)
Definition removeBMNode net id : res (BMNet Node) :=
  isBMNodeID net id ≫= λ known : bool,
  if negb known then Throw (Thrown "ERR: Invalid ID")
  else
    getNode net id ≫= λ node,
    match node with
    | Some (Own node) =>
        destroy node ≫= λ _, Val (mkBMNet (bm net) (obj_delete (bmnodes net) id))
    | Some FromPrototype | None => Throw TypeError
    end.

(** The body of the loop of [loadBMNet] (lines 30 to 34): a file that is
    no [.dat] file is skipped, and so is one that fails to load or to make
    a node. *)
Definition load_file net (file : DirEntry Extra) : BMNet Node :=
  if decide (getFileExtension (file_name file) = "dat") then
    match file_object file ≫= λ nodeData, addBMNode net nodeData MODE_DEFAULT with
    | Val (net', _) => net'
    | Throw _ => net
    end
  else net.

(** The loop of [loadBMNet] (lines 29 to 35) over the files of the data
    folder. *)
Definition load_files net (files : list (DirEntry Extra)) : BMNet Node :=
  foldl load_file net files.

(** [loadBMNet()] (lines 23 to 41); [listing] is what [fs.readdirSync]
    returns for the folder (line 25), the files or an exception. *)
Definition loadBMNet net (listing : res (list (DirEntry Extra))) : res (BMNet Node) :=
  files ← listing;
  Val (load_files net files).

(** [new BMNet(bm)] (lines 12 to 20); without [bm.bms] the read of line 17
    throws. *)
Definition new_BMNet (instance : option BM) (listing : res (list (DirEntry Extra)))
    : res (BMNet Node) :=
  match instance with
  | None => Throw (Thrown "Missing BM instance")
  | Some b =>
      if bm_bms b then loadBMNet (mkBMNet b []) listing else Throw TypeError
  end.

(** The registry after a call of a method that changes it, and what the
    caller gets; a call that throws leaves the registry as it was. *)
Definition perform net (c : Call Extra) : BMNet Node * Answer :=
  match c with
  | AddBMNode nodeData mode =>
      match addBMNode net nodeData mode with
      | Val (net', r) => (net', Returned (Some r))
      | Throw e => (net, Threw e)
      end
  | RemoveBMNode id =>
      match removeBMNode net id with
      | Val net' => (net', Returned None)
      | Throw e => (net, Threw e)
      end
  | LoadBMNet listing =>
      match loadBMNet net listing with
      | Val net' => (net', Returned None)
      | Throw e => (net, Threw e)
      end
  end.

End registry.

(** ** The invariant of the registry *)

Section registry_theorems.
Context `{NodeLib Extra Node}.
Implicit Types (net : BMNet Node) (id addr base : string).

(** Every identifier names one node, and no identifier is empty. *)
Definition registry_wf net : Prop :=
  obj_wf (bmnodes net) ∧ EmptyString ∉ (bmnodes net).*1.

#[export] Instance registry_wf_dec net : Decision (registry_wf net).
Proof. unfold registry_wf, obj_wf. apply _. Defined.

Lemma truthy_nonempty (s : string) : truthy s = true ↔ s ≠ EmptyString.
Proof. by destruct s. Qed.

Lemma append_nonempty (s t : string) : s ≠ EmptyString → s +:+ t ≠ EmptyString.
Proof. by destruct s. Qed.

Lemma _generateID_nonempty net base : _generateID net base ≠ EmptyString.
Proof.
  unfold _generateID, base_or_N. apply append_nonempty.
  by destruct (truthy base) eqn:E; [apply truthy_nonempty|].
Qed.

Lemma assigned_id_nonempty net (nodeData : NodeData Extra) (mode : MODE) :
  assigned_id net nodeData mode ≠ EmptyString.
Proof.
  unfold assigned_id. destruct (truthy (nd_id nodeData)) eqn:E; [by apply truthy_nonempty|].
  case_decide; apply _generateID_nonempty.
Qed.

(** What [addBMNode] does when the node can be made. *)
Lemma addBMNode_Val net (nodeData : NodeData Extra) (mode : MODE) net' (r : NodeRef) :
  addBMNode net nodeData mode = Val (net', r) ↔
  ∃ node, newBMNode (mkNodeData (assigned_id net nodeData mode) (nd_more nodeData)) mode
            = Val node ∧
    net' = mkBMNet (bm net) (obj_set (bmnodes net) (assigned_id net nodeData mode) node) ∧
    r = mkNodeRef (node_id node) (node_addr node).
Proof.
  unfold addBMNode. cbv zeta. destruct (newBMNode _ _) as [node|]; cbn; naive_solver.
Qed.

Lemma not_elem_of_obj_set_keys (o : list (string * Node)) (k k' : string) (v : Node) :
  k' ≠ k → k' ∉ o.*1 → k' ∉ (obj_set o k v).*1.
Proof.
  intros Hne Hnotin. destruct (decide (k ∈ o.*1)).
  - by rewrite obj_set_keys_old.
  - rewrite obj_set_keys_new by done. rewrite elem_of_app, list_elem_of_singleton. tauto.
Qed.

Lemma addBMNode_wf net (nodeData : NodeData Extra) (mode : MODE) net' (r : NodeRef) :
  registry_wf net → addBMNode net nodeData mode = Val (net', r) → registry_wf net'.
Proof.
  intros [Hwf Hempty] (node & _ & -> & _)%addBMNode_Val. split; cbn.
  - by apply obj_set_wf.
  - apply not_elem_of_obj_set_keys; [|done]. apply not_eq_sym, assigned_id_nonempty.
Qed.

(** [removeBMNode] on every branch: the identifier is required, the read
    has to find something, what it finds has to be a node, the node is
    destroyed, and only then its entry is removed. *)
Lemma removeBMNode_cases net id :
  removeBMNode net id =
    if negb (truthy id) then Throw (Thrown "ERR: ID is required")
    else match obj_read (bmnodes net) id with
         | None => Throw (Thrown "ERR: Invalid ID")
         | Some FromPrototype => Throw TypeError
         | Some (Own node) =>
             destroy node ≫= λ _, Val (mkBMNet (bm net) (obj_delete (bmnodes net) id))
         end.
Proof.
  unfold removeBMNode, isBMNodeID, getNode. destruct (truthy id); cbn; [|done].
  by destruct (obj_read (bmnodes net) id) as [[node|]|].
Qed.

(** What a removal that returns has done. *)
Lemma removeBMNode_Val net id net' :
  removeBMNode net id = Val net' →
  truthy id = true ∧
  ∃ node, obj_get (bmnodes net) id = Some node ∧ destroy node = Val () ∧
          net' = mkBMNet (bm net) (obj_delete (bmnodes net) id).
Proof.
  rewrite removeBMNode_cases. destruct (truthy id); cbn; [|done].
  destruct (obj_read (bmnodes net) id) as [[node|]|] eqn:E; [|done..].
  apply obj_read_own in E. destruct (destroy node) as [[]|] eqn:Ed; cbn; [|done].
  intros [= <-]. split; [done|]. by exists node.
Qed.

Lemma removeBMNode_wf net id net' :
  registry_wf net → removeBMNode net id = Val net' → registry_wf net'.
Proof.
  intros [Hwf Hempty] (_ & node & _ & _ & ->)%removeBMNode_Val. split; cbn.
  - by apply obj_delete_wf.
  - rewrite obj_delete_keys. by intros [_ ?]%list_elem_of_filter.
Qed.

Lemma load_file_wf net (file : DirEntry Extra) : registry_wf net → registry_wf (load_file net file).
Proof.
  intros Hwf. unfold load_file. case_decide; [|done].
  destruct (file_object file) as [nodeData|]; cbn; [|done].
  destruct (addBMNode net nodeData MODE_DEFAULT) as [[net' r]|] eqn:E; [|done].
  by eapply addBMNode_wf.
Qed.

Lemma load_files_wf net (files : list (DirEntry Extra)) :
  registry_wf net → registry_wf (load_files net files).
Proof.
  unfold load_files. revert net. induction files as [|file files IH]; intros net Hwf; [done|].
  cbn. by apply IH, load_file_wf.
Qed.

(** What [loadBMNet] does when it returns. *)
Lemma loadBMNet_Val net (listing : res (list (DirEntry Extra))) net' :
  loadBMNet net listing = Val net' ↔
  ∃ files, listing = Val files ∧ net' = load_files net files.
Proof.
  unfold loadBMNet. destruct listing as [files|e]; cbn.
  - split; [intros [= <-]; by exists files|by intros (? & [= <-] & ->)].
  - split; [done|]. by intros (? & ? & _).
Qed.

Lemma loadBMNet_wf net (listing : res (list (DirEntry Extra))) net' :
  registry_wf net → loadBMNet net listing = Val net' → registry_wf net'.
Proof. intros Hwf (files & _ & ->)%loadBMNet_Val. by apply load_files_wf. Qed.

(** What the constructor does when it returns. *)
Lemma new_BMNet_Val (instance : option BM) (listing : res (list (DirEntry Extra))) net :
  new_BMNet instance listing = Val net ↔
  ∃ b files, instance = Some b ∧ listing = Val files ∧ bm_bms b = true ∧
             net = load_files (mkBMNet b []) files.
Proof.
  unfold new_BMNet. destruct instance as [b|]; [|split; [done|by intros (? & ? & ? & _)]].
  destruct (bm_bms b) eqn:E.
  - rewrite loadBMNet_Val. split.
    + intros (files & -> & ->). by exists b, files.
    + intros (? & files & [= <-] & -> & ? & ->). by exists files.
  - split; [done|]. intros (? & ? & [= <-] & _ & ? & _). congruence.
Qed.

(** One operation that changes the registry. *)
Inductive step : BMNet Node → BMNet Node → Prop :=
| step_add net (nodeData : NodeData Extra) (mode : MODE) net' (r : NodeRef) :
    addBMNode net nodeData mode = Val (net', r) → step net net'
| step_remove net id net' :
    removeBMNode net id = Val net' → step net net'
| step_load net (listing : res (list (DirEntry Extra))) net' :
    loadBMNet net listing = Val net' → step net net'.

(** One call: the registry before, the call with its answer, and the
    registry after. *)
Definition does net (ev : Call Extra * Answer) net' : Prop := perform net ev.1 = (net', ev.2).

(** A call changes the registry by a step, or not at all. *)
Lemma does_step net (ev : Call Extra * Answer) net' : does net ev net' → step net net' ∨ net' = net.
Proof.
  destruct ev as [[nodeData mode|id|listing] a]; unfold does; cbn.
  - destruct (addBMNode net nodeData mode) as [[net1 r]|] eqn:E; intros [= <- _]; [|by right].
    left. by eapply step_add.
  - destruct (removeBMNode net id) as [net1|] eqn:E; intros [= <- _]; [|by right].
    left. by eapply step_remove.
  - destruct (loadBMNet net listing) as [net1|] eqn:E; intros [= <- _]; [|by right].
    left. by eapply step_load.
Qed.

(** C29. The invariant of the registry: in every registry that a new
    registry reaches by adding, removing and loading, every identifier
    names one node and no identifier is empty. *)
Theorem reachable_wf (instance : option BM) (listing : res (list (DirEntry Extra))) net0 net :
  new_BMNet instance listing = Val net0 → rtc step net0 net → registry_wf net.
Proof.
  intros (b & files & _ & _ & _ & ->)%new_BMNet_Val Hsteps.
  assert (registry_wf (load_files (mkBMNet b []) files)) as Hwf0.
  { apply load_files_wf. split; cbn; [apply NoDup_nil_2|apply not_elem_of_nil]. }
  induction Hsteps as [|net1 net2 net3 Hstep _ IH]; [done|]. apply IH.
  destruct Hstep; eauto using addBMNode_wf, removeBMNode_wf, loadBMNet_wf.
Qed.

(** ** Lookups after a change *)

(** After [addBMNode] the node is found under its identifier, what is
    found under every other identifier is as before, and the answer names
    the identifier and the address of the node. *)
Theorem getNode_addBMNode net (nodeData : NodeData Extra) (mode : MODE) net' (r : NodeRef) :
  addBMNode net nodeData mode = Val (net', r) →
  ∃ node, r = mkNodeRef (node_id node) (node_addr node) ∧
    ∀ id, truthy id = true →
      getNode net' id =
        if decide (id = assigned_id net nodeData mode) then Val (Some (Own node))
        else getNode net id.
Proof.
  intros (node & _ & -> & ->)%addBMNode_Val. exists node. split; [done|].
  intros id Hid. unfold getNode. rewrite Hid. cbn.
  case_decide as E; [subst; by rewrite obj_read_set_eq|]. by rewrite obj_read_set_ne.
Qed.

(** After [removeBMNode] the registry has no node under the identifier:
    [getNode] finds nothing there, or what the object inherits under that
    name; what it finds under every other identifier is as before. *)
Theorem getNode_removeBMNode net id net' id' :
  removeBMNode net id = Val net' → truthy id' = true →
  getNode net' id' =
    if decide (id' = id) then Val (if inherited id then Some FromPrototype else None)
    else getNode net id'.
Proof.
  intros (_ & node & _ & _ & ->)%removeBMNode_Val Hid'.
  unfold getNode. rewrite Hid'. cbn.
  case_decide as E; [subst; by rewrite obj_read_delete_eq|]. by rewrite obj_read_delete_ne.
Qed.

(** ** Lookups by address *)

(** [getNodeID] answers an identifier whose node has the address, and
    answers [null] only when no node has it. *)
Lemma getNodeID_Val net addr (found : option string) :
  getNodeID net addr = Val found →
  match found with
  | Some id => ∃ node, obj_get (bmnodes net) id = Some node ∧ getAddr node = addr
  | None => ∀ id node, obj_get (bmnodes net) id = Some node → getAddr node ≠ addr
  end.
Proof.
  unfold getNodeID. destruct (truthy addr); cbn; [|done]. intros [= <-].
  destruct (filter _ _) as [|id rest] eqn:E; cbn.
  - intros id node Hid Haddr.
    assert (id ∈ filter (λ id, getAddr <$> obj_get (bmnodes net) id = Some addr)
                   (obj_keys (bmnodes net))) as Hin; [|by rewrite E in Hin; apply elem_of_nil in Hin].
    apply list_elem_of_filter. split; [by rewrite Hid; cbn; rewrite Haddr|].
    apply elem_of_obj_keys. by rewrite Hid.
  - assert (id ∈ id :: rest) as Hin by left. rewrite <- E in Hin.
    apply list_elem_of_filter in Hin as [Hid _].
    destruct (obj_get (bmnodes net) id) as [node|]; [|done]. exists node. by simplify_eq/=.
Qed.

(** [getNodeAddress] answers its argument when that is the address of a
    node; otherwise the address of the node the argument names, [null]
    when the read finds nothing, and it throws a TypeError when the read
    finds what the object inherits. *)
Theorem getNodeAddress_cases net id :
  registry_wf net → truthy id = true →
  ((∃ id' node, obj_get (bmnodes net) id' = Some node ∧ getAddr node = id) →
     getNodeAddress net id = Val (Some id)) ∧
  ((∀ id' node, obj_get (bmnodes net) id' = Some node → getAddr node ≠ id) →
     getNodeAddress net id =
       match obj_read (bmnodes net) id with
       | Some (Own node) => Val (Some (getAddr node))
       | Some FromPrototype => Throw TypeError
       | None => Val None
       end).
Proof.
  intros [_ Hempty] Hid. unfold getNodeAddress, isBMNodeAddr. rewrite Hid. cbn.
  destruct (getNodeID net id) as [found|] eqn:E;
    [|by unfold getNodeID in E; rewrite Hid in E].
  pose proof (getNodeID_Val _ _ _ E) as Hfound. cbn.
  destruct found as [id'|]; cbn.
  - destruct Hfound as (node & Hnode & Haddr).
    rewrite (proj2 (truthy_nonempty id')).
    + split; [done|]. intros Hno. by destruct (Hno _ _ Hnode).
    + intros ->. apply Hempty, obj_get_is_Some. by rewrite Hnode.
  - split; [|done]. intros (id' & node & Hnode & Haddr). by destruct (Hfound _ _ Hnode).
Qed.

(** ** The status *)

(** [getStatus] lists every node once, in the order of the loop, with
    its identifier and address. *)
Theorem getStatus_nodes net :
  (getStatus net).1 = bm_name (bm net) ∧
  ref_id <$> (getStatus net).2 = obj_keys (bmnodes net) ∧
  Forall (λ r, ∃ node, obj_get (bmnodes net) (ref_id r) = Some node ∧
                       ref_address r = node_addr node) (getStatus net).2.
Proof.
  unfold getStatus. cbn [fst snd]. split; [done|].
  assert (Forall (λ id, is_Some (obj_get (bmnodes net) id)) (obj_keys (bmnodes net))) as Hall.
  { apply Forall_forall. intros id. by rewrite elem_of_obj_keys. }
  induction Hall as [|id ids [node Hnode] _ [IH1 IH2]]; [done|]. csimpl.
  rewrite Hnode. csimpl. rewrite IH1. split; [done|]. constructor; [|done]. by exists node.
Qed.

(** [isBMNode] answers [true] exactly for the address of a node and for
    an identifier under which the read finds something. *)
Theorem isBMNode_true net (s : string) :
  registry_wf net → truthy s = true →
  isBMNode net s = Val true ↔
    (∃ id node, obj_get (bmnodes net) id = Some node ∧ getAddr node = s) ∨
    is_Some (obj_read (bmnodes net) s).
Proof.
  intros [_ Hempty] Hs. unfold isBMNode, isBMNodeAddr, isBMNodeID, getNode. rewrite Hs.
  destruct (getNodeID net s) as [found|] eqn:E; [|by unfold getNodeID in E; rewrite Hs in E].
  pose proof (getNodeID_Val _ _ _ E) as Hfound. cbn. destruct found as [id|]; cbn.
  - destruct Hfound as (node & Hnode & Haddr).
    rewrite (proj2 (truthy_nonempty id)); [naive_solver|].
    intros ->. apply Hempty, obj_get_is_Some. by rewrite Hnode.
  - rewrite bool_decide_decide. case_decide as Hin; [naive_solver|].
    split; [done|]. intros [(id & node & Hnode & Haddr)|?]; [|done].
    by destruct (Hfound _ _ Hnode).
Qed.

(** ** Errors of a removal *)

(** C35. [removeBMNode] throws for a missing identifier before it throws
    for one under which the read finds nothing; it throws a TypeError when
    the read finds what the object inherits, which has no method
    [destroy]; and otherwise it throws only what [destroy] throws.  In each
    case the registry is left as it was. *)
Theorem removeBMNode_throws net id (e : exn) :
  removeBMNode net id = Throw e ↔
    (truthy id = false ∧ e = Thrown "ERR: ID is required") ∨
    (truthy id = true ∧ obj_read (bmnodes net) id = None ∧ e = Thrown "ERR: Invalid ID") ∨
    (truthy id = true ∧ obj_read (bmnodes net) id = Some FromPrototype ∧ e = TypeError) ∨
    (∃ node, truthy id = true ∧ obj_read (bmnodes net) id = Some (Own node) ∧
             destroy node = Throw e).
Proof.
  rewrite removeBMNode_cases. destruct (truthy id); cbn.
  - destruct (obj_read (bmnodes net) id) as [[node|]|].
    + split.
      * intros E. do 3 right. exists node. split_and!; [done..|].
        by destruct (destroy node); simplify_eq/=.
      * intros [[? _]|[(_ & ? & _)|[(_ & ? & _)|(? & _ & ? & E)]]]; simplify_eq.
        by rewrite E.
    + split; [by intros [= <-]; do 2 right; left|].
      by intros [[? _]|[(_ & ? & _)|[(_ & _ & ->)|(? & _ & ? & _)]]].
    + split; [by intros [= <-]; right; left|].
      by intros [[? _]|[(_ & _ & ->)|[(_ & ? & _)|(? & _ & ? & _)]]].
  - split; [by intros [= <-]; left|by intros [[_ ->]|[(? & _)|[(? & _)|(? & ? & _)]]]].
Qed.

(** ** Identifiers that the object inherits *)

(** C34. A name that [bmnodes] inherits and has no node under passes for
    the identifier of a node: [getNode] finds what the object inherits,
    [isBMNodeID] and [isBMNode] answer [true], and [removeBMNode] throws a
    TypeError, as [getNodeAddress] does unless the name is the address of
    a node. *)
Theorem inherited_identifier net id :
  inherited id = true → obj_get (bmnodes net) id = None →
  getNode net id = Val (Some FromPrototype) ∧
  isBMNodeID net id = Val true ∧
  (∃ a, isBMNodeAddr net id = Val a ∧ isBMNode net id = Val true ∧
        getNodeAddress net id = if a then Val (Some id) else Throw TypeError) ∧
  removeBMNode net id = Throw TypeError.
Proof.
  intros Hin Hnone. pose proof (inherited_truthy _ Hin) as Hid.
  pose proof (obj_read_inherited _ _ Hin Hnone) as Hread.
  assert (getNode net id = Val (Some FromPrototype)) as Hget
    by (unfold getNode; by rewrite Hid, Hread).
  assert (isBMNodeID net id = Val true) as Hknown by (unfold isBMNodeID; by rewrite Hget).
  split_and!; [done..| |by rewrite removeBMNode_cases, Hid, Hread].
  unfold isBMNode, getNodeAddress, isBMNodeAddr, getNodeID. rewrite Hid, Hknown, Hread. cbn.
  eexists. split; [done|]. by destruct (from_option truthy false _).
Qed.

(** ** Loading *)

(** The data of a file that [loadBMNet] reads: of a [.dat] file that
    loads. *)
Definition dat_object (file : DirEntry Extra) : option (NodeData Extra) :=
  if decide (getFileExtension (file_name file) = "dat") then
    match file_object file with Val nodeData => Some nodeData | Throw _ => None end
  else None.

(** Adding a node, or leaving the registry when the node cannot be made. *)
Definition add_or_skip net (nodeData : NodeData Extra) : BMNet Node :=
  match addBMNode net nodeData MODE_DEFAULT with
  | Val (net', _) => net'
  | Throw _ => net
  end.

(** [loadBMNet] adds the nodes of the [.dat] files that load, in the
    order of the folder, and goes on after a file that fails. *)
Theorem loadBMNet_loaded net (files : list (DirEntry Extra)) :
  loadBMNet net (Val files) = Val (foldl add_or_skip net (omap dat_object files)).
Proof.
  unfold loadBMNet. cbn. f_equal. unfold load_files. revert net.
  induction files as [|file files IH]; intros net; [done|].
  cbn. rewrite IH. unfold load_file, dat_object, add_or_skip.
  case_decide; [|done]. by destruct (file_object file).
Qed.

End registry_theorems.

(** ** Generated identifiers *)

Section identifiers.
Context `{NodeLib Extra Node} `{!DecimalLaws}.
Implicit Types (net : BMNet Node) (id base t : string) (ks : list string).

(** On the numeric texts that continue [base] in an identifier, the
    comparison and [parseInt] read the same integer. *)
Definition agreeing base ks : Prop :=
  ∀ t, base +:+ t ∈ ks → isNum t = true →
    ∃ z : Z, ToNumber t = Num z ∧ parseInt t = Num z.

(** The integer [z] is the number of an identifier of [ks] that continues
    [base]. *)
Definition numbered base ks (z : Z) : Prop :=
  ∃ t, base +:+ t ∈ ks ∧ isNum t = true ∧ ToNumber t = Num z.

(** Every number in use is below [bound]. *)
Definition in_range (bound : Z) base ks : Prop :=
  ∀ z, numbered base ks z → (z < bound)%Z.

(** The base that [addBMNode] passes for a mode (lines 73 and 74), after
    line 57. *)
Definition mode_base (mode : MODE) : string :=
  if decide (mode = MODE_TMP) then "TMP" else "N".

Lemma pretty_Z_of_N (n : N) : pretty (Z.of_N n) = pretty n.
Proof. by destruct n. Qed.

Lemma agreeing_cons base id ks :
  agreeing base (id :: ks) → agreeing base [id] ∧ agreeing base ks.
Proof.
  intros Hc. split; intros t Ht; apply Hc; [|by right].
  apply list_elem_of_singleton in Ht as <-. left.
Qed.

Lemma numbered_cons base id ks (z : Z) :
  numbered base (id :: ks) z ↔ numbered base [id] z ∨ numbered base ks z.
Proof.
  unfold numbered. setoid_rewrite elem_of_cons. setoid_rewrite elem_of_nil. naive_solver.
Qed.

Lemma numbered_nil base (z : Z) : ¬ numbered base [] z.
Proof. by intros (t & ?%elem_of_nil & _). Qed.

Lemma numbered_app base ks ks' (z : Z) :
  numbered base (ks ++ ks') z ↔ numbered base ks z ∨ numbered base ks' z.
Proof. unfold numbered. setoid_rewrite elem_of_app. naive_solver. Qed.

Lemma numbered_singleton base t (z : Z) :
  numbered base [base +:+ t] z ↔ isNum t = true ∧ ToNumber t = Num z.
Proof.
  unfold numbered. setoid_rewrite list_elem_of_singleton. split; [|naive_solver].
  by intros (t' & ->%(inj (String.app base)) & ? & ?).
Qed.

Lemma in_range_cons bound base id ks :
  in_range bound base (id :: ks) → in_range bound base [id] ∧ in_range bound base ks.
Proof. intros Hr. split; intros z Hz; apply Hr, numbered_cons; auto. Qed.

Lemma in_range_weaken bound bound' base ks :
  (bound ≤ bound')%Z → in_range bound base ks → in_range bound' base ks.
Proof. intros Hle Hr z Hz. specialize (Hr z Hz). lia. Qed.

(** The number after [z] as line 63 computes it, for a number up to 2^53. *)
Definition after (z : Z) : Z := Z.min (z + 1) (2 ^ 53).

(** One round of the loop, while the numbers are at most 2^53: the number
    stays or becomes the one after the number of the identifier; it is not
    lowered and ends at least at the one after the number of the
    identifier. *)
Lemma generateID_step_agreeing base id (m : Z) :
  agreeing base [id] → in_range (2 ^ 53 + 1) base [id] → (1 ≤ m ≤ 2 ^ 53)%Z →
  ∃ m' : Z, generateID_step base (Num m) id = Num m' ∧ (m ≤ m' ≤ 2 ^ 53)%Z ∧
    (m' = m ∨ ∃ z, numbered base [id] z ∧ m' = after z) ∧
    ∀ z, numbered base [id] z → (after z ≤ m')%Z.
Proof.
  intros Hc Hr Hm. unfold generateID_step, after. destruct (String.prefix base id) eqn:Hp.
  - apply prefix_inv in Hp as [t ->]. rewrite substring_suffix.
    setoid_rewrite numbered_singleton. destruct (isNum t) eqn:Ht; cbn [andb].
    + destruct (Hc t) as (z & Ez & Ep); [left|done|]. rewrite Ez, Ep. cbn [ge_number].
      assert (z < 2 ^ 53 + 1)%Z by (by apply Hr, numbered_singleton).
      case_bool_decide.
      * rewrite succ_number_capped by lia. eexists. split_and!; [done|lia..| |].
        -- right. by exists z.
        -- intros z' [_ Ez']. simplify_eq. lia.
      * exists m. split_and!; [done|lia..|by left|].
        intros z' [_ Ez']. simplify_eq. lia.
    + exists m. split_and!; [done|lia..|by left|]. by intros z [? _].
  - exists m. split_and!; [done|lia..|by left|].
    intros z (t & <-%list_elem_of_singleton & _). by rewrite prefix_append in Hp.
Qed.

Lemma generateID_loop base ks (m : Z) :
  agreeing base ks → in_range (2 ^ 53 + 1) base ks → (1 ≤ m ≤ 2 ^ 53)%Z →
  ∃ m' : Z, foldl (generateID_step base) (Num m) ks = Num m' ∧ (m ≤ m' ≤ 2 ^ 53)%Z ∧
    (m' = m ∨ ∃ z, numbered base ks z ∧ m' = after z) ∧
    ∀ z, numbered base ks z → (after z ≤ m')%Z.
Proof.
  revert m. induction ks as [|id ks IH]; intros m Hc Hr Hm.
  - exists m. split_and!; [done|lia..|by left|]. by intros z ?%numbered_nil.
  - apply agreeing_cons in Hc as [Hid Hks]. apply in_range_cons in Hr as [Hrid Hrks].
    destruct (generateID_step_agreeing base id m Hid Hrid Hm) as (m1 & E1 & Hm1 & Hor1 & Hn1).
    destruct (IH m1 Hks Hrks) as (m' & E & Hm' & Hor & Hn); [lia|]. exists m'. cbn.
    rewrite E1. setoid_rewrite numbered_cons. split_and!; [done|lia..| |].
    + destruct Hor as [->|(z & ? & ?)]; [|by eauto].
      destruct Hor1 as [?|(z & ? & ?)]; eauto.
    + intros z [Hz%Hn1|Hz%Hn]; lia.
Qed.

(** [n] is the number that [_generateID] gives to the next identifier
    over [ks]: positive, 1 or one more than a number in use, and above
    every number in use. *)
Definition next_number base ks (n : N) : Prop :=
  (0 < n)%N ∧ (n = 1%N ∨ numbered base ks (Z.of_N n - 1)) ∧
  ∀ z, numbered base ks z → (z < Z.of_N n)%Z.

(** The numbers in use determine the next number. *)
Lemma next_number_unique base ks ks' (n n' : N) :
  (∀ z, numbered base ks z ↔ numbered base ks' z) →
  next_number base ks n → next_number base ks' n' → n = n'.
Proof.
  intros Hsame (Hpos & Hor & Hn) (Hpos' & Hor' & Hn').
  destruct Hor as [->|Hz%Hsame%Hn'], Hor' as [->|Hz'%Hsame%Hn]; lia.
Qed.

(** The text of the number the loop ends with. *)
Lemma _generateID_loop net base (m : Z) :
  foldl (generateID_step (base_or_N base)) (Num 1) (obj_keys (bmnodes net)) = Num m →
  (1 ≤ m ≤ 2 ^ 53)%Z → _generateID net base = base_or_N base +:+ pretty (Z.to_N m).
Proof.
  intros E Hm. unfold _generateID. cbv zeta. rewrite E, number_text_small by lia.
  by rewrite <- pretty_Z_of_N, Z2N.id by lia.
Qed.

(** The generated identifier is the base and the text of the next
    number, while the numbers in use are below 2^53. *)
Lemma _generateID_spec net base :
  agreeing (base_or_N base) (obj_keys (bmnodes net)) →
  in_range (2 ^ 53) (base_or_N base) (obj_keys (bmnodes net)) →
  ∃ n : N, _generateID net base = base_or_N base +:+ pretty n ∧ (n ≤ 2 ^ 53)%N ∧
           next_number (base_or_N base) (obj_keys (bmnodes net)) n.
Proof.
  intros Hc Hr.
  destruct (generateID_loop _ _ 1 Hc) as (m & E & Hm & Hor & Hn);
    [by apply (in_range_weaken (2 ^ 53)); [lia|]|lia|].
  exists (Z.to_N m). rewrite (_generateID_loop _ _ _ E) by lia.
  unfold next_number, after in *. split_and!; [done|lia..| |].
  - destruct Hor as [->|(z & Hz & ->)]; [by left|right].
    specialize (Hr z Hz). by replace (Z.of_N (Z.to_N (Z.min (z + 1) (2 ^ 53))) - 1)%Z with z by lia.
  - intros z Hz. specialize (Hr z Hz). specialize (Hn z Hz). lia.
Qed.

(** No node has the text of the next number behind the base. *)
Lemma next_number_unused net base (n : N) :
  (n ≤ 2 ^ 53)%N → next_number base (obj_keys (bmnodes net)) n →
  obj_get (bmnodes net) (base +:+ pretty n) = None.
Proof.
  intros Hle (_ & _ & Hn). apply eq_None_not_Some. intros Hin%elem_of_obj_keys.
  assert (Z.of_N n < Z.of_N n)%Z; [|lia]. apply Hn. exists (pretty n).
  by rewrite isNum_pretty, ToNumber_pretty.
Qed.

Lemma generated_unused net base :
  agreeing (base_or_N base) (obj_keys (bmnodes net)) →
  in_range (2 ^ 53) (base_or_N base) (obj_keys (bmnodes net)) →
  obj_get (bmnodes net) (_generateID net base) = None.
Proof.
  intros Hc Hr. destruct (_generateID_spec _ _ Hc Hr) as (n & -> & Hle & Hn).
  by apply next_number_unused.
Qed.

(** C28. [_generateID] returns an identifier that no node of the registry
    has, when the comparison and [parseInt] agree on the identifiers in
    use and every number in use is below 2^53, where the sum of line 63 is
    exact: the base followed by the decimal text of a positive number,
    which is 1 or one more than a number in use, and above every number in
    use. *)
Theorem _generateID_fresh net base :
  agreeing (base_or_N base) (obj_keys (bmnodes net)) →
  in_range (2 ^ 53) (base_or_N base) (obj_keys (bmnodes net)) →
  obj_get (bmnodes net) (_generateID net base) = None ∧
  ∃ n : N, _generateID net base = base_or_N base +:+ pretty n ∧
           next_number (base_or_N base) (obj_keys (bmnodes net)) n.
Proof.
  intros Hc Hr. split; [by apply generated_unused|].
  destruct (_generateID_spec _ _ Hc Hr) as (n & ? & _ & ?). eauto.
Qed.

(** ** Identifiers in use that are generated again *)

(** The number 2^53 is in use. *)
Lemma numbered_limit base ks :
  base +:+ pretty (2 ^ 53)%N ∈ ks → numbered base ks (2 ^ 53).
Proof.
  intros Hin. exists (pretty (2 ^ 53)%N).
  by rewrite isNum_pretty, ToNumber_pretty.
Qed.

(** At 2^53 the numbering stops.  When the identifier with the number
    2^53 is in use and no number in use is larger, the sum of line 63 is
    2^53 again, and [_generateID] returns the identifier in use. *)
Lemma _generateID_limit net base :
  agreeing (base_or_N base) (obj_keys (bmnodes net)) →
  in_range (2 ^ 53 + 1) (base_or_N base) (obj_keys (bmnodes net)) →
  base_or_N base +:+ pretty (2 ^ 53)%N ∈ obj_keys (bmnodes net) →
  _generateID net base = base_or_N base +:+ pretty (2 ^ 53)%N.
Proof.
  intros Hc Hr Hin. destruct (generateID_loop _ _ 1 Hc Hr) as (m & E & Hm & _ & Hn); [lia|].
  specialize (Hn _ (numbered_limit _ _ Hin)). unfold after in Hn.
  rewrite (_generateID_loop _ _ _ E) by lia. do 2 f_equal. lia.
Qed.

(** ** Adding a node without an identifier *)

Lemma base_or_N_mode_base (mode : MODE) : base_or_N (mode_base mode) = mode_base mode.
Proof. by destruct mode. Qed.

Lemma assigned_id_generated net (nodeData : NodeData Extra) (mode : MODE) :
  truthy (nd_id nodeData) = false →
  assigned_id net nodeData mode = _generateID net (mode_base mode).
Proof. unfold assigned_id. intros ->. by destruct mode. Qed.

(** A node stored under an identifier in use leaves the identifiers as
    they are. *)
Lemma addBMNode_in_use net (nodeData : NodeData Extra) (mode : MODE) net' (r : NodeRef) :
  is_Some (obj_get (bmnodes net) (assigned_id net nodeData mode)) →
  addBMNode net nodeData mode = Val (net', r) → (bmnodes net').*1 = (bmnodes net).*1.
Proof.
  intros Hin (node & _ & -> & _)%addBMNode_Val. cbn.
  by apply obj_set_keys_old, obj_get_is_Some.
Qed.

(** C33. When the comparison and [parseInt] disagree on the text of an
    identifier, [_generateID] returns an identifier in use.  Let the
    identifier [base + t] be visited last, with a text [t] that passes for
    a number, that the comparison reads as [z], at least 1 and above every
    other number in use, and that [parseInt] reads as [p], and let
    [base] followed by [p + 1] be an identifier in use: this is the
    generated identifier, and a node that comes without an identifier
    takes the place of the node that has it. *)
Theorem _generateID_collides net (mode : MODE) ks t (z p : Z) :
  obj_keys (bmnodes net) = ks ++ [mode_base mode +:+ t] →
  agreeing (mode_base mode) ks → in_range (2 ^ 53) (mode_base mode) ks →
  isNum t = true → ToNumber t = Num z → parseInt t = Num p →
  (1 ≤ z)%Z → in_range z (mode_base mode) ks → (0 ≤ p < 2 ^ 53)%Z →
  mode_base mode +:+ pretty (Z.to_N (p + 1)) ∈ ks →
  _generateID net (mode_base mode) = mode_base mode +:+ pretty (Z.to_N (p + 1)) ∧
  is_Some (obj_get (bmnodes net) (_generateID net (mode_base mode))) ∧
  ∀ (nodeData : NodeData Extra) net' (r : NodeRef),
    truthy (nd_id nodeData) = false → addBMNode net nodeData mode = Val (net', r) →
    (bmnodes net').*1 = (bmnodes net).*1.
Proof.
  intros Hks Hc Hr Ht Ez Ep Hz Hbelow Hp Hin. rewrite <- base_or_N_mode_base in Hc, Hr.
  destruct (generateID_loop _ _ 1 Hc) as (m & E & Hm & Hor & _);
    [by apply (in_range_weaken (2 ^ 53)); [lia|]|lia|].
  rewrite base_or_N_mode_base in Hor.
  assert (m ≤ z)%Z as Hmz.
  { destruct Hor as [->|(z' & Hz' & ->)]; [done|].
    specialize (Hbelow z' Hz'). unfold after. lia. }
  assert (_generateID net (mode_base mode) = mode_base mode +:+ pretty (Z.to_N (p + 1))) as Hid.
  { rewrite <- (base_or_N_mode_base mode) at 2. apply _generateID_loop; [|lia].
    rewrite Hks, foldl_app, E, base_or_N_mode_base. cbn.
    unfold generateID_step. rewrite prefix_append, substring_suffix, Ht, Ez, Ep.
    cbn [andb ge_number]. rewrite bool_decide_eq_true_2, succ_number_capped by lia.
    f_equal. lia. }
  assert (is_Some (obj_get (bmnodes net) (_generateID net (mode_base mode)))) as Huse.
  { rewrite Hid. apply elem_of_obj_keys. rewrite Hks, elem_of_app. by left. }
  split_and!; [done..|]. intros nodeData net' r Hno. apply addBMNode_in_use.
  by rewrite assigned_id_generated.
Qed.

(** ** The identifiers of a row *)

(** The identifiers [base1], [base2], ... up to [k]. *)
Definition numbered_ids base (k : nat) : list string :=
  (λ i : nat, base +:+ pretty (N.of_nat i)) <$> seq 1 k.

Lemma numbered_ids_agreeing base (k : nat) :
  (Z.of_nat k ≤ 2 ^ 53)%Z → agreeing base (numbered_ids base k).
Proof.
  intros Hk t (i & Hi%(inj (String.app base)) & Hin%elem_of_seq)%list_elem_of_fmap _. subst.
  exists (Z.of_N (N.of_nat i)). by rewrite ToNumber_pretty, parseInt_pretty by lia.
Qed.

Lemma numbered_numbered_ids base (k : nat) (z : Z) :
  (Z.of_nat k ≤ 2 ^ 53)%Z →
  numbered base (numbered_ids base k) z ↔ (1 ≤ z ≤ Z.of_nat k)%Z.
Proof.
  intros Hk. unfold numbered, numbered_ids. split.
  - intros (t & (i & Hi%(inj (String.app base)) & Hin%elem_of_seq)%list_elem_of_fmap & _ & E).
    subst. rewrite ToNumber_pretty in E by lia. simplify_eq. lia.
  - intros Hz. exists (pretty (Z.to_N z)). rewrite isNum_pretty, ToNumber_pretty by lia.
    split_and!; [|done|f_equal; lia]. apply list_elem_of_fmap. exists (Z.to_nat z).
    split; [do 2 f_equal; lia|]. apply elem_of_seq. lia.
Qed.

Lemma agreeing_Permutation base ks ks' : ks ≡ₚ ks' → agreeing base ks → agreeing base ks'.
Proof. intros Hp Hc t Ht. apply Hc. by rewrite Hp. Qed.

Lemma numbered_Permutation base ks ks' (z : Z) :
  ks ≡ₚ ks' → numbered base ks z → numbered base ks' z.
Proof. intros Hp (t & Ht & ?). exists t. by rewrite <- Hp. Qed.

(** A node that comes without an identifier is added beside the nodes
    of the registry, and none of them is replaced, when the comparison and
    [parseInt] agree on the identifiers in use and the numbers in use are
    below 2^53. *)
Theorem addBMNode_generated_new net (nodeData : NodeData Extra) (mode : MODE) net' (r : NodeRef) :
  agreeing (mode_base mode) (obj_keys (bmnodes net)) →
  in_range (2 ^ 53) (mode_base mode) (obj_keys (bmnodes net)) →
  truthy (nd_id nodeData) = false →
  addBMNode net nodeData mode = Val (net', r) →
  (bmnodes net').*1 = (bmnodes net).*1 ++ [_generateID net (mode_base mode)] ∧
  ∀ id node, obj_get (bmnodes net) id = Some node → obj_get (bmnodes net') id = Some node.
Proof.
  intros Hc Hr Hid (new & _ & -> & _)%addBMNode_Val. rewrite assigned_id_generated by done.
  rewrite <- base_or_N_mode_base in Hc, Hr. pose proof (generated_unused _ _ Hc Hr) as Hnew.
  cbn. split.
  - apply obj_set_keys_new. by apply obj_get_None.
  - intros id node Hnode. rewrite obj_get_set_ne; [done|]. intros <-. congruence.
Qed.

(** In a registry whose identifiers are [base1] to [basek], a node
    without an identifier becomes the next in the row. *)
Theorem addBMNode_next_number net (nodeData : NodeData Extra) (mode : MODE) (k : nat) net'
    (r : NodeRef) :
  (Z.of_nat k < 2 ^ 53)%Z →
  (bmnodes net).*1 = numbered_ids (mode_base mode) k →
  truthy (nd_id nodeData) = false →
  addBMNode net nodeData mode = Val (net', r) →
  (bmnodes net').*1 = numbered_ids (mode_base mode) (S k).
Proof.
  intros Hk Hks Hid Hadd.
  assert (obj_keys (bmnodes net) ≡ₚ numbered_ids (mode_base mode) k) as Hp
    by (by rewrite obj_keys_Permutation, Hks).
  assert (∀ z, numbered (mode_base mode) (obj_keys (bmnodes net)) z ↔ (1 ≤ z ≤ Z.of_nat k)%Z)
    as Hnum.
  { intros z. rewrite <- numbered_numbered_ids by lia.
    split; apply numbered_Permutation; done. }
  assert (agreeing (mode_base mode) (obj_keys (bmnodes net))) as Hc
    by (eapply agreeing_Permutation; [done|apply numbered_ids_agreeing; lia]).
  assert (in_range (2 ^ 53) (mode_base mode) (obj_keys (bmnodes net))) as Hr
    by (intros z Hz%Hnum; lia).
  destruct (addBMNode_generated_new _ _ _ _ _ Hc Hr Hid Hadd) as [-> _].
  rewrite <- base_or_N_mode_base in Hc, Hr.
  destruct (_generateID_spec _ _ Hc Hr) as (n & E & _ & _ & Hor & Hn).
  rewrite base_or_N_mode_base in E, Hor, Hn.
  rewrite Hks, E. unfold numbered_ids. rewrite seq_S, fmap_app. cbn. do 4 f_equal.
  destruct (decide (k = 0)) as [->|Hk0].
  - destruct Hor as [->|Hz%Hnum]; lia.
  - assert (Z.of_nat k < Z.of_N n)%Z by (apply Hn, Hnum; lia).
    destruct Hor as [->|Hz%Hnum]; lia.
Qed.

End identifiers.

(** * A registry of plain nodes

    An instance of [NodeLib] to run the registry on: a node is its
    identifier and its address, the data of a node beside the identifier is
    the address, and a node cannot be made without one.  The conversions
    read decimal digits and nothing else, and return the double nearest to
    the value; a text passes for a number when that double is finite. *)

Record PlainNode : Type := mkPlainNode {
  plain_id : string;
  plain_addr : string;
}.

#[export] Instance PlainNode_eq_dec : EqDecision PlainNode.
Proof. solve_decision. Defined.

Definition decimal_number (s : string) : number :=
  from_option (λ n, Num (round53 (Z.of_N n))) NaN (decimal s).

(** The text is made of decimal digits, and the double nearest to its
    value is finite. *)
Definition decimal_finite (s : string) : bool :=
  from_option (λ n, bool_decide (n < 2 ^ 1024 - 2 ^ 970)%N) false (decimal s).

Definition plain_lib : NodeLib string PlainNode := {|
  newBMNode nodeData _ :=
    if truthy (nd_more nodeData) then Val (mkPlainNode (nd_id nodeData) (nd_more nodeData))
    else Throw TypeError;
  node_id := plain_id;
  node_addr := plain_addr;
  getAddr := plain_addr;
  destroy _ := Val ();
  isNum := decimal_finite;
  getFileExtension s := split_last s ".";
  ToNumber := decimal_number;
  parseInt := decimal_number;
|}.

(** Conversions that also take the text [1e3] for a number: the comparison
    reads it as 1000, [parseInt] reads 1. *)
Definition loose_lib : NodeLib string PlainNode := {|
  newBMNode := newBMNode (NodeLib := plain_lib);
  node_id := plain_id;
  node_addr := plain_addr;
  getAddr := plain_addr;
  destroy _ := Val ();
  isNum s := bool_decide (s = "1e3") || decimal_finite s;
  getFileExtension s := split_last s ".";
  ToNumber s := if decide (s = "1e3") then Num 1000 else decimal_number s;
  parseInt s := if decide (s = "1e3") then Num 1 else decimal_number s;
|}.

Lemma plain_laws : DecimalLaws (H := plain_lib).
Proof.
  split; intros n Hn; cbn; unfold decimal_number, decimal_finite; rewrite decimal_pretty; cbn.
  - apply bool_decide_eq_true_2, N.le_lt_trans with (2 ^ 53)%N; [done|by vm_compute].
  - by rewrite round53_small by lia.
  - by rewrite round53_small by lia.
Qed.

Lemma plain_agreeing (base : string) (ks : list string) : agreeing (H := plain_lib) base ks.
Proof.
  intros t _ Ht. cbn in *. unfold decimal_number, decimal_finite in *.
  destruct (decimal t) as [n|]; [|done]. by eexists.
Qed.

Section registry_examples.
#[local] Existing Instance plain_lib.
#[local] Existing Instance plain_laws.

Definition example_bm : BM := mkBM "net" "/data" true.

(** A folder: a node with an identifier, a file that is no node, a file
    that does not load, a node without an identifier and a node without an
    address. *)
Definition example_files : list (DirEntry string) :=
  [ mkDirEntry "alice.dat" (Val (mkNodeData "alice" "addrA"));
    mkDirEntry "notes.txt" (Val (mkNodeData "notes" "addrN"));
    mkDirEntry "broken.dat" (Throw TypeError);
    mkDirEntry "anon.dat" (Val (mkNodeData EmptyString "addrB"));
    mkDirEntry "empty.dat" (Val (mkNodeData "empty" EmptyString)) ].

Definition example_net : BMNet PlainNode :=
  mkBMNet example_bm [("alice", mkPlainNode "alice" "addrA"); ("N1", mkPlainNode "N1" "addrB")].

Definition example_added : BMNet PlainNode :=
  mkBMNet example_bm
    [("alice", mkPlainNode "alice" "addrA"); ("N1", mkPlainNode "N1" "addrB");
     ("TMP1", mkPlainNode "TMP1" "addrC")].

Definition example_removed : BMNet PlainNode :=
  mkBMNet example_bm [("N1", mkPlainNode "N1" "addrB"); ("TMP1", mkPlainNode "TMP1" "addrC")].

Definition example_numbered : BMNet PlainNode :=
  mkBMNet example_bm [("N1", mkPlainNode "N1" "addrB"); ("N2", mkPlainNode "N2" "addrC")].

Lemma example_net_loaded : new_BMNet (Some example_bm) (Val example_files) = Val example_net.
Proof. reflexivity. Qed.

(** The numbers in use in the registry of the examples: 1 for the base
    [N], none for the base [TMP]. *)
Lemma example_net_numbered (z : Z) :
  (numbered "N" (obj_keys (bmnodes example_net)) z → z = 1%Z) ∧
  ¬ numbered "TMP" (obj_keys (bmnodes example_net)) z.
Proof.
  split.
  - intros (t & Hin & _ & E). change ("N" +:+ t) with (String "N" t) in Hin.
    apply elem_of_cons in Hin as [[=]|[= ->]%list_elem_of_singleton]. by injection E as <-.
  - intros (t & Hin & _). change ("TMP" +:+ t) with (String "T" ("MP" +:+ t)) in Hin.
    by apply elem_of_cons in Hin as [[=]|[=]%list_elem_of_singleton].
Qed.

Lemma example_added_add :
  addBMNode example_net (mkNodeData EmptyString "addrC") MODE_TMP
  = Val (example_added, mkNodeRef "TMP1" "addrC").
Proof. reflexivity. Qed.

Lemma example_removed_remove : removeBMNode example_added "alice" = Val example_removed.
Proof. reflexivity. Qed.

Lemma example_steps : rtc step example_net example_removed.
Proof.
  eapply rtc_l; [exact (step_add _ _ _ _ _ example_added_add)|].
  eapply rtc_l; [exact (step_remove _ _ _ example_removed_remove)|]. apply rtc_refl.
Qed.

Lemma reachable_wf_witness : registry_wf example_removed.
Proof.
  exact (reachable_wf (Some example_bm) (Val example_files) example_net example_removed
           example_net_loaded example_steps).
Defined.

Lemma getNode_addBMNode_witness :
  ∃ node : PlainNode,
    mkNodeRef "TMP1" "addrC" = mkNodeRef (node_id node) (node_addr node) ∧
    ∀ id, truthy id = true →
      getNode example_added id =
        if decide (id = assigned_id example_net (mkNodeData EmptyString "addrC") MODE_TMP)
        then Val (Some (Own node)) else getNode example_net id.
Proof. exact (getNode_addBMNode _ _ _ _ _ example_added_add). Defined.

Lemma getNode_removeBMNode_witness :
  getNode example_removed "alice" = Val None ∧
  getNode example_removed "N1" = getNode example_added "N1".
Proof.
  split.
  - exact (getNode_removeBMNode _ _ _ "alice" example_removed_remove eq_refl).
  - exact (getNode_removeBMNode _ _ _ "N1" example_removed_remove eq_refl).
Defined.

Lemma inherited_identifier_witness :
  getNode example_net "toString" = Val (Some FromPrototype) ∧
  isBMNodeID example_net "toString" = Val true ∧
  (∃ a, isBMNodeAddr example_net "toString" = Val a ∧
        isBMNode example_net "toString" = Val true ∧
        getNodeAddress example_net "toString" =
          if a then Val (Some "toString") else Throw TypeError) ∧
  removeBMNode example_net "toString" = Throw TypeError.
Proof. exact (inherited_identifier example_net "toString" eq_refl eq_refl). Defined.

Lemma example_net_wf : registry_wf example_net.
Proof. by apply (bool_decide_unpack _). Qed.

Lemma example_net_nodes (id : string) (node : PlainNode) :
  obj_get (bmnodes example_net) id = Some node →
  (id = "alice" ∧ node = mkPlainNode "alice" "addrA") ∨
  (id = "N1" ∧ node = mkPlainNode "N1" "addrB").
Proof.
  intros Hin%obj_get_Some. cbn in Hin.
  repeat (apply elem_of_cons in Hin as [[= -> ->]|Hin]; [by auto|]).
  by apply elem_of_nil in Hin.
Qed.

Lemma example_net_addresses (id : string) (node : PlainNode) :
  obj_get (bmnodes example_net) id = Some node →
  getAddr node = "addrA" ∨ getAddr node = "addrB".
Proof.
  intros Hin%obj_get_Some. cbn in Hin.
  repeat (apply elem_of_cons in Hin as [[= -> ->]|Hin]; [by auto|]).
  by apply elem_of_nil in Hin.
Qed.

Lemma getNodeAddress_cases_witness :
  getNodeAddress example_net "addrB" = Val (Some "addrB") ∧
  getNodeAddress example_net "N1" = Val (Some "addrB").
Proof.
  split.
  - apply (proj1 (getNodeAddress_cases example_net "addrB" example_net_wf eq_refl)).
    by exists "N1", (mkPlainNode "N1" "addrB").
  - refine (eq_trans (proj2 (getNodeAddress_cases example_net "N1" example_net_wf eq_refl) _)
              _); [|done].
    by intros id' node [E|E]%example_net_addresses; rewrite E.
Defined.

Lemma isBMNode_true_witness :
  isBMNode example_net "alice" = Val true ∧ isBMNode example_net "addrB" = Val true.
Proof.
  split.
  - apply (isBMNode_true example_net "alice" example_net_wf eq_refl). by right.
  - apply (isBMNode_true example_net "addrB" example_net_wf eq_refl). left.
    by exists "N1", (mkPlainNode "N1" "addrB").
Defined.

Lemma _generateID_fresh_witness :
  obj_get (bmnodes example_net) (_generateID example_net EmptyString) = None ∧
  ∃ n : N, _generateID example_net EmptyString = "N" +:+ pretty n ∧
           next_number "N" (obj_keys (bmnodes example_net)) n.
Proof.
  apply (_generateID_fresh example_net EmptyString); [apply plain_agreeing|].
  intros z ->%example_net_numbered. done.
Defined.

Lemma addBMNode_generated_new_witness :
  (bmnodes example_added).*1 = (bmnodes example_net).*1 ++ [_generateID example_net "TMP"] ∧
  ∀ id node, obj_get (bmnodes example_net) id = Some node →
             obj_get (bmnodes example_added) id = Some node.
Proof.
  apply (addBMNode_generated_new example_net (mkNodeData EmptyString "addrC") MODE_TMP _
           (mkNodeRef "TMP1" "addrC")); [apply plain_agreeing| |done..].
  by intros z ?%example_net_numbered.
Defined.

Lemma addBMNode_next_number_witness :
  (bmnodes example_numbered).*1 = numbered_ids "N" 2.
Proof.
  exact (addBMNode_next_number (mkBMNet example_bm [("N1", mkPlainNode "N1" "addrB")])
           (mkNodeData EmptyString "addrC") MODE_DEFAULT 1 example_numbered
           (mkNodeRef "N2" "addrC") eq_refl eq_refl eq_refl eq_refl).
Defined.

(** Under [loose_lib] the identifier [N1e3] is read as 1000 by the
    comparison and as 1 by [parseInt]: with [N2] in use, the generated
    identifier is [N2]. *)
Definition example_loose : BMNet PlainNode :=
  mkBMNet example_bm [("N2", mkPlainNode "N2" "addrA"); ("N1e3", mkPlainNode "N1e3" "addrB")].

Lemma example_loose_numbered (z : Z) : numbered (H := loose_lib) "N" ["N2"] z → z = 2%Z.
Proof.
  intros (t & Hin & _ & E). change ("N" +:+ t) with (String "N" t) in Hin.
  apply list_elem_of_singleton in Hin as [= ->]. by injection E as <-.
Qed.

Lemma _generateID_collides_witness :
  _generateID (H := loose_lib) example_loose (mode_base MODE_DEFAULT) =
    mode_base MODE_DEFAULT +:+ pretty (Z.to_N (1 + 1)) ∧
  is_Some (obj_get (bmnodes example_loose)
             (_generateID (H := loose_lib) example_loose (mode_base MODE_DEFAULT))) ∧
  ∀ (nodeData : NodeData string) net' (r : NodeRef),
    truthy (nd_id nodeData) = false →
    addBMNode (H := loose_lib) example_loose nodeData MODE_DEFAULT = Val (net', r) →
    (bmnodes net').*1 = (bmnodes example_loose).*1.
Proof.
  apply (_generateID_collides (H := loose_lib) example_loose MODE_DEFAULT ["N2"] "1e3" 1000 1);
    [done| | |done..| |done|by left].
  - intros t Hin _. change (mode_base MODE_DEFAULT +:+ t) with (String "N" t) in Hin.
    apply list_elem_of_singleton in Hin as [= ->]. by exists 2%Z.
  - by intros z ->%example_loose_numbered.
  - by intros z ->%example_loose_numbered.
Defined.

(** The node of [N2] is replaced by the node that comes without an
    identifier. *)
Example example_loose_replaced :
  addBMNode (H := loose_lib) example_loose (mkNodeData EmptyString "addrC") MODE_DEFAULT
  = Val (mkBMNet example_bm
           [("N2", mkPlainNode "N2" "addrC"); ("N1e3", mkPlainNode "N1e3" "addrB")],
         mkNodeRef "N2" "addrC").
Proof. done. Qed.

(** With the identifier of the number 2^53 in use, the generated
    identifier is that one again. *)
Example example_limit :
  _generateID (mkBMNet example_bm
                 [("N9007199254740992", mkPlainNode "N9007199254740992" "addrA")])
    EmptyString = "N9007199254740992".
Proof. by vm_compute. Qed.

End registry_examples.
