(* ===== verification/Additions.v ===== *)
(** * Additions: nodes that come without an identifier, one after another

    [addBMNode] (src/TMNet.js, lines 71 to 80) gives a node without an
    identifier the one that [_generateID] makes of the identifiers in use.
    This file follows a sequence of such calls: in a registry that numbers
    its nodes from 1 the numbering goes on without a gap, and when the two
    conversions of [_generateID] agree no call replaces a node, as long as
    the numbers stay below 2^53; once the number 2^53 is in use, every
    call replaces the node of the call before.  The identifier is written
    into the object the caller handed over (lines 73 and 74): a second call
    with the same object stores its node under the identifier of the
    first. *)

From stdpp Require Import pretty relations.
From S2P Require Import Prelude.
From S2P Require Import JsString.
From S2P Require Import JsNumber.
From S2P Require Import JsObject.
From S2P Require Import Registry.

Section additions.
Context `{NodeLib Extra Node} `{!DecimalLaws}.
Implicit Types (net : BMNet Node) (mode : MODE) (k n : nat).

(** One call [addBMNode(nodeData, mode)] that returns, for a node that
    comes without an identifier. *)
Inductive adds mode : BMNet Node → BMNet Node → Prop :=
| adds_node net (nodeData : NodeData Extra) net' (r : NodeRef) :
    truthy (nd_id nodeData) = false →
    addBMNode net nodeData mode = Val (net', r) → adds mode net net'.

(** The same in any mode. *)
Definition adds_any net net' : Prop := ∃ mode, adds mode net net'.

(** C30. The numbering goes on.  In a registry whose identifiers are
    [base1] to [basek], [n] nodes added without an identifier, one after
    another, get the identifiers [base(k+1)] to [base(k+n)], in this
    order, up to the number 2^53. *)
Theorem additions_numbered mode k n net net' :
  (Z.of_nat (k + n) ≤ 2 ^ 53)%Z →
  (bmnodes net).*1 = numbered_ids (mode_base mode) k →
  nsteps (adds mode) n net net' →
  (bmnodes net').*1 = numbered_ids (mode_base mode) (k + n).
Proof.
  intros Hle Hks Hsteps. revert k Hle Hks.
  induction Hsteps as [net|n net net1 net' [net0 nodeData net2 r Hid Hadd] _ IH];
    intros k Hle Hks.
  - by rewrite Nat.add_0_r.
  - rewrite Nat.add_succ_r, <- Nat.add_succ_l. apply IH; [lia|].
    eapply addBMNode_next_number; [|done..]. lia.
Qed.

(** The conversions agree on every identifier. *)
Definition conversions_agree : Prop := ∀ base ks, agreeing base ks.

(** The numbers in use leave room for [n] more below 2^53. *)
Definition room n net : Prop :=
  (Z.of_nat n < 2 ^ 53)%Z ∧
  ∀ mode, in_range (2 ^ 53 - Z.of_nat n) (mode_base mode) (obj_keys (bmnodes net)).

Lemma mode_base_inj mode mode' (t t' : string) :
  mode_base mode +:+ t = mode_base mode' +:+ t' → mode = mode' ∧ t = t'.
Proof.
  assert (∀ m x, mode_base m +:+ x =
            if decide (m = MODE_TMP) then String "T" (String "M" (String "P" x))
            else String "N" x) as Hx by (by intros [] x).
  rewrite !Hx. by destruct mode, mode'; intros [= ->].
Qed.

(** The numbers in use after a node was added under a generated
    identifier: those in use before, and the next number of its base. *)
Lemma numbered_added net mode mode' (node : Node) (n : N) (z : Z) :
  (n ≤ 2 ^ 53)%N →
  numbered (mode_base mode')
    (obj_keys (obj_set (bmnodes net) (mode_base mode +:+ pretty n) node)) z →
  numbered (mode_base mode') (obj_keys (bmnodes net)) z ∨ (mode' = mode ∧ z = Z.of_N n).
Proof.
  intros Hn (t & Hin & Ht & Ez). apply elem_of_obj_keys in Hin.
  destruct (decide (mode_base mode' +:+ t = mode_base mode +:+ pretty n)) as [E|Hne].
  - right. apply mode_base_inj in E as [-> ->]. rewrite ToNumber_pretty in Ez by done.
    by simplify_eq.
  - left. exists t. rewrite obj_get_set_ne in Hin by done. by rewrite elem_of_obj_keys.
Qed.

Lemma adds_any_keeps n net net' :
  conversions_agree → room (S n) net → adds_any net net' →
  room n net' ∧ length (bmnodes net') = S (length (bmnodes net)) ∧
  ∀ id node, obj_get (bmnodes net) id = Some node → obj_get (bmnodes net') id = Some node.
Proof.
  intros Hagree Hroom [mode Hadds]. revert Hroom.
  destruct Hadds as [net0 nodeData net1 r Hid Hadd]. intros [Hn Hroom].
  assert (in_range (2 ^ 53) (mode_base mode) (obj_keys (bmnodes net0))) as Hr
    by (eapply in_range_weaken; [|apply Hroom]; lia).
  destruct (addBMNode_generated_new net0 nodeData mode net1 r) as [Hkeys Hold]; [done..|].
  split_and!; [|apply (f_equal length) in Hkeys;
                 rewrite length_app, !length_fmap in Hkeys; cbn in Hkeys; lia|done].
  pose proof (Hagree (mode_base mode) (obj_keys (bmnodes net0))) as Hc.
  rewrite <- base_or_N_mode_base in Hc, Hr.
  destruct (_generateID_spec _ _ Hc Hr) as (k & E & Hk & _ & Hor & _).
  rewrite base_or_N_mode_base in E, Hor.
  apply addBMNode_Val in Hadd as (node & _ & -> & _).
  rewrite assigned_id_generated, E by done. split; [lia|]. intros mode' z Hz. cbn in Hz.
  apply numbered_added in Hz as [Hz%Hroom|[-> ->]]; [lia| |done].
  destruct Hor as [->|Hk1%Hroom]; lia.
Qed.

(** No addition replaces a node.  When the comparison and [parseInt]
    agree and the numbers in use leave room for [n] more below 2^53, [n]
    nodes added without an identifier, in any modes, make the registry
    [n] nodes larger, and every node that was there is still found under
    its identifier. *)
Theorem additions_keep n net net' :
  conversions_agree → room n net → nsteps adds_any n net net' →
  length (bmnodes net') = length (bmnodes net) + n ∧
  ∀ id node, obj_get (bmnodes net) id = Some node → obj_get (bmnodes net') id = Some node.
Proof.
  intros Hagree Hroom Hsteps. revert Hroom.
  induction Hsteps as [net|n net net1 net' Hadd _ IH]; intros Hroom.
  - split; [lia|done].
  - destruct (adds_any_keeps _ _ _ Hagree Hroom Hadd) as (Hroom1 & Hlen & Hold).
    destruct (IH Hroom1) as [IHlen IHold]. split; [lia|auto].
Qed.

(** ** The end of the numbering *)

Lemma obj_keys_ext (o o' : list (string * Node)) : o.*1 = o'.*1 → obj_keys o = obj_keys o'.
Proof. unfold obj_keys. by intros ->. Qed.

(** C31. The numbering stops at 2^53.  When the identifier with the number
    2^53 is in use and no number in use is larger, the sum of line 63 is
    2^53 again: every node added without an identifier is stored under
    that identifier, in the place of the node that had it, and the
    registry has the identifiers it had, however many nodes are added. *)
Theorem additions_stop mode n net net' :
  agreeing (mode_base mode) (obj_keys (bmnodes net)) →
  in_range (2 ^ 53 + 1) (mode_base mode) (obj_keys (bmnodes net)) →
  mode_base mode +:+ pretty (2 ^ 53)%N ∈ obj_keys (bmnodes net) →
  nsteps (adds mode) n net net' →
  (bmnodes net').*1 = (bmnodes net).*1 ∧
  _generateID net' (mode_base mode) = mode_base mode +:+ pretty (2 ^ 53)%N.
Proof.
  intros Hc Hr Hin Hsteps.
  pose proof (λ net0, _generateID_limit net0 (mode_base mode)) as Hlimit.
  rewrite base_or_N_mode_base in Hlimit.
  induction Hsteps as [net|n net net1 net' [net0 nodeData net2 r Hid Hadd] _ IH].
  - split; [done|]. by apply Hlimit.
  - assert ((bmnodes net2).*1 = (bmnodes net0).*1) as Hsame.
    { eapply addBMNode_in_use; [|done].
      rewrite assigned_id_generated, Hlimit by done. by apply elem_of_obj_keys. }
    rewrite (obj_keys_ext _ _ Hsame) in IH. destruct IH as [-> ?]; done.
Qed.

(** ** The same object twice *)

(** The object [nodeData] as a call of [addBMNode] leaves it: the
    identifier is the one the node was stored under (lines 72 to 75). *)
Definition nodeData_after net (nodeData : NodeData Extra) mode : NodeData Extra :=
  mkNodeData (assigned_id net nodeData mode) (nd_more nodeData).

(** C32. The same object twice.  A call of [addBMNode] leaves the identifier
    it stored the node under in the object it was given.  A second call
    with this object, whatever its other data and the mode, makes no new
    identifier: its node takes the place of the first, which is no longer
    in the registry, and every other node stays. *)
Theorem same_object_replaces net (nodeData : NodeData Extra) mode mode' (more : Extra)
    net1 net2 (r1 r2 : NodeRef) :
  addBMNode net nodeData mode = Val (net1, r1) →
  addBMNode net1 (mkNodeData (nd_id (nodeData_after net nodeData mode)) more) mode' =
    Val (net2, r2) →
  (bmnodes net2).*1 = (bmnodes net1).*1 ∧
  ∃ node, newBMNode (mkNodeData (assigned_id net nodeData mode) more) mode' = Val node ∧
    obj_get (bmnodes net2) (assigned_id net nodeData mode) = Some node ∧
    ∀ id, id ≠ assigned_id net nodeData mode →
      obj_get (bmnodes net2) id = obj_get (bmnodes net1) id.
Proof.
  intros (node1 & _ & -> & _)%addBMNode_Val (node & Hnode & -> & _)%addBMNode_Val.
  assert (∀ net', assigned_id net' (mkNodeData (nd_id (nodeData_after net nodeData mode))
                                      more) mode' = assigned_id net nodeData mode) as Hsame.
  { intros net'. unfold assigned_id at 1. cbn [nd_id nodeData_after].
    by rewrite (proj2 (truthy_nonempty _) (assigned_id_nonempty net nodeData mode)). }
  rewrite Hsame in Hnode |- *. cbn [bmnodes nd_more] in *. split.
  - apply obj_set_keys_old, obj_get_is_Some. by rewrite obj_get_set_eq.
  - exists node. split_and!; [done|apply obj_get_set_eq|].
    intros id Hid. by apply obj_get_set_ne.
Qed.

End additions.

(** ** Examples *)

Section additions_examples.
#[local] Existing Instance plain_lib.
#[local] Existing Instance plain_laws.

(** A node that comes with an address and no identifier. *)
Definition example_unnamed (addr : string) : NodeData string := mkNodeData EmptyString addr.

(** Three of them added to an empty registry. *)
Definition example_three : BMNet PlainNode :=
  mkBMNet example_bm
    [("N1", mkPlainNode "N1" "a1"); ("N2", mkPlainNode "N2" "a2"); ("N3", mkPlainNode "N3" "a3")].

Lemma example_three_added : nsteps (adds MODE_DEFAULT) 3 (mkBMNet example_bm []) example_three.
Proof.
  eapply nsteps_l; [by eapply (adds_node _ _ (example_unnamed "a1"))|].
  eapply nsteps_l; [by eapply (adds_node _ _ (example_unnamed "a2"))|].
  eapply nsteps_l; [by eapply (adds_node _ _ (example_unnamed "a3"))|].
  apply nsteps_O.
Qed.

Lemma additions_numbered_witness :
  (bmnodes example_three).*1 = numbered_ids (mode_base MODE_DEFAULT) (0 + 3).
Proof.
  apply (additions_numbered MODE_DEFAULT 0 3 (mkBMNet example_bm [])); [done|done|].
  apply example_three_added.
Defined.

(** Two more, one of them temporary, added to the registry of the
    examples. *)
Definition example_grown : BMNet PlainNode :=
  mkBMNet example_bm
    (bmnodes example_net ++
     [("TMP1", mkPlainNode "TMP1" "a1"); ("N2", mkPlainNode "N2" "a2")]).

Lemma example_grown_added : nsteps adds_any 2 example_net example_grown.
Proof.
  eapply nsteps_l; [exists MODE_TMP; by eapply (adds_node _ _ (example_unnamed "a1"))|].
  eapply nsteps_l; [exists MODE_DEFAULT; by eapply (adds_node _ _ (example_unnamed "a2"))|].
  apply nsteps_O.
Qed.

Lemma additions_keep_witness :
  length (bmnodes example_grown) = length (bmnodes example_net) + 2 ∧
  ∀ id node, obj_get (bmnodes example_net) id = Some node →
             obj_get (bmnodes example_grown) id = Some node.
Proof.
  apply (additions_keep 2 example_net example_grown);
    [exact plain_agreeing| |apply example_grown_added].
  split; [done|]. intros mode z Hz.
  destruct mode; [by apply example_net_numbered in Hz as ->|].
  by apply example_net_numbered in Hz.
Defined.

(** A registry whose one node has the number 2^53, and a second node
    added to it: the registry still has one node, the second. *)
Definition example_last : BMNet PlainNode :=
  mkBMNet example_bm [("N9007199254740992", mkPlainNode "N9007199254740992" "a1")].

Definition example_after_last : BMNet PlainNode :=
  mkBMNet example_bm [("N9007199254740992", mkPlainNode "N9007199254740992" "a2")].

Lemma example_last_numbered (z : Z) :
  numbered "N" (obj_keys (bmnodes example_last)) z → z = (2 ^ 53)%Z.
Proof.
  intros (t & Hin & _ & E). change ("N" +:+ t) with (String "N" t) in Hin.
  apply list_elem_of_singleton in Hin as [= ->]. by injection E as <-.
Qed.

Lemma additions_stop_witness :
  (bmnodes example_after_last).*1 = (bmnodes example_last).*1 ∧
  _generateID example_after_last (mode_base MODE_DEFAULT) =
    mode_base MODE_DEFAULT +:+ pretty (2 ^ 53)%N.
Proof.
  apply (additions_stop MODE_DEFAULT 1 example_last example_after_last);
    [apply plain_agreeing| |by left|].
  - by intros z ->%example_last_numbered.
  - eapply nsteps_l; [by eapply (adds_node _ _ (example_unnamed "a2"))|]. apply nsteps_O.
Defined.

(** The object of the first node is used again for a node with another
    address: the registry has one node, with the second address. *)
Lemma same_object_replaces_witness :
  (bmnodes (mkBMNet example_bm [("N1", mkPlainNode "N1" "a2")])).*1 =
    (bmnodes (mkBMNet example_bm [("N1", mkPlainNode "N1" "a1")])).*1 ∧
  ∃ node,
    newBMNode (mkNodeData (assigned_id (mkBMNet example_bm []) (example_unnamed "a1")
                             MODE_DEFAULT) "a2") MODE_DEFAULT = Val node ∧
    obj_get (bmnodes (mkBMNet example_bm [("N1", mkPlainNode "N1" "a2")]))
      (assigned_id (mkBMNet example_bm []) (example_unnamed "a1") MODE_DEFAULT) = Some node ∧
    ∀ id, id ≠ assigned_id (mkBMNet example_bm []) (example_unnamed "a1") MODE_DEFAULT →
      obj_get (bmnodes (mkBMNet example_bm [("N1", mkPlainNode "N1" "a2")])) id =
      obj_get (bmnodes (mkBMNet example_bm [("N1", mkPlainNode "N1" "a1")])) id.
Proof.
  by apply (same_object_replaces (mkBMNet example_bm []) (example_unnamed "a1")
              MODE_DEFAULT MODE_DEFAULT "a2" _ _ (mkNodeRef "N1" "a1") (mkNodeRef "N1" "a2")).
Defined.

End additions_examples.
