(* ===== verification/RegistrySpec.v ===== *)
(** * RegistrySpec: what the registry promises, and that src/TMNet.js keeps it

    To its clients the registry of src/TMNet.js is a finite map from
    identifiers to nodes, changed by three calls.  [spec_does] says what
    each call may do to the map and what it answers: [addBMNode] puts the
    node that the constructor makes under the identifier of its data, or
    under a new identifier of the base of its mode; [removeBMNode] destroys
    the node under the identifier and drops it; [loadBMNet] adds the nodes
    of the files of the folder; a call that throws leaves the map as it
    is.  The reads are functions of the map.

    [abs] takes a registry of [Registry] to the map it stands for.  The
    refinement is a simulation step by step with [abs] as the abstraction
    function: every call of the registry, with its answer, is a step of
    the specification with the same call and the same answer, so every
    run of the registry is a run of the specification.  Every read returns
    what the specification returns on the map, for the identifiers that
    are no names an object inherits; the file ends with the reads that see
    the order of the keys, which the map forgets. *)

From stdpp Require Import pretty gmap relations.
From S2P Require Import Prelude.
From S2P Require Import JsString.
From S2P Require Import JsNumber.
From S2P Require Import JsObject.
From S2P Require Import Registry.

#[export] Instance NodeRef_countable : Countable NodeRef.
Proof.
  apply (inj_countable' (λ r, (ref_id r, ref_address r)) (λ p, mkNodeRef p.1 p.2)).
  by intros [].
Qed.

Section registry_spec.
Context `{NodeLib Extra Node} `{!DecimalLaws}.
Implicit Types (m : gmap string Node) (net : BMNet Node) (id addr base : string).

(** ** The specification *)

(** The numeric texts behind [base] in the identifiers of the map are read
    alike by the comparison and by [parseInt], as an integer below 2^53. *)
Definition regular base m : Prop :=
  ∀ t, is_Some (m !! (base +:+ t)) → isNum t = true →
    ∃ z : Z, ToNumber t = Num z ∧ parseInt t = Num z ∧ (z < 2 ^ 53)%Z.

(** The identifier a node is put under: that of its data, or else one
    that starts with the base of the mode, which is new when the map is
    regular for the base. *)
Definition spec_assigns m (nodeData : NodeData Extra) (mode : MODE) id : Prop :=
  if truthy (nd_id nodeData) then id = nd_id nodeData
  else id ≠ EmptyString ∧ String.prefix (mode_base mode) id = true ∧
       (regular (mode_base mode) m → m !! id = None).

(** [addBMNode]: the node that the constructor makes of the data is put
    under its identifier and the call answers its reference; when the
    constructor throws, so does the call. *)
Inductive spec_add m (nodeData : NodeData Extra) (mode : MODE)
    : Answer → gmap string Node → Prop :=
| spec_add_returns id (node : Node) :
    spec_assigns m nodeData mode id →
    newBMNode (mkNodeData id (nd_more nodeData)) mode = Val node →
    spec_add m nodeData mode (Returned (Some (mkNodeRef (node_id node) (node_addr node))))
      (<[id := node]> m)
| spec_add_throws id (e : exn) :
    spec_assigns m nodeData mode id →
    newBMNode (mkNodeData id (nd_more nodeData)) mode = Throw e →
    spec_add m nodeData mode (Threw e) m.

(** The exception of [removeBMNode]: the identifier is missing; no node
    has it, and then the exception tells a name that every object inherits
    from the others; or the node cannot be destroyed. *)
Definition spec_remove_error m id (e : exn) : Prop :=
  (id = EmptyString ∧ e = Thrown "ERR: ID is required") ∨
  (id ≠ EmptyString ∧ m !! id = None ∧
   e = if inherited id then TypeError else Thrown "ERR: Invalid ID") ∨
  (∃ node : Node, id ≠ EmptyString ∧ m !! id = Some node ∧ destroy node = Throw e).

(** [loadBMNet]: the data of the files are added one after the other in
    the default mode, whatever each addition answers. *)
Inductive spec_loads : gmap string Node → list (NodeData Extra) → gmap string Node → Prop :=
| spec_loads_nil m : spec_loads m [] m
| spec_loads_cons m nodeData (a : Answer) m1 rest m2 :
    spec_add m nodeData MODE_DEFAULT a m1 → spec_loads m1 rest m2 →
    spec_loads m (nodeData :: rest) m2.

(** One call with its answer. *)
Inductive spec_does m : Call Extra * Answer → gmap string Node → Prop :=
| spec_does_add nodeData mode (a : Answer) m1 :
    spec_add m nodeData mode a m1 → spec_does m (AddBMNode nodeData mode, a) m1
| spec_does_remove id (node : Node) :
    id ≠ EmptyString → m !! id = Some node → destroy node = Val () →
    spec_does m (RemoveBMNode id, Returned None) (delete id m)
| spec_does_remove_throws id (e : exn) :
    spec_remove_error m id e → spec_does m (RemoveBMNode id, Threw e) m
| spec_does_load (files : list (DirEntry Extra)) m1 :
    spec_loads m (omap dat_object files) m1 →
    spec_does m (LoadBMNet (Val files), Returned None) m1
| spec_does_load_throws (e : exn) :
    spec_does m (LoadBMNet (Throw e), Threw e) m.

Definition spec_getNode m id : res (option Node) :=
  if truthy id then Val (m !! id) else Throw (Thrown "ERR: ID is required").

Definition spec_isBMNodeID m id : res bool :=
  if truthy id then Val (bool_decide (id ∈ dom m)) else Throw (Thrown "ERR: ID is required").

(** The entries of the status, in no order. *)
Definition spec_status m : gset NodeRef :=
  map_to_set (λ id node, mkNodeRef id (node_addr node)) m.

(** No identifier of the map is empty. *)
Definition spec_wf m : Prop := m !! EmptyString = None.

Lemma spec_add_wf m (nodeData : NodeData Extra) (mode : MODE) (a : Answer) m1 :
  spec_wf m → spec_add m nodeData mode a m1 → spec_wf m1.
Proof.
  unfold spec_wf. intros Hwf [id node Hid _|]; [|done].
  rewrite lookup_insert_ne; [done|]. unfold spec_assigns in Hid.
  destruct (truthy (nd_id nodeData)) eqn:E; [|by destruct Hid as [? _]].
  subst id. by destruct (nd_id nodeData).
Qed.

Lemma spec_loads_wf m (nds : list (NodeData Extra)) m1 :
  spec_wf m → spec_loads m nds m1 → spec_wf m1.
Proof. induction 2; eauto using spec_add_wf. Qed.

(** No call of the specification puts a node under the empty
    identifier. *)
Lemma spec_does_wf m (ev : Call Extra * Answer) m1 : spec_wf m → spec_does m ev m1 → spec_wf m1.
Proof.
  intros Hwf [| id node Hid _ _ | | |]; eauto using spec_add_wf, spec_loads_wf.
  unfold spec_wf. by rewrite lookup_delete_ne.
Qed.

(** ** The abstraction *)

Definition abs net : gmap string Node := obj_map (bmnodes net).

(** Registries that stand for the same map of the same instance. *)
Definition net_equiv net1 net2 : Prop :=
  bm net1 = bm net2 ∧ obj_equiv (bmnodes net1) (bmnodes net2).

#[export] Instance net_equiv_equivalence : Equivalence net_equiv.
Proof.
  unfold net_equiv. split.
  - by intros ?.
  - by intros ? ? [? ?].
  - intros ? ? ? [? ?] [? ?]. split; [congruence|by etrans].
Qed.

Lemma net_equiv_abs net1 net2 : net_equiv net1 net2 ↔ bm net1 = bm net2 ∧ abs net1 = abs net2.
Proof. done. Qed.

(** ** The reads *)

Lemma getNode_abs net id :
  inherited id = false → getNode net id = fmap (M := option) Own <$> spec_getNode (abs net) id.
Proof.
  intros Hid. unfold getNode, spec_getNode, abs.
  rewrite obj_map_lookup, obj_read_not_inherited by done. by destruct (truthy id).
Qed.

Lemma isBMNodeID_abs net id :
  inherited id = false → isBMNodeID net id = spec_isBMNodeID (abs net) id.
Proof.
  intros Hid. unfold isBMNodeID, spec_isBMNodeID. rewrite getNode_abs by done.
  unfold spec_getNode. destruct (truthy id); cbn; [|done]. f_equal.
  apply bool_decide_ext. by rewrite fmap_is_Some, elem_of_dom.
Qed.

Lemma getStatus_abs net : list_to_set (getStatus net).2 = spec_status (abs net).
Proof.
  apply set_eq. intros [id addr].
  unfold spec_status, getStatus, abs. cbn [snd].
  rewrite elem_of_list_to_set, elem_of_map_to_set, list_elem_of_omap.
  setoid_rewrite obj_map_lookup. setoid_rewrite elem_of_obj_keys. split.
  - intros (id' & _ & Hnode). destruct (obj_get (bmnodes net) id') as [node|] eqn:E; [|done].
    exists id', node. by simplify_eq/=.
  - intros (id' & node & Hnode & [= -> <-]). exists id. by rewrite Hnode.
Qed.

#[export] Instance getNode_proper : Proper (net_equiv ==> (=) ==> (=)) getNode.
Proof.
  intros net1 net2 [_ E] id ? <-. unfold getNode, obj_read.
  by rewrite (proj1 (obj_equiv_lookup _ _) E id).
Qed.

#[export] Instance isBMNodeID_proper : Proper (net_equiv ==> (=) ==> (=)) isBMNodeID.
Proof. intros net1 net2 E id ? <-. unfold isBMNodeID. by rewrite E. Qed.

(** ** The changes *)

Lemma regular_abs base net :
  regular base (abs net) →
  agreeing base (obj_keys (bmnodes net)) ∧ in_range (2 ^ 53) base (obj_keys (bmnodes net)).
Proof.
  unfold regular, abs. setoid_rewrite obj_map_lookup. intros Hreg. split.
  - intros t Ht%elem_of_obj_keys Hnum. destruct (Hreg t Ht Hnum) as (z & ? & ? & _). eauto.
  - intros z (t & Ht%elem_of_obj_keys & Hnum & Ez).
    destruct (Hreg t Ht Hnum) as (z' & Ez' & _ & ?). congruence.
Qed.

(** The identifier that [addBMNode] stores a node under is one that the
    specification assigns. *)
Lemma assigned_id_spec net (nodeData : NodeData Extra) (mode : MODE) :
  spec_assigns (abs net) nodeData mode (assigned_id net nodeData mode).
Proof.
  unfold spec_assigns. destruct (truthy (nd_id nodeData)) eqn:E.
  - unfold assigned_id. by rewrite E.
  - rewrite assigned_id_generated by done. split_and!.
    + apply _generateID_nonempty.
    + unfold _generateID. rewrite base_or_N_mode_base. apply prefix_append.
    + intros [Hc Hr]%regular_abs. unfold abs. rewrite obj_map_lookup.
      rewrite <- base_or_N_mode_base in Hc, Hr. by apply generated_unused.
Qed.

Lemma addBMNode_spec_add net (nodeData : NodeData Extra) (mode : MODE) :
  spec_add (abs net) nodeData mode (perform net (AddBMNode nodeData mode)).2
    (abs (perform net (AddBMNode nodeData mode)).1).
Proof.
  pose proof (assigned_id_spec net nodeData mode) as Hid. unfold perform.
  destruct (addBMNode net nodeData mode) as [[net1 r]|e] eqn:E; cbn [fst snd].
  - apply addBMNode_Val in E as (node & Hnode & -> & ->). unfold abs. cbn [bmnodes].
    rewrite obj_map_set. by apply spec_add_returns.
  - unfold addBMNode in E. cbv zeta in E.
    destruct (newBMNode _ mode) as [node|e'] eqn:En; [done|]. injection E as <-.
    by eapply spec_add_throws.
Qed.

Lemma removeBMNode_spec_does net id :
  spec_does (abs net) (RemoveBMNode id, (perform net (RemoveBMNode id)).2)
    (abs (perform net (RemoveBMNode id)).1).
Proof.
  unfold perform. rewrite removeBMNode_cases. unfold obj_read.
  destruct (truthy id) eqn:Hid; cbn [negb fst snd].
  - apply truthy_nonempty in Hid. destruct (obj_get (bmnodes net) id) as [node|] eqn:E.
    + destruct (destroy node) as [[]|e] eqn:Ed; cbn [mbind res_bind fst snd].
      * unfold abs. cbn [bmnodes]. rewrite obj_map_delete.
        eapply spec_does_remove; [done| |done]. by rewrite obj_map_lookup.
      * apply spec_does_remove_throws. do 2 right. exists node.
        unfold abs. by rewrite obj_map_lookup.
    + assert (abs net !! id = None) by (unfold abs; by rewrite obj_map_lookup).
      destruct (inherited id) eqn:Hin; cbn [fst snd]; apply spec_does_remove_throws;
        right; left; by rewrite Hin.
  - apply spec_does_remove_throws. left. by apply truthy_false in Hid.
Qed.

Lemma load_files_spec_loads net (files : list (DirEntry Extra)) :
  spec_loads (abs net) (omap dat_object files) (abs (load_files net files)).
Proof.
  unfold load_files. revert net. induction files as [|file files IH]; intros net.
  { apply spec_loads_nil. }
  cbn. unfold load_file at 2, dat_object at 1. case_decide; [|done].
  destruct (file_object file) as [nodeData|]; cbn; [|done].
  pose proof (addBMNode_spec_add net nodeData MODE_DEFAULT) as Hadd. unfold perform in Hadd.
  destruct (addBMNode net nodeData MODE_DEFAULT) as [[net1 r]|]; eapply spec_loads_cons; eauto.
Qed.

(** Every call of the registry is a step of the specification with the
    same call and the same answer. *)
Lemma does_spec_does net (ev : Call Extra * Answer) net' :
  does net ev net' → spec_does (abs net) ev (abs net').
Proof.
  destruct ev as [c a]. unfold does. cbn. intros E.
  replace net' with (perform net c).1 by (by rewrite E).
  replace a with (perform net c).2 by (by rewrite E). clear E.
  destruct c as [nodeData mode|id|[files|e]].
  - apply spec_does_add, addBMNode_spec_add.
  - apply removeBMNode_spec_does.
  - apply spec_does_load, load_files_spec_loads.
  - apply spec_does_load_throws.
Qed.

(** C27. The registry refines its specification.  Every run of a
    registry, from its construction on and through any calls of
    [addBMNode], [removeBMNode] and [loadBMNet], is a run of the
    specification from the empty map, with the same calls and the same
    answers, that ends in the map the registry stands for. *)
Theorem registry_refines (instance : option BM) (listing : res (list (DirEntry Extra)))
    net0 (evs : list (Call Extra * Answer)) net :
  new_BMNet instance listing = Val net0 → runs does net0 evs net →
  runs spec_does ∅ ((LoadBMNet listing, Returned None) :: evs) (abs net).
Proof.
  intros (b & files & _ & -> & _ & ->)%new_BMNet_Val Hrun.
  eapply runs_cons; [|by eapply runs_simulation; [apply does_spec_does|]].
  apply spec_does_load. apply (load_files_spec_loads (mkBMNet b [])).
Qed.

(** The reads of the registry are functions of the map it stands for:
    for every identifier that is not a name the object inherits, [getNode]
    and [isBMNodeID] return what the specification returns, and the
    entries of [getStatus] are the entries of the map. *)
Theorem registry_reads_refine net :
  (∀ id, inherited id = false → getNode net id = fmap (M := option) Own <$> spec_getNode (abs net) id) ∧
  (∀ id, inherited id = false → isBMNodeID net id = spec_isBMNodeID (abs net) id) ∧
  (getStatus net).1 = bm_name (bm net) ∧
  list_to_set (getStatus net).2 = spec_status (abs net).
Proof.
  split_and!; [apply getNode_abs|apply isBMNodeID_abs|done|apply getStatus_abs].
Qed.

(** ** Reads by address *)

(** No two nodes of the map have the same address. *)
Definition addresses_differ m : Prop :=
  ∀ id1 id2 (n1 n2 : Node),
    m !! id1 = Some n1 → m !! id2 = Some n2 → getAddr n1 = getAddr n2 → id1 = id2.

(** When no two nodes have the same address, [getNodeID] is a function
    of the map: it returns the identifier of the node with the address, and
    [null] when there is none. *)
Theorem getNodeID_abs net addr id :
  addresses_differ (abs net) → truthy addr = true →
  getNodeID net addr = Val (Some id) ↔
  ∃ node, abs net !! id = Some node ∧ getAddr node = addr.
Proof.
  intros Hinj Haddr. unfold abs. setoid_rewrite obj_map_lookup. split.
  - intros E. apply (getNodeID_Val _ _ _ E).
  - intros (node & Hnode & Hnaddr).
    destruct (getNodeID net addr) as [found|] eqn:E;
      [|by unfold getNodeID in E; rewrite Haddr in E].
    pose proof (getNodeID_Val _ _ _ E) as Hfound. destruct found as [id'|].
    + destruct Hfound as (node' & Hnode' & Haddr'). do 2 f_equal.
      eapply Hinj; unfold abs; rewrite ?obj_map_lookup; [done..|congruence].
    + by destruct (Hfound _ _ Hnode).
Qed.

End registry_spec.

(** ** Generated identifiers *)

Section spec_identifiers.
Context `{NodeLib Extra Node} `{!DecimalLaws}.
Implicit Types (net : BMNet Node) (base : string).

Lemma net_equiv_keys net1 net2 (k : string) :
  net_equiv net1 net2 → k ∈ obj_keys (bmnodes net1) ↔ k ∈ obj_keys (bmnodes net2).
Proof. intros [_ E]. by rewrite !elem_of_obj_keys, E. Qed.

Lemma numbered_equiv base net1 net2 (z : Z) :
  net_equiv net1 net2 →
  numbered base (obj_keys (bmnodes net1)) z ↔ numbered base (obj_keys (bmnodes net2)) z.
Proof. intros E. unfold numbered. by setoid_rewrite (net_equiv_keys net1 net2 _ E). Qed.

Lemma agreeing_equiv base net1 net2 :
  net_equiv net1 net2 →
  agreeing base (obj_keys (bmnodes net1)) → agreeing base (obj_keys (bmnodes net2)).
Proof. intros E Hc t Ht. apply Hc. by rewrite (net_equiv_keys net1 net2 _ E). Qed.

(** When the comparison and [parseInt] agree on the identifiers in
    use and the numbers are below 2^53, the identifier that [_generateID]
    makes is a function of the map: registries with the same nodes under
    the same identifiers, in whatever order, get the same new
    identifier. *)
Theorem _generateID_abs net1 net2 base :
  net_equiv net1 net2 → agreeing (base_or_N base) (obj_keys (bmnodes net1)) →
  in_range (2 ^ 53) (base_or_N base) (obj_keys (bmnodes net1)) →
  _generateID net1 base = _generateID net2 base.
Proof.
  intros E Hc1 Hr1. pose proof (agreeing_equiv _ _ _ E Hc1) as Hc2.
  assert (in_range (2 ^ 53) (base_or_N base) (obj_keys (bmnodes net2))) as Hr2
    by (intros z Hz; by apply Hr1, (numbered_equiv _ _ _ _ E)).
  destruct (_generateID_spec _ _ Hc1 Hr1) as (n1 & -> & _ & Hn1).
  destruct (_generateID_spec _ _ Hc2 Hr2) as (n2 & -> & _ & Hn2).
  f_equal. f_equal. eapply next_number_unique; [|done..].
  intros z. by apply numbered_equiv.
Qed.

End spec_identifiers.

(** ** Examples *)

Section registry_spec_examples.
#[local] Existing Instance plain_lib.
#[local] Existing Instance plain_laws.

(** The calls of the example: a temporary node is added, the node
    [alice] is removed, and a removal of [bob], which is no node, throws. *)
Definition example_calls : list (Call string * Answer) :=
  [ (AddBMNode (mkNodeData EmptyString "addrC") MODE_TMP,
     Returned (Some (mkNodeRef "TMP1" "addrC")));
    (RemoveBMNode "alice", Returned None);
    (RemoveBMNode "bob", Threw (Thrown "ERR: Invalid ID")) ].

Lemma example_calls_run : runs does example_net example_calls example_removed.
Proof. repeat (eapply runs_cons; [reflexivity|]). apply runs_nil. Qed.

Lemma registry_refines_witness :
  runs spec_does ∅ ((LoadBMNet (Val example_files), Returned None) :: example_calls)
    (abs example_removed).
Proof.
  exact (registry_refines (Some example_bm) (Val example_files) example_net example_calls
           example_removed example_net_loaded example_calls_run).
Defined.

Lemma example_net_addresses_differ : addresses_differ (abs example_net).
Proof.
  intros id1 id2 n1 n2. unfold abs. rewrite !obj_map_lookup.
  by intros [[-> ->]|[-> ->]]%example_net_nodes [[-> ->]|[-> ->]]%example_net_nodes.
Qed.

Lemma getNodeID_abs_witness : getNodeID example_net "addrB" = Val (Some "N1").
Proof.
  apply (getNodeID_abs example_net "addrB" "N1" example_net_addresses_differ eq_refl).
  by exists (mkPlainNode "N1" "addrB").
Defined.

(** Two nodes with one address, stored in the one and in the other order:
    the registries stand for the same map, and [getNodeID] returns the
    identifier that was stored first. *)
Definition example_shared : BMNet PlainNode :=
  mkBMNet example_bm [("a", mkPlainNode "a" "addrX"); ("b", mkPlainNode "b" "addrX")].

Definition example_shared_swapped : BMNet PlainNode :=
  mkBMNet example_bm [("b", mkPlainNode "b" "addrX"); ("a", mkPlainNode "a" "addrX")].

(** An identifier that is an array index comes first in the loop, whenever
    it was stored. *)
Definition example_shared_index : BMNet PlainNode :=
  mkBMNet example_bm [("b", mkPlainNode "b" "addrX"); ("7", mkPlainNode "7" "addrX")].

(** [getNodeID] sees the order of the keys, which the map forgets:
    when two nodes have the same address it returns the identifier that
    the loop over the registry visits first. *)
Theorem getNodeID_sees_order :
  net_equiv example_shared example_shared_swapped ∧
  getNodeID example_shared "addrX" = Val (Some "a") ∧
  getNodeID example_shared_swapped "addrX" = Val (Some "b") ∧
  getNodeID example_shared_index "addrX" = Val (Some "7").
Proof.
  split_and!; [|done..]. split; [done|]. apply obj_equiv_lookup. intros k. cbn.
  repeat case_decide; congruence.
Qed.

Lemma _generateID_abs_witness :
  _generateID example_net EmptyString =
  _generateID (mkBMNet example_bm (reverse (bmnodes example_net))) EmptyString.
Proof.
  apply _generateID_abs; [|apply plain_agreeing|].
  - split; [done|]. apply obj_equiv_lookup. intros k. cbn. repeat case_decide; congruence.
  - by intros z ->%example_net_numbered.
Defined.

(** Under [loose_lib], where the comparison reads [1e3] as 1000 and
    [parseInt] reads 1, the new identifier depends on the order of the
    keys. *)
Example _generateID_sees_order :
  let o := [("N2", mkPlainNode "N2" "addrA"); ("N1e3", mkPlainNode "N1e3" "addrB")] in
  _generateID (H := loose_lib) (mkBMNet example_bm o) EmptyString = "N2" ∧
  _generateID (H := loose_lib) (mkBMNet example_bm (reverse o)) EmptyString = "N3".
Proof. done. Qed.

End registry_spec_examples.
